(* ===== verification/_CoqProject ===== *)
-Q . S2P
Prelude.v
Libs.v
Samples.v
Utils.v
Store.v
Dag.v
Paths.v
NetConfig.v
Discovery.v
Metrics.v
Codec.v
Protocols.v
ProtocolSamples.v
Behaviour.v
Advertisement.v
SignedHead.v
IndexLibs.v
IndexSamples.v
Provider.v
Transport.v
Service.v
ServiceHistory.v
Frame.v
ServiceSamples.v
Requests.v
ServiceProps.v
Api.v
Node.v
Runs.v
Events.v
Publication.v
Transfer.v
Download.v
Sync.v
NetworkTests.v
CrateTests.v
Exchange.v
Identity.v
Cli.v
Gateway.v
MetricsService.v
Process.v
Main.v
