(* ===== verification/Prelude.v ===== *)
(** * The Ursa node: a verification development

    Ursa is a content node: it keeps blocks addressed by the hash of their
    content, exchanges them with other nodes over bitswap, serves them over
    HTTP and JSON-RPC, and announces the content it holds to an indexer.  This
    library models the crates under [src/crates/] in Rocq and proves what makes
    them correct, and where they are not, says so.

    ** How the program fits together, and which file models what

    - [ursa-store] keeps blocks in a key-value store.  [Store] models
      [ursa-store/src/store.rs]: the bitswap side of the store, the search for
      missing blocks and the traversal of a DAG; [Dag] compares the two searches;
      [Utils] models [convert_cid] of [ursa-utils/src/lib.rs].
    - [ursa-network] runs the peer-to-peer side.  [NetConfig] models [config.rs]
      and the parameters of [gossipsub.rs]; [Discovery] models [discovery.rs];
      [Codec] models [codec/protocol.rs]; [Behaviour] models [behaviour.rs], the
      combination of all protocols, whose handlers turn library events into a
      queue of events; [Transport] models [transport.rs]; [Service] models
      [service.rs], which owns the behaviour, takes its events and the commands of
      the API one at a time, and drives the store and the index provider.
      [ServiceHistory], [Frame] and [Requests] hold what a round can do and the
      invariants of its rounds.
    - [ursa-index-provider] publishes what the node has.  [Advertisement] models
      [advertisement.rs], [SignedHead] models [signed_head.rs], [Provider] models
      [provider.rs] and [config.rs].
    - [ursa-metrics] counts.  [Metrics] models [events.rs] and [middleware.rs],
      [MetricsService] what [metrics.rs] serves.
    - [ursa-rpc-server] and [ursa-rpc-client] are the API.  [Api] models
      [api.rs], the HTTP handlers, the JSON-RPC handlers, the multiplexer that
      tells the two apart, the start of the server, and the client.
    - [ursa] is the binary.  [Paths] models the path operations of the standard
      library it uses, [Identity] models [ursa/identity.rs], and [Cli] models
      [config.rs], the command line ([ursa/mod.rs], [ursa/rpc_commands.rs]), the
      configuration of the metrics service and the choices of [main.rs].  [Main]
      puts the services together as [main.rs] does, and [Process] models the tasks,
      the wait for a signal and the shutdown.  [Gateway] models the start
      of [ursa-gateway].

    [Node] puts the parts together: a node is a network service, the channel of
    commands to it and the files of the server; a schedule says what happens
    next, a round of the service, a command of a client, or a step of a library.
    When a round fails the service is gone, with the requests that wait and the
    channel of events; commands that are queued stay in their channel, unread.
    The server reaches the service through the class [Api.NodeEnv], which the
    theorems on the handlers assume and the instance [node_env] provides: its
    operations send a command on the channel, run the schedule until the answer
    comes, and its law is proved of the service.  [Runs] and [Events] hold what is
    true along a schedule.  [Publication], [Transfer], [Download], [Sync] and
    [Exchange] hold the theorems that go through several parts, or two nodes.

    The unit tests of the repository are modelled too: [NetworkTests] those of
    [service.rs] and [codec/protocol.rs], [CrateTests] those of the other crates.  A
    test is a run of the model, from the set-up that the test makes to its
    assertions; what happens to the nodes it starts, in its pauses and while it
    waits, is a schedule it gets as an argument.

    Each file has one Definition per function, in the order of the source, with
    the name it has there where the name is free.  A Rust struct is a Record, an
    enum an Inductive, a [HashMap] a [gmap], a [HashSet] a [gset], a [VecDeque] a
    list with [push_back] and [pop_front].  A fallible call returns an
    [outcome]: a value, an error or a panic ([unwrap], [expect], an index out of
    range, [todo!]).  Stateful code is in [stM], a state monad that keeps the
    state across errors and panics, so that what an early return leaves behind
    is part of every statement; handlers with loops whose end depends on the
    outside are in [runM], where [None] is a run not yet at its end.

    ** Libraries

    Code that is not in the repository is never defined.  [Libs], [Protocols],
    [IndexLibs] and classes in [Codec], [Transport], [Service], [Node], [Identity], [Cli],
    [Gateway], [MetricsService], [Main] and [NetworkTests] list, as type classes, the types and
    functions of the libraries that the sources call, with the
    documented laws the proofs use: a multiaddress is a sequence of components,
    a key-value store returns what was written, query identifiers are not
    reused, a signature made with a key verifies under it, an encoder's output
    decodes, content hashes do not collide.  [Samples], [ProtocolSamples],
    [IndexSamples] and [ServiceSamples] build concrete instances of all of them,
    on which the witnesses of the theorems evaluate.

    ** What is proved

    - The store ([Store]): an inserted block is read back; the search for
      missing blocks lists exactly the missing ones; the traversal ends within a
      bound for every order of the hash set, returns the whole DAG once, and
      fails when a block is missing.  The two searches agree and the order of the
      hash set does not matter ([Dag]), but the search for missing blocks takes
      exponential time.
    - Discovery and the behaviour: by induction over every history of calls and
      library events, the connection events tell the set of peers, every request
      is answered once, every bitswap query ends once.
    - The service ([ServiceHistory], [ServiceProps]): over every history of
      events and commands no sender of a block request is lost or answered
      twice, whoever waits is waiting for something that runs, and the gauge of
      peers tells their number; the maps of queries, requests and channels are well
      formed ([Requests]); what a finished query, [Index], the relay and
      the publication of a root do on every branch.
    - The node ([Node]): the life of a block request refines a machine of five
      phases at every step (queued, waiting, answered, dropped, or stranded in the
      channel of a service that has ended), whatever happens besides; it has
      its answer once nothing is left to be done for it, and one that is told that
      the block was found finds it in the store.
    - Publication ([Publication]): on a node whose libraries do not fail, an
      uploaded CAR file is published: an indexer finds behind the signed head one
      advertisement per root that lists exactly the blocks under it, at once or, on
      a node that is not public yet, once autonat reports an address.
    - Transfer ([Transfer], [Download], [Exchange]): a CAR file posted over HTTP is
      served back with the same blocks; a DAG that the node does not hold is fetched
      through bitswap and served whole, and when the query fails half-way the request
      is answered with success and the download panics; a file written by one node and read by
      another carries the DAG over; a request of the exchange protocol arrives as it was sent and
      is never answered.
    - Schedules ([Sync], [Events]): whatever order things happen in, a
      synchronization that succeeds has brought the whole DAG, if those of bitswap
      succeed only when nothing is missing, unless a query of [get] or one that
      failed has answered it; every event the application is told was raised by
      a library, at a certain point of the run, just so.
    - The tests ([NetworkTests], [CrateTests]): no test that sets up two nodes
      passes, as both open one database; the test of mDNS is the test of
      discovery; at most one test of a process passes; the tests of the provider
      and of the stream pass when the libraries do not fail.
    - The index provider: whatever calls are made, the chain behind the head is
      what was published since the last failure, signed and readable; chunks are
      read back; an indexer that follows the HTTP endpoints gets what was
      published.
    - Codecs: messages, signed heads and keys survive a round trip, and what
      malformed input does.
    - The API and the binary ([Api], [Identity], [Cli], [Main]): a block request that
      succeeds returns the block; what the HTTP and JSON-RPC handlers do when it
      fails; results survive the way to the client; a node keeps its key, its
      peer and its configuration over restarts.
    - What the code does that it should not: theorems that state it as it is,
      for instance [other_query_answers], [publish_failure_loses_head],
      [incomplete_car_stops_node], [missing_blocks_exponential],
      [get_breaks_download], [request_never_answered], [failed_sync_succeeds],
      [mdns_test_is_discovery_test], [two_node_tests_fail], [one_test_per_process],
      [close_ignores_remaining], [get_handler_panics], [identity_names_collide].

    ** Bounds and fuel

    [missing_blocks], [dag_traversal], the waits and the poll loops take fuel or
    the list of what the outside provides.  [dag_traversal_terminates] shows
    that [dag_fuel D] is enough for a finite set [D] of identifiers closed under
    links, [missing_blocks_exact] that some fuel is enough when links are
    well-founded, [poll_terminates] that the events pending bound the loops of
    [Discovery.poll], [bitswap_wait_ends_iff] when the wait for a block ends.
    A request of [Node] waits as long as the schedule lasts, and so does a test.
    [slice.chunks] has the length of the slice as fuel ([chunks_concat]).

    ** What is not modelled

    Build scripts, benches, and everything the libraries do: sockets, databases,
    encryption, the swarm and its protocols, the scheduling of tasks.  Log output is left out.  The order
    in which a hash set yields its elements is a parameter where one element is
    taken ([HashIter]); where all peers are passed to bitswap it is that of
    [elements].  Timeouts do not appear: a theorem about a history or a schedule
    holds for every order in which events and commands come. *)

From Stdlib Require Export Strings.Byte.
From Stdlib Require Import NArith Lia.
From stdpp Require Export base tactics gmap sets strings numbers list.

(** ** Bytes *)

(** [Vec<u8>] and [&[u8]] values. *)
Abbreviation bytes := (list byte).

#[export] Instance byte_eq_dec : EqDecision byte := Byte.byte_eq_dec.

#[export] Program Instance byte_countable : Countable byte := {|
  encode b := encode (Byte.to_N b);
  decode p := decode p ≫= Byte.of_N
|}.
Next Obligation.
  intros b. cbn beta. by rewrite decode_encode; simpl; rewrite Byte.of_to_N.
Qed.

(** The bytes of a Rust string ([as_bytes], a byte string literal). *)
Definition as_bytes (s : string) : bytes :=
  String.list_byte_of_string s.

Lemma as_bytes_inj s t : as_bytes s = as_bytes t → s = t.
Proof.
  intros H. rewrite <- (String.string_of_list_byte_of_string s),
    <- (String.string_of_list_byte_of_string t).
  unfold as_bytes in H. by rewrite H.
Qed.

(** [slice.starts_with(prefix)]. *)
Definition starts_with (prefix l : bytes) : bool :=
  bool_decide (take (length prefix) l = prefix).

Lemma starts_with_app prefix l : starts_with prefix (prefix ++ l) = true.
Proof.
  unfold starts_with. apply bool_decide_eq_true. by rewrite take_app_length.
Qed.

(** ** Results, panics and state *)

(** What a Rust call leaves behind: a value, an error returned to the caller,
    or a panic of the running task ([unwrap], [expect], an index out of
    range, [todo!]).  Errors of [anyhow] are identified with their message. *)
Inductive outcome (E A : Type) : Type :=
| Ok (a : A)
| Err (e : E)
| Panic.
Arguments Ok {E A} a.
Arguments Err {E A} e.
Arguments Panic {E A}.

Definition is_ok {E A} (o : outcome E A) : bool :=
  match o with Ok _ => true | _ => false end.

#[export] Instance outcome_ret {E} : MRet (outcome E) := λ A a, Ok a.
#[export] Instance outcome_bind {E} : MBind (outcome E) := λ A B f o,
  match o with
  | Ok a => f a
  | Err e => Err e
  | Panic => Panic
  end.
#[export] Instance outcome_fmap {E} : FMap (outcome E) := λ A B f o,
  match o with
  | Ok a => Ok (f a)
  | Err e => Err e
  | Panic => Panic
  end.

(** [result.unwrap()] and [option.unwrap()]. *)
Definition unwrap {E F A} (o : outcome E A) : outcome F A :=
  match o with Ok a => Ok a | _ => Panic end.
Definition unwrap_opt {E A} (o : option A) : outcome E A :=
  match o with Some a => Ok a | None => Panic end.

(** [result.map_err(f)]. *)
Definition map_err {E F A} (f : E → F) (o : outcome E A) : outcome F A :=
  match o with Ok a => Ok a | Err e => Err (f e) | Panic => Panic end.

(** [option.ok_or(e)]. *)
Definition ok_or {E A} (e : E) (o : option A) : outcome E A :=
  match o with Some a => Ok a | None => Err e end.

(** A computation over a state that survives errors and panics: what an early
    return or a panic leaves in shared storage is part of the result. *)
Definition stM (S E A : Type) : Type := S → outcome E A * S.

#[export] Instance stM_ret {S E} : MRet (stM S E) := λ A a s, (Ok a, s).
#[export] Instance stM_bind {S E} : MBind (stM S E) := λ A B f m s,
  match m s with
  | (Ok a, s') => f a s'
  | (Err e, s') => (Err e, s')
  | (Panic, s') => (Panic, s')
  end.

Definition st_get {S E} : stM S E S := λ s, (Ok s, s).
Definition st_gets {S E A} (f : S → A) : stM S E A := λ s, (Ok (f s), s).
Definition st_modify {S E} (f : S → S) : stM S E unit := λ s, (Ok tt, f s).
Definition st_lift {S E A} (o : outcome E A) : stM S E A := λ s, (o, s).
Definition st_query {S E A} (f : S → outcome E A) : stM S E A := λ s, (f s, s).
Definition st_throw {S E A} (e : E) : stM S E A := λ s, (Err e, s).
Definition st_panic {S E A} : stM S E A := λ s, (Panic, s).

(** Runs a computation on one field of a larger state. *)
Definition st_zoom {S T E A} (get : S → T) (put : T → S → S)
    (m : stM T E A) : stM S E A := λ s,
  let '(o, t) := m (get s) in (o, put t s).

(** Runs a computation and hands its outcome back, a panic excepted:
    [match call().await { Ok .. , Err .. }]. *)
Definition st_try {S E F A} (m : stM S E A) : stM S F (outcome E A) := λ s,
  match m s with
  | (Panic, s') => (Panic, s')
  | (o, s') => (Ok o, s')
  end.

(** [call().await.unwrap()]. *)
Definition st_unwrap {S E F A} (m : stM S E A) : stM S F A := λ s,
  let '(o, s') := m s in (unwrap o, s').

(** Changes the error of a computation, [map_err]. *)
Definition st_map_err {S E F A} (f : E → F) (m : stM S E A) : stM S F A := λ s,
  let '(o, s') := m s in (map_err f o, s').

(** [for x in l { body }]. *)
Fixpoint st_for {S E A} (l : list A) (body : A → stM S E unit) : stM S E unit :=
  match l with
  | [] => mret tt
  | x :: l => _ ← body x; st_for l body
  end.

(** ** Running monadic code *)

Section run.
  Context {S E : Type}.

Lemma st_bind_ok {A B} (m : stM S E A) (k : A → stM S E B) s a s' :
  m s = (Ok a, s') → (m ≫= k) s = k a s'.
Proof. intros H. unfold mbind, stM_bind. by rewrite H. Qed.

Lemma st_bind_err {A B} (m : stM S E A) (k : A → stM S E B) s e s' :
  m s = (Err e, s') → (m ≫= k) s = (Err e, s').
Proof. intros H. unfold mbind, stM_bind. by rewrite H. Qed.

Lemma st_bind_panic {A B} (m : stM S E A) (k : A → stM S E B) s s' :
  m s = (Panic, s') → (m ≫= k) s = (Panic, s').
Proof. intros H. unfold mbind, stM_bind. by rewrite H. Qed.

(** A successful sequence is a success of both parts. *)
Lemma st_bind_inv_ok {A B} (m : stM S E A) (k : A → stM S E B) s b s'' :
  (m ≫= k) s = (Ok b, s'') →
  ∃ a s', m s = (Ok a, s') ∧ k a s' = (Ok b, s'').
Proof.
  unfold mbind, stM_bind. destruct (m s) as [[a|e|] s'] eqn:Hm; naive_solver.
Qed.

Lemma st_ret_inv {A} (a b : A) (s s' : S) :
  (mret a : stM S E A) s = (Ok b, s') → a = b ∧ s = s'.
Proof. by intros [= -> ->]. Qed.

(** An invariant that every body keeps is kept by the loop, however it ends. *)
Lemma st_for_invariant {A} (I : S → Prop) (l : list A)
    (body : A → stM S E unit) s :
  I s → (∀ x s, x ∈ l → I s → I (body x s).2) → I (st_for l body s).2.
Proof.
  revert s. induction l as [|x l IH]; intros s Hs Hb; [done|].
  simpl. unfold mbind, stM_bind.
  pose proof (Hb x s ltac:(set_solver) Hs) as Hx.
  destruct (body x s) as [[[]|e|] s']; simpl in *; [|done|done].
  apply IH; [done|]. intros y s0 Hy. apply Hb. set_solver.
Qed.

(** A loop all of whose bodies succeed is a fold. *)
Lemma st_for_fold {A} (f : A → S → S) (l : list A)
    (body : A → stM S E unit) s :
  (∀ x s, x ∈ l → body x s = (Ok tt, f x s)) →
  st_for l body s = (Ok tt, foldl (λ s x, f x s) s l).
Proof.
  revert s. induction l as [|x l IH]; intros s Hb; [done|].
  simpl. rewrite (st_bind_ok _ _ _ tt (f x s)); [|apply Hb; set_solver].
  apply IH. intros y s0 Hy. apply Hb. set_solver.
Qed.

(** A run whose outcome evaluates to success. *)
Lemma st_is_ok (m : stM S E unit) s : is_ok (m s).1 = true → m s = (Ok tt, (m s).2).
Proof. by destruct (m s) as [[[]| |] s']. Qed.
End run.

Lemma unwrap_ok_inv {E F A} (o : outcome E A) (a : A) :
  unwrap (F:=F) o = Ok a → o = Ok a.
Proof. by destruct o; intros [= ->]. Qed.

Lemma some_default {A} (o : option A) a :
  match o with Some _ => true | None => false end = true → o = Some (default a o).
Proof. by destruct o. Qed.

Lemma is_ok_inv {E A} (o : outcome E A) : is_ok o = true → ∃ a, o = Ok a.
Proof. destruct o; naive_solver. Qed.

Lemma bind_inv_ok {E A B} (m : outcome E A) (k : A → outcome E B) b :
  m ≫= k = Ok b → ∃ a, m = Ok a ∧ k a = Ok b.
Proof. destruct m; naive_solver. Qed.

(** ** Computations that may still be running

    A handler with a loop whose end depends on the outside (a busy wait, a
    traversal of stored data): [None] is a run that the given fuel does not see
    to its end. *)
Definition runM (S E A : Type) : Type := S → option (outcome E A * S).

#[export] Instance runM_ret {S E} : MRet (runM S E) := λ A a s, Some (Ok a, s).
#[export] Instance runM_bind {S E} : MBind (runM S E) := λ A B f m s,
  match m s with
  | Some (Ok a, s') => f a s'
  | Some (Err e, s') => Some (Err e, s')
  | Some (Panic, s') => Some (Panic, s')
  | None => None
  end.

Definition run {S E A} (m : stM S E A) : runM S E A := λ s, Some (m s).
Definition run_opt {S E A} (o : option (outcome E A)) : runM S E A := λ s,
  o ← o; Some (o, s).

Definition run_map_err {S E F A} (f : E → F) (m : runM S E A) : runM S F A := λ s,
  '(o, s') ← m s; Some (map_err f o, s').

(** Runs a computation and hands its outcome back, a panic excepted. *)
Definition run_try {S E F A} (m : runM S E A) : runM S F (outcome E A) := λ s,
  match m s with
  | Some (Panic, s') => Some (Panic, s')
  | Some (o, s') => Some (Ok o, s')
  | None => None
  end.

Section runM.
  Context {S E : Type}.

Lemma runM_bind_inv {A B} (m : runM S E A) (k : A → runM S E B) s o s'' :
  (m ≫= k) s = Some (o, s'') →
  (∃ a s', m s = Some (Ok a, s') ∧ k a s' = Some (o, s'')) ∨
  (∃ x, m s = Some (x, s'') ∧ is_ok x = false ∧ is_ok o = false).
Proof.
  unfold mbind, runM_bind. destruct (m s) as [[[a|e|] s']|]; intros H;
    simplify_eq/=; [by eauto| |].
  - right. by exists (Err e).
  - right. by exists Panic.
Qed.

Lemma runM_bind_ok {A B} (m : runM S E A) (k : A → runM S E B) s a s' :
  m s = Some (Ok a, s') → (m ≫= k) s = k a s'.
Proof. intros H. unfold mbind, runM_bind. by rewrite H. Qed.

Lemma runM_bind_inv_ok {A B} (m : runM S E A) (k : A → runM S E B) s b s'' :
  (m ≫= k) s = Some (Ok b, s'') →
  ∃ a s', m s = Some (Ok a, s') ∧ k a s' = Some (Ok b, s'').
Proof. intros [?|(x & _ & _ & ?)]%runM_bind_inv; [done|discriminate]. Qed.

(** The state a run ends in, and a run that evaluates to success. *)
Definition final {A} (m : runM S E A) (s : S) : S :=
  match m s with Some (_, s') => s' | None => s end.

Lemma runM_is_ok (m : runM S E unit) s :
  match m s with Some (o, _) => is_ok o | None => false end = true →
  m s = Some (Ok tt, final m s).
Proof. unfold final. by destruct (m s) as [[[[]| |] s']|]. Qed.

(** What every computation of a sequence preserves, the sequence preserves,
    wherever it ends. *)
Definition preserves (R : S → S → Prop) {A} (m : runM S E A) : Prop :=
  ∀ s o s', m s = Some (o, s') → R s s'.

Lemma preserves_bind (R : S → S → Prop) `{!Transitive R} {A B}
    (m : runM S E A) (k : A → runM S E B) :
  preserves R m → (∀ a, preserves R (k a)) → preserves R (m ≫= k).
Proof.
  intros Hm Hk s o s'' [(a & s' & Ha & Hb)|(x & Hx & _)]%runM_bind_inv.
  - etrans; [by eapply Hm|by eapply Hk].
  - by eapply Hm.
Qed.

Lemma preserves_ret (R : S → S → Prop) `{!Reflexive R} {A} (a : A) :
  preserves R (mret a : runM S E A).
Proof. by intros s o s' [= _ <-]. Qed.
End runM.

(** ** Queues and slices *)

(** [VecDeque]: [push_back] appends, [pop_front] takes the head. *)
Definition push_back {A} (x : A) (q : list A) : list A := q ++ [x].
Definition pop_front {A} (q : list A) : option (A * list A) :=
  match q with [] => None | x :: q => Some (x, q) end.

(** [slice.chunks(n)]: pieces of [n] elements in order, the last one maybe
    shorter.  The length of the slice is fuel enough ([chunks_concat]). *)
Fixpoint chunks_go {A} (fuel n : nat) (l : list A) : list (list A) :=
  match fuel, l with
  | _, [] => []
  | O, _ => []
  | S fuel, _ => take n l :: chunks_go fuel n (drop n l)
  end.
Definition chunks {A} (n : nat) (l : list A) : list (list A) :=
  chunks_go (length l) n l.

Lemma chunks_go_concat {A} fuel n (l : list A) :
  0 < n → length l ≤ fuel → concat (chunks_go fuel n l) = l.
Proof.
  intros Hn. revert l. induction fuel as [|fuel IH]; intros [|x l] Hl;
    simpl in *; try done; [lia|].
  rewrite IH; [|rewrite length_drop; simpl; lia].
  apply take_drop.
Qed.

Lemma elem_of_concat {A} (x : A) ls : x ∈ concat ls ↔ ∃ l, l ∈ ls ∧ x ∈ l.
Proof. induction ls as [|l ls IH]; simpl; set_solver. Qed.

Lemma chunks_concat {A} n (l : list A) : 0 < n → concat (chunks n l) = l.
Proof. intros Hn. by apply chunks_go_concat. Qed.

Lemma chunks_go_bound {A} fuel n (l c : list A) :
  0 < n → c ∈ chunks_go fuel n l → 0 < length c ≤ n.
Proof.
  intros Hn. revert l. induction fuel as [|fuel IH]; intros [|x l] Hc;
    simpl in Hc; try (by apply not_elem_of_nil in Hc).
  apply elem_of_cons in Hc as [->|Hc]; [|by eapply IH].
  rewrite length_take. simpl. lia.
Qed.

Lemma chunks_bound {A} n (l c : list A) :
  0 < n → c ∈ chunks n l → 0 < length c ≤ n.
Proof. apply chunks_go_bound. Qed.

(** ** Relations *)

(** A property closed under the steps holds of everything reachable. *)
Lemma rtc_closed {A} (R : relation A) (P : A → Prop) a b :
  rtc R a b → P a → (∀ x y, P x → R x y → P y) → P b.
Proof. intros Hrt Ha HP. induction Hrt; eauto. Qed.

(** ** Automation *)

Create HintDb ursa.
Create Rewrite HintDb ursa_rw.
#[export] Hint Rewrite @chunks_concat using lia : ursa_rw.
#[export] Hint Resolve chunks_bound starts_with_app : ursa.

(** Splits the monadic sequence of a hypothesis that ends in [Ok]. *)
Ltac inv_bind :=
  repeat match goal with
  | H : (_ ≫= _) _ = (Ok _, _) |- _ =>
      let a := fresh "a" in let s := fresh "s" in
      apply st_bind_inv_ok in H as (a & s & ? & H)
  | H : _ ≫= _ = Ok _ |- _ =>
      let a := fresh "a" in apply bind_inv_ok in H as (a & ? & H)
  | H : (_ ≫= _) _ = Some (Ok _, _) |- _ =>
      let a := fresh "a" in let s := fresh "s" in
      apply runM_bind_inv_ok in H as (a & s & ? & H)
  | H : mret _ _ = (Ok _, _) |- _ => apply st_ret_inv in H as [? ?]; subst
  end.

(** Unfolds the state monad's operations, to compute through a handler. *)
Ltac st_unfold :=
  unfold mbind, mret, stM_bind, stM_ret, st_get, st_gets, st_modify, st_lift,
    st_throw, st_panic, st_zoom, st_try, st_unwrap in *; simpl in *.

Ltac run_unfold :=
  unfold mbind, mret, runM_bind, runM_ret, run, run_opt in *; st_unfold.

(** Case analysis on whatever a [match] of the goal or a hypothesis inspects. *)
Ltac case_match_eq :=
  match goal with
  | |- context [match ?x with _ => _ end] => destruct x eqn:?
  | H : context [match ?x with _ => _ end] |- _ => destruct x eqn:?
  end.
