(* ===== verification/Libs.v ===== *)
(** Interfaces of the libraries the sources call.

    None of this code is in the repository, so each class lists the types and
    functions of a library that the sources use and, as fields, the documented
    laws the proofs rely on.  Everything else about them is left open; the
    file Samples builds a concrete instance of every class. *)

From S2P Require Import Prelude.

(** ** [cid]: content identifiers

    The crates of the workspace link several versions of the [cid] crate; they
    read and write one binary format, and one type stands for all of them. *)
Class CidLib := {
  Cid : Type;
  #[global] Cid_eq_dec :: EqDecision Cid;
  #[global] Cid_countable :: Countable Cid;
  cid_to_bytes : Cid → bytes;
  cid_try_from : bytes → option Cid;
  (** [Display], [Debug] and [FromStr]. *)
  cid_to_string : Cid → string;
  cid_debug : Cid → string;
  cid_from_str : string → outcome string Cid;
  (** [cid.hash().to_bytes()] *)
  cid_hash_bytes : Cid → bytes;
  cid_try_from_to_bytes : ∀ c, cid_try_from (cid_to_bytes c) = Some c;
  cid_from_str_to_string : ∀ c, cid_from_str (cid_to_string c) = Ok c;
}.

(** ** [db::Store] and [ipld_blockstore::BlockStore]: a key-value store

    [exists], [read] and [write] work on raw keys; [get] and [has] take the
    key from the bytes of a [Cid]. *)
Class BlockStore `{CidLib} (S : Type) := {
  bs_read : S → bytes → outcome string (option bytes);
  bs_exists : S → bytes → outcome string bool;
  bs_write : bytes → bytes → stM S string unit;
  bs_get : S → Cid → outcome string (option bytes);
  bs_has : S → Cid → outcome string bool;
  bs_exists_read : ∀ s k o, bs_read s k = Ok o →
    bs_exists s k = Ok (bool_decide (is_Some o));
  bs_get_read : ∀ s c, bs_get s c = bs_read s (cid_to_bytes c);
  bs_has_exists : ∀ s c, bs_has s c = bs_exists s (cid_to_bytes c);
  bs_write_same : ∀ s k v s', bs_write k v s = (Ok tt, s') →
    bs_read s' k = Ok (Some v);
  bs_write_other : ∀ s k v o s' k', bs_write k v s = (o, s') → k' ≠ k →
    bs_read s' k' = bs_read s k';
}.

(** ** [libipld::Block] *)
Class IpldLib `{CidLib} := {
  (** [Block::new(cid, data)]: the data is within the size limit and hashes to
      the identifier. *)
  block_new : Cid → bytes → bool;
  (** [block.references(..)]: the links in the block's data, in order. *)
  references : Cid → bytes → outcome string (list Cid);
}.

(** ** Iteration over a hash set

    [set.iter().next()] yields some element of a non-empty set; which one
    depends on the set's history, so the choice is indexed. *)
Class HashIter (A : Type) `{Countable A} := {
  hash_first : nat → gset A → option A;
  hash_first_none : ∀ n s, hash_first n s = None → s = ∅;
  hash_first_some : ∀ n s a, hash_first n s = Some a → a ∈ s;
}.

(** ** [libp2p]: peers and addresses *)

Class NetLib := {
  PeerId : Type;
  #[global] PeerId_eq_dec :: EqDecision PeerId;
  #[global] PeerId_countable :: Countable PeerId;
  Multihash : Type;
  (** [PeerId::from_multihash] and [Multihash::from]. *)
  peer_from_multihash : Multihash → option PeerId;
  peer_multihash : PeerId → Multihash;
  peer_to_base58 : PeerId → string;
  peer_to_string : PeerId → string;
  peer_from_multihash_into : ∀ p, peer_from_multihash (peer_multihash p) = Some p;
  peer_into_multihash : ∀ mh p, peer_from_multihash mh = Some p → peer_multihash p = mh;
}.

(** The components of a multiaddress the sources name. *)
Inductive Protocol `{NetLib} : Type :=
| Ip4 (ip : N)
| Ip6 (ip : N)
| Tcp (port : N)
| P2p (mh : Multihash)
| P2pCircuit
| OtherProtocol (code : N) (payload : bytes).

(** A multiaddress is a sequence of components: [iter] lists them, [push] (and
    [with]) appends one, [pop] takes the last one off. *)
Class MultiaddrLib `{NetLib} := {
  Multiaddr : Type;
  ma_iter : Multiaddr → list Protocol;
  ma_empty : Multiaddr;
  ma_push : Multiaddr → Protocol → Multiaddr;
  ma_pop : Multiaddr → option Protocol * Multiaddr;
  ma_to_string : Multiaddr → string;
  ma_from_str : string → outcome string Multiaddr;
  ma_ext : ∀ m m', ma_iter m = ma_iter m' → m = m';
  ma_iter_empty : ma_iter ma_empty = [];
  ma_iter_push : ∀ m p, ma_iter (ma_push m p) = ma_iter m ++ [p];
  ma_pop_none : ∀ m m', ma_pop m = (None, m') → ma_iter m = [] ∧ m' = m;
  ma_pop_some : ∀ m p m', ma_pop m = (Some p, m') → ma_iter m = ma_iter m' ++ [p];
}.

Lemma ma_pop_push `{MultiaddrLib} m p : ma_pop (ma_push m p) = (Some p, m).
Proof.
  destruct (ma_pop (ma_push m p)) as [[q|] m'] eqn:Hpop.
  - apply ma_pop_some in Hpop. rewrite ma_iter_push in Hpop.
    apply app_inj_tail in Hpop as [Hm ->]. f_equal. by apply ma_ext.
  - apply ma_pop_none in Hpop as [Hm _]. rewrite ma_iter_push in Hm.
    by destruct (ma_iter m).
Qed.

Lemma ma_push_pop `{MultiaddrLib} m p m' :
  ma_pop m = (Some p, m') → ma_push m' p = m.
Proof. intros Hpop%ma_pop_some. apply ma_ext. by rewrite ma_iter_push. Qed.

(** ** [libp2p::swarm]: what a behaviour asks the swarm to do

    The payloads the sources only pass on are opaque. *)
Class SwarmTypes := {
  ConnectionId : Type;
  ConnectedPoint : Type;
  ConnectionHandler : Type;
  DialOpts : Type;
  HandlerCall : Type;
  CloseConn : Type;
}.

Inductive NetworkBehaviourAction `{MultiaddrLib, SwarmTypes} (E : Type) : Type :=
| GenerateEvent (event : E)
| Dial (opts : DialOpts)
| NotifyHandler (call : HandlerCall)
| ReportObservedAddr (address : Multiaddr) (score : N)
| CloseConnection (peer_id : PeerId) (connection : CloseConn).
Arguments GenerateEvent {_ _ _ E} event.
Arguments Dial {_ _ _ E} opts.
Arguments NotifyHandler {_ _ _ E} call.
Arguments ReportObservedAddr {_ _ _ E} address score.
Arguments CloseConnection {_ _ _ E} peer_id connection.

(** ** [libp2p::kad] and [libp2p::mdns] *)
Class KadLib `{MultiaddrLib, SwarmTypes} := {
  Kad : Type;
  KadQueryId : Type;
  KadEvent : Type;
  KadHandlerEvent : Type;
  KadHandler : Type;
  (** [Kademlia::with_config] for a peer, a protocol name and a replication
      factor. *)
  kad_with_config : PeerId → bytes → N → Kad;
  kad_add_address : PeerId → Multiaddr → Kad → Kad;
  kad_bootstrap : stM Kad string KadQueryId;
  kad_new_handler : Kad → KadHandler * Kad;
  kad_addresses_of_peer : PeerId → Kad → list Multiaddr * Kad;
  kad_connection_established :
    PeerId → ConnectionId → ConnectedPoint → option (list Multiaddr) → N → Kad → Kad;
  kad_connection_closed :
    PeerId → ConnectionId → ConnectedPoint → ConnectionHandler → N → Kad → Kad;
  kad_address_change :
    PeerId → ConnectionId → ConnectedPoint → ConnectedPoint → Kad → Kad;
  kad_inject_event : PeerId → ConnectionId → KadHandlerEvent → Kad → Kad;
  (** [None] is [Poll::Pending]. *)
  kad_poll : Kad → option (NetworkBehaviourAction KadEvent) * Kad;
}.

(** [MdnsEvent], by the variants the sources match on. *)
Inductive MdnsEvent `{MultiaddrLib} : Type :=
| Discovered (peers : list (PeerId * Multiaddr))
| Expired (peers : list (PeerId * Multiaddr)).

Class MdnsLib `{MultiaddrLib, SwarmTypes} := {
  Mdns : Type;
  (** [Mdns::new(MdnsConfig::default())]: may fail. *)
  mdns_new : outcome string Mdns;
  mdns_addresses_of_peer : PeerId → Mdns → list Multiaddr * Mdns;
  mdns_poll : Mdns → option (NetworkBehaviourAction MdnsEvent) * Mdns;
}.

(** ** [forest_ipld::Ipld], by the variants the sources use *)
Inductive Ipld `{CidLib} : Type :=
| IpldBytes (b : bytes)
| IpldLink (c : Cid)
| IpldOther (b : bytes).

(** ** [libp2p::identity] and signed envelopes *)
Class KeyLib `{NetLib} := {
  Keypair : Type;
  PublicKey : Type;
  SigningError : Type;
  SignedEnvelope : Type;
  EnvelopeDecodingError : Type;
  EnvelopePayloadError : Type;
  signing_error_string : SigningError → string;
  decoding_error_string : EnvelopeDecodingError → string;
  payload_error_string : EnvelopePayloadError → string;
  public : Keypair → PublicKey;
  peer_of_key : PublicKey → PeerId;
  key_sign : Keypair → bytes → outcome SigningError bytes;
  key_verify : PublicKey → bytes → bytes → bool;
  to_protobuf_encoding : PublicKey → bytes;
  from_protobuf_encoding : bytes → option PublicKey;
  (** [SignedEnvelope::new(key, domain, payload_type, payload)], its encoding,
      and [payload_and_signing_key(domain, payload_type)] on an encoding. *)
  envelope_new : Keypair → string → bytes → bytes → outcome SigningError SignedEnvelope;
  envelope_encode : SignedEnvelope → bytes;
  envelope_open : bytes → string → bytes → option (bytes * PublicKey);
  sign_verify : ∀ k m s, key_sign k m = Ok s → key_verify (public k) m s = true;
  protobuf_round_trip : ∀ pk, from_protobuf_encoding (to_protobuf_encoding pk) = Some pk;
  envelope_round_trip : ∀ k d t p e, envelope_new k d t p = Ok e →
    envelope_open (envelope_encode e) d t = Some (p, public k);
}.

(** ** [bincode], [multihash] *)
Class EncodeLib := {
  (** [bincode::serialize] of a structure of a [u128] and a [Vec<u8>]. *)
  bincode_metadata : N → bytes → outcome string bytes;
  (** [Code::Sha2_256.digest(..).to_bytes()] *)
  sha2_256 : bytes → bytes;
}.

(** ** [serde_json] values and [base64] *)
Class JsonValueLib := {
  Value : Type;
  JMap : Type;
  map_new : JMap;
  map_insert : string → Value → JMap → JMap;
  map_get : JMap → string → option Value;
  value_of_map : JMap → Value;
  value_of_string : string → Value;
  (** [Value::get] with a string index, and [Value::as_str]. *)
  value_get : Value → string → option Value;
  as_str : Value → option string;
  base64_encode : bytes → string;
  base64_decode : string → outcome string bytes;
  map_get_insert : ∀ k v m, map_get (map_insert k v m) k = Some v;
  value_get_map : ∀ m k, value_get (value_of_map m) k = map_get m k;
  as_str_of_string : ∀ s, as_str (value_of_string s) = Some s;
  base64_round_trip : ∀ b, base64_decode (base64_encode b) = Ok b;
}.
