(* ===== verification/Samples.v ===== *)
(** Concrete instances of the library interfaces, on which the witnesses
    evaluate: identifiers are byte strings, a store is a finite map, and every
    byte of a block is a link. *)

From S2P Require Import Prelude Libs.

#[program] Definition sample_cid : CidLib := {|
  Cid := bytes;
  cid_to_bytes c := c;
  cid_try_from b := Some b;
  cid_to_string c := String.string_of_list_byte c;
  cid_debug c := String.string_of_list_byte c;
  cid_from_str s := Ok (as_bytes s);
  cid_hash_bytes c := c;
|}.
Next Obligation. done. Qed.
Next Obligation.
  intros c. unfold as_bytes. by rewrite String.list_byte_of_string_of_list_byte.
Qed.

#[export] Existing Instance sample_cid.

(** One-byte identifiers. *)
Definition sid (b : byte) : Cid := [b].

(** A store that never fails. *)
Abbreviation sample_db := (gmap bytes bytes).

#[program] Definition sample_store : BlockStore sample_db := {|
  bs_read s k := Ok (s !! k);
  bs_exists s k := Ok (bool_decide (is_Some (s !! k)));
  bs_write k v s := (Ok tt, <[k:=v]> s);
  bs_get s c := Ok (s !! (c : bytes));
  bs_has s c := Ok (bool_decide (is_Some (s !! (c : bytes))));
|}.
Next Obligation. simpl. intros s k o Ho. by injection Ho as <-. Qed.
Next Obligation. done. Qed.
Next Obligation. done. Qed.
Next Obligation. simpl. intros s k v s' [= <-]. by rewrite lookup_insert_eq. Qed.
Next Obligation.
  simpl. intros s k v o s' k' [= _ <-] Hk. by rewrite lookup_insert_ne.
Qed.

#[export] Existing Instance sample_store.

(** Blocks of up to eight links are well formed. *)
Definition sample_ipld : IpldLib := {|
  block_new _ data := bool_decide (length data ≤ 8);
  references _ data := Ok (sid <$> data);
|}.

#[export] Existing Instance sample_ipld.

#[program] Definition sample_hash_iter {A} `{Countable A} : HashIter A := {|
  hash_first _ s := head (elements s);
|}.
Next Obligation.
  simpl. intros A ?? _ s Hs. apply leibniz_equiv, elements_empty_inv.
  by destruct (elements s).
Qed.
Next Obligation.
  simpl. intros A ?? _ s a Ha. apply elem_of_elements.
  destruct (elements s); simplify_eq/=. set_solver.
Qed.

#[export] Existing Instance sample_hash_iter.

(** ** Peers and addresses *)

#[program] Definition sample_net : NetLib := {|
  PeerId := N;
  Multihash := N;
  peer_from_multihash mh := Some mh;
  peer_multihash p := p;
  peer_to_base58 p := pretty.pretty p;
  peer_to_string p := pretty.pretty p;
|}.
Next Obligation. done. Qed.
Next Obligation. simpl. by intros mh p [= ->]. Qed.

#[export] Existing Instance sample_net.

Definition pid (n : N) : PeerId := n.

Definition sample_pop (l : list Protocol) : option Protocol * list Protocol :=
  match reverse l with
  | [] => (None, l)
  | p :: r => (Some p, reverse r)
  end.

#[program] Definition sample_multiaddr : MultiaddrLib := {|
  Multiaddr := list Protocol;
  ma_iter m := m;
  ma_empty := [];
  ma_push m p := m ++ [p];
  ma_pop := sample_pop;
  ma_to_string m := "addr";
  ma_from_str s := Ok [];
|}.
Next Obligation. done. Qed.
Next Obligation. done. Qed.
Next Obligation. done. Qed.
Next Obligation.
  simpl. unfold sample_pop. intros m m'.
  destruct (reverse m) eqn:Hm; [|done]. intros [= <-]. split; [|done].
  by rewrite <- (reverse_involutive m), Hm.
Qed.
Next Obligation.
  simpl. unfold sample_pop. intros m p m'.
  destruct (reverse m) as [|q r] eqn:Hm; [done|]. intros [= -> <-].
  rewrite <- reverse_singleton, <- reverse_app. simpl.
  by rewrite <- (reverse_involutive m), Hm.
Qed.

#[export] Existing Instance sample_multiaddr.

(** A swarm whose opaque payloads carry nothing. *)
Definition sample_swarm : SwarmTypes := {|
  ConnectionId := N;
  ConnectedPoint := unit;
  ConnectionHandler := unit;
  DialOpts := unit;
  HandlerCall := unit;
  CloseConn := unit;
|}.

#[export] Existing Instance sample_swarm.

Definition conn (n : N) : ConnectionId := n.

(** A Kademlia that records the addresses it is given and has a list of events
    to report. *)
Record sample_kad_state := {
  kad_known : list (PeerId * Multiaddr);
  kad_pending : list N;
}.

Definition sample_kad : KadLib := {|
  Kad := sample_kad_state;
  KadQueryId := N;
  KadEvent := N;
  KadHandlerEvent := unit;
  KadHandler := unit;
  kad_with_config _ _ _ := {| kad_known := []; kad_pending := [] |};
  kad_add_address p a k :=
    {| kad_known := kad_known k ++ [(p, a)]; kad_pending := kad_pending k |};
  kad_bootstrap k := (Ok 7%N, k);
  kad_new_handler k := (tt, k);
  kad_addresses_of_peer p k :=
    (snd <$> filter (λ pa, pa.1 = p) (kad_known k), k);
  kad_connection_established _ _ _ _ _ k := k;
  kad_connection_closed _ _ _ _ _ k := k;
  kad_address_change _ _ _ _ k := k;
  kad_inject_event _ _ _ k := k;
  kad_poll k :=
    match kad_pending k with
    | [] => (None, k)
    | e :: l =>
      (Some (GenerateEvent e), {| kad_known := kad_known k; kad_pending := l |})
    end;
|}.

#[export] Existing Instance sample_kad.

(** An mDNS with a list of discoveries to report. *)
Definition sample_mdns : MdnsLib := {|
  Mdns := list (PeerId * Multiaddr);
  mdns_new := Ok [];
  mdns_addresses_of_peer _ m := ([], m);
  mdns_poll m :=
    match m with
    | [] => (None, [])
    | pa :: l => (Some (GenerateEvent (Discovered [pa])), l)
    end;
|}.

#[export] Existing Instance sample_mdns.

(** Keys of one byte: a signature is the message, an envelope the key followed
    by the payload. *)
#[program] Definition sample_key : KeyLib := {|
  Keypair := byte;
  PublicKey := byte;
  SigningError := string;
  SignedEnvelope := byte * bytes;
  EnvelopeDecodingError := string;
  EnvelopePayloadError := string;
  signing_error_string e := e;
  decoding_error_string e := e;
  payload_error_string e := e;
  public k := k;
  peer_of_key k := pid (Byte.to_N k);
  key_sign _ m := Ok m;
  key_verify _ m s := bool_decide (m = s);
  to_protobuf_encoding k := [k];
  from_protobuf_encoding b := head b;
  envelope_new k _ _ p := Ok (k, p);
  envelope_encode e := e.1 :: e.2;
  envelope_open b _ _ := match b with k :: p => Some (p, k) | [] => None end;
|}.
Next Obligation. cbn. intros k m s [= ->]. by apply bool_decide_eq_true. Qed.
Next Obligation. done. Qed.
Next Obligation. cbn. by intros k d t p e [= <-]. Qed.
#[export] Existing Instance sample_key.

Definition keypair_of (b : byte) : Keypair := b.

Definition sample_encode_lib : EncodeLib := {|
  bincode_metadata _ d := Ok d;
  sha2_256 b := b;
|}.
#[export] Existing Instance sample_encode_lib.

Inductive sample_value :=
| SString (s : string)
| SMap (m : list (string * sample_value)).

Fixpoint sample_assoc (m : list (string * sample_value)) (k : string)
    : option sample_value :=
  match m with
  | [] => None
  | (k', v) :: m => if bool_decide (k = k') then Some v else sample_assoc m k
  end.

#[program] Definition sample_json : JsonValueLib := {|
  Value := sample_value;
  JMap := list (string * sample_value);
  map_new := [];
  map_insert k v m := (k, v) :: m;
  map_get := sample_assoc;
  value_of_map := SMap;
  value_of_string := SString;
  value_get v k := match v with SMap m => sample_assoc m k | SString _ => None end;
  as_str v := match v with SString s => Some s | SMap _ => None end;
  base64_encode := String.string_of_list_byte;
  base64_decode s := Ok (as_bytes s);
|}.
Next Obligation. simpl. intros k v m. by case_bool_decide. Qed.
Next Obligation. done. Qed.
Next Obligation. done. Qed.
Next Obligation.
  cbn. intros b. unfold as_bytes. by rewrite String.list_byte_of_string_of_list_byte.
Qed.
#[export] Existing Instance sample_json.
