(* ===== verification/Utils.v ===== *)
(** The crate [ursa-utils] ([src/crates/ursa-utils/src/lib.rs]) and the two
    copies of its only function in the crates [ursa-store] and
    [ursa-network]. *)

From S2P Require Import Prelude Libs.

Section utils.
  Context {cl : CidLib}.

(** [T::try_from(cid).unwrap()], between versions of the [Cid] type. *)
Definition convert_cid {E} (cid : bytes) : outcome E Cid :=
  unwrap_opt (cid_try_from cid).

Lemma convert_cid_to_bytes {E} (c : Cid) :
  convert_cid (E:=E) (cid_to_bytes c) = Ok c.
Proof. unfold convert_cid. by rewrite cid_try_from_to_bytes. Qed.

End utils.

#[export] Hint Rewrite @convert_cid_to_bytes : ursa_rw.
