(* ===== verification/Store.v ===== *)
(** The crate [ursa-store] ([src/crates/ursa-store/src/store.rs]): the block
    store the node shares with bitswap, the search for missing blocks and the
    traversal of a DAG. *)

From S2P Require Import Prelude Libs Utils.
From S2P Require Samples.

Section store.
  Context {DB : Type} {cl : CidLib} {il : IpldLib} {bs : BlockStore DB}.

(** [struct Store<S> { db: Arc<S> }] *)
Record Store := { db : DB }.

(** [Store::new] and [Store::blockstore]. *)
Definition new (d : DB) : Store := {| db := d |}.
Definition blockstore (st : Store) : DB := db st.

(** ** [impl BitswapStore for BitswapStorage] *)

Definition contains (st : Store) (cid : Cid) : outcome string bool :=
  bs_exists (db st) (cid_to_bytes cid).

Definition get (st : Store) (cid : Cid) : outcome string (option bytes) :=
  unwrap (bs_read (db st) (cid_to_bytes cid)).

Definition insert (block : Cid * bytes) : stM Store string unit :=
  st_zoom db (λ d _, {| db := d |})
    (st_unwrap (bs_write (cid_to_bytes block.1) block.2)).

(** The loop of [missing_blocks].  The Rust vector [stack] is kept with its
    last element, the one [pop] takes, at the head, so the references that
    [block.references(&mut stack)] pushes in order come in reversed. *)
Fixpoint missing_loop (st : Store) (fuel : nat) (stack missing : list Cid)
    : option (outcome string (list Cid)) :=
  match fuel with
  | O => None
  | S fuel =>
    match stack with
    | [] => Some (Ok missing)
    | cid :: stack =>
      match get st cid with
      | Ok (Some data) =>
        match references cid data with
        | Ok refs => missing_loop st fuel (reverse refs ++ stack) missing
        | Err e => Some (Err e)
        | Panic => Some Panic
        end
      | Ok None => missing_loop st fuel stack (missing ++ [cid])
      | Err e => Some (Err e)
      | Panic => Some Panic
      end
    end
  end.

Definition missing_blocks (st : Store) (fuel : nat) (cid : Cid)
    : option (outcome string (list Cid)) :=
  missing_loop st fuel [cid] [].

(** ** [impl Dag for Store] *)

Definition missing_cids_error (root_cid : Cid) : string :=
  "Some of the cids for root is missing for the root " +:+ cid_debug root_cid.

(** The body of the loop of [dag_traversal] for an identifier not seen before:
    the pair pushed to [res] and the links added to [current]. *)
Definition dag_visit (st : Store) (root_cid cid : Cid)
    : outcome string (Cid * bytes * list Cid) :=
  key ← convert_cid (cid_to_bytes cid);
  found ← bs_get (blockstore st) key;
  match found with
  | Some data =>
    out ← convert_cid (cid_to_bytes cid);
    if block_new cid data
    then links ← references cid data; Ok (out, data, links)
    else Panic
  | None => Err (missing_cids_error root_cid)
  end.

Context {hi : HashIter Cid}.

Fixpoint dag_loop (st : Store) (root_cid : Cid) (fuel : nat)
    (current refs : gset Cid) (res : list (Cid * bytes))
    : option (outcome string (list (Cid * bytes))) :=
  match fuel with
  | O => None
  | S fuel =>
    match hash_first fuel current with
    | None => Some (Ok res)
    | Some cid =>
      let current := current ∖ {[cid]} in
      if decide (cid ∈ refs) then dag_loop st root_cid fuel current refs res
      else match dag_visit st root_cid cid with
           | Ok (out, data, links) =>
             dag_loop st root_cid fuel (current ∪ list_to_set links)
               ({[cid]} ∪ refs) (res ++ [(out, data)])
           | Err e => Some (Err e)
           | Panic => Some Panic
           end
    end
  end.

Definition dag_traversal (st : Store) (fuel : nat) (root_cid : Cid)
    : option (outcome string (list (Cid * bytes))) :=
  match convert_cid (cid_to_bytes root_cid) with
  | Ok root => dag_loop st root_cid fuel {[root]} ∅ []
  | Err e => Some (Err e)
  | Panic => Some Panic
  end.

End store.

(** ** The graph of blocks *)

Section graph.
  Context {DB : Type} {cl : CidLib} {il : IpldLib} {bs : BlockStore DB}.
  Implicit Types (st : Store (DB:=DB)) (a b c root : Cid).

(** [b] is one of the links of the stored block [a]. *)
Definition link st (a b : Cid) : Prop :=
  ∃ data refs, bs_get (blockstore st) a = Ok (Some data) ∧
    references a data = Ok refs ∧ b ∈ refs.

Definition absent st (c : Cid) : Prop := bs_get (blockstore st) c = Ok None.

(** A stored block whose links can be read. *)
Definition parsed_block st (c : Cid) : Prop :=
  ∃ data refs, bs_get (blockstore st) c = Ok (Some data) ∧
    references c data = Ok refs.

(** A stored block that also passes the checks of [Block::new]. *)
Definition sound_block st (c : Cid) : Prop :=
  ∃ data refs, bs_get (blockstore st) c = Ok (Some data) ∧
    block_new c data = true ∧ references c data = Ok refs.

Lemma get_ok st c o : get st c = Ok o ↔ bs_get (blockstore st) c = Ok o.
Proof.
  unfold get, blockstore. rewrite bs_get_read.
  destruct (bs_read (db st) (cid_to_bytes c)); simpl; naive_solver.
Qed.

Lemma dag_visit_ok st root c out data links :
  dag_visit st root c = Ok (out, data, links) ↔
  out = c ∧ bs_get (blockstore st) c = Ok (Some data) ∧
    block_new c data = true ∧ references c data = Ok links.
Proof.
  unfold dag_visit. rewrite !convert_cid_to_bytes. simpl. split.
  - intros Hv. inv_bind. destruct a as [d|]; [|done]. 
    simpl in Hv. destruct (block_new c d) eqn:?; [|done]. inv_bind. naive_solver.
  - intros (-> & -> & Hb & Hr). simpl. by rewrite Hb, Hr.
Qed.

Lemma dag_visit_sound st root c :
  sound_block st c → ∃ data links, dag_visit st root c = Ok (c, data, links).
Proof.
  intros (data & refs & ? & ? & ?). exists data, refs. by apply dag_visit_ok.
Qed.

Lemma dag_visit_absent st root c :
  absent st c → dag_visit st root c = Err (missing_cids_error root).
Proof. intros Ha. unfold dag_visit. rewrite convert_cid_to_bytes. simpl. by rewrite Ha. Qed.

Lemma link_visit st root a b data links :
  dag_visit st root a = Ok (a, data, links) → link st a b ↔ b ∈ links.
Proof.
  intros (_ & Hd & _ & Hr)%dag_visit_ok. unfold link. split.
  - intros (d & l & Hd' & Hl & Hb). congruence.
  - intros Hb. by exists data, links.
Qed.

(** *** The search for missing blocks *)

Lemma missing_loop_spec st fuel stack acc m :
  missing_loop st fuel stack acc = Some (Ok m) →
  ∀ c, c ∈ m ↔ c ∈ acc ∨ ∃ r, r ∈ stack ∧ rtc (link st) r c ∧ absent st c.
Proof.
  revert stack acc. induction fuel as [|fuel IH]; intros stack acc Hm c; [done|].
  destruct stack as [|r stack]; simpl in Hm.
  { injection Hm as <-. set_solver. }
  destruct (get st r) as [[data|]| |] eqn:Hg; [|..|done].
  - apply get_ok in Hg. destruct (references r data) as [refs| |] eqn:Hr; try done.
    rewrite (IH _ _ Hm c). split.
    + intros [?|(x & [Hx|?]%elem_of_app & Hrt & Ha)]; [by left| |set_solver].
      right. exists r. split; [set_solver|]. split; [|done].
      eapply rtc_l; [|done]. exists data, refs. set_solver.
    + intros [?|(x & [->|?]%elem_of_cons & Hrt & Ha)]; [by left| |set_solver].
      right. apply rtc_inv in Hrt as [->|(y & (d & l & Hd & Hl & Hy) & Hrt)].
      { unfold absent in Ha. congruence. }
      assert (l = refs) as -> by congruence.
      exists y. split; [|done]. set_solver.
  - apply get_ok in Hg. rewrite (IH _ _ Hm c). split.
    + intros [[?| ->%list_elem_of_singleton]%elem_of_app|?]; [by left| |set_solver].
      right. exists r. split; [set_solver|]. by split; [apply rtc_refl|].
    + intros [?|(x & [->|?]%elem_of_cons & Hrt & Ha)]; [set_solver| |set_solver].
      left. apply rtc_inv in Hrt as [->|(y & (d & l & Hd & _) & _)]; [set_solver|].
      congruence.
  - done.
Qed.

(** A search that ends without an error has read every block it reached. *)
Lemma missing_loop_reads st fuel stack acc m :
  missing_loop st fuel stack acc = Some (Ok m) →
  ∀ r c, r ∈ stack → rtc (link st) r c → absent st c ∨ parsed_block st c.
Proof.
  revert stack acc. induction fuel as [|fuel IH]; intros stack acc Hm r c Hr Hrt; [done|].
  destruct stack as [|x stack]; simpl in Hm; [by apply not_elem_of_nil in Hr|].
  destruct (get st x) as [[data|]| |] eqn:Hg; [|..|done]; [..|done].
  - apply get_ok in Hg. destruct (references x data) as [refs| |] eqn:Href; try done.
    apply elem_of_cons in Hr as [->|Hr]; [|apply (IH _ _ Hm r); set_solver].
    apply rtc_inv in Hrt as [->|(y & (d & l & Hd & Hl & Hy) & Hrt)];
      [right; by exists data, refs|].
    assert (l = refs) as -> by congruence. apply (IH _ _ Hm y); set_solver.
  - apply get_ok in Hg. apply elem_of_cons in Hr as [->|Hr]; [|by apply (IH _ _ Hm r)].
    apply rtc_inv in Hrt as [->|(y & (d & l & Hd & _) & _)]; [by left|congruence].
Qed.

Lemma missing_loop_more st fuel fuel' stack acc o :
  missing_loop st fuel stack acc = Some o → fuel ≤ fuel' →
  missing_loop st fuel' stack acc = Some o.
Proof.
  revert fuel' stack acc. induction fuel as [|fuel IH]; intros fuel' stack acc Hm Hle;
    [done|].
  destruct fuel' as [|fuel']; [lia|]. simpl in *.
  repeat case_match_eq; try done; eapply IH; eauto with lia.
Qed.

(** The loop returns on [stack] from every accumulator. *)
Definition missing_returns st stack : Prop :=
  ∀ acc, ∃ fuel o, missing_loop st fuel stack acc = Some o.

Lemma missing_returns_refs st refs stack :
  (∀ b stack, b ∈ refs → missing_returns st stack → missing_returns st (b :: stack)) →
  missing_returns st stack → missing_returns st (refs ++ stack).
Proof.
  intros Hb Hs. induction refs as [|b refs IH]; [done|].
  simpl. apply Hb; [set_solver|]. apply IH. intros b' stack' ?. apply Hb. set_solver.
Qed.

Lemma missing_returns_cons st c stack :
  Acc (flip (link st)) c → missing_returns st stack → missing_returns st (c :: stack).
Proof.
  intros Hacc. revert stack. induction Hacc as [c _ IH]; intros stack Hs acc.
  destruct (get st c) as [[data|]|e|] eqn:Hg.
  - destruct (references c data) as [refs|e|] eqn:Hr.
    + destruct (missing_returns_refs st (reverse refs) stack) with (acc:=acc)
        as (fuel & o & Ho); [|done|].
      * intros b stack' Hb. apply IH. exists data, refs.
        split; [by apply get_ok|]. set_solver.
      * exists (S fuel), o. simpl. by rewrite Hg, Hr.
    + exists 1, (Err e). simpl. by rewrite Hg, Hr.
    + exists 1, Panic. simpl. by rewrite Hg, Hr.
  - destruct (Hs (acc ++ [c])) as (fuel & o & Ho).
    exists (S fuel), o. simpl. by rewrite Hg.
  - exists 1, (Err e). simpl. by rewrite Hg.
  - exists 1, Panic. simpl. by rewrite Hg.
Qed.

Lemma missing_loop_no_error st fuel stack acc o :
  (∀ r c, r ∈ stack → rtc (link st) r c → absent st c ∨ parsed_block st c) →
  missing_loop st fuel stack acc = Some o → ∃ m, o = Ok m.
Proof.
  revert stack acc. induction fuel as [|fuel IH]; intros stack acc Hok Ho; [done|].
  destruct stack as [|r stack]; simpl in Ho; [naive_solver|].
  destruct (Hok r r) as [Hg|(data & refs & Hg & Hr)]; [set_solver|by apply rtc_refl|..].
  - apply get_ok in Hg. rewrite Hg in Ho. eapply IH; [|done]. set_solver.
  - assert (get st r = Ok (Some data)) as Hg' by by apply get_ok.
    rewrite Hg', Hr in Ho. eapply IH; [|done].
    intros x c [Hx|Hx]%elem_of_app Hrt; [|set_solver].
    apply (Hok r c); [set_solver|]. eapply rtc_l; [|done].
    exists data, refs. set_solver.
Qed.

End graph.

(** *** The traversal of a DAG *)

Section traversal.
  Context {DB : Type} {cl : CidLib} {il : IpldLib} {bs : BlockStore DB}.
  Context {hi : HashIter Cid}.
  Implicit Types (st : Store (DB:=DB)) (a b c root : Cid).

(** What holds each time the loop of [dag_traversal] looks at [current]. *)
Record dag_inv st root (current refs : gset Cid) (res : list (Cid * bytes))
    : Prop := {
  inv_refs : ∀ c, c ∈ res.*1 ↔ c ∈ refs;
  inv_nodup : NoDup res.*1;
  inv_reach : ∀ c, c ∈ refs ∪ current → rtc (link st) root c;
  inv_root : root ∈ refs ∪ current;
  inv_closed : ∀ a b, a ∈ refs → link st a b → b ∈ refs ∪ current;
  inv_data : ∀ c d, (c, d) ∈ res →
    bs_get (blockstore st) c = Ok (Some d) ∧ block_new c d = true;
}.

Lemma dag_inv_init st root : dag_inv st root {[root]} ∅ [].
Proof.
  split; simpl; try set_solver; try by constructor.
Qed.

Lemma dag_inv_skip st root current refs res c :
  c ∈ refs → dag_inv st root current refs res →
  dag_inv st root (current ∖ {[c]}) refs res.
Proof.
  intros Hc [??? Hr Hcl ?]. split; try done; [set_solver|..].
  - destruct (decide (root = c)); set_solver.
  - intros a b Ha Hl. specialize (Hcl a b Ha Hl).
    destruct (decide (b = c)); set_solver.
Qed.

Lemma dag_inv_visit st root current refs res c data links :
  c ∈ current → c ∉ refs → dag_visit st root c = Ok (c, data, links) →
  dag_inv st root current refs res →
  dag_inv st root (current ∖ {[c]} ∪ list_to_set links) ({[c]} ∪ refs)
    (res ++ [(c, data)]).
Proof.
  intros Hc Hn Hv [Hrefs Hnd Hre Hro Hcl Hd].
  pose proof (λ b, link_visit st root c b data links Hv) as Hl.
  apply dag_visit_ok in Hv as (_ & Hg & Hb & _). split.
  - intros x. rewrite fmap_app. set_solver.
  - rewrite fmap_app. apply NoDup_app. split_and!; [done| |simpl; apply NoDup_singleton].
    intros x Hx%Hrefs. set_solver.
  - intros x Hx. destruct (decide (x ∈ links)) as [Hin|Hin].
    + eapply rtc_r; [apply (Hre c); set_solver|by apply Hl].
    + apply Hre. set_solver.
  - destruct (decide (root = c)); set_solver.
  - intros a b Ha Hab. destruct (decide (a = c)) as [->|Hne].
    + apply Hl in Hab. set_solver.
    + specialize (Hcl a b ltac:(set_solver) Hab).
      destruct (decide (b = c)); set_solver.
  - intros x d. rewrite elem_of_app, list_elem_of_singleton.
    intros [Hx|[= -> ->]]; [by apply Hd|done].
Qed.

Lemma dag_loop_inv st root fuel current refs res out :
  dag_loop st root fuel current refs res = Some (Ok out) →
  dag_inv st root current refs res → ∃ refs', dag_inv st root ∅ refs' out.
Proof.
  revert current refs res. induction fuel as [|fuel IH]; intros current refs res;
    simpl; [done|].
  destruct (hash_first fuel current) as [c|] eqn:Hf.
  - apply hash_first_some in Hf. case_decide as Hc; intros Hl Hi.
    + eapply IH; [done|]. by apply dag_inv_skip.
    + destruct (dag_visit st root c) as [[[o data] links]| |] eqn:Hv; try done.
      assert (o = c) as -> by by apply dag_visit_ok in Hv as [? _].
      eapply IH; [done|]. by apply dag_inv_visit.
  - apply hash_first_none in Hf as ->. intros [= <-]. eauto.
Qed.

(** The measure of the traversal inside a finite closed set [D]. *)
Definition dag_measure (D current refs : gset Cid) : nat :=
  size (D ∖ refs) * S (size D) + size current.

Definition dag_fuel (D : gset Cid) : nat := S (size D * S (size D) + 1).

Lemma dag_loop_returns st root D fuel current refs res :
  (∀ a b, a ∈ D → link st a b → b ∈ D) → current ⊆ D →
  dag_measure D current refs < fuel →
  ∃ o, dag_loop st root fuel current refs res = Some o.
Proof.
  intros HD. revert current refs res. induction fuel as [|fuel IH];
    intros current refs res Hcur Hm; [lia|]. simpl.
  destruct (hash_first fuel current) as [c|] eqn:Hf; [|eauto].
  apply hash_first_some in Hf.
  assert (size (current ∖ {[c]}) + 1 = size current) as Hsz.
  { rewrite size_difference by set_solver. rewrite size_singleton.
    assert (size current ≠ 0); [|lia].
    apply size_non_empty_iff. set_solver. }
  case_decide as Hc.
  - apply IH; [set_solver|]. unfold dag_measure in *. lia.
  - destruct (dag_visit st root c) as [[[o data] links]| |] eqn:Hv; [|eauto..].
    assert (o = c) as -> by by apply dag_visit_ok in Hv as [? _].
    assert (current ∖ {[c]} ∪ list_to_set links ⊆ D) as Hsub.
    { intros b [?|Hb]%elem_of_union; [set_solver|].
      apply (HD c); [set_solver|]. apply (link_visit _ _ _ _ _ _ Hv). set_solver. }
    apply IH; [done|].
    assert (size (D ∖ ({[c]} ∪ refs)) + 1 = size (D ∖ refs)) as Hd.
    { replace (D ∖ ({[c]} ∪ refs)) with (D ∖ refs ∖ {[c]}) by set_solver.
      rewrite size_difference by set_solver. rewrite size_singleton.
      assert (size (D ∖ refs) ≠ 0); [|lia].
      apply size_non_empty_iff. set_solver. }
    pose proof (subseteq_size _ _ Hsub). unfold dag_measure in *. nia.
Qed.

(** Among absent and sound blocks the only failure is the one for a missing
    identifier. *)
Lemma dag_loop_outcome st root fuel current refs res o :
  (∀ c, rtc (link st) root c → absent st c ∨ sound_block st c) →
  dag_inv st root current refs res →
  dag_loop st root fuel current refs res = Some o →
  (∃ out, o = Ok out) ∨
    o = Err (missing_cids_error root) ∧ ∃ c, rtc (link st) root c ∧ absent st c.
Proof.
  intros Hs. revert current refs res. induction fuel as [|fuel IH];
    intros current refs res Hi; simpl; [done|].
  destruct (hash_first fuel current) as [c|] eqn:Hf; [|naive_solver].
  apply hash_first_some in Hf. case_decide as Hc; [by apply IH, dag_inv_skip|].
  assert (rtc (link st) root c) as Hrt by (apply (inv_reach _ _ _ _ _ Hi); set_solver).
  destruct (Hs c Hrt) as [Ha|(data & links & Hv)%(dag_visit_sound st root)].
  - rewrite (dag_visit_absent _ _ _ Ha). intros [= <-]. eauto 6.
  - rewrite Hv. by apply IH, dag_inv_visit.
Qed.

Lemma dag_traversal_unfold st fuel root :
  dag_traversal st fuel root = dag_loop st root fuel {[root]} ∅ [].
Proof. unfold dag_traversal. by rewrite convert_cid_to_bytes. Qed.

End traversal.

(** ** Properties *)

Section properties.
  Context {DB : Type} {cl : CidLib} {il : IpldLib} {bs : BlockStore DB}.
  Context {hi : HashIter Cid}.
  Implicit Types (st : Store (DB:=DB)) (a b c root : Cid).

(** Inserting a block makes [contains] answer true and [get] return the
    block's data for its identifier, and changes the answer of [get] for no
    other identifier; a failing write panics, so [insert] returns no error. *)
Theorem insert_then_get st st' (block : Cid * bytes) :
  insert block st = (Ok tt, st') →
  contains st' block.1 = Ok true ∧ get st' block.1 = Ok (Some block.2) ∧
  ∀ c, c ≠ block.1 → get st' c = get st c.
Proof.
  destruct block as [c0 data]. unfold insert, contains, get. intros H.
  st_unfold. destruct (bs_write (cid_to_bytes c0) data (db st)) as [o d] eqn:Hw.
  destruct o as [[]| |]; simplify_eq/=.
  pose proof (bs_write_same _ _ _ _ Hw) as Hr.
  rewrite (bs_exists_read _ _ _ Hr), Hr. split_and!; [done..|].
  intros c Hc. f_equal. eapply bs_write_other; [done|].
  intros Heq. apply Hc. pose proof (cid_try_from_to_bytes c) as Hx.
  rewrite Heq, cid_try_from_to_bytes in Hx. congruence.
Qed.

(** C31: on a graph without infinite chains of links whose stored blocks can be
    read, [missing_blocks] returns, and lists exactly the identifiers
    reachable from the root that are not in the store. *)
Theorem missing_blocks_exact st root :
  (∀ c, rtc (link st) root c → Acc (flip (link st)) c) →
  (∀ c, rtc (link st) root c → absent st c ∨ parsed_block st c) →
  ∃ fuel m, missing_blocks st fuel root = Some (Ok m) ∧
    ∀ c, c ∈ m ↔ rtc (link st) root c ∧ absent st c.
Proof.
  intros Hacc Hp.
  destruct (missing_returns_cons st root []) with (acc:=@nil Cid)
    as (fuel & o & Ho); [by apply Hacc, rtc_refl|by intros acc; exists 1, (Ok acc)|].
  destruct (missing_loop_no_error st fuel [root] [] o) as [m ->]; [|done|].
  { intros r c ->%list_elem_of_singleton. apply Hp. }
  exists fuel, m. split; [done|]. intros c.
  rewrite (missing_loop_spec _ _ _ _ _ Ho). set_solver.
Qed.

(** The two facts about the traversal that the theorems below share. *)
Lemma dag_traversal_returns st D root :
  root ∈ D → (∀ a b, a ∈ D → link st a b → b ∈ D) →
  ∃ o, dag_traversal st (dag_fuel D) root = Some o.
Proof.
  intros Hr HD. rewrite dag_traversal_unfold.
  apply (dag_loop_returns st root D); [done|set_solver|].
  unfold dag_measure, dag_fuel. rewrite size_singleton, difference_empty_L. lia.
Qed.

Lemma dag_traversal_whole st D root :
  root ∈ D → (∀ a b, a ∈ D → link st a b → b ∈ D) →
  (∀ c, rtc (link st) root c → sound_block st c) →
  ∃ res, dag_traversal st (dag_fuel D) root = Some (Ok res) ∧
    NoDup res.*1 ∧ (∀ c, c ∈ res.*1 ↔ rtc (link st) root c) ∧
    (∀ c data, (c, data) ∈ res → bs_get (blockstore st) c = Ok (Some data)).
Proof.
  intros Hr HD Hs. destruct (dag_traversal_returns st D root Hr HD) as [o Ho].
  rewrite dag_traversal_unfold in Ho |- *.
  destruct (dag_loop_outcome st root (dag_fuel D) {[root]} ∅ [] o)
    as [[res ->]|(_ & c & Hc & Ha)]; [by intros ? ?%Hs; right|apply dag_inv_init|done|..]; last first.
  { destruct (Hs c Hc) as (d & l & Hg & _). unfold absent in Ha. congruence. }
  exists res. split; [done|].
  destruct (dag_loop_inv _ _ _ _ _ _ _ Ho (dag_inv_init st root)) as [refs [? ? ? ? Hcl ?]].
  split; [done|]. split; [|naive_solver]. intros c. split; [set_solver|].
  intros Hrt. apply inv_refs0. apply (rtc_closed (link st) (.∈ refs) root); [done|set_solver|].
  intros a b Ha Hab. specialize (Hcl _ _ Ha Hab). set_solver.
Qed.

(** C30: inside a finite set [D] closed under links, [dag_traversal] returns
    within [dag_fuel D] rounds, whatever order the hash set yields its
    elements in. *)
Theorem dag_traversal_terminates st D root :
  root ∈ D → (∀ a b, a ∈ D → link st a b → b ∈ D) →
  ∃ o, dag_traversal st (dag_fuel D) root = Some o.
Proof. apply dag_traversal_returns. Qed.

(** C12: when every block reachable from the root is stored and passes its
    checks, [dag_traversal] returns the whole DAG: every reachable block once,
    with the data the store holds for it. *)
Theorem dag_traversal_complete st D root :
  root ∈ D → (∀ a b, a ∈ D → link st a b → b ∈ D) →
  (∀ c, rtc (link st) root c → sound_block st c) →
  ∃ res, dag_traversal st (dag_fuel D) root = Some (Ok res) ∧
    NoDup res.*1 ∧ (∀ c, c ∈ res.*1 ↔ rtc (link st) root c) ∧
    (∀ c data, (c, data) ∈ res → bs_get (blockstore st) c = Ok (Some data)).
Proof. apply dag_traversal_whole. Qed.

(** A traversal that meets an absent block. *)
Lemma dag_traversal_partial st D root c :
  root ∈ D → (∀ a b, a ∈ D → link st a b → b ∈ D) →
  (∀ c, rtc (link st) root c → absent st c ∨ sound_block st c) →
  rtc (link st) root c → absent st c →
  dag_traversal st (dag_fuel D) root = Some (Err (missing_cids_error root)).
Proof.
  intros Hr HD Hs Hrt Ha. destruct (dag_traversal_returns st D root Hr HD) as [o Ho].
  rewrite dag_traversal_unfold in Ho |- *.
  destruct (dag_loop_outcome _ _ _ _ _ _ _ Hs (dag_inv_init st root) Ho) as [[res ->]|[-> _]];
    [exfalso|done].
  destruct (dag_loop_inv _ _ _ _ _ _ _ Ho (dag_inv_init st root)) as [refs Hi].
  assert (c ∈ refs) as Hc.
  { pose proof (inv_root _ _ _ _ _ Hi). pose proof (inv_closed _ _ _ _ _ Hi) as Hcl.
    apply (rtc_closed (link st) (.∈ refs) root); [done|set_solver|].
    intros a b Hx Hab. specialize (Hcl _ _ Hx Hab). set_solver. }
  apply (inv_refs _ _ _ _ _ Hi) in Hc as ([? data] & -> & Hc)%list_elem_of_fmap.
  apply (inv_data _ _ _ _ _ Hi) in Hc as [Hg _]. unfold absent in Ha.
  simpl in Ha. congruence.
Qed.

(** When every reachable block is either stored and sound or absent, and
    at least one is absent, [dag_traversal] returns the error that names the
    root: it never returns part of a DAG. *)
Theorem dag_traversal_incomplete st D root c :
  root ∈ D → (∀ a b, a ∈ D → link st a b → b ∈ D) →
  (∀ c, rtc (link st) root c → absent st c ∨ sound_block st c) →
  rtc (link st) root c → absent st c →
  dag_traversal st (dag_fuel D) root = Some (Err (missing_cids_error root)).
Proof. apply dag_traversal_partial. Qed.

(** When bitswap finds no missing block under a root, and the stored
    blocks pass the checks of [Block::new], the traversal of that root returns
    a result with the root in it. *)
Theorem no_missing_then_traversal st D root fuel :
  root ∈ D → (∀ a b, a ∈ D → link st a b → b ∈ D) →
  missing_blocks st fuel root = Some (Ok []) →
  (∀ c, rtc (link st) root c → absent st c ∨ sound_block st c) →
  ∃ res, dag_traversal st (dag_fuel D) root = Some (Ok res) ∧ root ∈ res.*1.
Proof.
  intros Hr HD Hm Hs.
  destruct (dag_traversal_whole st D root Hr HD) as (res & Ho & _ & Hres & _).
  - intros c Hrt. destruct (Hs c Hrt) as [Ha|?]; [|done].
    pose proof (missing_loop_spec _ _ _ _ _ Hm c) as Hc. set_solver.
  - exists res. split; [done|]. apply Hres, rtc_refl.
Qed.
End properties.

(** ** Evaluation on a concrete DAG *)

Section decidable_graph.
  Context {DB : Type} {cl : CidLib} {il : IpldLib} {bs : BlockStore DB}.
  Implicit Types (st : Store (DB:=DB)) (a b c root : Cid).

(** The links of a block, none when it is absent or cannot be read. *)
Definition links st (a : Cid) : list Cid :=
  match bs_get (blockstore st) a with
  | Ok (Some data) => match references a data with Ok refs => refs | _ => [] end
  | _ => []
  end.

Definition closed_check st (D : list Cid) : bool :=
  forallb (λ a, forallb (λ b, bool_decide (b ∈ D)) (links st a)) D.

Definition sound_check st (a : Cid) : bool :=
  match bs_get (blockstore st) a with
  | Ok (Some data) => block_new a data && is_ok (references a data)
  | _ => false
  end.

Definition rank_check st (rank : Cid → nat) (D : list Cid) : bool :=
  forallb (λ a, forallb (λ b, bool_decide (rank b < rank a)) (links st a)) D.

Lemma link_links st a b : link st a b → b ∈ links st a.
Proof. intros (d & l & Hd & Hl & ?). unfold links. by rewrite Hd, Hl. Qed.

Lemma sound_check_sound st a : sound_check st a = true → sound_block st a.
Proof.
  unfold sound_check, sound_block.
  destruct (bs_get (blockstore st) a) as [[d|]| |]; try done.
  destruct (block_new a d) eqn:?, (references a d) as [refs| |] eqn:?; try done.
  intros _. by exists d, refs.
Qed.

Lemma sound_parsed st a : sound_block st a → parsed_block st a.
Proof. intros (d & l & ? & _ & ?). by exists d, l. Qed.

Lemma links_check st (P : Cid → Cid → bool) (D : list Cid) a b :
  forallb (λ a, forallb (P a) (links st a)) D = true →
  a ∈ D → link st a b → P a b = true.
Proof.
  rewrite forallb_forall. intros HP Ha Hb%link_links.
  specialize (HP a ltac:(by apply list_elem_of_In)).
  rewrite forallb_forall in HP. by apply HP, list_elem_of_In.
Qed.

Lemma closed_check_closed st D a b :
  closed_check st D = true → a ∈ D → link st a b → b ∈ D.
Proof.
  intros HD Ha Hb. pose proof (links_check _ _ _ _ _ HD Ha Hb) as Hd.
  by apply bool_decide_eq_true in Hd.
Qed.

Lemma closed_check_set st D a b :
  closed_check st D = true → a ∈ (list_to_set D : gset Cid) → link st a b →
  b ∈ (list_to_set D : gset Cid).
Proof. rewrite !elem_of_list_to_set. apply closed_check_closed. Qed.

Lemma closed_check_reach st D root c :
  closed_check st D = true → root ∈ D → rtc (link st) root c → c ∈ D.
Proof.
  intros HD Hr Hrt. apply (rtc_closed (link st) (.∈ D) root); [done..|].
  intros a b. by apply closed_check_closed.
Qed.

Lemma rank_check_acc st rank D root c :
  closed_check st D = true → rank_check st rank D = true → root ∈ D →
  rtc (link st) root c → Acc (flip (link st)) c.
Proof.
  intros HD Hk Hr Hc%(closed_check_reach _ _ _ _ HD); [|done].
  induction (well_founded_ltof _ rank c) as [c _ IH].
  constructor. intros b Hb. apply IH.
  - pose proof (links_check _ _ _ _ _ Hk Hc Hb) as Hd.
    by apply bool_decide_eq_true in Hd.
  - by eapply closed_check_closed.
Qed.

(** Checks every reachable block at once. *)
Lemma forall_reach st D root (P : Cid → Prop) :
  closed_check st D = true → root ∈ D → Forall P D →
  ∀ c, rtc (link st) root c → P c.
Proof.
  intros HD Hr HP c Hrt. rewrite Forall_forall in HP.
  apply HP. by eapply closed_check_reach.
Qed.
End decidable_graph.

Import Samples.

(** Block [03] links to [02] and [01], block [02] to [01]; [04] links to [02]
    and to [00], which is not stored. *)
Definition sample_dag : Store := new (
  <[ [x03] := [x02; x01] ]> (<[ [x02] := [x01] ]> (<[ [x01] := [] ]>
  (<[ [x04] := [x02; x00] ]> (∅ : sample_db))))).

Definition sample_blocks : list Cid := [sid x01; sid x02; sid x03].
Definition sample_partial : list Cid := [sid x01; sid x02; sid x04; sid x00].
Definition sample_rank (c : Cid) : nat :=
  N.to_nat (foldr N.add 0%N (Byte.to_N <$> c)).

Lemma insert_then_get_witness :
  ∃ st', insert (sid x07, [x01]) sample_dag = (Ok tt, st') ∧
    get st' (sid x07) = Ok (Some [x01]).
Proof.
  eexists. split; [reflexivity|].
  apply (insert_then_get sample_dag _ (sid x07, [x01])). reflexivity.
Defined.

Lemma sample_dag_sound c : rtc (link sample_dag) (sid x03) c → sound_block sample_dag c.
Proof.
  apply (forall_reach _ sample_blocks _ (sound_block sample_dag)); [reflexivity|set_solver|].
  repeat constructor; apply sound_check_sound; reflexivity.
Qed.

Lemma sample_partial_status c :
  rtc (link sample_dag) (sid x04) c → absent sample_dag c ∨ sound_block sample_dag c.
Proof.
  apply (forall_reach _ sample_partial _
    (λ c, absent sample_dag c ∨ sound_block sample_dag c)); [reflexivity|set_solver|].
  repeat first [apply Forall_nil_2 | apply Forall_cons_2];
    first [left; reflexivity | right; apply sound_check_sound; reflexivity].
Qed.

Lemma sample_partial_reach : rtc (link sample_dag) (sid x04) (sid x00).
Proof.
  apply rtc_once. exists [x02; x00], [sid x02; sid x00].
  split; [reflexivity|]. split; [reflexivity|set_solver].
Qed.

Lemma missing_blocks_exact_witness :
  ∃ fuel m, missing_blocks sample_dag fuel (sid x04) = Some (Ok m) ∧ (sid x00) ∈ m.
Proof.
  destruct (missing_blocks_exact sample_dag (sid x04)) as (fuel & m & Hm & Hc).
  - intros c. apply (rank_check_acc _ sample_rank sample_partial);
      [reflexivity..|set_solver].
  - intros c [?|?%sound_parsed]%sample_partial_status; [by left|by right].
  - exists fuel, m. split; [done|]. apply Hc. split; [apply sample_partial_reach|done].
Defined.

Lemma dag_traversal_terminates_witness :
  ∃ o, dag_traversal sample_dag (dag_fuel (list_to_set sample_blocks)) (sid x03) = Some o.
Proof.
  apply dag_traversal_terminates; [set_solver|].
  intros a b. apply closed_check_set. reflexivity.
Defined.

Lemma dag_traversal_complete_witness :
  ∃ res, dag_traversal sample_dag (dag_fuel (list_to_set sample_blocks)) (sid x03) =
    Some (Ok res) ∧ (sid x01) ∈ res.*1.
Proof.
  destruct (dag_traversal_complete sample_dag (list_to_set sample_blocks) (sid x03))
    as (res & Hres & _ & Hin & _).
  - set_solver.
  - intros a b. apply closed_check_set. reflexivity.
  - apply sample_dag_sound.
  - exists res. split; [done|]. apply Hin, rtc_once.
    exists [x02; x01], [sid x02; sid x01]. split; [reflexivity|].
    split; [reflexivity|set_solver].
Defined.

Lemma dag_traversal_incomplete_witness :
  dag_traversal sample_dag (dag_fuel (list_to_set sample_partial)) (sid x04) =
    Some (Err (missing_cids_error (sid x04))).
Proof.
  apply (dag_traversal_incomplete sample_dag _ (sid x04) (sid x00)).
  - set_solver.
  - intros a b. apply closed_check_set. reflexivity.
  - apply sample_partial_status.
  - apply sample_partial_reach.
  - reflexivity.
Defined.

Lemma no_missing_then_traversal_witness :
  ∃ res, dag_traversal sample_dag (dag_fuel (list_to_set sample_blocks)) (sid x03) =
    Some (Ok res) ∧ (sid x03) ∈ res.*1.
Proof.
  apply (no_missing_then_traversal sample_dag _ (sid x03) 10).
  - set_solver.
  - intros a b. apply closed_check_set. reflexivity.
  - reflexivity.
  - intros c Hc. right. by apply sample_dag_sound.
Defined.
