(* ===== verification/Dag.v ===== *)
(** The two searches of a DAG compared: [missing_blocks], which bitswap runs
    before it fetches, and [dag_traversal], which the service and the API run
    before they serve ([src/crates/ursa-store/src/store.rs]). *)

From S2P Require Import Prelude Libs Utils Store.
From S2P Require Samples.

(** ** The order of the hash set *)

Section order.
  Context {DB : Type} {cl : CidLib} {il : IpldLib} {bs : BlockStore DB}.
  Implicit Types (st : Store (DB:=DB)) (a b c root : Cid).

(** What a traversal that succeeds has gone through. *)
Lemma dag_traversal_inv {hi : HashIter Cid} st fuel root res :
  dag_traversal st fuel root = Some (Ok res) →
  NoDup res.*1 ∧ (∀ c, c ∈ res.*1 ↔ rtc (link st) root c) ∧
  (∀ c data, (c, data) ∈ res →
     bs_get (blockstore st) c = Ok (Some data) ∧ block_new c data = true).
Proof.
  rewrite dag_traversal_unfold. intros Ho.
  destruct (dag_loop_inv _ _ _ _ _ _ _ Ho (dag_inv_init st root)) as [refs Hi].
  destruct Hi as [Hr Hnd Hre Hro Hcl Hd]. split; [done|]. split; [|done].
  intros c. split; [set_solver|]. intros Hrt. apply Hr.
  apply (rtc_closed (link st) (.∈ refs) root); [done|set_solver|].
  intros a b Ha Hab. specialize (Hcl _ _ Ha Hab). set_solver.
Qed.

(** The links of every visited block were read. *)
Lemma dag_loop_sound {hi : HashIter Cid} st root fuel current refs res out :
  dag_loop st root fuel current refs res = Some (Ok out) →
  (∀ c, c ∈ res.*1 → sound_block st c) → ∀ c, c ∈ out.*1 → sound_block st c.
Proof.
  revert current refs res. induction fuel as [|fuel IH]; intros current refs res;
    simpl; [done|].
  destruct (hash_first fuel current) as [c|]; [|by intros [= ->]].
  case_decide; [by apply IH|].
  destruct (dag_visit st root c) as [[[o data] links]| |] eqn:Hv; try done.
  apply dag_visit_ok in Hv as (-> & Hg & Hb & Hr). intros Hl Hs. eapply IH; [done|].
  intros x. rewrite fmap_app, elem_of_app. intros [?| ->%list_elem_of_singleton]; [by apply Hs|].
  by exists data, links.
Qed.

Lemma dag_traversal_sound {hi : HashIter Cid} st fuel root res :
  dag_traversal st fuel root = Some (Ok res) →
  ∀ c, rtc (link st) root c → sound_block st c.
Proof.
  intros Ho c. destruct (dag_traversal_inv _ _ _ _ Ho) as (_ & Hr & _).
  rewrite <- Hr. rewrite dag_traversal_unfold in Ho.
  apply (dag_loop_sound _ _ _ _ _ _ _ Ho). intros x Hx. by apply not_elem_of_nil in Hx.
Qed.

(** Sets of identifiers of a result are closed under links. *)
Lemma reachable_closed st root (D : gset Cid) :
  (∀ c, c ∈ D ↔ rtc (link st) root c) →
  root ∈ D ∧ ∀ a b, a ∈ D → link st a b → b ∈ D.
Proof.
  intros HD. split; [apply HD, rtc_refl|]. intros a b Ha Hab.
  apply HD. eapply rtc_r; [by apply HD|done].
Qed.

Lemma NoDup_of_keys (l : list (Cid * bytes)) : NoDup l.*1 → NoDup l.
Proof. apply NoDup_fmap_1. Qed.

(** Two lists of blocks with the same identifiers, from stores that agree. *)
Lemma same_blocks (l l' : list (Cid * bytes)) (get : Cid → option bytes) :
  NoDup l.*1 → NoDup l'.*1 → (∀ c, c ∈ l.*1 ↔ c ∈ l'.*1) →
  (∀ c d, (c, d) ∈ l → get c = Some d) → (∀ c d, (c, d) ∈ l' → get c = Some d) → l ≡ₚ l'.
Proof.
  intros Hnd Hnd' Hk Hl Hl'. apply NoDup_Permutation; [by apply NoDup_of_keys..|].
  assert (∀ l l' : list (Cid * bytes), (∀ c, c ∈ l.*1 → c ∈ l'.*1) →
    (∀ c d, (c, d) ∈ l → get c = Some d) → (∀ c d, (c, d) ∈ l' → get c = Some d) →
    ∀ x, x ∈ l → x ∈ l') as Hsub.
  { clear. intros l l' Hk Hl Hl' [c d] Hx.
    destruct (proj1 (list_elem_of_fmap fst l' c)) as ([c' d'] & -> & Hx').
    { apply Hk, list_elem_of_fmap. by exists (c, d). }
    simpl in *. pose proof (Hl _ _ Hx). pose proof (Hl' _ _ Hx'). congruence. }
  intros x. split; apply Hsub; try done; intros c; by apply Hk.
Qed.

Definition got st (c : Cid) : option bytes :=
  match bs_get (blockstore st) c with Ok o => o | _ => None end.

(** A closed set of blocks looks the same from every store that holds it. *)
Lemma link_agree (st st' : Store (DB:=DB)) (l : list (Cid * bytes)) :
  (∀ c d, (c, d) ∈ l → bs_get (blockstore st) c = Ok (Some d)) →
  (∀ c d, (c, d) ∈ l → bs_get (blockstore st') c = Ok (Some d)) →
  ∀ a b, a ∈ l.*1 → link st a b → link st' a b.
Proof.
  intros Hl Hl' a b ([a' d] & -> & Hx)%list_elem_of_fmap (data & refs & Hg & Hr & Hb).
  simpl in *. rewrite (Hl _ _ Hx) in Hg. injection Hg as ->. exists data, refs. by rewrite (Hl' _ _ Hx).
Qed.

(** What one node gets of a DAG, every node gets whose store holds these blocks,
    whatever else it holds and in whatever order its hash sets yield. *)
Lemma traversal_transfers (h1 h2 : HashIter Cid) st st' fuel root res :
  dag_traversal (hi:=h1) st fuel root = Some (Ok res) →
  (∀ c d, (c, d) ∈ res → bs_get (blockstore st') c = Ok (Some d)) →
  ∃ res', dag_traversal (hi:=h2) st' (dag_fuel (list_to_set res.*1)) root = Some (Ok res') ∧
    res' ≡ₚ res.
Proof.
  intros Ho Hst'. pose proof (dag_traversal_sound (hi:=h1) _ _ _ _ Ho) as Hs.
  apply dag_traversal_inv in Ho as (Hnd & Hr & Hd).
  assert (∀ c d, (c, d) ∈ res → bs_get (blockstore st) c = Ok (Some d)) as Hst
    by by intros c d [? _]%Hd.
  destruct (reachable_closed st root (list_to_set res.*1)) as [Hroot HD].
  { intros c. by rewrite elem_of_list_to_set. }
  assert (∀ a b, a ∈ (list_to_set res.*1 : gset Cid) → link st' a b → b ∈ (list_to_set res.*1 : gset Cid))
    as HD'.
  { intros a b Ha Hab. apply (HD a); [done|]. apply elem_of_list_to_set in Ha.
    exact (link_agree st' st res Hst' Hst a b Ha Hab). }
  assert (∀ c, rtc (link st') root c ↔ rtc (link st) root c) as Hrtc.
  { intros c. split; intros Hrt.
    - apply Hr. rewrite <- (elem_of_list_to_set (C:=gset Cid)).
      by apply (rtc_closed (link st') (.∈ (list_to_set res.*1 : gset Cid)) root).
    - revert c Hrt. apply (rtc_ind_r (λ c, rtc (link st') root c) root); [apply rtc_refl|].
      intros y z Hy Hyz IH. eapply rtc_r; [exact IH|].
      eapply (link_agree st st' res Hst Hst'); [by apply Hr|done]. }
  destruct (dag_traversal_whole (hi:=h2) st' _ root Hroot HD')
    as (res' & Ho' & Hnd' & Hr' & Hd').
  { intros c Hrt%Hrtc. pose proof (Hs _ Hrt) as (data & refs & Hg & Hb & Hre).
    apply Hr, list_elem_of_fmap in Hrt as ([c' d] & -> & Hx). simpl in *.
    rewrite (Hst _ _ Hx) in Hg. injection Hg as ->. exists data, refs. by rewrite (Hst' _ _ Hx). }
  exists res'. split; [done|]. apply (same_blocks _ _ (got st')); [done|done| | |].
  - intros c. by rewrite Hr', Hrtc, Hr.
  - intros c d Hx. unfold got. by rewrite (Hd' _ _ Hx).
  - intros c d Hx. unfold got. by rewrite (Hst' _ _ Hx).
Qed.

(** C15: which DAG is returned, and whether one is, does not depend on the order
    in which the hash set yields its elements: when the traversal succeeds in
    one order, it succeeds in every other one within a number of rounds set by
    the size of the result, and returns the same blocks. *)
Theorem traversal_order_irrelevant (h1 h2 : HashIter Cid) st fuel root res :
  dag_traversal (hi:=h1) st fuel root = Some (Ok res) →
  ∃ res', dag_traversal (hi:=h2) st (dag_fuel (list_to_set res.*1)) root = Some (Ok res') ∧
    res' ≡ₚ res.
Proof.
  intros Ho. apply (traversal_transfers h1 h2 st st fuel root res Ho).
  apply dag_traversal_inv in Ho as (_ & _ & Hd). by intros c d [? _]%Hd.
Qed.

(** C32: among blocks that are absent or sound, the two searches agree: bitswap
    finds nothing missing under a root exactly when the traversal of the root
    succeeds. *)
Theorem searches_agree {hi : HashIter Cid} st D root fuel m :
  root ∈ D → (∀ a b, a ∈ D → link st a b → b ∈ D) →
  (∀ c, rtc (link st) root c → absent st c ∨ sound_block st c) →
  missing_blocks st fuel root = Some (Ok m) →
  m = [] ↔ is_Some (dag_traversal st (dag_fuel D) root ≫= λ o,
             match o with Ok res => Some res | _ => None end).
Proof.
  intros Hr HD Hs Hm. pose proof (missing_loop_spec _ _ _ _ _ Hm) as Hc. split.
  - intros ->. destruct (dag_traversal_whole st D root Hr HD) as (res & Ho & _).
    + intros c Hrt. destruct (Hs c Hrt) as [Ha|?]; [|done].
      specialize (Hc c). set_solver.
    + rewrite Ho. by eexists.
  - intros [res Hres]. destruct m as [|c m]; [done|exfalso].
    destruct (proj1 (Hc c) ltac:(left)) as [?%not_elem_of_nil|(r & ->%list_elem_of_singleton & Hrt & Ha)];
      [done|].
    destruct (dag_traversal st (dag_fuel D) root) as [[res'| |]|] eqn:Ho; simpl in Hres; try done.
    destruct (dag_traversal_sound _ _ _ _ Ho c Hrt) as (d & l & Hg & _).
    unfold absent in Ha. congruence.
Qed.
End order.

(** ** The cost of the search for missing blocks

    [missing_blocks] keeps no set of what it has seen. *)

Section cost.
  Context {DB : Type} {cl : CidLib} {il : IpldLib} {bs : BlockStore DB}.
  Implicit Types (st : Store (DB:=DB)) (a b c root : Cid).

(** [n] stored blocks in a row, each of which links twice to the next one. *)
Inductive doubled st : nat → Cid → Cid → Prop :=
| doubled_end c : doubled st 0 c c
| doubled_next n a b last data :
    bs_get (blockstore st) a = Ok (Some data) → references a data = Ok [b; b] →
    doubled st n b last → doubled st (S n) a last.

(** The rounds it takes to get through such a row. *)
Definition doubled_rounds (n : nat) : nat := 2 ^ S n - 1.

Lemma doubled_rounds_S n : doubled_rounds (S n) = S (doubled_rounds n + doubled_rounds n).
Proof.
  unfold doubled_rounds. pose proof (Nat.pow_nonzero 2 n ltac:(lia)).
  rewrite (Nat.pow_succ_r' 2 (S n)), (Nat.pow_succ_r' 2 n). lia.
Qed.

Lemma missing_loop_doubled st n c last fuel stack acc :
  doubled st n c last → absent st last →
  missing_loop st (doubled_rounds n + fuel) (c :: stack) acc =
    missing_loop st fuel stack (acc ++ replicate (2 ^ n) last).
Proof.
  intros Hd Ha. revert fuel stack acc.
  induction Hd as [c|n a b last data Hg Hr Hd IH]; intros fuel stack acc.
  - apply get_ok in Ha. simpl. by rewrite Ha.
  - apply get_ok in Hg. rewrite doubled_rounds_S. simpl. rewrite Hg, Hr. simpl.
    rewrite <- Nat.add_assoc, !IH by done.
    rewrite <- app_assoc, <- replicate_add. do 3 f_equal. lia.
Qed.

(** C20: the search for missing blocks takes exponential time: on [n] small blocks
    in a row that link twice to the next one it needs [2 ^ (n + 1)] rounds, and
    lists the one block missing at the end [2 ^ n] times. *)
Theorem missing_blocks_exponential st n root last fuel :
  doubled st n root last → absent st last →
  missing_blocks st fuel root =
    if decide (2 ^ S n ≤ fuel) then Some (Ok (replicate (2 ^ n) last)) else None.
Proof.
  intros Hd Ha. unfold missing_blocks.
  pose proof (Nat.pow_nonzero 2 (S n) ltac:(lia)) as Hn.
  pose proof (λ f, missing_loop_doubled st n root last f [] [] Hd Ha) as Hl.
  case_decide as Hf.
  - replace fuel with (doubled_rounds n + S (fuel - 2 ^ S n))
      by (unfold doubled_rounds; lia). by rewrite Hl.
  - destruct (missing_loop st fuel [root] []) as [o|] eqn:Ho; [exfalso|done].
    apply (missing_loop_more _ _ (doubled_rounds n + 0)) in Ho;
      [|unfold doubled_rounds; lia]. by rewrite Hl in Ho.
Qed.
End cost.

(** ** Evaluation on concrete stores *)

Import Samples.

(** A hash set that yields its elements from the other end. *)
#[program] Definition sample_last_iter : HashIter Cid :=
  {| hash_first _ s := last (elements s) |}.
Next Obligation.
  simpl. intros _ s Hs%last_None. apply leibniz_equiv, elements_empty_inv. done.
Qed.
Next Obligation.
  simpl. intros _ s a [l Hl]%last_Some. apply elem_of_elements. rewrite Hl. set_solver.
Qed.

Lemma traversal_order_irrelevant_witness :
  ∃ res, dag_traversal (hi:=sample_last_iter) sample_dag
      (dag_fuel (list_to_set sample_blocks)) (sid x03) = Some (Ok res) ∧
    res ≡ₚ [(sid x03, [x02; x01]); (sid x02, [x01]); (sid x01, [])].
Proof.
  apply (traversal_order_irrelevant sample_hash_iter sample_last_iter sample_dag 20 (sid x03)
    [(sid x03, [x02; x01]); (sid x02, [x01]); (sid x01, [])]).
  vm_compute. reflexivity.
Defined.

Lemma searches_agree_witness :
  [sid x00] ≠ [] ∧
  ¬ is_Some (dag_traversal sample_dag (dag_fuel (list_to_set sample_partial)) (sid x04) ≫= λ o,
       match o with Ok res => Some res | _ => None end).
Proof.
  split; [done|]. intros Hs.
  by apply (searches_agree sample_dag (list_to_set sample_partial) (sid x04) 20 [sid x00])
    in Hs; [|set_solver| |apply sample_partial_status|vm_compute; reflexivity];
    [|intros a b; apply closed_check_set; reflexivity].
Defined.

(** Two blocks in a row that link twice, and an absent one. *)
Definition sample_doubled : Store :=
  new (<[ [x01] := [x02; x02] ]> (<[ [x02] := [x03; x03] ]> (∅ : sample_db))).

Lemma missing_blocks_exponential_witness :
  missing_blocks sample_doubled 8 (sid x01) = Some (Ok (replicate 4 (sid x03))) ∧
  missing_blocks sample_doubled 7 (sid x01) = None.
Proof.
  assert (doubled sample_doubled 2 (sid x01) (sid x03)) as Hd.
  { eapply doubled_next; [reflexivity..|]. eapply doubled_next; [reflexivity..|]. constructor. }
  split; rewrite (missing_blocks_exponential _ _ _ _ _ Hd) by reflexivity; reflexivity.
Defined.
