(* ===== verification/Paths.v ===== *)
(** [std::path::PathBuf] on Unix, as far as the sources use it: [join],
    [set_extension] and [parent].  A path is its string. *)

From S2P Require Import Prelude.
From Stdlib Require Import Ascii.

Abbreviation PathBuf := string.

Definition chars (s : string) : list ascii := String.list_ascii_of_string s.
Definition of_chars (l : list ascii) : string := String.string_of_list_ascii l.

Lemma of_chars_chars s : of_chars (chars s) = s.
Proof. apply String.string_of_list_ascii_of_string. Qed.
Lemma chars_of_chars l : chars (of_chars l) = l.
Proof. apply String.list_ascii_of_string_of_list_ascii. Qed.

Lemma chars_app s t : chars (s +:+ t) = chars s ++ chars t.
Proof. induction s as [|a s IH]; [done|]. simpl. by rewrite IH. Qed.

Definition slash : ascii := "/"%char.
Definition dot : ascii := "."%char.

(** [self.join(path)]: an absolute [path] replaces, a relative one is
    appended behind a separator, which an empty or slash-ended base lacks. *)
Definition join (self path : PathBuf) : PathBuf :=
  if bool_decide (head (chars path) = Some slash) then path
  else match last (chars self) with
       | Some c => if bool_decide (c = slash) then self +:+ path
                   else self +:+ "/" +:+ path
       | None => path
       end.

(** The longest suffix without [c], and what precedes it. *)
Fixpoint split_last (c : ascii) (l : list ascii) : list ascii * list ascii :=
  match l with
  | [] => ([], [])
  | x :: l =>
    match split_last c l with
    | ([], suffix) =>
      if bool_decide (x = c) then ([x], suffix)
      else ([], x :: suffix)
    | (prefix, suffix) => (x :: prefix, suffix)
    end
  end.

(** Drops the separators and [.] components a path ends with; they are not
    components of the path. *)
Fixpoint trim_end (fuel : nat) (l : list ascii) : list ascii :=
  match fuel with
  | O => l
  | S fuel =>
    match split_last slash l with
    | (_ :: _ :: _ as prefix, []) => trim_end fuel (removelast prefix)
    | (_ :: _ as prefix, [c]) =>
      if bool_decide (c = dot) then trim_end fuel prefix else l
    | _ => l
    end
  end.

(** The path up to its last component, and that component when it names a
    file: [file_name] of the empty path, of [/], [.] and [..] is [None]. *)
Definition split_file_name (l : list ascii) : option (list ascii * list ascii) :=
  let '(prefix, name) := split_last slash (trim_end (length l) l) in
  if bool_decide (name = [] ∨ name = [dot; dot] ∨ (prefix = [] ∧ name = [dot]))
  then None else Some (prefix, name).

(** [file_stem]: the name up to its last dot, the whole name when it has none
    or only a leading one. *)
Definition file_stem (name : list ascii) : list ascii :=
  match split_last dot name with
  | ([], _) | ([_], _) => name
  | (prefix, _) => removelast prefix
  end.

(** [self.set_extension(extension)] for an extension that is not empty. *)
Definition set_extension (self : PathBuf) (extension : string) : PathBuf :=
  match split_file_name (chars self) with
  | None => self
  | Some (prefix, name) =>
    of_chars (prefix ++ file_stem name ++ dot :: chars extension)
  end.

(** [self.parent()]: the path without its last component; a root and the empty
    path have none. *)
Definition parent (self : PathBuf) : option PathBuf :=
  let l := chars self in
  let '(prefix, name) := split_last slash (trim_end (length l) l) in
  if bool_decide (name = []) then None
  else Some (of_chars (trim_end (length prefix) prefix)).

(** ** File names *)

(** A name that is one component of a path and not a special one. *)
Definition plain_name (name : string) : Prop :=
  slash ∉ chars name ∧ name ≠ "" ∧ name ≠ "." ∧ name ≠ "..".

Lemma split_last_notin c l : c ∉ l → split_last c l = ([], l).
Proof.
  induction l as [|x l IH]; intros Hc; [done|]. simpl.
  rewrite IH by set_solver. by rewrite bool_decide_eq_false_2 by set_solver.
Qed.

Lemma split_last_app c l1 l2 :
  c ∉ l2 → split_last c (l1 ++ c :: l2) = (l1 ++ [c], l2).
Proof.
  intros Hc. induction l1 as [|x l1 IH]; simpl.
  - rewrite split_last_notin by done. by rewrite bool_decide_eq_true_2.
  - rewrite IH. by destruct l1.
Qed.

Lemma trim_end_name fuel l1 name :
  plain_name name → trim_end fuel (l1 ++ slash :: chars name) =
    l1 ++ slash :: chars name.
Proof.
  intros (Hs & He & Hd & _). destruct fuel; simpl; [done|].
  rewrite split_last_app by done.
  destruct (chars name) as [|x [|y l]] eqn:Hn.
  - destruct He. by rewrite <- (of_chars_chars name), Hn.
  - assert (x ≠ dot) as Hx.
    { intros ->. apply Hd. by rewrite <- (of_chars_chars name), Hn. }
    rewrite bool_decide_eq_false_2 by done. by destruct l1 as [|? [|??]].
  - by destruct l1 as [|? [|??]].
Qed.

Lemma trim_end_plain fuel name :
  plain_name name → trim_end fuel (chars name) = chars name.
Proof.
  intros (Hs & _). destruct fuel; simpl; [done|]. by rewrite split_last_notin.
Qed.

Lemma plain_not_special name :
  plain_name name → ¬ (chars name = [] ∨ chars name = [dot; dot]).
Proof.
  intros (_ & He & _ & Hd) [Hn|Hn]; [apply He|apply Hd];
    by rewrite <- (of_chars_chars name), Hn.
Qed.

Lemma chars_join dir name :
  plain_name name →
  chars (join dir name) = chars name ∨
  ∃ l, chars (join dir name) = l ++ slash :: chars name.
Proof.
  intros (Hs & He & _). unfold join.
  rewrite bool_decide_eq_false_2 by (destruct (chars name); set_solver).
  destruct (last (chars dir)) as [c|] eqn:Hl; [|by left]. right.
  case_bool_decide as Hc; rewrite !chars_app; [|by eauto].
  subst c. apply last_Some in Hl as [l ->]. exists l. by rewrite <- app_assoc.
Qed.

Lemma split_file_name_join dir name :
  plain_name name →
  ∃ prefix, split_file_name (chars (join dir name)) = Some (prefix, chars name) ∧
    chars (join dir name) = prefix ++ chars name.
Proof.
  intros Hp. pose proof (plain_not_special _ Hp) as Hsp. pose proof Hp as (Hs & _ & Hd & _).
  unfold split_file_name. destruct (chars_join dir name Hp) as [Hj|[l Hj]]; rewrite Hj.
  - exists []. rewrite trim_end_plain, split_last_notin by done.
    rewrite bool_decide_eq_false_2; [done|]. intros [?|[?|[_ Hn]]]; [naive_solver..|].
    apply Hd. by rewrite <- (of_chars_chars name), Hn.
  - exists (l ++ [slash]). rewrite trim_end_name, split_last_app by done.
    rewrite bool_decide_eq_false_2; [by rewrite <- app_assoc|].
    intros [?|[?|[Hn _]]]; [naive_solver..|]. by destruct l.
Qed.

Lemma file_stem_no_dot name : dot ∉ name → file_stem name = name.
Proof. intros Hd. unfold file_stem. by rewrite split_last_notin. Qed.

Lemma file_stem_dot stem ext :
  stem ≠ [] → dot ∉ ext → file_stem (stem ++ dot :: ext) = stem.
Proof.
  intros Hs Hd. unfold file_stem. rewrite split_last_app by done.
  destruct stem as [|x [|y l]]; [done|done|].
  exact (removelast_last (x :: y :: l) dot).
Qed.
