(* ===== verification/NetConfig.v ===== *)
(** The configuration of the network crate
    ([src/crates/ursa-network/src/config.rs]) and the gossipsub parameters
    chosen from it ([src/crates/ursa-network/src/gossipsub.rs]). *)

From S2P Require Import Prelude Libs Paths.

Definition DEFAULT_BOOTSTRAP : list string :=
  ["/ip4/159.223.211.234/tcp/6009/p2p/12D3KooWDji7xMLia6GAsyr4oiEFD2dd3zSryqNhfxU3Grzs1r9p";
   "/ip4/146.190.232.131/tcp/6009/p2p/12D3KooWGw8vCj9XayJDMXUiox6pCUFm7oVuWkDJeE2H9SDQVEcM"].

Definition DEFAULT_DB_PATH_STR : string := ".ursa/data/ursa_db".
Definition DEFAULT_KEYSTORE_PATH_STR : string := ".ursa/keystore".

Section config.
  Context {nl : NetLib} {ml : MultiaddrLib}.

Record NetworkConfig := {
  mdns : bool;
  relay_server : bool;
  autonat : bool;
  relay_client : bool;
  bootstrapper : bool;
  swarm_addr : Multiaddr;
  bootstrap_nodes : list Multiaddr;
  database_path : PathBuf;
  identity : string;
  keystore_path : PathBuf;
}.

(** [node.parse().unwrap()] for each node. *)
Fixpoint parse_all (l : list string) : outcome string (list Multiaddr) :=
  match l with
  | [] => Ok []
  | s :: l =>
    m ← unwrap (ma_from_str s);
    ms ← parse_all l;
    Ok (m :: ms)
  end.

(** [NetworkConfig::default()]; [home] is the value of [env!("HOME")]. *)
Definition NetworkConfig_default (home : string) : outcome string NetworkConfig :=
  bootstrap_nodes ← parse_all DEFAULT_BOOTSTRAP;
  swarm_addr ← unwrap (ma_from_str "/ip4/0.0.0.0/tcp/6009");
  Ok {|
    mdns := false;
    autonat := true;
    relay_client := true;
    relay_server := true;
    bootstrap_nodes := bootstrap_nodes;
    bootstrapper := false;
    swarm_addr := swarm_addr;
    database_path := join home DEFAULT_DB_PATH_STR;
    identity := "default";
    keystore_path := join home DEFAULT_KEYSTORE_PATH_STR;
  |}.

(** ** [UrsaGossipsub::new] *)

Definition URSA_GOSSIP_PROTOCOL : string := "ursa/gossipsub/0.0.1".

(** The values the builder is given; times are in seconds. *)
Record GossipsubConfig := {
  protocol_id_prefix : string;
  mesh_n : N;
  mesh_n_low : N;
  mesh_n_high : N;
  gossip_lazy : N;
  heartbeat_interval : N;
  fanout_ttl : N;
  max_transmit_size : N;
  duplicate_cache_time : N;
  validate_messages : bool;
  allow_self_origin : bool;
  mesh_outbound_min : N;
  max_messages_per_rpc : option N;
}.

Definition gossip_config (config : NetworkConfig) : GossipsubConfig :=
  let is_bootstrapper := bootstrapper config in
  let mesh_n := if is_bootstrapper then 0%N else 8%N in
  let mesh_n_low := if is_bootstrapper then 0%N else 4%N in
  let mesh_n_high := if is_bootstrapper then 0%N else 12%N in
  let gossip_lazy := mesh_n in
  let mesh_outbound_min := if is_bootstrapper then 0%N else (mesh_n / 2 - 1)%N in
  {|
    protocol_id_prefix := URSA_GOSSIP_PROTOCOL;
    mesh_n := mesh_n;
    mesh_n_low := mesh_n_low;
    mesh_n_high := mesh_n_high;
    gossip_lazy := gossip_lazy;
    heartbeat_interval := 1;
    fanout_ttl := 60;
    max_transmit_size := 4 * 1024 * 1024;
    duplicate_cache_time := 60;
    validate_messages := true;
    allow_self_origin := true;
    mesh_outbound_min := mesh_outbound_min;
    max_messages_per_rpc := Some 1%N;
  |}.

(** [message_id_fn]: the decimal form of the 64-bit hash of the message's
    data; [hash] is the standard library's [DefaultHasher]. *)
Definition message_id_fn (hash : bytes → N) (data : bytes) : string :=
  pretty.pretty (hash data `mod` 2 ^ 64)%N.

(** ** Properties *)

(** In either mode the mesh parameters are ordered as gossipsub requires,
    [mesh_outbound_min <= mesh_n_low <= mesh_n <= mesh_n_high] with
    [2 * mesh_outbound_min <= mesh_n], and [gossip_lazy] is [mesh_n]; an
    ordinary node moreover keeps [mesh_outbound_min] under [mesh_n_low]. *)
Theorem gossip_config_ordered (config : NetworkConfig) :
  let g := gossip_config config in
  (mesh_outbound_min g ≤ mesh_n_low g ≤ mesh_n g)%N ∧
  (mesh_n g ≤ mesh_n_high g)%N ∧ (2 * mesh_outbound_min g ≤ mesh_n g)%N ∧
  gossip_lazy g = mesh_n g ∧
  (bootstrapper config = false → (mesh_outbound_min g < mesh_n_low g)%N).
Proof.
  unfold gossip_config. destruct (bootstrapper config); cbn -[N.mul N.div N.sub];
    split_and!; intros; try lia; done.
Qed.
End config.
