(* ===== verification/Discovery.v ===== *)
(** Peer discovery ([src/crates/ursa-network/src/discovery.rs]): the set of
    connected peers, the queue of connection events and the polling of
    Kademlia and mDNS. *)

From S2P Require Import Prelude Libs.
From S2P Require NetConfig Samples.

Definition URSA_KAD_PROTOCOL : bytes := as_bytes "/ursa/kad/0.0.1".

Section discovery.
  Context {nl : NetLib} {ml : MultiaddrLib} {sw : SwarmTypes}.
  Context {kl : KadLib} {md : MdnsLib}.

Record PeerInfo := { info_peer_id : PeerId; info_addresses : list Multiaddr }.

Inductive DiscoveryEvent :=
| Connected (peer : PeerId)
| Disconnected (peer : PeerId).

Record DiscoveryBehaviour := {
  local_peer_id : PeerId;
  kademlia : Kad;
  bootstrap_nodes : list (PeerId * Multiaddr);
  peers : gset PeerId;
  peer_info : gmap PeerId PeerInfo;
  events : list DiscoveryEvent;
  mdns : option Mdns;
}.

Definition with_kademlia (k : Kad) (d : DiscoveryBehaviour) : DiscoveryBehaviour :=
  {| local_peer_id := local_peer_id d; kademlia := k;
     bootstrap_nodes := bootstrap_nodes d; peers := peers d;
     peer_info := peer_info d; events := events d; mdns := mdns d |}.
Definition with_mdns (m : option Mdns) (d : DiscoveryBehaviour) : DiscoveryBehaviour :=
  {| local_peer_id := local_peer_id d; kademlia := kademlia d;
     bootstrap_nodes := bootstrap_nodes d; peers := peers d;
     peer_info := peer_info d; events := events d; mdns := m |}.
Definition with_peers (p : gset PeerId) (e : list DiscoveryEvent)
    (d : DiscoveryBehaviour) : DiscoveryBehaviour :=
  {| local_peer_id := local_peer_id d; kademlia := kademlia d;
     bootstrap_nodes := bootstrap_nodes d; peers := p;
     peer_info := peer_info d; events := e; mdns := mdns d |}.

(** The [filter_map] of [new]: an address that ends in a [P2p] component gives
    the peer and the address before it, any other is skipped; a component that
    is not a peer identifier panics. *)
Fixpoint parse_bootstrap (l : list Multiaddr)
    : outcome string (list (PeerId * Multiaddr)) :=
  match l with
  | [] => Ok []
  | multiaddr :: l =>
    match ma_pop multiaddr with
    | (Some (P2p mh), addr) =>
      peer_id ← unwrap_opt (peer_from_multihash mh);
      rest ← parse_bootstrap l;
      Ok ((peer_id, addr) :: rest)
    | _ => parse_bootstrap l
    end
  end.

Definition replication_factor : N := 8.

(** [DiscoveryBehaviour::new], given the peer identifier of the keypair. *)
Definition new (local_peer_id : PeerId) (config : NetConfig.NetworkConfig)
    : outcome string DiscoveryBehaviour :=
  nodes ← parse_bootstrap (NetConfig.bootstrap_nodes config);
  mdns ← (if NetConfig.mdns config
          then m ← unwrap mdns_new; Ok (Some m) else Ok None);
  Ok {|
    local_peer_id := local_peer_id;
    kademlia := kad_with_config local_peer_id URSA_KAD_PROTOCOL replication_factor;
    bootstrap_nodes := nodes;
    peers := ∅;
    peer_info := ∅;
    events := [];
    mdns := mdns;
  |}.

Definition add_address (peer_id : PeerId) (address : Multiaddr)
    (d : DiscoveryBehaviour) : DiscoveryBehaviour :=
  with_kademlia (kad_add_address peer_id address (kademlia d)) d.

Definition bootstrap_addrs (d : DiscoveryBehaviour) : list (PeerId * Multiaddr) :=
  bootstrap_nodes d.

Definition add_addresses (l : list (PeerId * Multiaddr)) (d : DiscoveryBehaviour)
    : DiscoveryBehaviour :=
  foldl (λ d pa, add_address pa.1 pa.2 d) d l.

Definition bootstrap : stM DiscoveryBehaviour string KadQueryId := λ d,
  let d := add_addresses (bootstrap_addrs d) d in
  match bootstrap_nodes d with
  | [] => (Err "No bootstrap nodes configured", d)
  | _ => let '(r, k) := kad_bootstrap (kademlia d) in (r, with_kademlia k d)
  end.

(** Logs the event; the closest peers it may carry are dropped. *)
Definition handle_kad_event (event : KadEvent) (d : DiscoveryBehaviour)
    : DiscoveryBehaviour := d.

Definition handle_mdns_event (event : MdnsEvent) (d : DiscoveryBehaviour)
    : DiscoveryBehaviour :=
  match event with
  | Discovered discovered_peers => add_addresses discovered_peers d
  | Expired _ => d
  end.

(** ** [impl NetworkBehaviour for DiscoveryBehaviour] *)

Definition new_handler (d : DiscoveryBehaviour) : KadHandler * DiscoveryBehaviour :=
  let '(h, k) := kad_new_handler (kademlia d) in (h, with_kademlia k d).

Definition addresses_of_peer (peer_id : PeerId) (d : DiscoveryBehaviour)
    : list Multiaddr * DiscoveryBehaviour :=
  let '(addrs, k) := kad_addresses_of_peer peer_id (kademlia d) in
  let d := with_kademlia k d in
  match mdns d with
  | None => (addrs, d)
  | Some m =>
    let '(more, m) := mdns_addresses_of_peer peer_id m in
    (addrs ++ more, with_mdns (Some m) d)
  end.

Definition inject_connection_established (peer_id : PeerId)
    (connection_id : ConnectionId) (endpoint : ConnectedPoint)
    (failed_addresses : option (list Multiaddr)) (other_established : N)
    (d : DiscoveryBehaviour) : DiscoveryBehaviour :=
  if decide (peer_id ∈ peers d) then d
  else
    with_peers ({[peer_id]} ∪ peers d) (push_back (Connected peer_id) (events d))
      (with_kademlia
        (kad_connection_established peer_id connection_id endpoint
           failed_addresses other_established (kademlia d)) d).

Definition inject_connection_closed (peer_id : PeerId)
    (connection_id : ConnectionId) (endpoint : ConnectedPoint)
    (handler : ConnectionHandler) (remaining_established : N)
    (d : DiscoveryBehaviour) : DiscoveryBehaviour :=
  if decide (peer_id ∈ peers d) then
    with_peers (peers d ∖ {[peer_id]}) (push_back (Disconnected peer_id) (events d))
      (with_kademlia
        (kad_connection_closed peer_id connection_id endpoint handler
           remaining_established (kademlia d)) d)
  else d.

Definition inject_address_change (peer_id : PeerId)
    (connection_id : ConnectionId) (old new : ConnectedPoint)
    (d : DiscoveryBehaviour) : DiscoveryBehaviour :=
  with_kademlia (kad_address_change peer_id connection_id old new (kademlia d)) d.

Definition inject_event (peer_id : PeerId) (connection : ConnectionId)
    (event : KadHandlerEvent) (d : DiscoveryBehaviour) : DiscoveryBehaviour :=
  with_kademlia (kad_inject_event peer_id connection event (kademlia d)) d.

(** An action of Kademlia or mDNS passed on to the swarm. *)
Definition forward {E F} (action : NetworkBehaviourAction E)
    : option (NetworkBehaviourAction F) :=
  match action with
  | GenerateEvent _ => None
  | Dial opts => Some (Dial opts)
  | NotifyHandler call => Some (NotifyHandler call)
  | ReportObservedAddr address score => Some (ReportObservedAddr address score)
  | CloseConnection peer_id connection => Some (CloseConnection peer_id connection)
  end.

(** The two polling loops: [None] when the fuel runs out, otherwise the state
    and what [poll] returns early, if it does. *)
Fixpoint poll_kademlia (fuel : nat) (d : DiscoveryBehaviour)
    : option (option (NetworkBehaviourAction DiscoveryEvent) * DiscoveryBehaviour) :=
  match fuel with
  | O => None
  | S fuel =>
    match kad_poll (kademlia d) with
    | (None, k) => Some (None, with_kademlia k d)
    | (Some (GenerateEvent event), k) =>
      poll_kademlia fuel (handle_kad_event event (with_kademlia k d))
    | (Some action, k) => Some (forward action, with_kademlia k d)
    end
  end.

Fixpoint poll_mdns (fuel : nat) (d : DiscoveryBehaviour)
    : option (option (NetworkBehaviourAction DiscoveryEvent) * DiscoveryBehaviour) :=
  match fuel with
  | O => None
  | S fuel =>
    match mdns d with
    | None => Some (None, d)
    | Some m =>
      match mdns_poll m with
      | (None, m) => Some (None, with_mdns (Some m) d)
      | (Some (GenerateEvent event), m) =>
        poll_mdns fuel (handle_mdns_event event (with_mdns (Some m) d))
      | (Some (ReportObservedAddr address score), m) =>
        Some (Some (ReportObservedAddr address score), with_mdns (Some m) d)
      | (Some (CloseConnection peer_id connection), m) =>
        Some (Some (CloseConnection peer_id connection), with_mdns (Some m) d)
      | (Some (Dial _), m) | (Some (NotifyHandler _), m) =>
        poll_mdns fuel (with_mdns (Some m) d)
      end
    end
  end.

(** [poll]: the outer [None] is fuel exhaustion, the inner [Poll::Pending]. *)
Definition poll (fuel : nat) (d : DiscoveryBehaviour)
    : option (option (NetworkBehaviourAction DiscoveryEvent) * DiscoveryBehaviour) :=
  match pop_front (events d) with
  | Some (event, rest) =>
    Some (Some (GenerateEvent event), with_peers (peers d) rest d)
  | None =>
    match poll_kademlia fuel d with
    | None => None
    | Some (Some action, d) => Some (Some action, d)
    | Some (None, d) => poll_mdns fuel d
    end
  end.

End discovery.

(** ** Histories *)

Section history.
  Context {nl : NetLib} {ml : MultiaddrLib} {sw : SwarmTypes}.
  Context {kl : KadLib} {md : MdnsLib}.
  Implicit Types (d : DiscoveryBehaviour) (p : PeerId).

(** The event an action of [poll] delivers. *)
Definition delivered (action : option (NetworkBehaviourAction DiscoveryEvent))
    : list DiscoveryEvent :=
  match action with Some (GenerateEvent event) => [event] | _ => [] end.

(** One call on the behaviour, with the events it hands to the swarm. *)
Inductive step : DiscoveryBehaviour → list DiscoveryEvent → DiscoveryBehaviour → Prop :=
| step_established d p c ep fa n :
    step d [] (inject_connection_established p c ep fa n d)
| step_closed d p c ep h n :
    step d [] (inject_connection_closed p c ep h n d)
| step_address_change d p c old new :
    step d [] (inject_address_change p c old new d)
| step_event d p c e : step d [] (inject_event p c e d)
| step_add_address d p a : step d [] (add_address p a d)
| step_bootstrap d : step d [] (bootstrap d).2
| step_new_handler d : step d [] (new_handler d).2
| step_addresses d p : step d [] (addresses_of_peer p d).2
| step_poll d fuel a d' : poll fuel d = Some (a, d') → step d (delivered a) d'.

Inductive steps : DiscoveryBehaviour → list DiscoveryEvent → DiscoveryBehaviour → Prop :=
| steps_refl d : steps d [] d
| steps_snoc d out d' out' d'' :
    steps d out d' → step d' out' d'' → steps d (out ++ out') d''.

(** Reads a sequence of events as a set of peers: connecting a member or
    disconnecting a stranger is an error. *)
Fixpoint replay (s : gset PeerId) (l : list DiscoveryEvent) : option (gset PeerId) :=
  match l with
  | [] => Some s
  | Connected p :: l =>
    if decide (p ∈ s) then None else replay ({[p]} ∪ s) l
  | Disconnected p :: l =>
    if decide (p ∈ s) then replay (s ∖ {[p]}) l else None
  end.

Lemma replay_app s l l' : replay s (l ++ l') = replay s l ≫= λ s', replay s' l'.
Proof.
  revert s. induction l as [|[p|p] l IH]; intros s; simpl; [done|..];
    by case_decide.
Qed.

(** Connections minus disconnections. *)
Fixpoint balance (l : list DiscoveryEvent) : Z :=
  match l with
  | [] => 0
  | Connected _ :: l => 1 + balance l
  | Disconnected _ :: l => balance l - 1
  end.

Lemma balance_app l l' : balance (l ++ l') = (balance l + balance l')%Z.
Proof. induction l as [|[p|p] l IH]; simpl; lia. Qed.

Lemma replay_balance s l s' :
  replay s l = Some s' → Z.of_nat (size s') = (Z.of_nat (size s) + balance l)%Z.
Proof.
  revert s. induction l as [|[p|p] l IH]; intros s; simpl.
  - intros [= ->]. lia.
  - case_decide as Hp; [done|]. intros ->%IH.
    rewrite size_union by set_solver. rewrite size_singleton. lia.
  - case_decide as Hp; [|done]. intros ->%IH.
    rewrite size_difference by set_solver. rewrite size_singleton.
    assert (size s ≠ 0); [|lia]. apply size_non_empty_iff. set_solver.
Qed.

Lemma foldl_add_peers l d :
  peers (add_addresses l d) = peers d ∧ events (add_addresses l d) = events d ∧
  mdns (add_addresses l d) = mdns d ∧
  bootstrap_nodes (add_addresses l d) = bootstrap_nodes d.
Proof.
  unfold add_addresses. revert d. induction l as [|pa l IH]; intros d; [done|].
  simpl. by destruct (IH (add_address pa.1 pa.2 d)) as (-> & -> & -> & ->).
Qed.

Lemma bootstrap_peers d :
  peers (bootstrap d).2 = peers d ∧ events (bootstrap d).2 = events d.
Proof.
  unfold bootstrap.
  destruct (foldl_add_peers (bootstrap_addrs d) d) as (Hp & He & _).
  destruct (bootstrap_nodes _); [done|].
  by destruct (kad_bootstrap _).
Qed.

Lemma addresses_of_peer_peers p d :
  peers (addresses_of_peer p d).2 = peers d ∧
  events (addresses_of_peer p d).2 = events d.
Proof.
  unfold addresses_of_peer. destruct (kad_addresses_of_peer _ _). simpl.
  destruct (mdns d); [|done]. by destruct (mdns_addresses_of_peer _ _).
Qed.

Lemma poll_kademlia_spec fuel d a d' :
  poll_kademlia fuel d = Some (a, d') →
  peers d' = peers d ∧ events d' = events d ∧ delivered a = [].
Proof.
  revert d. induction fuel as [|fuel IH]; intros d; simpl; [done|].
  destruct (kad_poll (kademlia d)) as [[[]|] k]; simpl; intros Hp;
    simplify_eq/=; try done. by apply IH in Hp.
Qed.

Lemma poll_mdns_spec fuel d a d' :
  poll_mdns fuel d = Some (a, d') →
  peers d' = peers d ∧ events d' = events d ∧ delivered a = [].
Proof.
  revert d. induction fuel as [|fuel IH]; intros d; simpl; [done|].
  destruct (mdns d) as [m|]; [|intros [= <- <-]; done].
  destruct (mdns_poll m) as [[[event| | | |]|] m']; simpl; intros Hp;
    simplify_eq/=; try done; apply IH in Hp as (-> & -> & ?); try done.
  destruct event as [l|]; [|done]. simpl.
  by destruct (foldl_add_peers l (with_mdns (Some m') d)) as (-> & -> & _).
Qed.

(** [poll] hands out the oldest queued event, and touches neither the peers
    nor the queue otherwise. *)
Lemma poll_spec fuel d a d' :
  poll fuel d = Some (a, d') →
  peers d' = peers d ∧ events d = delivered a ++ events d'.
Proof.
  unfold poll. destruct (events d) as [|e l] eqn:He; simpl.
  - destruct (poll_kademlia fuel d) as [[[a0|] d1]|] eqn:Hk; [..|done];
      apply poll_kademlia_spec in Hk as (Hp & He1 & Hd).
    + intros [= <- <-]. split; [done|]. by rewrite Hd, He1, He.
    + intros (Hp2 & He2 & Hd2)%poll_mdns_spec. split; [congruence|].
      by rewrite Hd2, He2, He1, He.
  - intros [= <- <-]. done.
Qed.

(** The queue behind what was delivered tells the set of peers. *)
Definition consistent d (out : list DiscoveryEvent) : Prop :=
  replay ∅ (out ++ events d) = Some (peers d).

Lemma step_consistent d out d' out' :
  step d out' d' → consistent d out → consistent d' (out ++ out').
Proof.
  unfold consistent. intros Hs Hc. destruct Hs; rewrite ?app_nil_r; try done.
  - unfold inject_connection_established. case_decide as Hp; [done|]. simpl.
    unfold push_back. rewrite app_assoc, replay_app, Hc. simpl.
    by rewrite decide_False.
  - unfold inject_connection_closed. case_decide as Hp; [|done]. simpl.
    unfold push_back. rewrite app_assoc, replay_app, Hc. simpl.
    by rewrite decide_True.
  - by destruct (bootstrap_peers d) as [-> ->].
  - unfold new_handler. by destruct (kad_new_handler _).
  - by destruct (addresses_of_peer_peers p d) as [-> ->].
  - apply poll_spec in H as [-> He]. rewrite <- app_assoc. by rewrite <- He.
Qed.

Lemma new_fresh p config d :
  new p config = Ok d → peers d = ∅ ∧ events d = [].
Proof. unfold new. intros Hn. inv_bind. by injection Hn as <-. Qed.
End history.

(** ** Properties *)

Section properties.
  Context {nl : NetLib} {ml : MultiaddrLib} {sw : SwarmTypes}.
  Context {kl : KadLib} {md : MdnsLib}.
  Implicit Types (d : DiscoveryBehaviour) (p : PeerId).

(** After any sequence of calls on a new behaviour, the connection events
    handed out so far followed by those still queued connect only strangers,
    disconnect only members and lead from no peer to exactly the set [peers];
    connections minus disconnections is its size. *)
Theorem peers_history p config d0 out d :
  new p config = Ok d0 → steps d0 out d →
  replay ∅ (out ++ events d) = Some (peers d) ∧
  Z.of_nat (size (peers d)) = balance (out ++ events d).
Proof.
  intros [Hp He]%new_fresh Hs.
  assert (consistent d out) as Hc.
  { revert Hp He. induction Hs as [d0|d0 out d' out' d'' _ IH Hstep]; intros Hp He.
    - unfold consistent. by rewrite He, Hp.
    - eapply step_consistent; [done|]. by apply IH. }
  split; [done|]. apply replay_balance in Hc. rewrite size_empty in Hc. lia.
Qed.

(** The first close removes the peer and queues a disconnection whatever
    the number of connections that remain: of two connections to a peer,
    closing one leaves it out of [peers] with the other still open, and the
    later close is not reported to Kademlia. *)
Theorem close_ignores_remaining p c1 c2 ep1 ep2 fa1 fa2 h1 h2 n1 n2 n d :
  p ∉ peers d →
  let d2 := inject_connection_established p c2 ep2 fa2 n2
              (inject_connection_established p c1 ep1 fa1 n1 d) in
  let d3 := inject_connection_closed p c1 ep1 h1 n d2 in
  p ∈ peers d2 ∧ p ∉ peers d3 ∧
  events d3 = events d ++ [Connected p; Disconnected p] ∧
  inject_connection_closed p c2 ep2 h2 0 d3 = d3.
Proof.
  intros Hp. unfold inject_connection_established at 2.
  rewrite (decide_False (P:=p ∈ peers d)) by done.
  unfold inject_connection_established; simpl.
  rewrite decide_True by set_solver. unfold inject_connection_closed; simpl.
  rewrite decide_True by set_solver; simpl. rewrite decide_False by set_solver.
  unfold push_back. split_and!; [set_solver..| |done]. by rewrite <- app_assoc.
Qed.

(** Addresses that end in a peer component. *)
Definition names_peer (m : Multiaddr) : Prop :=
  match (ma_pop m).1 with Some (P2p _) => True | _ => False end.

#[global] Instance names_peer_dec m : Decision (names_peer m).
Proof. unfold names_peer. destruct (ma_pop m) as [[[]|] ?]; apply _. Defined.

(** The bootstrap nodes are the configured addresses that end in a peer
    component, in their order: appending the peer to the stored address gives
    the configured address back. *)
Theorem parse_bootstrap_addresses l nodes :
  parse_bootstrap l = Ok nodes →
  (λ pa, ma_push pa.2 (P2p (peer_multihash pa.1))) <$> nodes = filter names_peer l.
Proof.
  revert nodes. induction l as [|m l IH]; intros nodes; simpl; [by intros [= <-]|].
  rewrite filter_cons. destruct (decide (names_peer m)) as [Hn|Hn];
    unfold names_peer in Hn; destruct (ma_pop m) as [[[]|] a] eqn:Hpop;
    simpl in *; try done; try by apply IH.
  intros Hb. inv_bind. injection Hb as <-. simpl. f_equal; [|by apply IH].
  destruct (peer_from_multihash mh) as [p|] eqn:Hp; simplify_eq/=.
  rewrite (peer_into_multihash _ _ Hp). by apply ma_push_pop.
Qed.

(** [bootstrap] gives Kademlia every bootstrap address in order; without
    any it fails and changes nothing, otherwise its result is that of
    Kademlia's bootstrap on the extended table. *)
Theorem bootstrap_adds_addresses d :
  bootstrap d =
    match bootstrap_nodes d with
    | [] => (Err "No bootstrap nodes configured", d)
    | nodes =>
      let k := foldl (λ k pa, kad_add_address pa.1 pa.2 k) (kademlia d) nodes in
      ((kad_bootstrap k).1, with_kademlia (kad_bootstrap k).2 d)
    end.
Proof.
  unfold bootstrap, bootstrap_addrs.
  destruct (foldl_add_peers (bootstrap_nodes d) d) as (Hp & He & Hm & Hb).
  assert (∀ l d, add_addresses l d =
    with_kademlia (foldl (λ k pa, kad_add_address pa.1 pa.2 k) (kademlia d) l) d)
    as Hadd.
  { clear. unfold add_addresses. induction l as [|pa l IH]; intros d; [by destruct d|].
    simpl. by rewrite IH. }
  rewrite Hb. destruct (bootstrap_nodes d) as [|pa nodes]; [done|].
  rewrite Hadd. cbn [kademlia with_kademlia].
  by destruct (kad_bootstrap _).
Qed.

(** C39: when Kademlia and mDNS report finitely many events, as bounded by two
    measures, [poll] returns with fuel above the larger one. *)
Theorem poll_terminates (mk : Kad → nat) (mm : Mdns → nat) fuel d :
  (∀ k e k', kad_poll k = (Some (GenerateEvent e), k') → mk k' < mk k) →
  (∀ m a m', mdns_poll m = (Some a, m') → mm m' < mm m) →
  mk (kademlia d) < fuel → (∀ m, mdns d = Some m → mm m < fuel) →
  ∃ a d', poll fuel d = Some (a, d').
Proof.
  intros Hk Hm Hfk Hfm. unfold poll. destruct (pop_front (events d)) as [[]|]; [eauto|].
  assert (∀ f d, mk (kademlia d) < f → ∃ a d',
    poll_kademlia f d = Some (a, d') ∧ mdns d' = mdns d) as Hpk.
  { clear -Hk. induction f as [|f IH]; intros d Hf; [lia|]. simpl.
    destruct (kad_poll (kademlia d)) as [[[]|] k] eqn:Hkp; eauto.
    apply (IH (with_kademlia k d)). apply Hk in Hkp. simpl. lia. }
  assert (∀ f d, (∀ m, mdns d = Some m → mm m < f) → 0 < f → ∃ a d',
    poll_mdns f d = Some (a, d')) as Hpm.
  { clear -Hm. induction f as [|f IH]; intros d Hf Hpos; [lia|]. simpl.
    destruct (mdns d) as [m|] eqn:Hd; [|eauto].
    pose proof (Hf m eq_refl) as Hlt.
    destruct (mdns_poll m) as [[[[l|l]| | | |]|] m'] eqn:Hmp; [..|eauto];
      eauto; apply Hm in Hmp; apply IH; simpl; try lia.
    - intros m0. destruct (foldl_add_peers l (with_mdns (Some m') d)) as (_ & _ & -> & _).
      simpl. intros [= <-]. lia.
    - intros m0 [= <-]. lia.
    - intros m0 [= <-]. lia.
    - intros m0 [= <-]. lia. }
  destruct (Hpk fuel d Hfk) as (a & d' & -> & Hmd). destruct a; [eauto|].
  apply Hpm; [|lia]. intros m. rewrite Hmd. apply Hfm.
Qed.
End properties.

(** ** Evaluation on concrete libraries *)

Import Samples.

Definition sample_config : NetConfig.NetworkConfig := {|
  NetConfig.mdns := true;
  NetConfig.relay_server := true;
  NetConfig.autonat := true;
  NetConfig.relay_client := true;
  NetConfig.bootstrapper := false;
  NetConfig.swarm_addr := [Ip4 0; Tcp 6009];
  NetConfig.bootstrap_nodes := [[Ip4 1; Tcp 6009; P2p 11%N]; [Ip4 2; Tcp 6009]];
  NetConfig.database_path := "db";
  NetConfig.identity := "default";
  NetConfig.keystore_path := "keys";
|}.

Definition sample_discovery : DiscoveryBehaviour := {|
  local_peer_id := 1%N;
  kademlia := {| kad_known := []; kad_pending := [] |};
  bootstrap_nodes := [(11%N, [Ip4 1; Tcp 6009])];
  peers := ∅;
  peer_info := ∅;
  events := [];
  mdns := Some [];
|}.

Lemma sample_discovery_new : new (pid 1) sample_config = Ok sample_discovery.
Proof. reflexivity. Qed.

Lemma peers_history_witness :
  let d := inject_connection_established (pid 5) (conn 0) tt None 0%N sample_discovery in
  new (pid 1) sample_config = Ok sample_discovery ∧
  replay ∅ ([] ++ events d) = Some (peers d) ∧
  Z.of_nat (size (peers d)) = balance ([] ++ events d).
Proof.
  intros d. split; [reflexivity|].
  apply (peers_history (pid 1) sample_config sample_discovery [] d); [reflexivity|].
  apply (steps_snoc _ [] sample_discovery [] d); constructor.
Defined.

Lemma close_ignores_remaining_witness :
  pid 5 ∉ peers (inject_connection_closed (pid 5) (conn 0) tt tt 1%N
    (inject_connection_established (pid 5) (conn 1) tt None 1%N
      (inject_connection_established (pid 5) (conn 0) tt None 0%N sample_discovery))).
Proof.
  apply (close_ignores_remaining (pid 5) (conn 0) (conn 1) tt tt None None tt tt 0%N 1%N 1%N
    sample_discovery). set_solver.
Defined.

Lemma parse_bootstrap_addresses_witness :
  (λ pa, ma_push pa.2 (P2p (peer_multihash pa.1))) <$> bootstrap_nodes sample_discovery =
  filter names_peer (NetConfig.bootstrap_nodes sample_config).
Proof. apply parse_bootstrap_addresses. reflexivity. Defined.

Lemma poll_terminates_witness : ∃ a d', poll 1 sample_discovery = Some (a, d').
Proof.
  apply (poll_terminates (kl:=sample_kad) (md:=sample_mdns)
    (λ k, length (kad_pending k)) length).
  - intros k e k'. simpl. destruct (kad_pending k); intros [=]. subst. simpl. lia.
  - intros m a m'. simpl. destruct m; intros [=]. subst. simpl. lia.
  - simpl. lia.
  - intros m [= <-]. simpl. lia.
Defined.
