(* ===== verification/Metrics.v ===== *)
(** Metric events ([src/crates/ursa-metrics/src/events.rs]) and the HTTP
    middleware that reports RPC calls
    ([src/crates/ursa-metrics/src/middleware.rs]). *)

From S2P Require Import Prelude.
From Stdlib Require Import PrimFloat.

Inductive MetricEvent :=
| PeerConnected
| PeerDisconnected
| RelayReservationOpened
| RelayReservationClosed
| RelayCircuitOpened
| RelayCircuitClosed
| Bitswap
| GossipMessage
| RequestMessage
| RpcRequestReceived
| RpcResponseSent.

Inductive Metric :=
| ActiveConnectedPeers
| ActiveRelayReservations
| ActiveRelayCircuits
| HttpRpcRequests
| NodeBitswapOperations
| NodeGossipMessages
| NodeRequestMessages
| NodeResponseInfo
| Unknown (s : string).

#[global] Instance Metric_eq_dec : EqDecision Metric.
Proof. solve_decision. Defined.

(** [impl Display for Metric] *)
Definition metric_to_string (m : Metric) : string :=
  match m with
  | ActiveConnectedPeers => "active_connected_peers"
  | ActiveRelayReservations => "active_relay_reservations"
  | ActiveRelayCircuits => "active_relay_circuits"
  | HttpRpcRequests => "http_rpc_requests"
  | NodeBitswapOperations => "node_bitswap_operations"
  | NodeGossipMessages => "node_gossip_messages"
  | NodeRequestMessages => "node_request_messages"
  | NodeResponseInfo => "node_response_info"
  | Unknown s => s
  end.

(** [impl FromStr for Metric]: never an error. *)
Definition metric_from_str (s : string) : Metric :=
  if bool_decide (s = "active_connected_peers") then ActiveConnectedPeers
  else if bool_decide (s = "http_rpc_requests") then HttpRpcRequests
  else if bool_decide (s = "node_bitswap_operations") then NodeBitswapOperations
  else if bool_decide (s = "node_gossip_messages") then NodeGossipMessages
  else if bool_decide (s = "node_request_messages") then NodeRequestMessages
  else if bool_decide (s = "node_response_info") then NodeResponseInfo
  else Unknown s.

Abbreviation Label := (string * string)%type.

(** The calls of the [metrics] facade. *)
Inductive recorder_op :=
| IncrementCounter (name : string) (labels : list Label)
| IncrementGauge (name : string) (value : float)
| DecrementGauge (name : string) (value : float)
| Histogram (name : string) (value : float) (labels : list Label).

Definition op_name (op : recorder_op) : string :=
  match op with
  | IncrementCounter n _ | IncrementGauge n _ | DecrementGauge n _
  | Histogram n _ _ => n
  end.

(** [track]: the calls it makes on the recorder; log lines are left out. *)
Definition track (event_name : MetricEvent) (labels : option (list Label))
    (value : option float) : list recorder_op :=
  match labels with
  | Some label =>
    match event_name with
    | Bitswap => [IncrementCounter (metric_to_string NodeBitswapOperations) label]
    | GossipMessage => [IncrementCounter (metric_to_string NodeGossipMessages) label]
    | RequestMessage => [IncrementCounter (metric_to_string NodeRequestMessages) label]
    | RpcResponseSent =>
      match value with
      | Some latency => [Histogram (metric_to_string NodeResponseInfo) latency label]
      | None => []
      end
    | _ => []
    end
  | None =>
    match event_name with
    | PeerConnected => [IncrementGauge (metric_to_string ActiveConnectedPeers) one]
    | PeerDisconnected => [DecrementGauge (metric_to_string ActiveConnectedPeers) one]
    | RpcRequestReceived => [IncrementCounter (metric_to_string ActiveConnectedPeers) []]
    | RelayReservationOpened =>
      [IncrementGauge (metric_to_string ActiveRelayReservations) one]
    | RelayReservationClosed =>
      [DecrementGauge (metric_to_string ActiveRelayReservations) one]
    | RelayCircuitOpened => [IncrementGauge (metric_to_string ActiveRelayCircuits) one]
    | RelayCircuitClosed => [DecrementGauge (metric_to_string ActiveRelayCircuits) one]
    | _ => []
    end
  end.

(** ** [track_metrics] *)

(** What the middleware reads of a request. *)
Record Request := {
  matched_path : option string;
  uri_path : string;
  method : string;
}.

(** The calls of [track_metrics] around a handler that answered with [status]
    after [latency] seconds, [show] being the [Display] form of [f64]. *)
Definition track_metrics (show : float → string) (req : Request)
    (status : N) (latency : float) : list recorder_op :=
  let path := default (uri_path req) (matched_path req) in
  let labels := [("method", method req); ("path", path);
    ("status", pretty.pretty status); ("latency", show latency)] in
  track RpcRequestReceived None None ++
  track RpcResponseSent (Some labels) (Some latency).

(** ** Properties *)

(** The value of a gauge that starts at zero: every call of [track] moves a
    gauge by [1.0]. *)
Fixpoint gauge_value (name : string) (ops : list recorder_op) : Z :=
  match ops with
  | [] => 0
  | op :: ops =>
    (match op with
     | IncrementGauge n _ => if bool_decide (n = name) then 1 else 0
     | DecrementGauge n _ => if bool_decide (n = name) then -1 else 0
     | _ => 0
     end + gauge_value name ops)%Z
  end.

Lemma gauge_value_app name ops ops' :
  gauge_value name (ops ++ ops') = (gauge_value name ops + gauge_value name ops')%Z.
Proof. induction ops as [|op ops IH]; simpl; lia. Qed.

#[export] Hint Rewrite gauge_value_app : ursa_rw.

(** The effect of an event on the gauge of connected peers. *)
Definition peer_delta (event : MetricEvent) : Z :=
  match event with PeerConnected => 1 | PeerDisconnected => -1 | _ => 0 end.

Lemma track_peer_gauge event value :
  gauge_value (metric_to_string ActiveConnectedPeers) (track event None value) =
    peer_delta event.
Proof. by destruct event. Qed.

Lemma track_labelled_gauge name event labels value :
  gauge_value name (track event (Some labels) value) = 0%Z.
Proof. by destruct event, value. Qed.

(** Printing what was parsed gives the text back, and parsing what was
    printed gives the metric back except for the two relay gauges, whose names
    [from_str] does not know, and for an [Unknown] that carries a known name. *)
Theorem metric_round_trip s m :
  metric_to_string (metric_from_str s) = s ∧
  (metric_from_str (metric_to_string m) = m ↔
     match m with
     | ActiveRelayReservations | ActiveRelayCircuits => False
     | Unknown s => metric_from_str s = Unknown s
     | _ => True
     end).
Proof.
  split; [|by destruct m].
  unfold metric_from_str. by repeat (case_bool_decide; [by subst|]).
Qed.

(** An RPC call is counted under the name of the gauge of connected peers;
    no event is ever recorded under [http_rpc_requests], the name meant for
    it. *)
Theorem rpc_requests_counted_as_peers show req status latency event labels value :
  IncrementCounter "active_connected_peers" [] ∈
    track_metrics show req status latency ∧
  metric_to_string HttpRpcRequests ∉ (op_name <$> track event labels value).
Proof.
  split; [unfold track_metrics; simpl; set_solver|].
  destruct event, labels, value; simpl; set_solver.
Qed.

(** [track] records an event exactly when it has the shape the event
    needs: labels for the labelled events, a value as well for a response, no
    labels for the others; it then makes one call. *)
Theorem track_records_iff event labels value :
  length (track event labels value) =
    match event, labels, value with
    | (Bitswap | GossipMessage | RequestMessage), Some _, _ => 1
    | RpcResponseSent, Some _, Some _ => 1
    | (Bitswap | GossipMessage | RequestMessage | RpcResponseSent), _, _ => 0
    | _, None, _ => 1
    | _, Some _, _ => 0
    end.
Proof. by destruct event, labels, value. Qed.
