(* ===== verification/Codec.v ===== *)
(** The request/response protocol
    ([src/crates/ursa-network/src/codec/protocol.rs]): its messages and the
    codec that frames them on a stream. *)

From S2P Require Import Prelude.

Definition MAX_REQUEST_SIZE : N := 4 * 1024 * 1024.
Definition MAX_RESPONSE_SIZE : N := 10 * 1024 * 1024.
Definition PROTOCOL_NAME : bytes := as_bytes "/ursa/txrx/0.0.1".

Inductive RequestType := CarRequest (cid : string).
Record UrsaExchangeRequest := { request_type : RequestType }.

Record CarResponse := { car_cid : string; car_data : bytes }.
Inductive ResponseType := CarResponse_ (r : CarResponse).
Record UrsaExchangeResponse := { response_type : ResponseType }.

#[global] Instance request_type_eq_dec : EqDecision RequestType.
Proof. solve_decision. Defined.
#[global] Instance request_eq_dec : EqDecision UrsaExchangeRequest.
Proof. solve_decision. Defined.
#[global] Instance car_response_eq_dec : EqDecision CarResponse.
Proof. solve_decision. Defined.
#[global] Instance response_type_eq_dec : EqDecision ResponseType.
Proof. solve_decision. Defined.
#[global] Instance response_eq_dec : EqDecision UrsaExchangeResponse.
Proof. solve_decision. Defined.

(** [UrsaProtocol::protocol_name] *)
Definition protocol_name : bytes := PROTOCOL_NAME.

(** ** UTF-8 ([String::from_utf8]) *)

Definition in_range (lo hi : N) (b : byte) : bool :=
  ((lo <=? Byte.to_N b) && (Byte.to_N b <=? hi))%N.
Definition continuation : byte → bool := in_range 128 191.

(** Well-formed byte sequences of the Unicode standard. *)
Fixpoint utf8_valid (l : bytes) : bool :=
  match l with
  | [] => true
  | a :: l =>
    if in_range 0 127 a then utf8_valid l
    else match l with
    | [] => false
    | b :: l =>
      if in_range 194 223 a then continuation b && utf8_valid l
      else match l with
      | [] => false
      | c :: l =>
        if in_range 224 239 a then
          (if in_range 224 224 a then in_range 160 191 b
           else if in_range 237 237 a then in_range 128 159 b
           else continuation b) && continuation c && utf8_valid l
        else match l with
        | [] => false
        | d :: l =>
          in_range 240 244 a &&
          (if in_range 240 240 a then in_range 144 191 b
           else if in_range 244 244 a then in_range 128 143 b
           else continuation b) && continuation c && continuation d && utf8_valid l
        end
      end
    end
  end.

Definition from_utf8 (v : bytes) : option bytes :=
  if utf8_valid v then Some v else None.

(** ** Libraries

    [read_length_prefixed], [write_length_prefixed] and [close] on a stream,
    with the reading end [pipe io] of what was written to [io]; and
    [serde_json] at the two message types. *)
Class FramingLib := {
  IO : Type;
  io_error : Type;
  UnexpectedEof : io_error;
  read_length_prefixed : N → stM IO io_error bytes;
  write_length_prefixed : bytes → stM IO io_error unit;
  close : stM IO io_error unit;
  pipe : IO → IO;
  (** A frame within the limit is read back as it was written; a longer one is
      refused. *)
  read_written : ∀ io io1 io2 data max,
    write_length_prefixed data io = (Ok tt, io1) → close io1 = (Ok tt, io2) →
    (N.of_nat (length data) ≤ max)%N →
    (read_length_prefixed max (pipe io2)).1 = Ok data;
  read_too_long : ∀ io io1 io2 data max,
    write_length_prefixed data io = (Ok tt, io1) → close io1 = (Ok tt, io2) →
    (max < N.of_nat (length data))%N →
    ∃ e, (read_length_prefixed max (pipe io2)).1 = Err e;
}.

Class JsonLib (A : Type) := {
  json_to_vec : A → bytes;
  json_from_str : bytes → option A;
  json_round_trip : ∀ a, json_from_str (json_to_vec a) = Some a;
  json_utf8 : ∀ a, utf8_valid (json_to_vec a) = true;
  json_not_empty : ∀ a, json_to_vec a ≠ [];
}.

Section codec.
  Context {fl : FramingLib}.
  Context {jq : JsonLib UrsaExchangeRequest} {jr : JsonLib UrsaExchangeResponse}.

(** The tail of both readers: an empty frame is an error, anything that is not
    a message in UTF-8 JSON panics. *)
Definition decode_frame {A} `{JsonLib A} (vec : bytes) : outcome io_error A :=
  match vec with
  | [] => Err UnexpectedEof
  | _ => s ← unwrap_opt (from_utf8 vec); unwrap_opt (json_from_str s)
  end.

Definition read_request : stM IO io_error UrsaExchangeRequest :=
  vec ← read_length_prefixed MAX_REQUEST_SIZE; st_lift (decode_frame vec).

Definition read_response : stM IO io_error UrsaExchangeResponse :=
  vec ← read_length_prefixed MAX_RESPONSE_SIZE; st_lift (decode_frame vec).

Definition write_request (req : UrsaExchangeRequest) : stM IO io_error unit :=
  _ ← write_length_prefixed (json_to_vec req); _ ← close; mret tt.

Definition write_response (res : UrsaExchangeResponse) : stM IO io_error unit :=
  _ ← write_length_prefixed (json_to_vec res); _ ← close; mret tt.

(** ** Properties *)

Lemma decode_frame_json {A} `{JsonLib A} (a : A) :
  decode_frame (json_to_vec a) = Ok a.
Proof.
  pose proof (json_not_empty a) as Hn. unfold decode_frame, from_utf8.
  destruct (json_to_vec a) as [|b l] eqn:Ha; [done|].
  assert (utf8_valid (b :: l) = true) as -> by (rewrite <- Ha; apply json_utf8).
  simpl. by rewrite <- Ha, json_round_trip.
Qed.

(** The state after a message was written. *)
Lemma written {A} `{JsonLib A} (a : A) io io' :
  (_ ← write_length_prefixed (json_to_vec a); _ ← close; mret tt) io = (Ok tt, io') →
  ∃ io1, write_length_prefixed (json_to_vec a) io = (Ok tt, io1) ∧
    close io1 = (Ok tt, io').
Proof.
  intros Hw. inv_bind. destruct a0, a1. eauto.
Qed.

(** A reader with limit [max] on the other end of a written message. *)
Lemma read_message {A} `{JsonLib A} (a : A) max io io' :
  (_ ← write_length_prefixed (json_to_vec a); _ ← close; mret tt) io = (Ok tt, io') →
  let r := (vec ← read_length_prefixed max; st_lift (decode_frame (A:=A) vec)) (pipe io') in
  ((N.of_nat (length (json_to_vec a)) ≤ max)%N → r.1 = Ok a) ∧
  ((max < N.of_nat (length (json_to_vec a)))%N → ∃ e, r.1 = Err e).
Proof.
  intros (io1 & Hw & Hc)%written. simpl. split; intros Hl.
  - pose proof (read_written _ _ _ _ _ Hw Hc Hl) as Hr.
    destruct (read_length_prefixed max (pipe io')) as [o io2] eqn:Hread.
    simpl in Hr. subst o. rewrite (st_bind_ok _ _ _ _ _ Hread).
    unfold st_lift. simpl. apply decode_frame_json.
  - destruct (read_too_long _ _ _ _ _ Hw Hc Hl) as [e Hr].
    destruct (read_length_prefixed max (pipe io')) as [o io2] eqn:Hread.
    simpl in Hr. subst o. rewrite (st_bind_err _ _ _ _ _ Hread). by exists e.
Qed.

(** C40: a request or response that was written is read back by the other end
    as the same message when its JSON form is within the limit of its
    direction, and refused with an error, not cut, when it is longer. *)
Theorem exchange_round_trip req res io io' ior ior' :
  write_request req io = (Ok tt, io') → write_response res ior = (Ok tt, ior') →
  ((N.of_nat (length (json_to_vec req)) ≤ MAX_REQUEST_SIZE)%N →
     (read_request (pipe io')).1 = Ok req) ∧
  ((MAX_REQUEST_SIZE < N.of_nat (length (json_to_vec req)))%N →
     ∃ e, (read_request (pipe io')).1 = Err e) ∧
  ((N.of_nat (length (json_to_vec res)) ≤ MAX_RESPONSE_SIZE)%N →
     (read_response (pipe ior')).1 = Ok res) ∧
  ((MAX_RESPONSE_SIZE < N.of_nat (length (json_to_vec res)))%N →
     ∃ e, (read_response (pipe ior')).1 = Err e).
Proof.
  intros Hq Hr. destruct (read_message req MAX_REQUEST_SIZE _ _ Hq).
  destruct (read_message res MAX_RESPONSE_SIZE _ _ Hr). done.
Qed.

(** A frame the remote end fills with bytes that are not UTF-8, or not the
    JSON form of a request, does not fail the read with an error: it panics
    the reading task. *)
Theorem malformed_request_panics vec io io' :
  read_length_prefixed MAX_REQUEST_SIZE io = (Ok vec, io') → vec ≠ [] →
  utf8_valid vec = false ∨ json_from_str (A:=UrsaExchangeRequest) vec = None →
  read_request io = (Panic, io').
Proof.
  intros Hr Hv Hbad. unfold read_request. rewrite (st_bind_ok _ _ _ _ _ Hr).
  unfold st_lift, decode_frame, from_utf8. destruct vec; [done|].
  destruct Hbad as [-> | Hj]; [done|]. destruct (utf8_valid _); [|done].
  simpl. by rewrite Hj.
Qed.
End codec.

(** ** Evaluation on a concrete codec *)

(** A stream that holds one frame. *)
#[program] Definition sample_framing : FramingLib := {|
  IO := bytes;
  io_error := string;
  UnexpectedEof := "unexpected end of file";
  read_length_prefixed max io :=
    if decide (N.of_nat (length io) ≤ max)%N then (Ok io, io) else (Err "too long", io);
  write_length_prefixed data _ := (Ok tt, data);
  close io := (Ok tt, io);
  pipe io := io;
|}.
Next Obligation.
  simpl. intros ????? [= <-] [= <-] Hl. by rewrite decide_True.
Qed.
Next Obligation.
  simpl. intros ????? [= <-] [= <-] Hl. rewrite decide_False by lia. by eexists.
Qed.

#[local] Existing Instance sample_framing.

(** Values as the binary digits of their code, in ASCII. *)
Fixpoint digits (p : positive) : bytes :=
  match p with
  | xH => [x32]
  | xO p => x30 :: digits p
  | xI p => x31 :: digits p
  end.

Fixpoint of_digits (l : bytes) : option positive :=
  match l with
  | [x32] => Some xH
  | x30 :: l => xO <$> of_digits l
  | x31 :: l => xI <$> of_digits l
  | _ => None
  end.

Lemma of_digits_digits p : of_digits (digits p) = Some p.
Proof. induction p as [p IH|p IH|]; simpl; rewrite ?IH; [done..|done]. Qed.

Lemma digits_utf8 p : utf8_valid (digits p) = true.
Proof. by induction p. Qed.

#[program] Definition sample_json {A} `{Countable A} : JsonLib A := {|
  json_to_vec a := digits (encode a);
  json_from_str s := of_digits s ≫= decode;
|}.
Next Obligation.
  intros. cbn beta. rewrite of_digits_digits. apply decode_encode.
Qed.
Next Obligation. intros. apply digits_utf8. Qed.
Next Obligation. intros A ?? a. cbn beta. by destruct (encode a). Qed.

#[local] Existing Instance sample_json.

#[local] Program Instance request_countable : Countable UrsaExchangeRequest :=
  inj_countable' (λ q, match request_type q with CarRequest s => s end)
    (λ s, {| request_type := CarRequest s |}) _.
Next Obligation. by intros [[]]. Qed.
#[local] Program Instance response_countable : Countable UrsaExchangeResponse :=
  inj_countable' (λ r, match response_type r with CarResponse_ c => (car_cid c, car_data c) end)
    (λ p, {| response_type := CarResponse_ {| car_cid := p.1; car_data := p.2 |} |}) _.
Next Obligation. by intros [[[]]]. Qed.

Definition sample_io (b : bytes) : IO := b.
Definition sample_request : UrsaExchangeRequest := {| request_type := CarRequest "Qm" |}.
Definition sample_response : UrsaExchangeResponse :=
  {| response_type := CarResponse_ {| car_cid := "Qm"; car_data := [x01] |} |}.

Lemma exchange_round_trip_witness :
  ∃ io ior, write_request sample_request (sample_io []) = (Ok tt, io) ∧
    (read_request (pipe io)).1 = Ok sample_request ∧
    write_response sample_response (sample_io []) = (Ok tt, ior) ∧
    (read_response (pipe ior)).1 = Ok sample_response.
Proof.
  exists (sample_io (json_to_vec sample_request)),
    (sample_io (json_to_vec sample_response)). split; [reflexivity|].
  destruct (exchange_round_trip sample_request sample_response
      (sample_io []) (sample_io (json_to_vec sample_request))
      (sample_io []) (sample_io (json_to_vec sample_response)))
    as (Hq & _ & Hr & _); [reflexivity..|].
  split; [apply Hq; vm_compute; discriminate|].
  split; [reflexivity|]. apply Hr. vm_compute. discriminate.
Defined.

Lemma malformed_request_panics_witness :
  read_request (sample_io [xff]) = (Panic, sample_io [xff]).
Proof.
  apply (malformed_request_panics [xff]); [reflexivity|discriminate|].
  left. reflexivity.
Defined.
