(* ===== verification/Protocols.v ===== *)
(** Interfaces of the [libp2p] protocols the network behaviour combines: the
    types and calls the sources use, the events they match on, and the
    documented laws of the identifiers these libraries hand out. *)

From S2P Require Import Prelude Libs Codec.
From S2P Require NetConfig.

(** [libp2p::gossipsub] *)
Class GossipLib `{NetLib} := {
  Gossipsub : Type;
  MessageId : Type;
  Topic : Type;
  TopicHash : Type;
  topic_new : string → Topic;
  topic_hash_from_raw : string → TopicHash;
  topic_hash_to_string : TopicHash → string;
  (** [Gossipsub::new] on a built configuration, and [with_peer_score]. *)
  gs_new : PeerId → NetConfig.GossipsubConfig → outcome string Gossipsub;
  gs_with_peer_score : Gossipsub → outcome string Gossipsub;
  gs_publish : Topic → bytes → stM Gossipsub string MessageId;
  gs_subscribe : Topic → stM Gossipsub string bool;
  gs_unsubscribe : Topic → stM Gossipsub string bool;
  gs_add_explicit_peer : PeerId → Gossipsub → Gossipsub;
}.

Record GossipsubMessage `{GossipLib} := {
  msg_source : option PeerId;
  msg_data : bytes;
  msg_sequence_number : option N;
  msg_topic : TopicHash;
}.

Inductive GossipsubEvent `{GossipLib} :=
| GossipsubEventMessage (propagation_source : PeerId) (message : GossipsubMessage)
| Subscribed (peer_id : PeerId) (topic : TopicHash)
| Unsubscribed (peer_id : PeerId) (topic : TopicHash)
| GossipsubNotSupported (peer_id : PeerId).

(** [libp2p_bitswap]: queries get identifiers from a counter, so a new query
    never has the identifier of an earlier one ([bw_issued]). *)
Class BitswapLib `{CidLib, NetLib} := {
  Bitswap : Type;
  QueryId : Type;
  #[global] QueryId_eq_dec :: EqDecision QueryId;
  #[global] QueryId_countable :: Countable QueryId;
  query_to_string : QueryId → string;
  bw_new : Bitswap;
  bw_get : Cid → list PeerId → Bitswap → QueryId * Bitswap;
  bw_sync : Cid → list PeerId → list Cid → Bitswap → QueryId * Bitswap;
  bw_cancel : QueryId → Bitswap → Bitswap;
  bw_issued : Bitswap → gset QueryId;
  bw_get_issued : ∀ c ps b q b', bw_get c ps b = (q, b') →
    q ∉ bw_issued b ∧ bw_issued b' = {[q]} ∪ bw_issued b;
  bw_sync_issued : ∀ c ps m b q b', bw_sync c ps m b = (q, b') →
    q ∉ bw_issued b ∧ bw_issued b' = {[q]} ∪ bw_issued b;
  bw_cancel_issued : ∀ q b, bw_issued (bw_cancel q b) = bw_issued b;
}.

Inductive BitswapEvent `{BitswapLib} :=
| Progress (id : QueryId) (missing : N)
| Complete (id : QueryId) (result : outcome string unit).

(** [libp2p::request_response]: request identifiers come from a counter. *)
Class RequestResponseLib `{MultiaddrLib} := {
  RequestResponse : Type;
  RequestId : Type;
  #[global] RequestId_eq_dec :: EqDecision RequestId;
  #[global] RequestId_countable :: Countable RequestId;
  ResponseChannel : Type;
  rr_new : N → RequestResponse;
  rr_send_request :
    PeerId → UrsaExchangeRequest → RequestResponse → RequestId * RequestResponse;
  rr_add_address : PeerId → Multiaddr → RequestResponse → RequestResponse;
  rr_issued : RequestResponse → gset RequestId;
  rr_send_issued : ∀ p q r i r', rr_send_request p q r = (i, r') →
    i ∉ rr_issued r ∧ rr_issued r' = {[i]} ∪ rr_issued r;
  rr_add_issued : ∀ p a r, rr_issued (rr_add_address p a r) = rr_issued r;
}.

Inductive RequestResponseMessage `{RequestResponseLib} :=
| Request (request_id : RequestId) (request : UrsaExchangeRequest)
    (channel : ResponseChannel)
| Response (request_id : RequestId) (response : UrsaExchangeResponse).

Inductive RequestResponseEvent `{RequestResponseLib} :=
| Message (peer : PeerId) (message : RequestResponseMessage)
| OutboundFailure (peer : PeerId) (request_id : RequestId) (error : string)
| InboundFailure (peer : PeerId) (request_id : RequestId) (error : string)
| ResponseSent (peer : PeerId) (request_id : RequestId).

(** [libp2p::autonat], [relay], [dcutr], [identify] and [ping] *)
Inductive NatStatus `{MultiaddrLib} :=
| Public (address : Multiaddr)
| Private
| NatUnknown.

Inductive AutonatEvent `{MultiaddrLib} :=
| StatusChanged (old new : NatStatus)
| OutboundProbe
| InboundProbe.

Inductive RelayServerEvent `{NetLib} :=
| ReservationReqAccepted (src_peer_id : PeerId) (renewed : bool)
| ReservationTimedOut (src_peer_id : PeerId)
| CircuitReqAccepted
| CircuitClosed
| RelayServerOther.

Record IdentifyInfo `{MultiaddrLib} := {
  protocol_version : string;
  protocols : list string;
  listen_addrs : list Multiaddr;
}.

Inductive IdentifyEvent `{MultiaddrLib} :=
| Received (peer_id : PeerId) (info : IdentifyInfo)
| Sent
| Pushed
| IdentifyError.

Inductive PingFailure := Timeout | Unsupported | Other (error : string).
Inductive PingSuccess := Pong | Ping (rtt : N).
Record PingEvent `{NetLib} := {
  ping_peer : PeerId;
  ping_result : outcome PingFailure PingSuccess;
}.

(** The behaviours of the combination that are only built and asked for their
    state. *)
Class NatLib `{MultiaddrLib} := {
  Autonat : Type;
  autonat_new : PeerId → N → Autonat;
  autonat_public_address : Autonat → option Multiaddr;
  RelayClient : Type;
  RelayServer : Type;
  relay_server_new : PeerId → RelayServer;
  Dcutr : Type;
  dcutr_new : Dcutr;
}.
