(* ===== verification/ProtocolSamples.v ===== *)
(** Concrete instances of the protocol interfaces, for the witnesses: counters
    hand out the identifiers. *)

From S2P Require Import Prelude Libs Codec Protocols.
From S2P Require Export Samples.

Definition sample_gossip : GossipLib := {|
  Gossipsub := list (string * bytes);
  MessageId := N;
  Topic := string;
  TopicHash := string;
  topic_new s := s;
  topic_hash_from_raw s := s;
  topic_hash_to_string s := s;
  gs_new _ _ := Ok [];
  gs_with_peer_score g := Ok g;
  gs_publish t d g := (Ok 0%N, g ++ [(t, d)]);
  gs_subscribe t g := (Ok true, g);
  gs_unsubscribe t g := (Ok true, g);
  gs_add_explicit_peer _ g := g;
|}.
#[export] Existing Instance sample_gossip.

(** Identifiers below the counter have been given out. *)
Definition below (n : nat) : gset N := list_to_set (N.of_nat <$> seq 0 n).

Lemma below_fresh n : N.of_nat n ∉ below n ∧ below (S n) = {[N.of_nat n]} ∪ below n.
Proof.
  unfold below. split.
  - rewrite elem_of_list_to_set, list_elem_of_fmap.
    intros (i & Hi & [_ Hlt]%elem_of_seq). lia.
  - rewrite seq_S, fmap_app, list_to_set_app_L. set_solver.
Qed.

#[program] Definition sample_bitswap : BitswapLib := {|
  Bitswap := nat;
  QueryId := N;
  query_to_string q := pretty.pretty q;
  bw_new := 0;
  bw_get _ _ b := (N.of_nat b, S b);
  bw_sync _ _ _ b := (N.of_nat b, S b);
  bw_cancel _ b := b;
  bw_issued := below;
|}.
Next Obligation. cbn beta. intros c ps b q b' [= <- <-]. apply below_fresh. Qed.
Next Obligation. cbn beta. intros c ps m b q b' [= <- <-]. apply below_fresh. Qed.
Next Obligation. done. Qed.
#[export] Existing Instance sample_bitswap.

Definition qid (n : N) : QueryId := n.

#[program] Definition sample_request_response : RequestResponseLib := {|
  RequestResponse := nat;
  RequestId := N;
  ResponseChannel := N;
  rr_new _ := 0;
  rr_send_request _ _ r := (N.of_nat r, S r);
  rr_add_address _ _ r := r;
  rr_issued := below;
|}.
Next Obligation. cbn beta. intros p q r i r' [= <- <-]. apply below_fresh. Qed.
Next Obligation. done. Qed.
#[export] Existing Instance sample_request_response.

Definition sample_nat : NatLib := {|
  Autonat := option Multiaddr;
  autonat_new _ _ := None;
  autonat_public_address a := a;
  RelayClient := unit;
  RelayServer := unit;
  relay_server_new _ := tt;
  Dcutr := unit;
  dcutr_new := tt;
|}.
#[export] Existing Instance sample_nat.
