(* ===== verification/Behaviour.v ===== *)
(** The network behaviour of a node
    ([src/crates/ursa-network/src/behaviour.rs]): it combines discovery,
    gossipsub, bitswap and request/response, turns their events into its own
    queue of [BehaviourEvent]s and keeps the tables of running bitswap queries
    and of requests that wait for a response. *)

From S2P Require Import Prelude Libs Utils Codec Protocols.
From S2P Require NetConfig Discovery ProtocolSamples.

(** A oneshot sender, by its identity. *)
Abbreviation Sender := N.

(** What a oneshot sender of [pending_responses] is sent. *)
Abbreviation Reply := (Sender * outcome string UrsaExchangeResponse)%type.

Definition IPFS_PROTOCOL : string := "ipfs/0.1.0".

Section behaviour.
  Context {cl : CidLib} {nl : NetLib} {ml : MultiaddrLib} {sw : SwarmTypes}.
  Context {kl : KadLib} {md : MdnsLib} {gl : GossipLib} {bl : BitswapLib}.
  Context {rl : RequestResponseLib} {al : NatLib}.

Record BitswapInfo := {
  cid : Cid;
  query_id : QueryId;
  block_found : bool;
}.

Inductive BehaviourEvent :=
| NatStatusChanged (old new : NatStatus)
| PeerConnected (peer : PeerId)
| PeerDisconnected (peer : PeerId)
| RelayReservationOpened (peer_id : PeerId)
| RelayReservationClosed (peer_id : PeerId)
| RelayCircuitOpened
| RelayCircuitClosed
| BitswapFinished (info : BitswapInfo)
| GossipMessage (peer : PeerId) (topic : TopicHash) (message : GossipsubMessage)
| RequestMessage (peer : PeerId) (request : UrsaExchangeRequest)
    (channel : ResponseChannel)
| StartPublish (public_address : Multiaddr).

Record Behaviour := {
  autonat : option Autonat;
  relay_client : option RelayClient;
  relay_server : option RelayServer;
  dcutr : option Dcutr;
  bitswap : Bitswap;
  gossipsub : Gossipsub;
  discovery : Discovery.DiscoveryBehaviour;
  request_response : RequestResponse;
  events : list BehaviourEvent;
  pending_requests : gmap RequestId ResponseChannel;
  pending_responses : gmap RequestId Sender;
  queries : gmap QueryId BitswapInfo;
}.

(** ** Field updates *)

Definition with_autonat (x : option Autonat) (b : Behaviour) : Behaviour :=
  {| autonat := x; relay_client := relay_client b;
     relay_server := relay_server b; dcutr := dcutr b; bitswap := bitswap b;
     gossipsub := gossipsub b; discovery := discovery b;
     request_response := request_response b; events := events b;
     pending_requests := pending_requests b;
     pending_responses := pending_responses b; queries := queries b |}.
Definition with_bitswap (x : Bitswap) (b : Behaviour) : Behaviour :=
  {| autonat := autonat b; relay_client := relay_client b;
     relay_server := relay_server b; dcutr := dcutr b; bitswap := x;
     gossipsub := gossipsub b; discovery := discovery b;
     request_response := request_response b; events := events b;
     pending_requests := pending_requests b;
     pending_responses := pending_responses b; queries := queries b |}.
Definition with_gossipsub (x : Gossipsub) (b : Behaviour) : Behaviour :=
  {| autonat := autonat b; relay_client := relay_client b;
     relay_server := relay_server b; dcutr := dcutr b; bitswap := bitswap b;
     gossipsub := x; discovery := discovery b;
     request_response := request_response b; events := events b;
     pending_requests := pending_requests b;
     pending_responses := pending_responses b; queries := queries b |}.
Definition with_discovery (x : Discovery.DiscoveryBehaviour) (b : Behaviour)
    : Behaviour :=
  {| autonat := autonat b; relay_client := relay_client b;
     relay_server := relay_server b; dcutr := dcutr b; bitswap := bitswap b;
     gossipsub := gossipsub b; discovery := x;
     request_response := request_response b; events := events b;
     pending_requests := pending_requests b;
     pending_responses := pending_responses b; queries := queries b |}.
Definition with_request_response (x : RequestResponse) (b : Behaviour) : Behaviour :=
  {| autonat := autonat b; relay_client := relay_client b;
     relay_server := relay_server b; dcutr := dcutr b; bitswap := bitswap b;
     gossipsub := gossipsub b; discovery := discovery b;
     request_response := x; events := events b;
     pending_requests := pending_requests b;
     pending_responses := pending_responses b; queries := queries b |}.
Definition with_events (x : list BehaviourEvent) (b : Behaviour) : Behaviour :=
  {| autonat := autonat b; relay_client := relay_client b;
     relay_server := relay_server b; dcutr := dcutr b; bitswap := bitswap b;
     gossipsub := gossipsub b; discovery := discovery b;
     request_response := request_response b; events := x;
     pending_requests := pending_requests b;
     pending_responses := pending_responses b; queries := queries b |}.
Definition with_pending_responses (x : gmap RequestId Sender) (b : Behaviour)
    : Behaviour :=
  {| autonat := autonat b; relay_client := relay_client b;
     relay_server := relay_server b; dcutr := dcutr b; bitswap := bitswap b;
     gossipsub := gossipsub b; discovery := discovery b;
     request_response := request_response b; events := events b;
     pending_requests := pending_requests b;
     pending_responses := x; queries := queries b |}.
Definition with_queries (x : gmap QueryId BitswapInfo) (b : Behaviour) : Behaviour :=
  {| autonat := autonat b; relay_client := relay_client b;
     relay_server := relay_server b; dcutr := dcutr b; bitswap := bitswap b;
     gossipsub := gossipsub b; discovery := discovery b;
     request_response := request_response b; events := events b;
     pending_requests := pending_requests b;
     pending_responses := pending_responses b; queries := x |}.

(** [self.events.push_back(event)] *)
Definition push_event (event : BehaviourEvent) (b : Behaviour) : Behaviour :=
  with_events (push_back event (events b)) b.

(** ** [Behaviour::new]

    [local_peer_id] is the peer of the keypair. *)
Definition new (local_peer_id : PeerId) (config : NetConfig.NetworkConfig)
    (relay_client : option RelayClient) : outcome string Behaviour :=
  gossipsub ← unwrap (gs_new local_peer_id (NetConfig.gossip_config config));
  gossipsub ← unwrap (gs_with_peer_score gossipsub);
  discovery ← Discovery.new local_peer_id config;
  let autonat :=
    if NetConfig.autonat config then Some (autonat_new local_peer_id 30) else None in
  let relay_server :=
    if NetConfig.relay_server config then Some (relay_server_new local_peer_id)
    else None in
  dcutr ← (if NetConfig.relay_client config
           then match relay_client with
                | None => Panic
                | Some _ => Ok (Some dcutr_new)
                end
           else Ok None);
  Ok {|
    autonat := autonat;
    relay_client := relay_client;
    relay_server := relay_server;
    dcutr := dcutr;
    bitswap := bw_new;
    gossipsub := gossipsub;
    discovery := discovery;
    request_response := rr_new 60;
    events := [];
    pending_requests := ∅;
    pending_responses := ∅;
    queries := ∅;
  |}.

(** ** Calls of the service *)

Definition publish (topic : Topic) (data : GossipsubMessage)
    : stM Behaviour string MessageId :=
  st_zoom gossipsub with_gossipsub (gs_publish topic (msg_data data)).

Definition public_address (b : Behaviour) : option Multiaddr :=
  autonat b ≫= autonat_public_address.

Definition peers (b : Behaviour) : gset PeerId := Discovery.peers (discovery b).

Definition is_relay_client_enabled (b : Behaviour) : bool :=
  bool_decide (is_Some (relay_client b)).

Definition bootstrap : stM Behaviour string KadQueryId :=
  st_zoom discovery with_discovery Discovery.bootstrap.

Definition subscribe (topic : Topic) : stM Behaviour string bool :=
  st_zoom gossipsub with_gossipsub (gs_subscribe topic).

Definition unsubscribe (topic : Topic) : stM Behaviour string bool :=
  st_zoom gossipsub with_gossipsub (gs_unsubscribe topic).

Definition publish_ad (public_address : Multiaddr) : stM Behaviour string unit :=
  st_modify (push_event (StartPublish public_address)).

Definition send_request (peer : PeerId) (request : UrsaExchangeRequest)
    (sender : Sender) (b : Behaviour) : Behaviour :=
  let '(request_id, rr) := rr_send_request peer request (request_response b) in
  with_pending_responses (<[request_id := sender]> (pending_responses b))
    (with_request_response rr b).

(** [self.queries.insert(id, BitswapInfo { .. })] *)
Definition insert_query (id : QueryId) (c : Cid) (b : Behaviour) : Behaviour :=
  with_queries
    (<[id := {| cid := c; query_id := id; block_found := false |}]> (queries b)) b.

Definition get_block (c : Cid) (providers : list PeerId) : stM Behaviour string unit :=
  key ← st_lift (convert_cid (cid_to_bytes c));
  st_modify (λ b,
    let '(id, bw) := bw_get key providers (bitswap b) in
    insert_query id c (with_bitswap bw b)).

Definition sync_block (c : Cid) (providers : list PeerId) : stM Behaviour string unit :=
  c_cid ← st_lift (convert_cid (cid_to_bytes c));
  st_modify (λ b,
    let '(id, bw) := bw_sync c_cid providers [c_cid] (bitswap b) in
    insert_query id c (with_bitswap bw b)).

Definition cancel (id : QueryId) (b : Behaviour) : Behaviour :=
  let b := with_queries (delete id (queries b)) b in
  with_bitswap (bw_cancel id (bitswap b)) b.

(** [poll], the last part of the derived one: [None] is [Poll::Pending]. *)
Definition poll (b : Behaviour) : option BehaviourEvent * Behaviour :=
  match pop_front (events b) with
  | Some (event, rest) => (Some event, with_events rest b)
  | None => (None, b)
  end.

(** ** Event handlers *)

(** Every branch only writes to the log. *)
Definition handle_ping (event : PingEvent) (b : Behaviour) : Behaviour := b.

(** The body of the loop over the addresses a peer listens on. *)
Definition add_listen_addr (peer_id : PeerId) (b : Behaviour) (address : Multiaddr)
    : Behaviour :=
  with_request_response (rr_add_address peer_id address (request_response b))
    (with_discovery (Discovery.add_address peer_id address (discovery b)) b).

Definition handle_identify (event : IdentifyEvent) (b : Behaviour) : Behaviour :=
  match event with
  | Received peer_id info =>
    if existsb (λ name, bool_decide (as_bytes name = Discovery.URSA_KAD_PROTOCOL))
         (protocols info)
    then
      foldl (add_listen_addr peer_id)
        (with_gossipsub (gs_add_explicit_peer peer_id (gossipsub b)) b)
        (listen_addrs info)
    else b
  | Sent | Pushed | IdentifyError => b
  end.

Definition handle_autonat (event : AutonatEvent) (b : Behaviour) : Behaviour :=
  match event with
  | StatusChanged old new => push_event (NatStatusChanged old new) b
  | OutboundProbe | InboundProbe => b
  end.

Definition handle_relay_server (event : RelayServerEvent) (b : Behaviour) : Behaviour :=
  match event with
  | ReservationReqAccepted src_peer_id renewed =>
    if negb renewed then push_event (RelayReservationOpened src_peer_id) b else b
  | ReservationTimedOut src_peer_id =>
    push_event (RelayReservationClosed src_peer_id) b
  | CircuitReqAccepted => push_event RelayCircuitOpened b
  | CircuitClosed => push_event RelayCircuitClosed b
  | RelayServerOther => b
  end.

(** [handle_relay_client] and [handle_dcutr] only write to the log. *)
Definition handle_relay_client (b : Behaviour) : Behaviour := b.
Definition handle_dcutr (b : Behaviour) : Behaviour := b.

Definition handle_bitswap (event : BitswapEvent) (b : Behaviour) : Behaviour :=
  match event with
  | Progress _ _ => b
  | Complete id result =>
    match queries b !! id with
    | Some info =>
      let info := {| cid := cid info; query_id := query_id info;
                     block_found := if is_ok result then true else block_found info |} in
      push_event (BitswapFinished info) (with_queries (delete id (queries b)) b)
    | None => b
    end
  end.

Definition handle_gossipsub (event : GossipsubEvent) (b : Behaviour) : Behaviour :=
  match event with
  | GossipsubEventMessage propagation_source message =>
    push_event (GossipMessage propagation_source (msg_topic message) message) b
  | Subscribed _ _ | Unsubscribed _ _ | GossipsubNotSupported _ => b
  end.

Definition handle_discovery (event : Discovery.DiscoveryEvent) (b : Behaviour)
    : Behaviour :=
  match event with
  | Discovery.Connected peer_id => push_event (PeerConnected peer_id) b
  | Discovery.Disconnected peer_id => push_event (PeerDisconnected peer_id) b
  end.

(** [self.pending_responses.remove(&request_id)] and the [send] that follows. *)
Definition answer (request_id : RequestId) (r : outcome string UrsaExchangeResponse)
    (b : Behaviour) : list Reply * Behaviour :=
  match pending_responses b !! request_id with
  | Some sender =>
    ([(sender, r)],
     with_pending_responses (delete request_id (pending_responses b)) b)
  | None => ([], b)
  end.

Definition handle_request_response (event : RequestResponseEvent) (b : Behaviour)
    : list Reply * Behaviour :=
  match event with
  | Message peer (Request request_id request channel) =>
    ([], push_event (RequestMessage peer request channel) b)
  | Message peer (Response request_id response) => answer request_id (Ok response) b
  | OutboundFailure peer request_id error => answer request_id (Err error) b
  | InboundFailure _ _ _ | ResponseSent _ _ => ([], b)
  end.

End behaviour.

(** ** Histories *)

Section history.
  Context {cl : CidLib} {nl : NetLib} {ml : MultiaddrLib} {sw : SwarmTypes}.
  Context {kl : KadLib} {md : MdnsLib} {gl : GossipLib} {bl : BitswapLib}.
  Context {rl : RequestResponseLib} {al : NatLib}.
  Implicit Types (b : Behaviour).

(** What a call or event of the behaviour takes in and gives out: the senders
    it accepts, the replies it makes, the queries it starts or cancels, the
    events it hands to the service. *)
Record label := {
  asked : list Sender;
  replied : list Reply;
  started : list QueryId;
  cancelled : list QueryId;
  emitted : list BehaviourEvent;
}.

Definition silent : label :=
  {| asked := []; replied := []; started := []; cancelled := []; emitted := [] |}.

Definition label_app (l l' : label) : label :=
  {| asked := asked l ++ asked l'; replied := replied l ++ replied l';
     started := started l ++ started l'; cancelled := cancelled l ++ cancelled l';
     emitted := emitted l ++ emitted l' |}.

(** One call of the service, one event of a sub-behaviour, or a change inside a
    library, which only adds to the identifiers it has handed out. *)
Inductive step : Behaviour → label → Behaviour → Prop :=
| step_send_request b p q s :
    step b {| asked := [s]; replied := []; started := []; cancelled := [];
              emitted := [] |} (send_request p q s b)
| step_request_response b e :
    step b {| asked := []; replied := (handle_request_response e b).1;
              started := []; cancelled := []; emitted := [] |}
      (handle_request_response e b).2
| step_get_block b c ps :
    step b {| asked := []; replied := [];
              started := [(bw_get c ps (bitswap b)).1]; cancelled := [];
              emitted := [] |} (get_block c ps b).2
| step_sync_block b c ps :
    step b {| asked := []; replied := [];
              started := [(bw_sync c ps [c] (bitswap b)).1]; cancelled := [];
              emitted := [] |} (sync_block c ps b).2
| step_cancel b id :
    step b {| asked := []; replied := []; started := [];
              cancelled := if decide (is_Some (queries b !! id)) then [id] else [];
              emitted := [] |} (cancel id b)
| step_poll b :
    step b {| asked := []; replied := []; started := []; cancelled := [];
              emitted := option_list (poll b).1 |} (poll b).2
| step_publish b t m : step b silent (publish t m b).2
| step_publish_ad b a : step b silent (publish_ad a b).2
| step_bootstrap b : step b silent (bootstrap b).2
| step_subscribe b t : step b silent (subscribe t b).2
| step_bitswap b e : step b silent (handle_bitswap e b)
| step_identify b e : step b silent (handle_identify e b)
| step_autonat b e : step b silent (handle_autonat e b)
| step_relay_server b e : step b silent (handle_relay_server e b)
| step_gossipsub b e : step b silent (handle_gossipsub e b)
| step_discovery b d out d' :
    discovery b = d → Discovery.step d out d' →
    step b silent (foldl (λ b e, handle_discovery e b) (with_discovery d' b) out)
| step_bitswap_lib b bw :
    bw_issued (bitswap b) ⊆ bw_issued bw → step b silent (with_bitswap bw b)
| step_request_lib b rr :
    rr_issued (request_response b) ⊆ rr_issued rr →
    step b silent (with_request_response rr b)
| step_gossip_lib b g : step b silent (with_gossipsub g b)
| step_nat_lib b a : step b silent (with_autonat a b).

Inductive steps : Behaviour → label → Behaviour → Prop :=
| steps_refl b : steps b silent b
| steps_snoc b l b' l' b'' :
    steps b l b' → step b' l' b'' → steps b (label_app l l') b''.

(** The queries a list of events reports as finished. *)
Definition finished (l : list BehaviourEvent) : list QueryId :=
  omap (λ e, match e with BitswapFinished i => Some (query_id i) | _ => None end) l.

Lemma finished_app l l' : finished (l ++ l') = finished l ++ finished l'.
Proof. apply omap_app. Qed.

Definition waiting b : list Sender := (map_to_list (pending_responses b)).*2.
Definition running b : list QueryId := (map_to_list (queries b)).*1.

Record inv (l : label) b : Prop := {
  inv_asked : asked l ≡ₚ (replied l).*1 ++ waiting b;
  inv_rr_issued : ∀ i, is_Some (pending_responses b !! i) →
    i ∈ rr_issued (request_response b);
  inv_started : started l ≡ₚ
    finished (emitted l ++ events b) ++ cancelled l ++ running b;
  inv_nodup : NoDup (started l);
  inv_issued : ∀ q, q ∈ started l → q ∈ bw_issued (bitswap b);
  inv_query : ∀ q i, queries b !! q = Some i →
    query_id i = q ∧ block_found i = false;
}.

(** Only the fields of the invariant matter. *)
Lemma inv_silent l b b' :
  pending_responses b' = pending_responses b →
  rr_issued (request_response b) ⊆ rr_issued (request_response b') →
  finished (events b') = finished (events b) → queries b' = queries b →
  bw_issued (bitswap b) ⊆ bw_issued (bitswap b') →
  inv l b → inv (label_app l silent) b'.
Proof.
  intros Hp Hr He Hq Hb [? Hri Hs ? Hi ?]. unfold waiting, running in *.
  split; simpl; rewrite ?app_nil_r; unfold waiting, running;
    rewrite ?Hp, ?Hq; try done.
  - intros i Hs'. by apply Hr, Hri.
  - by rewrite finished_app, He, <- finished_app.
  - intros q Hs'. by apply Hb, Hi.
Qed.

Lemma inv_init b :
  pending_responses b = ∅ → queries b = ∅ → events b = [] → inv silent b.
Proof.
  intros Hp Hq He. split; simpl; unfold waiting, running;
    rewrite ?Hp, ?Hq, ?He, ?map_to_list_empty; simpl; try done.
  - intros i. rewrite lookup_empty. by intros [].
  - constructor.
  - by intros q ?%not_elem_of_nil.
Qed.

(** Closes the goals of [inv] a step does not concern. *)
Local Ltac inv_rest :=
  simpl; rewrite ?app_nil_r; try done.

Lemma inv_start l b q c bw :
  q ∉ bw_issued (bitswap b) → bw_issued bw = {[q]} ∪ bw_issued (bitswap b) →
  inv l b →
  inv (label_app l {| asked := []; replied := []; started := [q];
                      cancelled := []; emitted := [] |})
    (insert_query q c (with_bitswap bw b)).
Proof.
  intros Hq Hbw [? ? Hs Hnd Hi Hqi].
  assert (queries b !! q = None) as Hnone.
  { destruct (queries b !! q) as [i|] eqn:Hl; [|done]. exfalso. apply Hq, Hi.
    rewrite Hs, !elem_of_app. right; right. unfold running.
    apply list_elem_of_fmap. exists (q, i). split; [done|].
    by apply elem_of_map_to_list. }
  split; inv_rest.
  - unfold running in *; simpl. rewrite map_to_list_insert by done. simpl.
    rewrite Hs. solve_Permutation.
  - apply NoDup_app. split_and!; [done| |apply NoDup_singleton].
    intros x Hx ->%list_elem_of_singleton. by apply Hq, Hi.
  - intros x [Hx%Hi| ->%list_elem_of_singleton]%elem_of_app; rewrite Hbw; set_solver.
  - intros q' i'. rewrite lookup_insert. case_decide as Hqq; [|apply Hqi].
    by intros [= <-].
Qed.

Lemma inv_answer l b id r :
  inv l b →
  inv (label_app l {| asked := []; replied := (answer id r b).1; started := [];
                      cancelled := []; emitted := [] |}) (answer id r b).2.
Proof.
  intros Hi. unfold answer. destruct (pending_responses b !! id) as [s|] eqn:Hl;
    [|by apply (inv_silent l b b)].
  destruct Hi as [Ha Hr ? ? ? ?]. split; inv_rest.
  - rewrite Ha. unfold waiting. simpl. rewrite fmap_app, <- app_assoc. simpl.
    by rewrite <- (map_to_list_delete _ _ _ Hl).
  - intros i [s' Hs']. apply Hr. rewrite lookup_delete in Hs'.
    case_decide; [done|]. by exists s'.
Qed.

Lemma inv_cancel l b id :
  inv l b →
  inv (label_app l {| asked := []; replied := []; started := [];
         cancelled := if decide (is_Some (queries b !! id)) then [id] else [];
         emitted := [] |}) (cancel id b).
Proof.
  intros Hi. case_decide as Hd.
  - destruct Hd as [i Hl]. destruct Hi as [? ? Hs ? ? Hq].
    split; inv_rest; rewrite ?bw_cancel_issued; inv_rest.
    + rewrite Hs. unfold running. simpl.
      rewrite <- (map_to_list_delete _ _ _ Hl). simpl. solve_Permutation.
    + intros q' i'. rewrite lookup_delete. case_decide; [done|]. apply Hq.
  - apply (inv_silent l b); simpl; rewrite ?bw_cancel_issued; try done.
    apply delete_id. by apply eq_None_not_Some.
Qed.

Lemma inv_handle_bitswap l b e :
  inv l b → inv (label_app l silent) (handle_bitswap e b).
Proof.
  intros Hi. destruct e as [id n|id r]; [by apply (inv_silent l b)|].
  simpl. destruct (queries b !! id) as [i|] eqn:Hl; [|by apply (inv_silent l b)].
  destruct Hi as [? ? Hs ? ? Hq]. destruct (Hq _ _ Hl) as [Hid _].
  split; inv_rest.
  - rewrite Hs. unfold running, push_back. simpl.
    rewrite <- (map_to_list_delete _ _ _ Hl), !finished_app.
    simpl. rewrite Hid. solve_Permutation.
  - intros q' i'. rewrite lookup_delete. case_decide; [done|]. apply Hq.
Qed.

(** Pushing anything but a finished query. *)
Lemma inv_push l b e :
  finished [e] = [] → inv l b → inv (label_app l silent) (push_event e b).
Proof.
  intros He. apply inv_silent; simpl; try done.
  unfold push_back. by rewrite finished_app, He, app_nil_r.
Qed.

Lemma inv_poll l b :
  inv l b →
  inv (label_app l {| asked := []; replied := []; started := []; cancelled := [];
                      emitted := option_list (poll b).1 |}) (poll b).2.
Proof.
  intros Hi. unfold poll. destruct (events b) as [|e q] eqn:He; simpl.
  - by apply (inv_silent l b).
  - destruct Hi as [? ? Hs ? ? ?]. split; inv_rest.
    rewrite Hs, He, <- app_assoc. done.
Qed.

(** The part of the behaviour the invariant reads. *)
Definition core b :=
  (pending_responses b, queries b, finished (events b), bitswap b).

Lemma inv_core l b b' :
  core b' = core b → rr_issued (request_response b') = rr_issued (request_response b) →
  inv l b → inv (label_app l silent) b'.
Proof. intros [= Hp Hq He Hb] Hr. apply inv_silent; try done; by rewrite ?Hr, ?Hb. Qed.

Lemma push_core e b : finished [e] = [] → core (push_event e b) = core b.
Proof.
  intros He. unfold core, push_event, with_events, push_back. cbn -[finished].
  by rewrite finished_app, He, app_nil_r.
Qed.

(** Whatever adding addresses keeps, the handler keeps. *)
Lemma handle_identify_keeps {A} (f : Behaviour → A) e b :
  (∀ g b, f (with_gossipsub g b) = f b) → (∀ p b a, f (add_listen_addr p b a) = f b) →
  f (handle_identify e b) = f b.
Proof.
  intros Hg Ha. destruct e as [p i| | |]; try done. simpl.
  destruct (existsb _ _); [|done].
  assert (∀ l b, f (foldl (add_listen_addr p) b l) = f b) as ->; [|by apply Hg].
  induction l as [|a l IH]; intros b'; simpl; [done|]. by rewrite IH, Ha.
Qed.

Lemma handle_discovery_core l b :
  let b' := foldl (λ b e, handle_discovery e b) b l in
  core b' = core b ∧ request_response b' = request_response b.
Proof.
  revert b. induction l as [|e l IH]; intros b; [done|]. simpl.
  destruct (IH (handle_discovery e b)) as [-> ->].
  split; [destruct e; by apply push_core|by destruct e].
Qed.

Lemma get_block_run c ps b :
  get_block c ps b =
    (Ok tt, insert_query (bw_get c ps (bitswap b)).1 c
              (with_bitswap (bw_get c ps (bitswap b)).2 b)).
Proof.
  unfold get_block. rewrite convert_cid_to_bytes. st_unfold.
  by destruct (bw_get c ps (bitswap b)).
Qed.

Lemma sync_block_run c ps b :
  sync_block c ps b =
    (Ok tt, insert_query (bw_sync c ps [c] (bitswap b)).1 c
              (with_bitswap (bw_sync c ps [c] (bitswap b)).2 b)).
Proof.
  unfold sync_block. rewrite convert_cid_to_bytes. st_unfold.
  by destruct (bw_sync c ps [c] (bitswap b)).
Qed.

Lemma inv_send_request l b p q s :
  inv l b →
  inv (label_app l {| asked := [s]; replied := []; started := []; cancelled := [];
                      emitted := [] |}) (send_request p q s b).
Proof.
  intros [Ha Hr ? ? ? ?]. unfold send_request.
  destruct (rr_send_request p q (request_response b)) as [i rr] eqn:Hs.
  apply rr_send_issued in Hs as [Hi Hrr].
  assert (pending_responses b !! i = None) as Hn.
  { destruct (pending_responses b !! i) eqn:Hl; [|done]. destruct Hi.
    apply Hr. by rewrite Hl. }
  split; inv_rest.
  - unfold waiting in *. simpl. rewrite map_to_list_insert by done. simpl.
    rewrite Ha. solve_Permutation.
  - intros i' Hi'. rewrite Hrr. destruct (decide (i = i')) as [->|Hne]; [set_solver|].
    rewrite lookup_insert_ne in Hi' by done. apply Hr in Hi'. set_solver.
Qed.

Lemma step_inv b l' b' l : step b l' b' → inv l b → inv (label_app l l') b'.
Proof.
  intros Hs Hi. destruct Hs.
  - by apply inv_send_request.
  - destruct e as [p [i q ch|i r]|p i e|p i e|p i]; simpl.
    + by apply inv_push.
    + by apply inv_answer.
    + by apply inv_answer.
    + by apply (inv_core l b).
    + by apply (inv_core l b).
  - rewrite get_block_run. destruct (bw_get c ps (bitswap b)) as [q bw] eqn:Hq.
    apply bw_get_issued in Hq as [? ?]. by apply inv_start.
  - rewrite sync_block_run. destruct (bw_sync c ps [c] (bitswap b)) as [q bw] eqn:Hq.
    apply bw_sync_issued in Hq as [? ?]. by apply inv_start.
  - by apply inv_cancel.
  - by apply inv_poll.
  - unfold publish, st_zoom. destruct (gs_publish _ _ _). by apply (inv_core l b).
  - by apply inv_push.
  - unfold bootstrap, st_zoom. destruct (Discovery.bootstrap _). by apply (inv_core l b).
  - unfold subscribe, st_zoom. destruct (gs_subscribe _ _). by apply (inv_core l b).
  - by apply inv_handle_bitswap.
  - apply (inv_core l b); [by apply handle_identify_keeps| |done].
    apply (handle_identify_keeps (λ b, rr_issued (request_response b))); [done|].
    intros. apply rr_add_issued.
  - destruct e; [by apply inv_push|by apply (inv_core l b)..].
  - destruct e as [p []|p| | |]; [by apply (inv_core l b)|by apply inv_push..|
      by apply (inv_core l b)].
  - destruct e; [by apply inv_push|by apply (inv_core l b)..].
  - destruct (handle_discovery_core out (with_discovery d' b)) as [Hc Hr].
    apply (inv_core l b); [done|by rewrite Hr|done].
  - by apply (inv_silent l b).
  - by apply (inv_silent l b).
  - by apply (inv_core l b).
  - by apply (inv_core l b).
Qed.

Lemma steps_inv b l b' :
  steps b l b' → pending_responses b = ∅ → queries b = ∅ → events b = [] → inv l b'.
Proof.
  induction 1 as [b|b l b' l' b'' _ IH Hs]; intros; [by apply inv_init|].
  eapply step_inv; eauto.
Qed.

Lemma new_empty p config rc b :
  new p config rc = Ok b →
  pending_responses b = ∅ ∧ queries b = ∅ ∧ events b = [] ∧
  Discovery.peers (discovery b) = ∅ ∧
  Discovery.events (discovery b) = [].
Proof.
  unfold new. intros Hn. inv_bind. injection Hn as <-. simpl.
  apply Discovery.new_fresh in H1 as [-> ->]. done.
Qed.

(** *** Connection events *)

(** The connection events among those of the behaviour. *)
Definition peer_events (l : list BehaviourEvent) : list Discovery.DiscoveryEvent :=
  omap (λ e, match e with
             | PeerConnected p => Some (Discovery.Connected p)
             | PeerDisconnected p => Some (Discovery.Disconnected p)
             | _ => None
             end) l.

Lemma peer_events_app l l' : peer_events (l ++ l') = peer_events l ++ peer_events l'.
Proof. apply omap_app. Qed.

(** What was handed out, what is queued here and what is still queued in
    discovery tell the set of peers. *)
Definition peers_inv (l : label) b : Prop :=
  Discovery.consistent (discovery b) (peer_events (emitted l ++ events b)).

(** The part of the behaviour [peers_inv] reads. *)
Definition peer_core b :=
  (Discovery.peers (discovery b), Discovery.events (discovery b),
   peer_events (events b)).

Lemma peers_inv_core l b b' :
  peer_core b' = peer_core b → peers_inv l b → ∀ l', emitted l' = [] →
  peers_inv (label_app l l') b'.
Proof.
  intros [= Hp He Hq] Hi l' Hl. unfold peers_inv, Discovery.consistent in *. simpl.
  rewrite Hl, app_nil_r, Hp, He, peer_events_app, Hq, <- peer_events_app. done.
Qed.

Lemma push_peer_core e b : peer_events [e] = [] → peer_core (push_event e b) = peer_core b.
Proof.
  intros He. unfold peer_core, push_event, with_events, push_back.
  cbn -[peer_events]. by rewrite peer_events_app, He, app_nil_r.
Qed.

Lemma discovery_events_peers out b :
  Discovery.peers (discovery (foldl (λ b e, handle_discovery e b) b out)) =
    Discovery.peers (discovery b) ∧
  discovery (foldl (λ b e, handle_discovery e b) b out) = discovery b ∧
  peer_events (events (foldl (λ b e, handle_discovery e b) b out)) =
    peer_events (events b) ++ out.
Proof.
  revert b. induction out as [|e out IH]; intros b; simpl; [by rewrite app_nil_r|].
  destruct (IH (handle_discovery e b)) as (-> & -> & ->).
  destruct e; simpl; unfold push_back; by rewrite peer_events_app, <- app_assoc.
Qed.

Lemma send_request_peer_core p q s b : peer_core (send_request p q s b) = peer_core b.
Proof. unfold send_request. by destruct (rr_send_request _ _ _). Qed.

Lemma answer_peer_core id r b : peer_core (answer id r b).2 = peer_core b.
Proof. unfold answer. by destruct (pending_responses b !! id). Qed.

Lemma handle_bitswap_peer_core e b : peer_core (handle_bitswap e b) = peer_core b.
Proof.
  destruct e as [|id r]; [done|]. simpl. destruct (queries b !! id); [|done].
  by rewrite push_peer_core.
Qed.

Lemma zoom_gossip_peer_core {A} (m : stM Gossipsub string A) b :
  peer_core (st_zoom gossipsub with_gossipsub m b).2 = peer_core b.
Proof. unfold st_zoom. by destruct (m _). Qed.

Lemma bootstrap_peer_core b : peer_core (bootstrap b).2 = peer_core b.
Proof.
  unfold bootstrap, st_zoom. destruct (Discovery.bootstrap_peers (discovery b)) as [Hp He].
  destruct (Discovery.bootstrap (discovery b)) as [o d]. simpl in *.
  unfold peer_core. simpl. by rewrite Hp, He.
Qed.

Lemma step_peers_inv b l' b' l :
  step b l' b' → peers_inv l b → peers_inv (label_app l l') b'.
Proof.
  intros Hs Hi.
  assert (peer_core b' = peer_core b → emitted l' = [] → peers_inv (label_app l l') b')
    as Hcore by (intros; by eapply peers_inv_core).
  destruct Hs; try (apply Hcore; done);
    lazymatch goal with
    | H : Discovery.step _ _ _ |- _ => idtac
    | _ => try (apply Hcore; [|done])
    end.
  - apply send_request_peer_core.
  - destruct e as [p [i q ch|i r]|p i e|p i e|p i]; try done;
      [by apply push_peer_core|apply answer_peer_core..].
  - by rewrite get_block_run.
  - by rewrite sync_block_run.
  - unfold peers_inv, Discovery.consistent, poll in *. simpl.
    destruct (events b) as [|e q] eqn:He; simpl; rewrite ?app_nil_r, ?He; [done|].
    by rewrite <- app_assoc.
  - apply zoom_gossip_peer_core.
  - by apply push_peer_core.
  - apply bootstrap_peer_core.
  - apply zoom_gossip_peer_core.
  - apply handle_bitswap_peer_core.
  - by apply handle_identify_keeps.
  - destruct e; [by apply push_peer_core|done..].
  - destruct e as [p []|p| | |]; try done; by apply push_peer_core.
  - destruct e; [by apply push_peer_core|done..].
  - subst d. eapply Discovery.step_consistent in Hi; [|done].
    destruct (discovery_events_peers out (with_discovery d' b)) as (_ & Hd & He).
    unfold peers_inv. rewrite Hd. simpl. rewrite app_nil_r, peer_events_app, He.
    rewrite app_assoc, <- peer_events_app. done.
Qed.

Lemma steps_peers_inv b l b' :
  steps b l b' → events b = [] → Discovery.peers (discovery b) = ∅ →
  Discovery.events (discovery b) = [] → peers_inv l b'.
Proof.
  induction 1 as [b|b l b' l' b'' _ IH Hs]; intros He Hp Hd.
  - unfold peers_inv, Discovery.consistent. by rewrite He, Hp, Hd.
  - eapply step_peers_inv; eauto.
Qed.
End history.

(** ** Properties *)

Section properties.
  Context {cl : CidLib} {nl : NetLib} {ml : MultiaddrLib} {sw : SwarmTypes}.
  Context {kl : KadLib} {md : MdnsLib} {gl : GossipLib} {bl : BitswapLib}.
  Context {rl : RequestResponseLib} {al : NatLib}.
  Implicit Types (b : Behaviour).

(** C23: over any history of a new behaviour, the senders passed to
    [send_request] are, as a multiset, those that were replied to and those
    that still wait: none is lost and none is answered twice. *)
Theorem requests_answered_once p config rc b0 l b :
  new p config rc = Ok b0 → steps b0 l b →
  asked l ≡ₚ (replied l).*1 ++ waiting b.
Proof.
  intros (? & ? & ? & _)%new_empty Hs.
  by apply (inv_asked _ _ (steps_inv _ _ _ Hs ltac:(done) ltac:(done) ltac:(done))).
Qed.

(** C22: over any history of a new behaviour, every bitswap query is running,
    was cancelled, or was reported as finished, and exactly one of these, once;
    a running query is filed under its own identifier with no block found. *)
Theorem queries_finish_once p config rc b0 l b :
  new p config rc = Ok b0 → steps b0 l b →
  started l ≡ₚ finished (emitted l ++ events b) ++ cancelled l ++ running b ∧
  NoDup (finished (emitted l ++ events b) ++ cancelled l ++ running b) ∧
  (∀ q i, queries b !! q = Some i → query_id i = q ∧ block_found i = false).
Proof.
  intros (? & ? & ? & _)%new_empty Hs.
  destruct (steps_inv _ _ _ Hs) as [_ _ Hst Hnd _ Hq]; [done..|].
  split_and!; [done| |done]. by rewrite <- Hst.
Qed.

(** C25: over any history of a new behaviour, the connection events handed to
    the service, those queued here and those queued in discovery, in this
    order, lead from no peer to exactly the set [peers]. *)
Theorem peer_events_history p config rc b0 l b :
  new p config rc = Ok b0 → steps b0 l b →
  Discovery.replay ∅ (peer_events (emitted l ++ events b) ++
    Discovery.events (discovery b)) = Some (peers b).
Proof.
  intros (? & ? & He & Hp & Hd)%new_empty Hs.
  by apply (steps_peers_inv _ _ _ Hs).
Qed.

(** A bitswap query that completes is removed from the table and reported
    last in the queue, for the identifier it was started for, as found exactly
    when it succeeded; an identifier that is not in the table changes
    nothing. *)
Theorem handle_bitswap_complete id r b info :
  (queries b !! id = Some info → block_found info = false →
     queries (handle_bitswap (Complete id r) b) = delete id (queries b) ∧
     events (handle_bitswap (Complete id r) b) = events b ++
       [BitswapFinished {| cid := cid info; query_id := query_id info;
                           block_found := is_ok r |}]) ∧
  (queries b !! id = None → handle_bitswap (Complete id r) b = b).
Proof.
  simpl. split.
  - intros -> Hf. rewrite Hf. by destruct (is_ok r).
  - by intros ->.
Qed.

(** An identify event adds a peer's addresses to discovery and to
    request/response, all of them and in order, and the peer to gossipsub,
    exactly when the peer speaks the node's Kademlia protocol. *)
Theorem handle_identify_same_network p info b :
  let same := existsb (λ name, bool_decide (as_bytes name = Discovery.URSA_KAD_PROTOCOL))
                (protocols info) in
  let b' := handle_identify (Received p info) b in
  (same = false → b' = b) ∧
  (same = true →
     gossipsub b' = gs_add_explicit_peer p (gossipsub b) ∧
     discovery b' = Discovery.add_addresses
       ((λ a, (p, a)) <$> listen_addrs info) (discovery b) ∧
     request_response b' =
       foldl (λ r a, rr_add_address p a r) (request_response b) (listen_addrs info)).
Proof.
  simpl. destruct (existsb _ _); split; try done. intros _.
  generalize (listen_addrs info) as l. intros l. unfold Discovery.add_addresses.
  set (b0 := with_gossipsub _ b).
  change (gs_add_explicit_peer p (gossipsub b)) with (gossipsub b0).
  change (discovery b) with (discovery b0).
  change (request_response b) with (request_response b0).
  generalize b0. clear. induction l as [|a l IH]; intros b; [done|].
  simpl. by destruct (IH (add_listen_addr p b a)) as (-> & -> & ->).
Qed.
End properties.

(** ** Evaluation on concrete libraries *)

Import Samples ProtocolSamples.

Definition sample_relay_client : RelayClient := tt.

Definition sample_behaviour : Behaviour := {|
  autonat := Some (autonat_new (pid 1) 30);
  relay_client := Some sample_relay_client;
  relay_server := Some (relay_server_new (pid 1));
  dcutr := Some dcutr_new;
  bitswap := bw_new;
  gossipsub := [];
  discovery := Discovery.sample_discovery;
  request_response := rr_new 60;
  events := [];
  pending_requests := ∅;
  pending_responses := ∅;
  queries := ∅;
|}.

Definition sample_info : BitswapInfo :=
  {| cid := sid x01; query_id := qid 0; block_found := false |}.

Definition sample_send : Behaviour :=
  send_request (pid 5) sample_request 42 sample_behaviour.

Lemma sample_new :
  new (pid 1) Discovery.sample_config (Some sample_relay_client) = Ok sample_behaviour.
Proof. reflexivity. Qed.

Lemma requests_answered_once_witness :
  new (pid 1) Discovery.sample_config (Some sample_relay_client) = Ok sample_behaviour ∧
  [42%N] ≡ₚ [] ++ waiting sample_send.
Proof.
  split; [reflexivity|].
  apply (requests_answered_once (pid 1) Discovery.sample_config
    (Some sample_relay_client) sample_behaviour _ sample_send sample_new
    (steps_snoc _ _ _ _ _ (steps_refl sample_behaviour)
       (step_send_request sample_behaviour (pid 5) sample_request 42))).
Defined.

Lemma queries_finish_once_witness :
  let b := (get_block (sid x01) [] sample_behaviour).2 in
  running b = [qid 0] ∧ NoDup (finished (events b) ++ running b).
Proof.
  split; [reflexivity|].
  apply (queries_finish_once (pid 1) Discovery.sample_config
    (Some sample_relay_client) sample_behaviour _ _ sample_new
    (steps_snoc _ _ _ _ _ (steps_refl sample_behaviour)
       (step_get_block sample_behaviour (sid x01) []))).
Defined.

Lemma peer_events_history_witness :
  Discovery.replay ∅ (peer_events (events sample_send) ++
    Discovery.events (discovery sample_send)) = Some (peers sample_send).
Proof.
  apply (peer_events_history (pid 1) Discovery.sample_config
    (Some sample_relay_client) sample_behaviour _ sample_send sample_new
    (steps_snoc _ _ _ _ _ (steps_refl sample_behaviour)
       (step_send_request sample_behaviour (pid 5) sample_request 42))).
Defined.

Lemma handle_bitswap_complete_witness :
  let b := with_queries {[ qid 0 := sample_info ]} sample_behaviour in
  events (handle_bitswap (Complete (qid 0) (Err "timeout")) b) =
    [BitswapFinished sample_info].
Proof.
  intros b.
  apply (proj1 (handle_bitswap_complete (qid 0) (Err "timeout") b sample_info));
    reflexivity.
Defined.
