(* ===== verification/Advertisement.v ===== *)
(** Advertisements and entry chunks
    ([src/crates/ursa-index-provider/src/advertisement.rs]). *)

From S2P Require Import Prelude Libs.
From S2P Require Samples.


Definition MAX_ENTRIES : nat := N.to_nat 6250000.
Definition AD_SIGNATURE_CODEC : string := "/indexer/ingest/adSignature".
Definition AD_SIGNATURE_DOMAIN : string := "indexer".

Inductive AdSigError `{KeyLib} :=
| InvalidPreviousID
| InvalidEntryChunkLink
| InvalidMetadata
| MissingSig
| SigningError_ (e : SigningError)
| DecodingError (e : EnvelopeDecodingError)
| ReadPayloadError (e : EnvelopePayloadError)
| PayloadDidNotMatch.

(** The messages of the [#[error]] attributes. *)
Definition ad_sig_error_string `{KeyLib} (e : AdSigError) : string :=
  match e with
  | InvalidPreviousID => "Invalid Previous ID"
  | InvalidEntryChunkLink => "Invalid Entry Chunk Link"
  | InvalidMetadata => "Invalid Metadata"
  | MissingSig => "Missing Signature"
  | SigningError_ e => "Failed to sign advertisement: " +:+ signing_error_string e
  | DecodingError e => "Failed to decode sig: " +:+ decoding_error_string e
  | ReadPayloadError e => "Failed to read signed payload: " +:+ payload_error_string e
  | PayloadDidNotMatch => "Payload did not match expected"
  end.

Section advertisement.
  Context {cl : CidLib} {nl : NetLib} {key : KeyLib} {el : EncodeLib}.

Record Metadata := { ProtocolID : N; Data : bytes }.

Record Advertisement := {
  PreviousID : option Ipld;
  Provider : string;
  Addresses : list string;
  Signature : Ipld;
  Entries : option Ipld;
  ContextID : Ipld;
  AdMetadata : Ipld;
  IsRm : bool;
}.

Definition with_entries (e : option Ipld) (ad : Advertisement) : Advertisement :=
  {| PreviousID := PreviousID ad; Provider := Provider ad; Addresses := Addresses ad;
     Signature := Signature ad; Entries := e; ContextID := ContextID ad;
     AdMetadata := AdMetadata ad; IsRm := IsRm ad |}.
Definition with_previous (p : option Ipld) (ad : Advertisement) : Advertisement :=
  {| PreviousID := p; Provider := Provider ad; Addresses := Addresses ad;
     Signature := Signature ad; Entries := Entries ad; ContextID := ContextID ad;
     AdMetadata := AdMetadata ad; IsRm := IsRm ad |}.
Definition with_signature (s : Ipld) (ad : Advertisement) : Advertisement :=
  {| PreviousID := PreviousID ad; Provider := Provider ad; Addresses := Addresses ad;
     Signature := s; Entries := Entries ad; ContextID := ContextID ad;
     AdMetadata := AdMetadata ad; IsRm := IsRm ad |}.

(** [Advertisement::new] *)
Definition new (context_id : bytes) (provider : PeerId) (addresses : list string)
    (is_rm : bool) : outcome string Advertisement :=
  let raw_metadata := {| ProtocolID := 0x0900; Data := [] |} in
  metadata ← unwrap (bincode_metadata (ProtocolID raw_metadata) (Data raw_metadata));
  Ok {|
    PreviousID := None;
    Provider := peer_to_base58 provider;
    Addresses := addresses;
    Signature := IpldBytes [];
    Entries := None;
    AdMetadata := IpldBytes metadata;
    ContextID := IpldBytes context_id;
    IsRm := is_rm;
  |}.

(** The bytes of an optional link; anything else is the error given. *)
Definition link_bytes (e : AdSigError) (i : option Ipld) : outcome AdSigError bytes :=
  match i with
  | Some (IpldLink link) => Ok (cid_to_bytes link)
  | None => Ok []
  | _ => Err e
  end.

(** The payload [sig_payload] hashes. *)
Definition raw_payload (ad : Advertisement) : outcome AdSigError bytes :=
  previous_id_bytes ← link_bytes InvalidPreviousID (PreviousID ad);
  entrychunk_link_bytes ← link_bytes InvalidEntryChunkLink (Entries ad);
  metadata ← match AdMetadata ad with
             | IpldBytes b => Ok b
             | _ => Err InvalidMetadata
             end;
  let is_rm_payload := if IsRm ad then [x01] else [x00] in
  Ok (previous_id_bytes ++ entrychunk_link_bytes ++ as_bytes (Provider ad) ++
      concat (as_bytes <$> Addresses ad) ++ metadata ++ is_rm_payload).

Definition sig_payload (ad : Advertisement) : outcome AdSigError bytes :=
  payload ← raw_payload ad;
  Ok (sha2_256 payload).

Definition sign (ad : Advertisement) (signing_key : Keypair)
    : outcome AdSigError SignedEnvelope :=
  payload ← sig_payload ad;
  map_err SigningError_
    (envelope_new signing_key AD_SIGNATURE_DOMAIN (as_bytes AD_SIGNATURE_CODEC) payload).

(** ** [EntryChunk] *)

Record EntryChunk := {
  ChunkEntries : list Ipld;
  Next : option Ipld;
}.

Definition chunk_new (entries : list Ipld) (next : option Ipld) : EntryChunk :=
  {| ChunkEntries := entries; Next := next |}.

(** ** Properties *)

(** An advertisement whose links and metadata have the right shape. *)
Definition is_link (i : option Ipld) : bool :=
  match i with None | Some (IpldLink _) => true | _ => false end.
Definition is_bytes (i : Ipld) : bool :=
  match i with IpldBytes _ => true | _ => false end.

Lemma with_entries_id ad : with_entries (Entries ad) ad = ad.
Proof. by destruct ad. Qed.

Lemma raw_payload_ok ad :
  is_link (PreviousID ad) = true → is_link (Entries ad) = true →
  is_bytes (AdMetadata ad) = true → is_ok (raw_payload ad) = true.
Proof.
  unfold raw_payload. destruct (PreviousID ad) as [[]|], (Entries ad) as [[]|],
    (AdMetadata ad); try done; by destruct (IsRm ad).
Qed.

Lemma sign_ok ad k env :
  sign ad k = Ok env → ∃ p, sig_payload ad = Ok p ∧
    envelope_new k AD_SIGNATURE_DOMAIN (as_bytes AD_SIGNATURE_CODEC) p = Ok env.
Proof.
  unfold sign. intros Hs. inv_bind. exists a. split; [done|].
  revert Hs. destruct (envelope_new _ _ _ _); naive_solver.
Qed.

Lemma sig_payload_signature s ad : sig_payload (with_signature s ad) = sig_payload ad.
Proof. done. Qed.

(** The payload that is signed fails on the first of previous link, entry
    link and metadata that has the wrong shape, with the error of that field,
    and on nothing else. *)
Theorem sig_payload_errors ad :
  match sig_payload ad with
  | Ok _ => is_link (PreviousID ad) = true ∧ is_link (Entries ad) = true ∧
      is_bytes (AdMetadata ad) = true
  | Err InvalidPreviousID => is_link (PreviousID ad) = false
  | Err InvalidEntryChunkLink =>
      is_link (PreviousID ad) = true ∧ is_link (Entries ad) = false
  | Err InvalidMetadata => is_link (PreviousID ad) = true ∧
      is_link (Entries ad) = true ∧ is_bytes (AdMetadata ad) = false
  | _ => False
  end.
Proof.
  unfold sig_payload, raw_payload.
  by destruct (PreviousID ad) as [[]|], (Entries ad) as [[]|], (AdMetadata ad).
Qed.

(** The signed payload covers neither the context identifier nor where the
    provider ends and the addresses begin: advertisements that agree on the
    links, the metadata, the removal flag and the concatenation of provider
    and addresses have the same payload. *)
Theorem sig_payload_forgets ad ad' :
  PreviousID ad = PreviousID ad' → Entries ad = Entries ad' →
  AdMetadata ad = AdMetadata ad' → IsRm ad = IsRm ad' →
  as_bytes (Provider ad) ++ concat (as_bytes <$> Addresses ad) =
    as_bytes (Provider ad') ++ concat (as_bytes <$> Addresses ad') →
  sig_payload ad = sig_payload ad'.
Proof.
  intros Hp He Hm Hr Hc. unfold sig_payload, raw_payload. rewrite Hp, He, Hm, Hr.
  destruct (link_bytes _ (PreviousID ad')); simpl; [|done..].
  destruct (link_bytes _ (Entries ad')); simpl; [|done..].
  destruct (AdMetadata ad'); simpl; [|done..].
  do 4 f_equal. rewrite !(app_assoc (as_bytes _)). by rewrite Hc.
Qed.
End advertisement.

(** ** Evaluation *)

Import Samples.

(** Two advertisements of different content, the bytes of the first address
    moved into the provider. *)
Definition sample_ad (provider address : string) (context : bytes) : Advertisement := {|
  PreviousID := None; Provider := provider; Addresses := [address];
  Signature := IpldBytes []; Entries := Some (IpldLink (sid x01));
  ContextID := IpldBytes context; AdMetadata := IpldBytes [x02]; IsRm := false;
|}.

Lemma sig_payload_forgets_witness :
  sample_ad "ab" "c" [x01] ≠ sample_ad "a" "bc" [x02] ∧
  sig_payload (sample_ad "ab" "c" [x01]) = sig_payload (sample_ad "a" "bc" [x02]).
Proof. split; [done|]. apply sig_payload_forgets; reflexivity. Defined.
