(* ===== verification/SignedHead.v ===== *)
(** The signed head of the advertisement chain
    ([src/crates/ursa-index-provider/src/signed_head.rs]). *)

From S2P Require Import Prelude Libs.
From S2P Require Samples.

Inductive SignedHeadError := InvalidSignature | InvalidPublicKey.

Section signed_head.
  Context {cl : CidLib} {nl : NetLib} {key : KeyLib} {jl : JsonValueLib}.

Record SignedHead := {
  head : Cid;
  sig : bytes;
  pubkey : bytes;
}.

Definition new (signing_key : Keypair) (cid : Cid) : outcome SigningError SignedHead :=
  sig ← key_sign signing_key (cid_to_bytes cid);
  Ok {| head := cid; pubkey := to_protobuf_encoding (public signing_key); sig := sig |}.

(** [open] *)
Definition open_head (h : SignedHead) : outcome SignedHeadError (PublicKey * Cid) :=
  pk ← ok_or InvalidPublicKey (from_protobuf_encoding (pubkey h));
  let valid := key_verify pk (cid_to_bytes (head h)) (sig h) in
  if negb valid then Err InvalidSignature else Ok (pk, head h).

(** ** The JSON forms of the fields *)

Definition from_bytes_to_map (b : bytes) : JMap :=
  let bytes_map := map_insert "bytes" (value_of_string (base64_encode b)) map_new in
  map_insert "/" (value_of_map bytes_map) map_new.

Definition from_map_to_bytes (value : JMap) : outcome string bytes :=
  link ← ok_or "Missing link key" (map_get value "/");
  b ← ok_or "Missing bytes key" (value_get link "bytes");
  bytes_str ← ok_or "missing bytes string" (as_str b);
  base64_decode bytes_str.

Definition from_cid_to_map (cid : Cid) : JMap :=
  map_insert "/" (value_of_string (cid_to_string cid)) map_new.

Definition from_map_to_cid (value : JMap) : outcome string Cid :=
  entry ← ok_or "Cid entry is missing" (map_get value "/");
  cid_str ← ok_or "Cid str is missing" (as_str entry);
  cid_from_str cid_str.

(** The three fields as [serde_as] writes and reads them. *)
Definition serialize_fields (h : SignedHead) : JMap * JMap * JMap :=
  (from_cid_to_map (head h), from_bytes_to_map (sig h), from_bytes_to_map (pubkey h)).

Definition deserialize_fields (m : JMap * JMap * JMap) : outcome string SignedHead :=
  let '(h, s, p) := m in
  head ← from_map_to_cid h;
  sig ← from_map_to_bytes s;
  pubkey ← from_map_to_bytes p;
  Ok {| head := head; sig := sig; pubkey := pubkey |}.

(** ** Properties *)

Lemma from_map_to_bytes_of b : from_map_to_bytes (from_bytes_to_map b) = Ok b.
Proof.
  unfold from_map_to_bytes, from_bytes_to_map. rewrite map_get_insert. simpl.
  rewrite value_get_map, map_get_insert. simpl. rewrite as_str_of_string. simpl.
  apply base64_round_trip.
Qed.

Lemma from_map_to_cid_of c : from_map_to_cid (from_cid_to_map c) = Ok c.
Proof.
  unfold from_map_to_cid, from_cid_to_map. rewrite map_get_insert. simpl.
  rewrite as_str_of_string. simpl. apply cid_from_str_to_string.
Qed.

Lemma deserialize_serialize h : deserialize_fields (serialize_fields h) = Ok h.
Proof.
  destruct h. unfold deserialize_fields, serialize_fields. simpl.
  by rewrite from_map_to_cid_of, !from_map_to_bytes_of.
Qed.

(** [open] accepts exactly the heads whose signature verifies under the key
    they carry. *)
Lemma open_head_ok h pk c :
  open_head h = Ok (pk, c) ↔
  c = head h ∧ from_protobuf_encoding (pubkey h) = Some pk ∧
    key_verify pk (cid_to_bytes (head h)) (sig h) = true.
Proof.
  unfold open_head. destruct (from_protobuf_encoding (pubkey h)) as [pk'|]; simpl;
    [|split; [done|by intros (_ & ? & _)]].
  destruct (key_verify pk' _ _) eqn:?; simpl; split.
  - by intros [= <- <-].
  - by intros (-> & [= ->] & _).
  - done.
  - intros (_ & [= ->] & ?). congruence.
Qed.

(** A head that is signed, written as JSON, read back and opened yields the
    signer's public key and the identifier that was signed. *)
Theorem signed_head_round_trip k c h :
  new k c = Ok h →
  ∃ h', deserialize_fields (serialize_fields h) = Ok h' ∧
    open_head h' = Ok (public k, c).
Proof.
  unfold new. intros Hn. inv_bind. injection Hn as <-.
  eexists. split; [apply deserialize_serialize|].
  apply open_head_ok. simpl. split; [done|].
  split; [apply protobuf_round_trip|by apply sign_verify].
Qed.

(** [open] fails exactly when the key does not decode, or decodes and does
    not verify the signature; what it returns is the head and key it was given. *)
Theorem open_head_exact h :
  match open_head h with
  | Ok (pk, c) => c = head h ∧ from_protobuf_encoding (pubkey h) = Some pk ∧
      key_verify pk (cid_to_bytes (head h)) (sig h) = true
  | Err InvalidPublicKey => from_protobuf_encoding (pubkey h) = None
  | Err InvalidSignature => ∃ pk, from_protobuf_encoding (pubkey h) = Some pk ∧
      key_verify pk (cid_to_bytes (head h)) (sig h) = false
  | Panic => False
  end.
Proof.
  unfold open_head. destruct (from_protobuf_encoding (pubkey h)) as [pk|]; simpl; [|done].
  destruct (key_verify pk _ _) eqn:?; simpl; by eauto.
Qed.
End signed_head.

Import Samples.

Lemma signed_head_round_trip_witness :
  ∃ h h', new (keypair_of x05) (sid x01) = Ok h ∧
    deserialize_fields (serialize_fields h) = Ok h' ∧
    open_head h' = Ok (public (keypair_of x05), sid x01).
Proof.
  destruct (signed_head_round_trip (keypair_of x05) (sid x01)
    {| head := sid x01; pubkey := [x05]; sig := [x01] |}) as (h' & ? & ?);
    [reflexivity|].
  exists {| head := sid x01; pubkey := [x05]; sig := [x01] |}, h'. by split.
Defined.
