(* ===== verification/IndexLibs.v ===== *)
(** Interfaces of the libraries the index provider calls on its own data: the
    encodings of entries, chunks and advertisements, and the store of objects
    under the hash of their encoding. *)

From S2P Require Import Prelude Libs.
From S2P Require Advertisement.

(** ** [forest_encoding], [forest_ipld]: CBOR and IPLD encodings *)
Class CborLib `{CidLib, NetLib, !MultiaddrLib} := {
  entries_to_vec : list Ipld → outcome string bytes;
  entries_from_slice : bytes → outcome string (list Ipld);
  chunk_to_vec : Advertisement.EntryChunk → outcome string bytes;
  chunk_from_slice : bytes → option Advertisement.EntryChunk;
  ipld_to_vec : Ipld → outcome string bytes;
  ipld_from_slice : bytes → option Ipld;
  ad_to_ipld : Advertisement.Advertisement → outcome string Ipld;
  ad_from_ipld : Ipld → option Advertisement.Advertisement;
  addrs_to_vec : list Multiaddr → outcome string bytes;
  (** [value.encode(DagCborCodec, &mut bytes)]: what the call leaves in the
      buffer, failing or not. *)
  cid_encode : Cid → stM bytes string unit;
  array_encode : bytes → stM bytes string unit;
  entries_round_trip : ∀ l b, entries_to_vec l = Ok b → entries_from_slice b = Ok l;
  chunk_round_trip : ∀ c b, chunk_to_vec c = Ok b → chunk_from_slice b = Some c;
  ipld_round_trip : ∀ i b, ipld_to_vec i = Ok b → ipld_from_slice b = Some i;
  ad_round_trip : ∀ a i, ad_to_ipld a = Ok i → ad_from_ipld i = Some a;
}.

(** ** [BlockStoreExt::put_obj(.., Code::Blake2b256)] on encoded bytes

    The identifier of an object is the hash of its encoding, which is taken to
    have no collisions.  A put, failing or not, changes no other entry. *)
Class ObjStore `{CidLib} (DB : Type) `{!BlockStore DB} := {
  obj_cid : bytes → Cid;
  bs_put : bytes → stM DB string Cid;
  obj_cid_inj :: Inj eq eq obj_cid;
  bs_put_ok : ∀ b s c s', bs_put b s = (Ok c, s') →
    c = obj_cid b ∧ bs_get s' c = Ok (Some b);
  bs_put_keeps : ∀ b s o s' c, bs_put b s = (o, s') →
    bs_get s' c = bs_get s c ∨ c = obj_cid b ∧ bs_get s' c = Ok (Some b);
}.
