(* ===== verification/IndexSamples.v ===== *)
(** Concrete encodings for the index provider, for the witnesses: every object
    is encoded through its [Countable] instance, and the identifier of an
    object is its encoding. *)

From S2P Require Import Prelude Libs IndexLibs.
From S2P Require Advertisement.
From S2P Require Export Samples.

(** A positive number as the list of its bits, and back. *)
Fixpoint pos_bytes (p : positive) : bytes :=
  match p with
  | xH => []
  | xO p => x00 :: pos_bytes p
  | xI p => x01 :: pos_bytes p
  end.
Fixpoint bytes_pos (b : bytes) : positive :=
  match b with
  | [] => xH
  | x00 :: b => xO (bytes_pos b)
  | _ :: b => xI (bytes_pos b)
  end.

Lemma bytes_pos_bytes p : bytes_pos (pos_bytes p) = p.
Proof. induction p; simpl; congruence. Qed.

Definition sample_encode `{Countable A} (a : A) : bytes := pos_bytes (encode a).
Definition sample_decode `{Countable A} (b : bytes) : option A := decode (bytes_pos b).

Lemma sample_decode_encode `{Countable A} (a : A) : sample_decode (sample_encode a) = Some a.
Proof. unfold sample_decode, sample_encode. by rewrite bytes_pos_bytes, decode_encode. Qed.

#[export] Instance sample_ipld_eq_dec : EqDecision Ipld.
Proof. solve_decision. Defined.

#[export] Instance sample_ipld_countable : Countable Ipld :=
  inj_countable'
    (λ i, match i with IpldBytes b => inl b | IpldLink c => inr (inl (c : bytes))
          | IpldOther b => inr (inr b) end)
    (λ s, match s with inl b => IpldBytes b | inr (inl c) => IpldLink (c : Cid)
          | inr (inr b) => IpldOther b end)
    ltac:(by intros []).

#[export] Instance sample_chunk_eq_dec : EqDecision Advertisement.EntryChunk.
Proof. solve_decision. Defined.

#[export] Instance sample_chunk_countable : Countable Advertisement.EntryChunk :=
  inj_countable' (λ c, (Advertisement.ChunkEntries c, Advertisement.Next c))
    (λ x, Advertisement.chunk_new x.1 x.2) ltac:(by intros []).

#[export] Instance sample_ad_eq_dec : EqDecision Advertisement.Advertisement.
Proof. solve_decision. Defined.

#[export] Instance sample_ad_countable : Countable Advertisement.Advertisement :=
  inj_countable'
    (λ a, (Advertisement.PreviousID a, Advertisement.Provider a,
           Advertisement.Addresses a, Advertisement.Signature a,
           Advertisement.Entries a, Advertisement.ContextID a,
           Advertisement.AdMetadata a, Advertisement.IsRm a))
    (λ '(p, q, r, s, e, c, m, i),
      {| Advertisement.PreviousID := p; Advertisement.Provider := q;
         Advertisement.Addresses := r; Advertisement.Signature := s;
         Advertisement.Entries := e; Advertisement.ContextID := c;
         Advertisement.AdMetadata := m; Advertisement.IsRm := i |})
    ltac:(by intros []).

Definition sample_ad_from_ipld (i : Ipld) : option Advertisement.Advertisement :=
  match i with IpldBytes b => sample_decode b | _ => None end.

#[program] Definition sample_cbor : CborLib := {|
  entries_to_vec l := Ok (sample_encode l);
  entries_from_slice b := ok_or "not a list of entries" (sample_decode b);
  chunk_to_vec c := Ok (sample_encode c);
  chunk_from_slice := sample_decode;
  ipld_to_vec i := Ok (sample_encode i);
  ipld_from_slice := sample_decode;
  ad_to_ipld a := Ok (IpldBytes (sample_encode a));
  ad_from_ipld := sample_ad_from_ipld;
  addrs_to_vec l := Ok [];
  cid_encode c buffer := (Ok tt, buffer ++ c);
  array_encode b buffer := (Ok tt, buffer ++ b);
|}.
Next Obligation. cbn. intros l b [= <-]. by rewrite sample_decode_encode. Qed.
Next Obligation. cbn. intros l b [= <-]. by rewrite sample_decode_encode. Qed.
Next Obligation. cbn. intros l b [= <-]. by rewrite sample_decode_encode. Qed.
Next Obligation. cbn. intros a i [= <-]. apply sample_decode_encode. Qed.
#[export] Existing Instance sample_cbor.

#[program] Definition sample_obj_store : ObjStore sample_db := {|
  obj_cid b := (b : Cid);
  bs_put b s := (Ok (b : Cid), <[b := b]> s);
|}.
Next Obligation. cbn. intros b s c s' [= <- <-]. by rewrite lookup_insert_eq. Qed.
Next Obligation.
  cbn. intros b s o s' c [= <- <-]. destruct (decide (c = b)) as [->|Hc].
  - right. by rewrite lookup_insert_eq.
  - left. by rewrite lookup_insert_ne.
Qed.
#[export] Existing Instance sample_obj_store.
