(* ===== verification/Provider.v ===== *)
(** The index provider
    ([src/crates/ursa-index-provider/src/provider.rs] and [config.rs]): the
    advertisements under construction, the chain of published ones in the block
    store, the two HTTP handlers and the announcement of a new head. *)

From S2P Require Import Prelude Libs Utils Paths IndexLibs.
From S2P Require SignedHead Advertisement IndexSamples.

(** ** [ProviderConfig] *)

Definition DEFAULT_DB_PATH_STR : string := ".ursa/data/index_provider_db".

Record ProviderConfig := {
  local_address : string;
  port : N;
  domain : string;
  indexer_url : string;
  database_path : PathBuf;
}.

(** [ProviderConfig::default()], built with the home directory [home]. *)
Definition default_config (home : string) : ProviderConfig := {|
  local_address := "0.0.0.0";
  port := 8070;
  domain := "";
  indexer_url := "https://dev.cid.contact";
  database_path := join home DEFAULT_DB_PATH_STR;
|}.

Inductive ProviderError :=
| NotFoundError (e : string)
| InternalError (e : string).

(** [into_response]: the status code and the body. *)
Definition into_response (e : ProviderError) : N * string :=
  match e with
  | NotFoundError e => (404%N, e)
  | InternalError e => (500%N, e)
  end.

Section provider.
  Context {DB : Type} {cl : CidLib} {bs : BlockStore DB} {os : ObjStore DB}.
  Context {nl : NetLib} {ml : MultiaddrLib} {key : KeyLib} {el : EncodeLib}.
  Context {cbor : CborLib}.

Record Provider := {
  head : option Cid;
  root_cids : list Cid;
  keypair : Keypair;
  blockstore : DB;
  temp_ads : gmap N Advertisement.Advertisement;
  config : ProviderConfig;
}.

Definition with_head (h : option Cid) (p : Provider) : Provider :=
  {| head := h; root_cids := root_cids p; keypair := keypair p;
     blockstore := blockstore p; temp_ads := temp_ads p; config := config p |}.
Definition with_root_cids (q : list Cid) (p : Provider) : Provider :=
  {| head := head p; root_cids := q; keypair := keypair p;
     blockstore := blockstore p; temp_ads := temp_ads p; config := config p |}.
Definition with_blockstore (d : DB) (p : Provider) : Provider :=
  {| head := head p; root_cids := root_cids p; keypair := keypair p;
     blockstore := d; temp_ads := temp_ads p; config := config p |}.
Definition with_temp_ads (t : gmap N Advertisement.Advertisement) (p : Provider)
    : Provider :=
  {| head := head p; root_cids := root_cids p; keypair := keypair p;
     blockstore := blockstore p; temp_ads := t; config := config p |}.

Definition new (k : Keypair) (d : DB) (c : ProviderConfig) : Provider :=
  {| head := None; root_cids := []; keypair := k; blockstore := d;
     temp_ads := ∅; config := c |}.

(** ** Handlers *)

Definition head_handler (p : Provider) : outcome ProviderError SignedHead.SignedHead :=
  match head p with
  | Some h =>
    map_err (λ e, InternalError (signing_error_string e)) (SignedHead.new (keypair p) h)
  | None => Err (NotFoundError "No head found")
  end.

Definition get_block_handler (cid : string) (p : Provider)
    : outcome ProviderError bytes :=
  cid ← map_err InternalError (cid_from_str cid);
  match bs_get (blockstore p) cid with
  | Ok (Some d) => Ok d
  | Ok None => Err (NotFoundError "Block not found")
  | Err e => Err (InternalError e)
  | Panic => Panic
  end.

(** [start]: the routes and the address of the server; [parse] is
    [SocketAddr::from_str]. *)
Definition app_routes : list (string * string) := [("GET", "/head"); ("GET", "/:cid")].
Definition app_address {A} (parse : string → option A) (config : ProviderConfig)
    : outcome string A :=
  unwrap_opt (parse (local_address config +:+ ":" +:+ pretty.pretty (port config))).

(** ** [impl ProviderInterface for Provider] *)

(** [create]; [id] is the number the random generator draws. *)
Definition create (id : N) (ad : Advertisement.Advertisement) : stM Provider string N :=
  _ ← st_modify (λ p, with_temp_ads
        (<[id := Advertisement.with_entries None ad]> (temp_ads p)) p);
  mret id.

(** [bs.put_obj(&obj, ..)] for an object of a given encoder. *)
Definition put_obj {A} (to_vec : A → outcome string bytes) (obj : A)
    : stM Provider string Cid :=
  b ← st_lift (to_vec obj);
  st_zoom blockstore with_blockstore (bs_put b).

Definition add_chunk (b : bytes) (id : N) : stM Provider string unit :=
  entries ← st_lift (unwrap (entries_from_slice b));
  ads ← st_gets temp_ads;
  match ads !! id with
  | Some ad =>
    let chunk := Advertisement.chunk_new entries (Advertisement.Entries ad) in
    cid ← put_obj chunk_to_vec chunk;
    link ← st_lift (convert_cid (cid_to_bytes cid));
    st_modify (λ p, with_temp_ads
      (<[id := Advertisement.with_entries (Some (IpldLink link)) ad]> (temp_ads p)) p)
  | None => st_throw "ad not found"
  end.

(** [current_head.map(|h| Ipld::Link(convert_cid(h.to_bytes())))] *)
Definition previous_link (current_head : option Cid) : outcome string (option Ipld) :=
  match current_head with
  | Some h => link ← convert_cid (cid_to_bytes h); Ok (Some (IpldLink link))
  | None => Ok None
  end.

(** [ad.sign(..)] and the assignment to [ad.Signature]. *)
Definition sign_ad (k : Keypair) (ad : Advertisement.Advertisement)
    : outcome string Advertisement.Advertisement :=
  sig ← map_err Advertisement.ad_sig_error_string (Advertisement.sign ad k);
  Ok (Advertisement.with_signature (IpldBytes (envelope_encode sig)) ad).

(** [publish].  [head.take()] empties the head before anything can fail, and
    [temp_ads.remove] takes the advertisement out. *)
Definition publish (id : N) : stM Provider string unit :=
  k ← st_gets keypair;
  current_head ← st_gets head;
  _ ← st_modify (with_head None);
  ads ← st_gets temp_ads;
  _ ← st_modify (λ p, with_temp_ads (delete id (temp_ads p)) p);
  match ads !! id with
  | Some ad =>
    previous ← st_lift (previous_link current_head);
    ad ← st_lift (sign_ad k (Advertisement.with_previous previous ad));
    ipld_ad ← st_lift (ad_to_ipld ad);
    cid ← put_obj ipld_to_vec ipld_ad;
    st_modify (with_head (Some cid))
  | None => st_throw "ad not found"
  end.

(** ** Announcing the head *)

Record Message := { MsgCid : Cid; Addrs : list Multiaddr; ExtraData : bytes }.

(** [let _ = ..]: runs a call that writes into the buffer, whatever it
    answers. *)
Definition ignored {S E F} (m : stM S E unit) : stM S F unit := λ s,
  match m s with
  | (Panic, s') => (Panic, s')
  | (_, s') => (Ok tt, s')
  end.

(** [marshal_cbor]: the buffer starts with 131, the head of a CBOR array of
    three elements. *)
Definition marshal_cbor (m : Message) : outcome string bytes :=
  let write : stM bytes string unit :=
    _ ← st_modify (.++ [x83]);
    _ ← ignored (cid_encode (MsgCid m));
    encoded_addrs ← st_unwrap (st_lift (addrs_to_vec (Addrs m)));
    _ ← st_modify (.++ encoded_addrs);
    ignored (array_encode (ExtraData m)) in
  match write [] with
  | (Ok _, buffer) => Ok buffer
  | (Err e, _) => Err e
  | (Panic, _) => Panic
  end.

Definition create_announce_msg (peer_id : PeerId) (p : Provider) : outcome string bytes :=
  multiaddrs ← ma_from_str (domain (config p));
  multiaddrs ← ma_from_str
    (ma_to_string multiaddrs +:+ "/http/p2p/" +:+ peer_to_string peer_id);
  head_cid ← unwrap_opt (head p);
  unwrap (marshal_cbor
    {| MsgCid := head_cid; Addrs := [multiaddrs]; ExtraData := [] |}).

(** [announce_http_message]: the request it sends; the answer is only
    logged. *)
Definition announce_http_message (announce_msg : bytes) (p : Provider)
    : string * bytes :=
  (indexer_url (config p) +:+ "/ingest/announce", announce_msg).

End provider.

(** ** Reading the stored chains *)

Section chains.
  Context {DB : Type} {cl : CidLib} {bs : BlockStore DB} {os : ObjStore DB}.
  Context {nl : NetLib} {ml : MultiaddrLib} {key : KeyLib} {el : EncodeLib}.
  Context {cbor : CborLib}.
  Implicit Types (d : DB) (p : Provider (DB:=DB)).

Definition load {A} (from_slice : bytes → option A) d (c : Cid) : option A :=
  match bs_get d c with Ok (Some b) => from_slice b | _ => None end.

(** Follows a chain of links: the payloads from the first link on.  [None] is a
    chain that is longer than the fuel or cannot be read. *)
Fixpoint follow {A B} (from_slice : bytes → option A) (payload : A → B)
    (next : A → option Ipld) d (fuel : nat) (start : option Ipld) : option (list B) :=
  match fuel, start with
  | O, _ => None
  | S _, None => Some []
  | S fuel, Some (IpldLink c) =>
    a ← load from_slice d c;
    rest ← follow from_slice payload next d fuel (next a);
    Some (payload a :: rest)
  | S _, Some _ => None
  end.

Definition ad_from_slice (b : bytes) : option Advertisement.Advertisement :=
  ipld_from_slice b ≫= ad_from_ipld.

(** The chunks of an advertisement, newest first, and the advertisements from a
    head on. *)
Definition read_chunks d fuel (start : option Ipld) : option (list (list Ipld)) :=
  follow chunk_from_slice Advertisement.ChunkEntries Advertisement.Next d fuel start.
Definition read_ads d fuel (start : option Cid) : option (list Advertisement.Advertisement) :=
  follow ad_from_slice id Advertisement.PreviousID d fuel (IpldLink <$> start).

(** *** Stored objects stay stored *)

Definition stored d (c : Cid) (b : bytes) : Prop :=
  c = obj_cid b ∧ bs_get d c = Ok (Some b).

Definition keeps d d' : Prop := ∀ c b, stored d c b → stored d' c b.

Lemma keeps_refl d : keeps d d.
Proof. by intros c b. Qed.

Lemma keeps_trans d d' d'' : keeps d d' → keeps d' d'' → keeps d d''.
Proof. unfold keeps. naive_solver. Qed.

Lemma bs_put_stores b d o d' : bs_put b d = (o, d') →
  keeps d d' ∧ ∀ c, o = Ok c → stored d' c b.
Proof.
  intros Hp. split.
  - intros c x [-> Hx]. split; [done|].
    destruct (bs_put_keeps _ _ _ _ (obj_cid x) Hp) as [->|[->%(inj _) ?]]; done.
  - intros c ->. by apply bs_put_ok in Hp.
Qed.

Section follow.
  Context {A B : Type} (from_slice : bytes → option A) (payload : A → B).
  Context (next : A → option Ipld).

(** A chain every object of which is stored under its own hash. *)
Inductive chain d : option Ipld → list A → Prop :=
| chain_nil : chain d None []
| chain_cons c b a l :
    stored d c b → from_slice b = Some a → chain d (next a) l →
    chain d (Some (IpldLink c)) (a :: l).

Lemma chain_keeps d d' start l : keeps d d' → chain d start l → chain d' start l.
Proof. intros Hk. induction 1; econstructor; eauto. Qed.

Lemma chain_follow d start l fuel :
  chain d start l → length l < fuel →
  follow from_slice payload next d fuel start = Some (payload <$> l).
Proof.
  intros Hc. revert fuel. induction Hc as [|c b a l [_ Hs] Ha Hc IH]; intros [|fuel] Hf;
    simpl in *; try lia; [done|].
  unfold load. rewrite Hs, Ha. simpl. by rewrite IH by lia.
Qed.
End follow.

Abbreviation chunk_chain := (chain chunk_from_slice Advertisement.Next).
Abbreviation ad_chain := (chain ad_from_slice Advertisement.PreviousID).

(** *** The operations, one by one *)

Lemma put_obj_run {A} (to_vec : A → outcome string bytes) (x : A) p o p' :
  put_obj to_vec x p = (o, p') →
  ∃ d', p' = with_blockstore d' p ∧ keeps (blockstore p) d' ∧
    ∀ c, o = Ok c → ∃ b, to_vec x = Ok b ∧ stored d' c b.
Proof.
  unfold put_obj. st_unfold. intros Hp.
  destruct (to_vec x) as [b|e|].
  - destruct (bs_put b (blockstore p)) as [o' d'] eqn:Hb.
    apply bs_put_stores in Hb as [Hk Hs]. exists d'.
    destruct o'; simplify_eq/=; split_and!; try done; naive_solver.
  - exists (blockstore p). simplify_eq/=. destruct p'. split_and!; try done. apply keeps_refl.
  - exists (blockstore p). simplify_eq/=. destruct p'. split_and!; try done. apply keeps_refl.
Qed.

(** [add_chunk], whatever it answers: only the store and the one draft change,
    and the draft only by the chunk that is stored. *)
Lemma add_chunk_run b id p o p' :
  add_chunk b id p = (o, p') →
  (∃ d', p' = with_blockstore d' p ∧ keeps (blockstore p) d' ∧ is_ok o = false) ∨
  ∃ d' ad c entries x, o = Ok tt ∧ temp_ads p !! id = Some ad ∧
    entries_from_slice b = Ok entries ∧ keeps (blockstore p) d' ∧ stored d' c x ∧
    chunk_from_slice x = Some (Advertisement.chunk_new entries (Advertisement.Entries ad)) ∧
    p' = with_temp_ads (<[id := Advertisement.with_entries (Some (IpldLink c)) ad]> (temp_ads p))
           (with_blockstore d' p).
Proof.
  unfold add_chunk. intros Hr.
  assert (p = with_blockstore (blockstore p) p) as Hid by by destruct p.
  pose proof (keeps_refl (blockstore p)) as Hrefl.
  destruct (entries_from_slice b) as [entries| |] eqn:He; st_unfold;
    [|left; exists (blockstore p); by simplify_eq/=..].
  destruct (temp_ads p !! id) as [ad|] eqn:Had;
    [|left; exists (blockstore p); by simplify_eq/=].
  destruct (put_obj _ _ p) as [[c| |] p1] eqn:Hput;
    apply put_obj_run in Hput as (d' & -> & Hk & Hc);
    [|left; exists d'; by simplify_eq/=..].
  right. destruct (Hc c eq_refl) as (x & Hx & Hst).
  rewrite convert_cid_to_bytes in Hr. simplify_eq/=.
  exists d', ad, c, entries, x. split_and!; try done. by apply chunk_round_trip.
Qed.

(** What is common to a draft and the advertisement published from it. *)
Record published_from (k : PublicKey) (ad draft : Advertisement.Advertisement) : Prop := {
  pf_content : Advertisement.with_signature (Advertisement.Signature draft)
    (Advertisement.with_previous (Advertisement.PreviousID draft) ad) = draft;
  pf_signature : ∃ env payload, Advertisement.Signature ad = IpldBytes env ∧
    Advertisement.sig_payload ad = Ok payload ∧
    envelope_open env Advertisement.AD_SIGNATURE_DOMAIN
      (as_bytes Advertisement.AD_SIGNATURE_CODEC) = Some (payload, k);
}.

Lemma previous_link_ok h : previous_link h = Ok (IpldLink <$> h).
Proof. destruct h; [|done]. simpl. by rewrite convert_cid_to_bytes. Qed.

Lemma sign_ad_ok k draft prev ad :
  sign_ad k (Advertisement.with_previous prev draft) = Ok ad →
  Advertisement.PreviousID ad = prev ∧ published_from (public k) ad draft.
Proof.
  unfold sign_ad. intros Hs. inv_bind. injection Hs as <-. split; [done|].
  destruct (Advertisement.sign _ k) as [env| |] eqn:He; simplify_eq/=.
  apply Advertisement.sign_ok in He as (x & Hx & He).
  split; [by destruct draft|]. exists (envelope_encode a), x. split; [done|].
  split; [done|]. by eapply envelope_round_trip.
Qed.

(** [publish], whatever it answers: the draft is gone; the head is the stored
    advertisement, linked to the old head, or nothing. *)
Lemma publish_run id p o p' :
  publish id p = (o, p') →
  ∃ d' h', p' = with_head h' (with_temp_ads (delete id (temp_ads p)) (with_blockstore d' p)) ∧
    keeps (blockstore p) d' ∧
    match o with
    | Ok _ => ∃ draft ad c b, temp_ads p !! id = Some draft ∧ h' = Some c ∧
        stored d' c b ∧ ad_from_slice b = Some ad ∧
        Advertisement.PreviousID ad = IpldLink <$> head p ∧
        published_from (public (keypair p)) ad draft
    | _ => h' = None
    end.
Proof.
  unfold publish. intros Hr. pose proof (keeps_refl (blockstore p)) as Hrefl.
  st_unfold. rewrite previous_link_ok in Hr.
  destruct (temp_ads p !! id) as [draft|]; [|by exists (blockstore p), None; simplify_eq/=].
  destruct (sign_ad _ _) as [ad| |] eqn:Hs;
    [apply sign_ad_ok in Hs as [Hprev Hpf]|by exists (blockstore p), None; simplify_eq/=..].
  destruct (ad_to_ipld ad) as [i| |] eqn:Hi; [|by exists (blockstore p), None; simplify_eq/=..].
  destruct (put_obj _ _ _) as [[c| |] p1] eqn:Hput;
    apply put_obj_run in Hput as (d' & -> & Hk & Hc);
    [|by exists d', None; simplify_eq/=..].
  destruct (Hc c eq_refl) as (b & Hb & Hst). exists d', (Some c). simplify_eq/=.
  split; [done|]. split; [done|]. exists draft, ad, c, b. split_and!; try done.
  unfold ad_from_slice. rewrite (ipld_round_trip _ _ Hb). by apply ad_round_trip.
Qed.

(** *** Chunks of one advertisement *)

(** The loop over the chunks of a DAG
    ([src/crates/ursa-network/src/service.rs], [StartPublish]). *)
Definition add_chunks (id : N) (chunks : list (list Ipld)) : stM Provider string unit :=
  st_for chunks (λ chunk,
    entries_bytes ← st_lift (entries_to_vec chunk);
    st_unwrap (add_chunk entries_bytes id)).

Lemma add_chunks_run id cs p p' ad l :
  add_chunks id cs p = (Ok tt, p') → temp_ads p !! id = Some ad →
  chunk_chain (blockstore p) (Advertisement.Entries ad) l →
  ∃ d' e l', p' = with_temp_ads (<[id := Advertisement.with_entries e ad]> (temp_ads p))
                    (with_blockstore d' p) ∧
    keeps (blockstore p) d' ∧ chunk_chain d' e l' ∧
    Advertisement.ChunkEntries <$> l' =
      reverse cs ++ (Advertisement.ChunkEntries <$> l).
Proof.
  unfold add_chunks. revert p ad l. induction cs as [|c cs IH]; intros p ad l Hr Had Hl.
  { injection Hr as <-. exists (blockstore p), (Advertisement.Entries ad), l.
    split; [|by split; [apply keeps_refl|]].
    rewrite Advertisement.with_entries_id, insert_id by done. by destruct p. }
  simpl in Hr. inv_bind. destruct a. inv_bind.
  unfold st_lift in *. simplify_eq.
  match goal with H : st_unwrap _ _ = _ |- _ => rename H into Hc end.
  match goal with H : entries_to_vec _ = _ |- _ => rename H into Hv end.
  unfold st_unwrap in Hc. destruct (add_chunk _ id _) as [o p1] eqn:Ha.
  apply add_chunk_run in Ha
    as [(? & _ & _ & Ho)|(d1 & ad1 & c1 & es & x & -> & Had1 & Hes & Hk & Hst & Hx & ->)];
    [by destruct o|].
  simplify_eq/=. pose proof (entries_round_trip _ _ Hv) as Hes'. assert (es = c) as -> by congruence. clear Hes'.
  destruct (IH _ (Advertisement.with_entries (Some (IpldLink c1)) ad1)
    (Advertisement.chunk_new c (Advertisement.Entries ad1) :: l) Hr)
    as (d' & e & l' & -> & Hk' & Hl' & Heq).
  { simpl. by rewrite lookup_insert_eq. }
  { simpl. eapply chain_cons; [done..|]. simpl. by eapply chain_keeps. }
  exists d', e, l'. split; [by simpl; rewrite insert_insert_eq|].
  split; [by eapply keeps_trans|]. split; [done|].
  rewrite Heq. simpl. by rewrite reverse_cons, <- app_assoc.
Qed.

(** *** Histories *)

Inductive op :=
| Create (id : N) (ad : Advertisement.Advertisement)
| AddChunk (b : bytes) (id : N)
| Publish (id : N)
| SetRootCids (q : list Cid).

Definition run_op (o : op) p : Provider :=
  match o with
  | Create id ad => (create id ad p).2
  | AddChunk b id => (add_chunk b id p).2
  | Publish id => (publish id p).2
  | SetRootCids q => with_root_cids q p
  end.

(** The drafts published since the last failed [publish], newest first. *)
Definition record_op (o : op) p (h : list Advertisement.Advertisement)
    : list Advertisement.Advertisement :=
  match o with
  | Publish id =>
    match (publish id p).1, temp_ads p !! id with
    | Ok _, Some draft => draft :: h
    | _, _ => []
    end
  | _ => h
  end.

Fixpoint run_ops (ops : list op) p (h : list Advertisement.Advertisement)
    : Provider * list Advertisement.Advertisement :=
  match ops with
  | [] => (p, h)
  | o :: ops => run_ops ops (run_op o p) (record_op o p h)
  end.

Definition has_chunks d (ad : Advertisement.Advertisement) : Prop :=
  ∃ l, chunk_chain d (Advertisement.Entries ad) l.

Record inv (k : Keypair) (h : list Advertisement.Advertisement) p : Prop := {
  inv_key : keypair p = k;
  inv_head : ∃ ads, ad_chain (blockstore p) (IpldLink <$> head p) ads ∧
    Forall2 (published_from (public k)) ads h;
  inv_drafts : map_Forall (λ _, has_chunks (blockstore p)) (temp_ads p);
  inv_published : Forall (has_chunks (blockstore p)) h;
}.

Lemma has_chunks_keeps d d' ad : keeps d d' → has_chunks d ad → has_chunks d' ad.
Proof. intros Hk [l Hl]. exists l. by eapply chain_keeps. Qed.

(** More stored objects disturb nothing. *)
Lemma inv_keeps k h p d' :
  keeps (blockstore p) d' → inv k h p → inv k h (with_blockstore d' p).
Proof.
  intros Hk [Hkey (ads & Hc & Hf) Hd Hp]. split; simpl; [done|..].
  - exists ads. split; [by eapply chain_keeps|done].
  - eapply map_Forall_impl; [done|]. intros id ad. by apply has_chunks_keeps.
  - eapply Forall_impl; [done|]. intros ad. by apply has_chunks_keeps.
Qed.

Lemma inv_with_temp_ads k h p t :
  map_Forall (λ _, has_chunks (blockstore p)) t → inv k h p → inv k h (with_temp_ads t p).
Proof. by intros Ht [? ? ? ?]. Qed.

Lemma inv_create k h p id ad : inv k h p → inv k h (create id ad p).2.
Proof.
  intros Hi. apply inv_with_temp_ads; [|done].
  apply map_Forall_insert_2; [|apply (inv_drafts _ _ _ Hi)].
  exists []. apply chain_nil.
Qed.

Lemma inv_add_chunk k h p b id : inv k h p → inv k h (add_chunk b id p).2.
Proof.
  intros Hi. destruct (add_chunk b id p) as [o p'] eqn:Ha. simpl.
  apply add_chunk_run in Ha
    as [(d' & -> & Hk & _)|(d' & ad & c & es & x & _ & Had & _ & Hk & Hst & Hx & ->)];
    [by apply inv_keeps|].
  apply (inv_keeps _ _ _ _ Hk) in Hi. apply inv_with_temp_ads; [|done].
  pose proof (inv_drafts _ _ _ Hi) as Hd. apply map_Forall_insert_2; [|done].
  destruct (Hd id ad Had) as [l Hl].
  exists (Advertisement.chunk_new es (Advertisement.Entries ad) :: l).
  by eapply chain_cons.
Qed.

Lemma inv_publish k h p id :
  inv k h p → inv k (record_op (Publish id) p h) (publish id p).2.
Proof.
  intros Hi. simpl. destruct (publish id p) as [o p'] eqn:Hp. simpl.
  apply publish_run in Hp as (d' & h' & -> & Hk & Ho).
  apply (inv_keeps _ _ _ _ Hk) in Hi as [Hkey (ads & Hc & Hf) Hd Hpub].
  assert (map_Forall (λ _, has_chunks d') (delete id (temp_ads p))) as Hdel
    by by apply map_Forall_delete.
  assert (is_ok o = false → inv k [] (with_head None
    (with_temp_ads (delete id (temp_ads p)) (with_blockstore d' p)))) as Hfail.
  { intros _. split; simpl; [done| |done|done].
    exists []. split; [apply chain_nil|done]. }
  destruct o as [[]| |]; [|subst h'; by apply Hfail..].
  destruct Ho as (draft & ad & c & b & Hdr & -> & Hst & Had & Hprev & Hpf).
  rewrite Hdr. split; simpl; [done| |done|].
  - exists (ad :: ads). split.
    + eapply chain_cons; [done..|]. by rewrite Hprev.
    + constructor; [by rewrite <- Hkey|done].
  - constructor; [|done]. by apply (Hd id).
Qed.

Lemma inv_run k ops p h :
  inv k h p → inv k (run_ops ops p h).2 (run_ops ops p h).1.
Proof.
  revert p h. induction ops as [|o ops IH]; intros p h Hi; [done|].
  apply IH. destruct o; [by apply inv_create|by apply inv_add_chunk|
    by apply inv_publish|]. by destruct Hi.
Qed.

Lemma published_entries k ad draft :
  published_from k ad draft → Advertisement.Entries ad = Advertisement.Entries draft.
Proof. intros [<- _]. done. Qed.

End chains.

(** ** Properties *)

Section properties.
  Context {DB : Type} {cl : CidLib} {bs : BlockStore DB} {os : ObjStore DB}.
  Context {nl : NetLib} {ml : MultiaddrLib} {key : KeyLib} {el : EncodeLib}.
  Context {cbor : CborLib}.
  Implicit Types (p : Provider (DB:=DB)).

(** C11: after any calls of the provider, failed and panicking ones included,
    the chain read from the head is exactly the list of drafts published since
    the last [publish] that failed, newest first; each is signed by the
    provider's key over its own payload, and its entry chunks can be read. *)
Theorem provider_history k (d : DB) c ops :
  let '(p, drafts) := run_ops ops (new k d c) [] in
  ∃ ads, read_ads (blockstore p) (S (length drafts)) (head p) = Some ads ∧
    Forall2 (published_from (public k)) ads drafts ∧
    ∀ ad, ad ∈ ads → ∃ fuel chunks,
      read_chunks (blockstore p) fuel (Advertisement.Entries ad) = Some chunks.
Proof.
  destruct (run_ops ops (new k d c) []) as [p drafts] eqn:Hr.
  assert (inv k drafts p) as [_ (ads & Hc & Hf) _ Hp].
  { pose proof (inv_run k ops (new k d c) []) as Hi. rewrite Hr in Hi. apply Hi.
    split; simpl; [done| |by apply map_Forall_empty|done].
    exists []. split; [apply chain_nil|done]. }
  exists ads. split_and!; [|done|].
  - unfold read_ads. rewrite (chain_follow _ id _ _ _ ads _ Hc).
    + by rewrite list_fmap_id.
    + apply Forall2_length in Hf. lia.
  - intros ad (i & Hi)%list_elem_of_lookup.
    destruct (Forall2_lookup_l _ _ _ _ _ Hf Hi) as (draft & Hdr & Hpf).
    destruct (Forall_lookup_1 _ _ _ _ Hp Hdr) as [l Hl].
    exists (S (length l)), (Advertisement.ChunkEntries <$> l).
    rewrite (published_entries _ _ _ Hpf). apply chain_follow; [done|lia].
Qed.

(** C29: chunks added to a new advertisement one after another are read back
    from its [Entries] link, the last one first; no other field of the
    advertisement, no other draft, and not the head, changes. *)
Theorem chunks_read_back p p' id ad chunks :
  add_chunks id chunks (create id ad p).2 = (Ok tt, p') →
  ∃ ad', temp_ads p' = <[id := ad']> (temp_ads p) ∧
    Advertisement.with_entries (Advertisement.Entries ad) ad' = ad ∧
    read_chunks (blockstore p') (S (length chunks)) (Advertisement.Entries ad') =
      Some (reverse chunks) ∧ head p' = head p.
Proof.
  intros Ha. apply add_chunks_run with (l:=[]) (ad:=Advertisement.with_entries None ad) in Ha
    as (d' & e & l & -> & _ & Hl & Hes); [| |apply chain_nil]; last first.
  { simpl. by rewrite lookup_insert_eq. }
  exists (Advertisement.with_entries e ad). simpl. split; [by rewrite insert_insert_eq|].
  split; [by destruct ad|]. split; [|done].
  rewrite app_nil_r in Hes. unfold read_chunks. rewrite <- Hes.
  apply chain_follow; [done|].
  apply (f_equal length) in Hes. rewrite length_fmap, length_reverse in Hes. lia.
Qed.

(** C38: a [publish] that does not succeed takes the published chain away: the
    head is empty afterwards and the draft is gone, whatever they were before. *)
Theorem publish_failure_loses_head p p' id o :
  publish id p = (o, p') → is_ok o = false →
  head p' = None ∧ temp_ads p' = delete id (temp_ads p) ∧
  head_handler p' = Err (NotFoundError "No head found").
Proof.
  intros (d' & h' & -> & _ & Ho)%publish_run Hok.
  destruct o as [[]| |]; [done|by subst h'..].
Qed.

(** What an indexer fetches over HTTP after a successful [publish]: the
    signed head opens to the provider's key and an identifier, and the block
    served under that identifier decodes to the advertisement that was
    published, linked to the previous head. *)
Theorem indexer_fetches_published p p' id h :
  publish id p = (Ok tt, p') → head_handler p' = Ok h →
  ∃ c b ad draft, SignedHead.open_head h = Ok (public (keypair p), c) ∧
    get_block_handler (cid_to_string c) p' = Ok b ∧ ad_from_slice b = Some ad ∧
    temp_ads p !! id = Some draft ∧ published_from (public (keypair p)) ad draft ∧
    Advertisement.PreviousID ad = IpldLink <$> head p.
Proof.
  intros (d' & h' & -> & _ & draft & ad & c & b & Hd & -> & [_ Hst] & Had & Hprev & Hpf)%publish_run.
  unfold head_handler. simpl. intros Hh. exists c, b, ad, draft.
  split_and!; try done.
  - destruct (SignedHead.new (keypair p) c) as [h0| |] eqn:Hn; simplify_eq/=.
    revert Hn. unfold SignedHead.new. intros Hn. inv_bind. injection Hn as <-.
    apply SignedHead.open_head_ok. simpl. split; [done|].
    split; [apply protobuf_round_trip|by apply sign_verify].
  - unfold get_block_handler. rewrite cid_from_str_to_string. simpl. by rewrite Hst.
Qed.
End properties.

(** ** Evaluation on a concrete provider *)

Import IndexSamples.

Definition sample_provider : Provider :=
  new (keypair_of x07) (∅ : sample_db) (default_config "/root").

Definition sample_ad : Advertisement.Advertisement := {|
  Advertisement.PreviousID := None;
  Advertisement.Provider := "p";
  Advertisement.Addresses := [];
  Advertisement.Signature := IpldBytes [];
  Advertisement.Entries := None;
  Advertisement.ContextID := IpldBytes [x01];
  Advertisement.AdMetadata := IpldBytes [];
  Advertisement.IsRm := false;
|}.

Definition sample_chunks : list (list Ipld) :=
  [[IpldBytes [x02]]; [IpldBytes [x03]; IpldBytes [x04]]].

Lemma chunks_read_back_witness :
  ∃ p' ad', temp_ads p' !! 5%N = Some ad' ∧
    read_chunks (blockstore p') 3 (Advertisement.Entries ad') =
      Some [[IpldBytes [x03]; IpldBytes [x04]]; [IpldBytes [x02]]].
Proof.
  destruct (chunks_read_back sample_provider
    (add_chunks 5 sample_chunks (create 5 sample_ad sample_provider).2).2
    5 sample_ad sample_chunks) as (ad' & Ht & _ & Hr & _).
  { apply st_is_ok. vm_compute. reflexivity. }
  eexists _, ad'. split; [rewrite Ht; by rewrite lookup_insert_eq|exact Hr].
Defined.

Lemma publish_failure_loses_head_witness :
  ∃ p', publish 6%N (with_head (Some (sid x09)) sample_provider) =
    (Err "ad not found", p') ∧ head p' = None.
Proof.
  eexists. split; [reflexivity|].
  apply (publish_failure_loses_head (with_head (Some (sid x09)) sample_provider) _ 6%N
    (Err "ad not found")); reflexivity.
Defined.

Definition sample_drafted : Provider := (create 5 sample_ad sample_provider).2.

Lemma indexer_fetches_published_witness :
  ∃ h c b, head_handler (publish 5%N sample_drafted).2 = Ok h ∧
    SignedHead.open_head h = Ok (x07, c) ∧
    get_block_handler (cid_to_string c) (publish 5%N sample_drafted).2 = Ok b.
Proof.
  destruct (is_ok_inv (head_handler (publish 5%N sample_drafted).2)) as [h Hh].
  { vm_compute. reflexivity. }
  destruct (indexer_fetches_published sample_drafted (publish 5%N sample_drafted).2 5%N h)
    as (c & b & ad & draft & Ho & Hb & _).
  { apply st_is_ok. vm_compute. reflexivity. }
  { exact Hh. }
  by exists h, c, b.
Defined.
