(* ===== verification/Transport.v ===== *)
(** The transport ([src/crates/ursa-network/src/transport.rs]) and the values the
    swarm is built with ([UrsaService::new] in [service.rs]). *)

From S2P Require Import Prelude Libs IndexLibs.
From S2P Require NetConfig.

(** ** [libp2p]: TCP, DNS, noise, the multiplexers and the relay transport *)
Class TransportLib `{KeyLib} := {
  Tcp_ : Type;
  tcp_new : Tcp_;
  (** [DnsConfig::system], run to its end. *)
  dns_system : Tcp_ → outcome string Tcp_;
  ClientTransport : Type;
  or_transport : Tcp_ → ClientTransport → Tcp_;
  AuthenticKeypair : Type;
  (** [noise::Keypair::new().into_authentic(id_keys)]: [seed] is what the
      generator draws. *)
  into_authentic : N → Keypair → outcome string AuthenticKeypair;
  Noise : Type;
  noise_xx : AuthenticKeypair → Noise;
  Yamux : Type;
  yamux_default : Yamux;
  yamux_update_on_read : Yamux → Yamux;
  Mplex : Type;
  mplex_new : Mplex;
  mplex_block : Mplex → Mplex;
  mplex_max_buffer_size : N → Mplex → Mplex;
  Boxed : Type;
  (** [.upgrade(V1).authenticate(noise).multiplex(SelectUpgrade::new(yamux,
      mplex)).boxed()] *)
  upgraded : Tcp_ → Noise → Yamux * Mplex → Boxed;
}.

(** [usize::MAX] on a 64-bit machine. *)
Definition USIZE_MAX : N := (2 ^ 64 - 1)%N.

Section transport.
  Context {nl : NetLib} {ml : MultiaddrLib} {key : KeyLib} {tl : TransportLib}.

(** [UrsaTransport::new] *)
Definition new (seed : N) (keypair : Keypair) (config : NetConfig.NetworkConfig)
    (relay_transport : option ClientTransport) : outcome string Boxed :=
  dh_keys ← unwrap (into_authentic seed keypair);
  let noise := noise_xx dh_keys in
  let mplex_config := mplex_max_buffer_size USIZE_MAX (mplex_block mplex_new) in
  let yamux_config := yamux_update_on_read yamux_default in
  let mplex := (yamux_config, mplex_config) in
  tcp ← unwrap (dns_system tcp_new);
  match relay_transport with
  | Some relay => Ok (upgraded (or_transport tcp relay) noise mplex)
  | None => Ok (upgraded tcp noise mplex)
  end.

(** *** [UrsaService::new]: the relay and the limits *)

Record SwarmLimits := {
  max_pending_incoming : N;
  max_pending_outgoing : N;
  max_established_incoming : N;
  max_established_outgoing : N;
  max_established_per_peer : N;
  notify_handler_buffer_size : N;
  connection_event_buffer_size : N;
  dial_concurrency_factor : N;
}.

Definition limits : SwarmLimits := {|
  max_pending_incoming := N.shiftl 2 9;
  max_pending_outgoing := N.shiftl 2 9;
  max_established_incoming := N.shiftl 2 9;
  max_established_outgoing := N.shiftl 2 9;
  max_established_per_peer := 8;
  notify_handler_buffer_size := N.shiftl 2 7;
  connection_event_buffer_size := N.shiftl 2 7;
  dial_concurrency_factor := 8;
|}.

(** The transport of the service, [made] being the halves that
    [RelayClient::new_transport_and_behaviour] returns. *)
Definition relay_halves {R} (config : NetConfig.NetworkConfig) (made : ClientTransport * R)
    : option ClientTransport * option R :=
  if NetConfig.relay_client config then (Some made.1, Some made.2) else (None, None).

Definition service_transport {R} (seed : N) (keypair : Keypair)
    (config : NetConfig.NetworkConfig) (made : ClientTransport * R) : outcome string Boxed :=
  new seed keypair config (relay_halves config made).1.

(** The relay is dialled through exactly when the configuration asks for a relay
    client; everything else about the transport is the same. *)
Lemma service_transport_relay {R} seed k config (made : ClientTransport * R) b :
  service_transport seed k config made = Ok b →
  ∃ dh tcp, into_authentic seed k = Ok dh ∧ dns_system tcp_new = Ok tcp ∧
    b = upgraded (if NetConfig.relay_client config then or_transport tcp made.1 else tcp)
      (noise_xx dh)
      (yamux_update_on_read yamux_default, mplex_max_buffer_size USIZE_MAX (mplex_block mplex_new)).
Proof.
  unfold service_transport, new, relay_halves. intros Hn. inv_bind.
  eexists _, _. split_and!; [by eapply unwrap_ok_inv..|].
  destruct (NetConfig.relay_client config); by simplify_eq/=.
Qed.
End transport.
