(* ===== verification/Service.v ===== *)
(** The network service ([src/crates/ursa-network/src/service.rs]): its start,
    one handler per event of the behaviour and per command, and the loop that
    takes them in turn. *)

From S2P Require Import Prelude Libs Utils Codec Protocols IndexLibs.
From S2P Require Store NetConfig Discovery Metrics Behaviour Advertisement Provider.

Definition URSA_GLOBAL : string := "/ursa/global".
Definition MESSAGE_PROTOCOL : bytes := as_bytes "/ursa/message/0.0.1".
Definition LOCAL_ADDRESSES : list string :=
  ["/ip4/127.0.0.1/tcp/6009"; "/ip4/0.0.0.0/tcp/6009"].
Definition INDEXER_TOPIC : string := "indexer/ingest/mainnet".

Definition NO_PEERS_ERROR : string :=
  "There were no peers provided and the block does not exist in local store".

(** ** [libp2p::Swarm], apart from its behaviour, and [Debug] output *)
Class SwarmLib `{MultiaddrLib} := {
  Swarm : Type;
  is_connected : PeerId → Swarm → bool;
  sw_listen_on : Multiaddr → stM Swarm string unit;
  sw_dial : Multiaddr → stM Swarm string unit;
}.

Class DebugLib `{GossipLib, !MultiaddrLib, !RequestResponseLib} := {
  debug_message : GossipsubMessage → string;
  debug_request : UrsaExchangeRequest → string;
  debug_channel : ResponseChannel → string;
}.

Section service.
  Context {DB : Type} {cl : CidLib} {bs : BlockStore DB} {os : ObjStore DB}.
  Context {il : IpldLib} {hi : HashIter Cid}.
  Context {nl : NetLib} {ml : MultiaddrLib} {sw : SwarmTypes} {swl : SwarmLib}.
  Context {kl : KadLib} {md : MdnsLib} {gl : GossipLib} {bl : BitswapLib}.
  Context {rl : RequestResponseLib} {al : NatLib} {dl : DebugLib}.
  Context {key : KeyLib} {el : EncodeLib} {cbor : CborLib}.

Inductive BitswapType := Get | Sync.

Inductive UrsaCommand :=
| GetBitswap (cid : Cid) (query : BitswapType) (sender : Behaviour.Sender)
| Put (cid : Cid) (sender : Behaviour.Sender)
| GetPeers (sender : Behaviour.Sender)
| Index (cids : list Cid) (sender : Behaviour.Sender)
| SendRequest (peer_id : PeerId) (request : UrsaExchangeRequest)
    (channel : Behaviour.Sender)
| SendResponse (request_id : RequestId) (response : UrsaExchangeResponse)
    (channel : Behaviour.Sender)
| GossipsubMessage_ (topic : Topic) (message : GossipsubMessage).

Inductive UrsaEvent :=
| PeerConnected (peer : PeerId)
| PeerDisconnected (peer : PeerId)
| BitswapEvent_ (event : BitswapEvent)
| GossipsubMessageEvent (message : GossipsubMessage)
| RequestMessage (request : UrsaExchangeRequest) (channel : ResponseChannel).

(** What the service sends on the oneshot channels it was given. *)
Inductive Sent :=
| SentBlock (sender : Behaviour.Sender) (r : outcome string unit)
| SentPeers (sender : Behaviour.Sender) (peers : gset PeerId)
| SentIndex (sender : Behaviour.Sender) (r : outcome string (list Cid)).

(** The state of the running service.  The swarm is its behaviour and the rest;
    [sent], [metrics] and [http] are the messages sent on channels, the calls
    made on the metrics recorder and the HTTP requests made so far. *)
Record UrsaService := {
  store : Store.Store (DB:=DB);
  behaviour : Behaviour.Behaviour;
  swarm : Swarm;
  local_peer_id : PeerId;
  response_channels : gmap Cid (list Behaviour.Sender);
  index_provider : Provider.Provider (DB:=DB);
  event_channel : list UrsaEvent;
  sent : list Sent;
  metrics : list Metrics.recorder_op;
  http : list (string * bytes);
}.

Definition with_store (x : Store.Store) (s : UrsaService) : UrsaService :=
  {| store := x; behaviour := behaviour s; swarm := swarm s;
     local_peer_id := local_peer_id s; response_channels := response_channels s;
     index_provider := index_provider s; event_channel := event_channel s;
     sent := sent s; metrics := metrics s; http := http s |}.
Definition with_behaviour (x : Behaviour.Behaviour) (s : UrsaService) : UrsaService :=
  {| store := store s; behaviour := x; swarm := swarm s;
     local_peer_id := local_peer_id s; response_channels := response_channels s;
     index_provider := index_provider s; event_channel := event_channel s;
     sent := sent s; metrics := metrics s; http := http s |}.
Definition with_swarm (x : Swarm) (s : UrsaService) : UrsaService :=
  {| store := store s; behaviour := behaviour s; swarm := x;
     local_peer_id := local_peer_id s; response_channels := response_channels s;
     index_provider := index_provider s; event_channel := event_channel s;
     sent := sent s; metrics := metrics s; http := http s |}.
Definition with_response_channels (x : gmap Cid (list Behaviour.Sender))
    (s : UrsaService) : UrsaService :=
  {| store := store s; behaviour := behaviour s; swarm := swarm s;
     local_peer_id := local_peer_id s; response_channels := x;
     index_provider := index_provider s; event_channel := event_channel s;
     sent := sent s; metrics := metrics s; http := http s |}.
Definition with_index_provider (x : Provider.Provider) (s : UrsaService) : UrsaService :=
  {| store := store s; behaviour := behaviour s; swarm := swarm s;
     local_peer_id := local_peer_id s; response_channels := response_channels s;
     index_provider := x; event_channel := event_channel s;
     sent := sent s; metrics := metrics s; http := http s |}.
Definition push_event_channel (x : UrsaEvent) (s : UrsaService) : UrsaService :=
  {| store := store s; behaviour := behaviour s; swarm := swarm s;
     local_peer_id := local_peer_id s; response_channels := response_channels s;
     index_provider := index_provider s; event_channel := event_channel s ++ [x];
     sent := sent s; metrics := metrics s; http := http s |}.
Definition with_event_channel (x : list UrsaEvent) (s : UrsaService) : UrsaService :=
  {| store := store s; behaviour := behaviour s; swarm := swarm s;
     local_peer_id := local_peer_id s; response_channels := response_channels s;
     index_provider := index_provider s; event_channel := x;
     sent := sent s; metrics := metrics s; http := http s |}.
Definition push_sents (x : list Sent) (s : UrsaService) : UrsaService :=
  {| store := store s; behaviour := behaviour s; swarm := swarm s;
     local_peer_id := local_peer_id s; response_channels := response_channels s;
     index_provider := index_provider s; event_channel := event_channel s;
     sent := sent s ++ x; metrics := metrics s; http := http s |}.
Definition push_sent (x : Sent) : UrsaService → UrsaService := push_sents [x].
Definition push_metrics (x : list Metrics.recorder_op) (s : UrsaService) : UrsaService :=
  {| store := store s; behaviour := behaviour s; swarm := swarm s;
     local_peer_id := local_peer_id s; response_channels := response_channels s;
     index_provider := index_provider s; event_channel := event_channel s;
     sent := sent s; metrics := metrics s ++ x; http := http s |}.
Definition push_http (x : string * bytes) (s : UrsaService) : UrsaService :=
  {| store := store s; behaviour := behaviour s; swarm := swarm s;
     local_peer_id := local_peer_id s; response_channels := response_channels s;
     index_provider := index_provider s; event_channel := event_channel s;
     sent := sent s; metrics := metrics s; http := http s ++ [x] |}.

Abbreviation serviceM := (runM UrsaService string).

(** Calls on the parts of the service. *)
Definition on_behaviour {A} (m : stM Behaviour.Behaviour string A) : serviceM A :=
  run (st_zoom behaviour with_behaviour m).
Definition on_swarm {A} (m : stM Swarm string A) : serviceM A :=
  run (st_zoom swarm with_swarm m).
Definition on_provider {A} (m : stM Provider.Provider string A) : serviceM A :=
  run (st_zoom index_provider with_index_provider m).

(** [track(event, labels, None)] *)
Definition track (event : Metrics.MetricEvent)
    (labels : option (list Metrics.Label)) : serviceM unit :=
  run (st_modify (push_metrics (Metrics.track event labels None))).

(** [self.event_sender.send(event).await]: the channel is unbounded and its
    receiver is a field of the service, so the send succeeds. *)
Definition send_event (event : UrsaEvent) : serviceM unit :=
  run (st_modify (push_event_channel event)).

(** [sender.send(..)] on a oneshot channel; a receiver that is gone is only
    logged. *)
Definition send (m : Sent) : serviceM unit := run (st_modify (push_sent m)).

(** ** [UrsaService::new]

    [built] is the swarm the builder returns, [relay] the client behaviour
    [RelayClient::new_transport_and_behaviour] returns. *)
Definition new (keypair : Keypair) (config : NetConfig.NetworkConfig)
    (st : Store.Store) (provider : Provider.Provider) (built : Swarm)
    (relay : RelayClient) : outcome string UrsaService :=
  let local_peer_id := peer_of_key (public keypair) in
  let relay_client := if NetConfig.relay_client config then Some relay else None in
  behaviour ← Behaviour.new local_peer_id config relay_client;
  let '(listening, s) :=
    (_ ← st_unwrap (sw_listen_on (NetConfig.swarm_addr config));
     st_for (NetConfig.bootstrap_nodes config) (λ to_dial, st_unwrap (sw_dial to_dial)))
      built in
  _ ← (listening : outcome string unit);
  let topic := topic_new URSA_GLOBAL in
  let '(subscribed, behaviour) := st_try (Behaviour.subscribe topic) behaviour in
  _ ← (subscribed : outcome string (outcome string bool));
  let '(booted, behaviour) := st_try Behaviour.bootstrap behaviour in
  _ ← (booted : outcome string (outcome string KadQueryId));
  Ok {|
    store := st;
    behaviour := behaviour;
    swarm := s;
    local_peer_id := local_peer_id;
    response_channels := ∅;
    index_provider := provider;
    event_channel := [];
    sent := [];
    metrics := [];
    http := [];
  |}.

(** ** Events of the behaviour *)

(** [loop { if blockstore.contains(&cid).unwrap() { break; } }].  Bitswap writes
    to the store at the same time: [polls] lists what the store holds at the
    second and later rounds. *)
Fixpoint wait_for_block (polls : list DB) (c : Cid) : serviceM unit := λ s,
  match Store.contains (store s) c with
  | Ok true => Some (Ok tt, s)
  | Ok false =>
    match polls with
    | [] => None
    | d :: polls => wait_for_block polls c (with_store (Store.new d) s)
    end
  | _ => Some (Panic, s)
  end.

Definition not_found_error (c : Cid) : string :=
  "The requested block with cid " +:+ cid_debug c +:+ " is not found with any peers".

(** The body of the loop over the waiting channels. *)
Definition answer_channel (c bitswap_cid : Cid) (chan : Behaviour.Sender) : serviceM unit :=
  st ← run (st_gets store);
  found ← run (st_lift (unwrap (Store.contains st bitswap_cid)));
  if (found : bool) then send (SentBlock chan (Ok tt))
  else send (SentBlock chan (Err (not_found_error c))).

Fixpoint run_for {A} (l : list A) (body : A → serviceM unit) : serviceM unit :=
  match l with
  | [] => mret tt
  | x :: l => _ ← body x; run_for l body
  end.

Definition bool_string (b : bool) : string := if b then "true" else "false".

Definition handle_bitswap (polls : list DB) (info : Behaviour.BitswapInfo)
    : serviceM unit :=
  let c := Behaviour.cid info in
  _ ← on_behaviour (st_modify (Behaviour.cancel (Behaviour.query_id info)));
  let labels := [("cid", cid_to_string c);
                 ("query_id", query_to_string (Behaviour.query_id info));
                 ("block_found", bool_string (Behaviour.block_found info))] in
  _ ← track Metrics.Bitswap (Some labels);
  channels ← run (st_gets response_channels);
  match channels !! c with
  | Some chans =>
    _ ← run (st_modify (λ s, with_response_channels (delete c (response_channels s)) s));
    bitswap_cid ← run (st_lift (convert_cid (cid_to_bytes c)));
    _ ← (if Behaviour.block_found info then wait_for_block polls bitswap_cid
         else mret tt);
    run_for chans (answer_channel c bitswap_cid)
  | None => mret tt
  end.

Definition handle_gossip_message (peer : PeerId) (topic : TopicHash)
    (message : GossipsubMessage) : serviceM unit :=
  let labels := [("peer", peer_to_string peer); ("topic", topic_hash_to_string topic);
                 ("message", debug_message message)] in
  _ ← track Metrics.GossipMessage (Some labels);
  swarm ← run (st_gets swarm);
  if is_connected peer swarm then send_event (GossipsubMessageEvent message)
  else mret tt.

Definition handle_request_message (peer : PeerId) (request : UrsaExchangeRequest)
    (channel : ResponseChannel) : serviceM unit :=
  let labels := [("peer", peer_to_string peer); ("request", debug_request request);
                 ("channel", debug_channel channel)] in
  _ ← track Metrics.RequestMessage (Some labels);
  send_event (RequestMessage request channel).

Definition handle_peer_connected (peer : PeerId) : serviceM unit :=
  _ ← track Metrics.PeerConnected None;
  send_event (PeerConnected peer).

Definition handle_peer_disconnected (peer : PeerId) : serviceM unit :=
  _ ← track Metrics.PeerDisconnected None;
  send_event (PeerDisconnected peer).

(** [slice.choose(&mut rng)], [r] being what the generator draws. *)
Definition choose {A} (r : nat) (l : list A) : option A := l !! (r mod length l).

Definition handle_nat_status_changed (r : nat) (old new : NatStatus) : serviceM unit :=
  match old, new with
  | NatUnknown, Private =>
    b ← run (st_gets behaviour);
    if Behaviour.is_relay_client_enabled b then
      match choose r (Discovery.bootstrap_addrs (Behaviour.discovery b)) with
      | Some (relay_peer, relay_addr) =>
        let addr := ma_push (ma_push relay_addr (P2p (peer_multihash relay_peer)))
                      P2pCircuit in
        on_swarm (st_unwrap (sw_listen_on addr))
      | None => mret tt
      end
    else mret tt
  | _, Public addr =>
    _ ← on_behaviour (st_try (F:=string) (Behaviour.publish_ad addr)); mret tt
  | _, _ => mret tt
  end.

(** *** [StartPublish] *)

(** The components of the public address that go into the advertisement. *)
Definition publish_protocol (p : Protocol) : bool :=
  match p with Ip6 _ | Ip4 _ | Tcp _ => true | _ => false end.

Definition publish_address (public_address : Multiaddr) : Multiaddr :=
  foldl (λ address protocol,
    if publish_protocol protocol then ma_push address protocol else address)
    ma_empty (ma_iter public_address).

Definition ad_entries (dag : list (Cid * bytes)) : list Ipld :=
  (λ d, IpldBytes (cid_hash_bytes d.1)) <$> dag.

(** Gossips an announcement, and sends it over HTTP when that fails. *)
Definition announce (announce_msg : bytes) : serviceM unit :=
  let g_msg := {| msg_source := None; msg_data := announce_msg;
                  msg_sequence_number := None;
                  msg_topic := topic_hash_from_raw INDEXER_TOPIC |} in
  gossiped ← on_behaviour (st_try (Behaviour.publish (topic_new INDEXER_TOPIC) g_msg));
  match (gossiped : outcome string MessageId) with
  | Ok _ => mret tt
  | _ =>
    p ← run (st_gets index_provider);
    run (st_modify (push_http (Provider.announce_http_message announce_msg p)))
  end.

(** The body of the loop over the root identifiers: [id] is the number drawn
    for the advertisement, [fuel] bounds the traversal. *)
Definition publish_root (fuel : nat) (id : N) (address : Multiaddr) (root_cid : Cid)
    : serviceM unit :=
  s ← run st_get;
  let context_id := cid_to_bytes root_cid in
  ad ← run (st_lift (Advertisement.new context_id (local_peer_id s)
         [ma_to_string address] false));
  id ← on_provider (st_unwrap (Provider.create id ad));
  root ← run (st_lift (convert_cid (cid_to_bytes root_cid)));
  dag ← run_opt (Store.dag_traversal (store s) fuel root);
  _ ← on_provider (Provider.add_chunks id
        (chunks Advertisement.MAX_ENTRIES (ad_entries dag)));
  _ ← on_provider (st_unwrap (Provider.publish id));
  p ← run (st_gets index_provider);
  match Provider.create_announce_msg (local_peer_id s) p with
  | Ok announce_msg => announce announce_msg
  | Err _ => mret tt
  | Panic => run st_panic
  end.

(** [while !cid_queue.is_empty()]; the lock on the queue is held, so nothing
    else touches it. *)
Fixpoint publish_roots (fuel : nat) (ids : nat → N) (address : Multiaddr)
    (cid_queue : list Cid) : serviceM unit :=
  match cid_queue with
  | [] => mret tt
  | root_cid :: cid_queue =>
    _ ← on_provider (st_modify (Provider.with_root_cids cid_queue));
    _ ← publish_root fuel (ids (length cid_queue)) address root_cid;
    publish_roots fuel ids address cid_queue
  end.

Definition handle_start_publish (fuel : nat) (ids : nat → N)
    (public_address : Multiaddr) : serviceM unit :=
  let address := publish_address public_address in
  p ← run (st_gets index_provider);
  publish_roots fuel ids address (Provider.root_cids p).

(** What an event handler takes from outside: see the handlers. *)
Record Env := {
  env_polls : list DB;
  env_random : nat;
  env_fuel : nat;
  env_ids : nat → N;
}.

Definition handle_event (env : Env) (event : Behaviour.BehaviourEvent) : serviceM unit :=
  match event with
  | Behaviour.BitswapFinished info => handle_bitswap (env_polls env) info
  | Behaviour.GossipMessage peer topic message =>
    handle_gossip_message peer topic message
  | Behaviour.RequestMessage peer request channel =>
    handle_request_message peer request channel
  | Behaviour.PeerConnected peer => handle_peer_connected peer
  | Behaviour.PeerDisconnected peer => handle_peer_disconnected peer
  | Behaviour.NatStatusChanged old new =>
    handle_nat_status_changed (env_random env) old new
  | Behaviour.RelayReservationOpened _ => track Metrics.RelayReservationOpened None
  | Behaviour.RelayReservationClosed _ => track Metrics.RelayReservationClosed None
  | Behaviour.RelayCircuitOpened => track Metrics.RelayCircuitOpened None
  | Behaviour.RelayCircuitClosed => track Metrics.RelayCircuitClosed None
  | Behaviour.StartPublish public_address =>
    handle_start_publish (env_fuel env) (env_ids env) public_address
  end.

(** ** Commands *)

(** [response_channels.get_mut(&cid)]: joins the senders that already wait. *)
Definition add_channel (c : Cid) (sender : Behaviour.Sender) (s : UrsaService)
    : UrsaService :=
  match response_channels s !! c with
  | Some chans =>
    with_response_channels (<[c := chans ++ [sender]]> (response_channels s)) s
  | None => with_response_channels (<[c := [sender]]> (response_channels s)) s
  end.

Definition handle_get_bitswap (c : Cid) (query : BitswapType)
    (sender : Behaviour.Sender) : serviceM unit :=
  b ← run (st_gets behaviour);
  let peers := Behaviour.peers b in
  if decide (peers = ∅) then send (SentBlock sender (Err NO_PEERS_ERROR))
  else
    _ ← run (st_modify (add_channel c sender));
    match query with
    | Get => on_behaviour (Behaviour.get_block c (elements peers))
    | Sync => on_behaviour (Behaviour.sync_block c (elements peers))
    end.

Definition handle_index (cids : list Cid) (sender : Behaviour.Sender) : serviceM unit :=
  root_cid ← run (st_lift (unwrap_opt (head cids)));
  _ ← on_provider (st_modify (λ p,
        Provider.with_root_cids (push_back root_cid (Provider.root_cids p)) p));
  b ← run (st_gets behaviour);
  _ ← match Behaviour.public_address b with
      | Some public_address => on_behaviour (Behaviour.publish_ad public_address)
      | None => mret tt
      end;
  send (SentIndex sender (Ok cids)).

Definition handle_command (command : UrsaCommand) : serviceM unit :=
  match command with
  | GetBitswap c query sender => handle_get_bitswap c query sender
  | Put c sender => mret tt
  | GetPeers sender =>
    b ← run (st_gets behaviour);
    send (SentPeers sender (Behaviour.peers b))
  | Index cids sender => handle_index cids sender
  | SendRequest peer_id request channel =>
    on_behaviour (st_modify (Behaviour.send_request peer_id request channel))
  | SendResponse _ _ _ => run st_panic
  | GossipsubMessage_ topic message =>
    _ ← on_behaviour (st_try (F:=string) (Behaviour.publish topic message)); mret tt
  end.

(** ** The loop of [start]

    One round of [select!]: an event the swarm yields, a command that was
    received, or an event of the swarm the loop ignores. *)
Inductive input :=
| SwarmBehaviour (env : Env)
| SwarmOther
| Command (command : UrsaCommand).

(** The derived part of the swarm takes the first queued event. *)
Definition next_event : serviceM (option Behaviour.BehaviourEvent) :=
  on_behaviour (λ b, let '(e, b) := Behaviour.poll b in (Ok e, b)).

Definition round (i : input) : serviceM unit :=
  match i with
  | SwarmBehaviour env =>
    event ← next_event;
    match event with
    | Some event => handle_event env event
    | None => mret tt
    end
  | SwarmOther => mret tt
  | Command command => handle_command command
  end.

(** [start]: rounds until one fails, which ends the service. *)
Definition start (inputs : list input) : serviceM unit := run_for inputs round.

End service.
