(* ===== verification/ServiceHistory.v ===== *)
(** What the network service does over its whole run: its handlers one by one,
    and the properties of every history of events and commands. *)

From S2P Require Import Prelude Libs Utils Codec Protocols IndexLibs Service.
From S2P Require Store NetConfig Discovery Metrics Behaviour Advertisement Provider.

Section history.
  Context {DB : Type} {cl : CidLib} {bs : BlockStore DB} {os : ObjStore DB}.
  Context {il : IpldLib} {hi : HashIter Cid}.
  Context {nl : NetLib} {ml : MultiaddrLib} {sw : SwarmTypes} {swl : SwarmLib}.
  Context {kl : KadLib} {md : MdnsLib} {gl : GossipLib} {bl : BitswapLib}.
  Context {rl : RequestResponseLib} {al : NatLib} {dl : DebugLib}.
  Context {key : KeyLib} {el : EncodeLib} {cbor : CborLib}.
  Implicit Types (s : UrsaService (DB:=DB)).

Abbreviation serviceM := (runM (UrsaService (DB:=DB)) string).

(** ** Effects that no waiting sender can see *)

(** The answers on block channels, in order. *)
Definition block_answers (l : list Sent) : list (Behaviour.Sender * outcome string unit) :=
  omap (λ m, match m with SentBlock x r => Some (x, r) | _ => None end) l.

Lemma block_answers_app l l' : block_answers (l ++ l') = block_answers l ++ block_answers l'.
Proof. apply omap_app. Qed.

(** The gauge of connected peers, as reported so far. *)
Definition peer_gauge s : Z :=
  Metrics.gauge_value (Metrics.metric_to_string Metrics.ActiveConnectedPeers) (metrics s).

(** The behaviour has a history that the gauge tells, up to [d] peers. *)
Record sound_at (d : Z) s : Prop := {
  sound_history : ∃ l, Behaviour.inv l (behaviour s) ∧
    Behaviour.peers_inv l (behaviour s) ∧
    (peer_gauge s + d)%Z =
      Discovery.balance (Behaviour.peer_events (Behaviour.emitted l));
}.

Record calm s s' : Prop := {
  calm_sound : ∀ d, sound_at d s → sound_at d s';
  calm_channels : response_channels s' = response_channels s;
  calm_queries : Behaviour.queries (behaviour s') = Behaviour.queries (behaviour s);
  calm_events : ∃ es,
    Behaviour.events (behaviour s') = Behaviour.events (behaviour s) ++ es;
  calm_answers : block_answers (sent s') = block_answers (sent s);
}.

#[export] Instance calm_refl : Reflexive calm.
Proof. intros s. split; try done. exists []. by rewrite app_nil_r. Qed.

#[export] Instance calm_trans : Transitive calm.
Proof.
  intros s s' s'' [H1 Hc1 Hq1 [e1 He1] Ha1] [H2 Hc2 Hq2 [e2 He2] Ha2].
  split; try congruence; [by intros d ?%H1%H2|].
  exists (e1 ++ e2). by rewrite He2, He1, app_assoc.
Qed.

(** A change of anything but the behaviour, the channels, the block answers and
    the peer gauge. *)
Lemma calm_other s s' :
  behaviour s' = behaviour s → response_channels s' = response_channels s →
  block_answers (sent s') = block_answers (sent s) → peer_gauge s' = peer_gauge s →
  calm s s'.
Proof.
  intros Hb Hc Ha Hg. split; rewrite ?Hb; try done.
  - intros d [(l & Hl)]. split. exists l. by rewrite Hb, Hg.
  - exists []. by rewrite app_nil_r.
Qed.

Lemma sound_at_step d s b' l' :
  Behaviour.step (behaviour s) l' b' → sound_at d s →
  sound_at (d + Discovery.balance (Behaviour.peer_events (Behaviour.emitted l')))
    (with_behaviour b' s).
Proof.
  intros Hs [(l & Hi & Hp & Hg)]. split.
  exists (Behaviour.label_app l l'). split_and!.
  - by eapply Behaviour.step_inv.
  - by eapply Behaviour.step_peers_inv.
  - change (peer_gauge (with_behaviour b' s)) with (peer_gauge s).
    cbn [Behaviour.emitted Behaviour.label_app]. rewrite Behaviour.peer_events_app, Discovery.balance_app. lia.
Qed.

(** ** Steps of the handlers *)

Lemma run_pure {A} (m : stM (UrsaService (DB:=DB)) string A) :
  (∀ s, (m s).2 = s) → preserves calm (run m).
Proof.
  intros Hm s o s' [= Hr]. specialize (Hm s). rewrite Hr in Hm. simpl in Hm. by subst.
Qed.

Lemma on_behaviour_calm {A} (m : stM Behaviour.Behaviour string A) :
  (∀ b, ∃ l', Behaviour.step b l' (m b).2 ∧ Behaviour.emitted l' = [] ∧
     Behaviour.queries (m b).2 = Behaviour.queries b ∧
     ∃ es, Behaviour.events (m b).2 = Behaviour.events b ++ es) →
  preserves calm (on_behaviour m).
Proof.
  intros Hm s o s'. unfold on_behaviour, run, st_zoom.
  destruct (Hm (behaviour s)) as (l' & Hs & He & Hq & Hev).
  destruct (m (behaviour s)) as [o' b']. intros [= <- <-]. simpl in *.
  split; try done. intros d Hd. pose proof (sound_at_step _ _ _ _ Hs Hd) as Hx.
  by rewrite He, Z.add_0_r in Hx.
Qed.

Lemma on_swarm_calm {A} (m : stM Swarm string A) : preserves calm (on_swarm m).
Proof.
  intros s o s'. unfold on_swarm, run, st_zoom. destruct (m (swarm s)).
  intros [= <- <-]. by apply calm_other.
Qed.

Lemma on_provider_calm {A} (m : stM (Provider.Provider (DB:=DB)) string A) :
  preserves calm (on_provider m).
Proof.
  intros s o s'. unfold on_provider, run, st_zoom. destruct (m (index_provider s)).
  intros [= <- <-]. by apply calm_other.
Qed.

Lemma track_calm event labels :
  labels ≠ None ∨ Metrics.peer_delta event = 0%Z → preserves calm (track event labels).
Proof.
  intros Hl s o s' [= <- <-]. apply calm_other; try done.
  unfold peer_gauge. simpl. rewrite Metrics.gauge_value_app.
  destruct labels as [labels|].
  - rewrite Metrics.track_labelled_gauge. lia.
  - rewrite Metrics.track_peer_gauge. destruct Hl as [?| ->]; [done|lia].
Qed.

Lemma send_event_calm event : preserves calm (send_event event).
Proof. intros s o s' [= <- <-]. by apply calm_other. Qed.

Lemma send_other_calm m : block_answers [m] = [] → preserves calm (send m).
Proof.
  intros Hm s o s' [= <- <-]. apply calm_other; try done.
  simpl. by rewrite block_answers_app, Hm, app_nil_r.
Qed.

Lemma run_opt_calm {A} (o : option (outcome string A)) : preserves calm (run_opt o).
Proof. intros s o' s'. unfold run_opt. destruct o; [|done]. by intros [= <- <-]. Qed.

Lemma modify_calm (f : UrsaService → UrsaService) :
  (∀ s, behaviour (f s) = behaviour s ∧ response_channels (f s) = response_channels s ∧
     sent (f s) = sent s ∧ metrics (f s) = metrics s) →
  preserves calm (run (st_modify f) : serviceM unit).
Proof.
  intros Hf s o s' [= <- <-]. destruct (Hf s) as (Hb & Hc & Hs & Hm).
  apply calm_other; try done; [by rewrite Hs|]. unfold peer_gauge. by rewrite Hm.
Qed.

Lemma try_state {S E F A} (m : stM S E A) (x : S) :
  (st_try (F:=F) m x).2 = (m x).2.
Proof. unfold st_try. by destruct (m x) as [[]]. Qed.

Lemma publish_calm t m : preserves calm (on_behaviour (st_try (Behaviour.publish t m))).
Proof.
  apply on_behaviour_calm. intros b. rewrite try_state.
  exists Behaviour.silent. split; [constructor|]. split; [done|].
  unfold Behaviour.publish, st_zoom. destruct (gs_publish _ _ _). split; [done|].
  exists []. by rewrite app_nil_r.
Qed.

Lemma publish_ad_calm a : preserves calm (on_behaviour (Behaviour.publish_ad a)).
Proof.
  apply on_behaviour_calm. intros b. exists Behaviour.silent.
  split; [constructor|]. split; [done|]. split; [done|]. by eexists.
Qed.

Lemma publish_ad_try_calm a :
  preserves calm (on_behaviour (st_try (F:=string) (Behaviour.publish_ad a))).
Proof.
  intros s o s' Hr. apply (publish_ad_calm a s (Ok tt) s').
  unfold on_behaviour, run, st_zoom in *. by injection Hr as <- <-.
Qed.

Lemma send_request_calm p q x :
  preserves calm (on_behaviour (st_modify (Behaviour.send_request p q x))).
Proof.
  apply on_behaviour_calm. intros b.
  eexists. split; [apply (Behaviour.step_send_request b p q x)|]. split; [done|].
  simpl. unfold Behaviour.send_request. destruct (rr_send_request _ _ _).
  split; [done|]. exists []. by rewrite app_nil_r.
Qed.

(** Follows a handler down to its calls. *)
Local Ltac calm :=
  repeat first
    [ apply (preserves_bind calm); [|intros ?]
    | apply (preserves_ret calm)
    | apply on_swarm_calm | apply on_provider_calm | apply run_opt_calm
    | apply publish_calm | apply publish_ad_try_calm | apply publish_ad_calm
    | apply send_request_calm | apply send_event_calm
    | apply send_other_calm; reflexivity
    | apply track_calm; first [left; discriminate | right; reflexivity]
    | apply run_pure; reflexivity
    | apply modify_calm; by repeat split
    | case_match; simplify_eq ].

Lemma start_publish_calm fuel ids a : preserves calm (handle_start_publish fuel ids a).
Proof.
  unfold handle_start_publish. calm. generalize (Provider.root_cids a0) as q.
  induction q as [|c q IH]; simpl; unfold publish_root, announce; calm; apply IH.
Qed.

(** The events whose handlers are calm. *)
Definition calm_event (e : Behaviour.BehaviourEvent) : bool :=
  match e with
  | Behaviour.BitswapFinished _ | Behaviour.PeerConnected _
  | Behaviour.PeerDisconnected _ => false
  | _ => true
  end.

Lemma handle_event_calm env e :
  calm_event e = true → preserves calm (handle_event env e).
Proof.
  destruct e; intros He; try discriminate He; simpl; try apply start_publish_calm;
    unfold handle_gossip_message, handle_request_message, handle_nat_status_changed;
    calm.
Qed.

Lemma handle_command_calm c :
  (∀ cid q x, c ≠ GetBitswap cid q x) → preserves calm (handle_command c).
Proof.
  intros Hc. destruct c; simpl; [naive_solver|..]; unfold handle_index; calm.
Qed.

(** ** A finished bitswap query *)

(** What a waiting sender is told, [found] being whether the block is there. *)
Definition reply_for (c : Cid) (found : bool) (chan : Behaviour.Sender) : Sent :=
  SentBlock chan (if found then Ok tt else Err (not_found_error c)).

Lemma push_sents_app l l' s : push_sents l' (push_sents l s) = push_sents (l ++ l') s.
Proof. unfold push_sents. simpl. by rewrite app_assoc. Qed.

Lemma push_sents_nil s : push_sents [] s = s.
Proof. unfold push_sents. rewrite app_nil_r. by destruct s. Qed.

Lemma answer_channels_run c bc found chans s :
  Store.contains (store s) bc = Ok found →
  run_for chans (answer_channel c bc) s =
    Some (Ok tt, push_sents (reply_for c found <$> chans) s).
Proof.
  revert s. induction chans as [|x chans IH]; intros s Hs; simpl.
  { by rewrite push_sents_nil. }
  rewrite (runM_bind_ok _ _ _ tt (push_sents [reply_for c found x] s)).
  - by rewrite IH, push_sents_app.
  - unfold answer_channel.
    rewrite (runM_bind_ok _ _ _ (store s) s) by done.
    rewrite (runM_bind_ok _ _ _ found s) by (unfold run, st_lift; by rewrite Hs).
    by destruct found.
Qed.

Lemma answer_channels_ok c bc chans s s' :
  run_for chans (answer_channel c bc) s = Some (Ok tt, s') →
  ∃ found, s' = push_sents (reply_for c found <$> chans) s ∧
    (chans ≠ [] → Store.contains (store s) bc = Ok found) ∧
    (∀ b, Store.contains (store s) bc = Ok b → found = b).
Proof.
  intros Hr. destruct (Store.contains (store s) bc) as [found| |] eqn:Hs.
  - rewrite (answer_channels_run _ _ _ _ _ Hs) in Hr. exists found.
    split_and!; [by simplify_eq|done|by intros b [= ->]].
  - destruct chans; [|by simpl in Hr; inv_bind; unfold answer_channel in *;
      unfold mbind, runM_bind, run, st_gets, st_lift in *; rewrite Hs in *].
    injection Hr as <-. exists true. by rewrite push_sents_nil.
  - destruct chans; [|by simpl in Hr; inv_bind; unfold answer_channel in *;
      unfold mbind, runM_bind, run, st_gets, st_lift in *; rewrite Hs in *].
    injection Hr as <-. exists true. by rewrite push_sents_nil.
Qed.

Lemma wait_for_block_ok polls c s s' :
  wait_for_block polls c s = Some (Ok tt, s') →
  ∃ st, s' = with_store st s ∧ Store.contains st c = Ok true ∧
    (st = store s ∨ Store.db st ∈ polls).
Proof.
  revert s. induction polls as [|d polls IH]; intros s; simpl;
    destruct (Store.contains (store s) c) as [[]| |] eqn:Hs; try done.
  - intros [= <-]. exists (store s). split; [by destruct s|by eauto].
  - intros [= <-]. exists (store s). split; [by destruct s|by eauto].
  - intros (st & -> & Hc & Hst)%IH. exists st. split; [done|]. split; [done|].
    right. destruct Hst as [->|?]; simpl; set_solver.
Qed.

Definition finished_labels (info : Behaviour.BitswapInfo) : list Metrics.Label :=
  [("cid", cid_to_string (Behaviour.cid info));
   ("query_id", query_to_string (Behaviour.query_id info));
   ("block_found", bool_string (Behaviour.block_found info))].

(** The handler, when it comes to its end. *)
Lemma handle_bitswap_run polls info s s' :
  handle_bitswap polls info s = Some (Ok tt, s') →
  ∃ st found,
    let c := Behaviour.cid info in
    let chans := default [] (response_channels s !! c) in
    s' = push_sents (reply_for c found <$> chans) (with_store st
           (with_response_channels (delete c (response_channels s))
             (push_metrics (Metrics.track Metrics.Bitswap (Some (finished_labels info)) None)
               (with_behaviour (Behaviour.cancel (Behaviour.query_id info) (behaviour s)) s)))) ∧
    (chans ≠ [] → Store.contains st c = Ok found) ∧
    (chans ≠ [] → Behaviour.block_found info = true → found = true) ∧
    (Behaviour.block_found info = false → st = store s) ∧
    (st = store s ∨ Store.db st ∈ polls).
Proof.
  unfold handle_bitswap. intros Hr.
  set (c := Behaviour.cid info) in *.
  set (s1 := push_metrics (Metrics.track Metrics.Bitswap (Some (finished_labels info)) None)
    (with_behaviour (Behaviour.cancel (Behaviour.query_id info) (behaviour s)) s)) in *.
  rewrite (runM_bind_ok _ _ _ tt
    (with_behaviour (Behaviour.cancel (Behaviour.query_id info) (behaviour s)) s)) in Hr
    by done.
  rewrite (runM_bind_ok _ _ _ tt s1) in Hr by done.
  rewrite (runM_bind_ok _ _ _ (response_channels s) s1) in Hr by done.
  destruct (response_channels s !! c) as [chans|] eqn:Hc; simpl.
  - set (s2 := with_response_channels (delete c (response_channels s)) s1) in *.
    rewrite (runM_bind_ok _ _ _ tt s2) in Hr by done.
    rewrite (runM_bind_ok _ _ _ c s2) in Hr
      by (unfold run, st_lift; by rewrite convert_cid_to_bytes).
    apply runM_bind_inv_ok in Hr as ([] & s3 & Hw & Hr).
    apply answer_channels_ok in Hr as (found & -> & Hf & Hfb).
    destruct (Behaviour.block_found info) eqn:Hbf.
    + apply wait_for_block_ok in Hw as (st & -> & Hst & Hin). exists st, found.
      split_and!; try done. intros _ _. by apply Hfb.
    + injection Hw as <-. exists (store s), found. split_and!; try done. by left.
  - injection Hr as <-. exists (store s), true. rewrite push_sents_nil.
    rewrite delete_id by done. split_and!; try done. by left.
Qed.

(** ** Histories *)

(** What the network and the libraries do to the behaviour between two rounds:
    nothing is asked of it, started, cancelled or taken out. *)
Definition from_network (l : Behaviour.label) : Prop :=
  Behaviour.asked l = [] ∧ Behaviour.started l = [] ∧ Behaviour.cancelled l = [] ∧
  Behaviour.emitted l = [].

(** The senders of the [GetBitswap] commands of an input. *)
Definition asks (i : input (DB:=DB)) : list Behaviour.Sender :=
  match i with Command (GetBitswap _ _ x) => [x] | _ => [] end.

(** The service runs: rounds that succeed, with changes in the network, the
    store and the rest of the swarm in between.  The list collects the senders
    of the [GetBitswap] commands. *)
Inductive history s0 : list Behaviour.Sender → UrsaService (DB:=DB) → Prop :=
| history_start : history s0 [] s0
| history_round w s i s' :
    history s0 w s → round i s = Some (Ok tt, s') → history s0 (w ++ asks i) s'
| history_network w s l b' :
    history s0 w s → Behaviour.step (behaviour s) l b' → from_network l →
    history s0 w (with_behaviour b' s)
| history_store w s st : history s0 w s → history s0 w (with_store st s)
| history_swarm w s x : history s0 w s → history s0 w (with_swarm x s).

(** A running query or a queued answer for an identifier. *)
Definition awaited (b : Behaviour.Behaviour) (c : Cid) : Prop :=
  (∃ q i, Behaviour.queries b !! q = Some i ∧ Behaviour.cid i = c) ∨
  ∃ i, Behaviour.BitswapFinished i ∈ Behaviour.events b ∧ Behaviour.cid i = c.

Lemma awaited_grows b b' c :
  Behaviour.queries b' = Behaviour.queries b →
  (∃ es, Behaviour.events b' = Behaviour.events b ++ es) →
  awaited b c → awaited b' c.
Proof.
  intros Hq [es He] [(q & i & Hl & Hc)|(i & Hi & Hc)].
  - left. exists q, i. by rewrite Hq.
  - right. exists i. rewrite He. set_solver.
Qed.

Lemma discovery_grows out b :
  let b' := foldl (λ b e, Behaviour.handle_discovery e b) b out in
  Behaviour.queries b' = Behaviour.queries b ∧
  ∃ es, Behaviour.events b' = Behaviour.events b ++ es.
Proof.
  revert b. induction out as [|e out IH]; intros b; simpl.
  - split; [done|]. exists []. by rewrite app_nil_r.
  - destruct (IH (Behaviour.handle_discovery e b)) as [-> [es ->]].
    split; [by destruct e|]. destruct e; eexists; simpl; unfold push_back;
      by rewrite <- app_assoc.
Qed.

Local Ltac same_events := exists []; simpl; by rewrite app_nil_r.

Lemma network_awaited b l b' c :
  Behaviour.step b l b' → from_network l → awaited b c → awaited b' c.
Proof.
  intros Hs (Ha & Hst & Hca & Hem) Haw.
  destruct Hs; simpl in *; simplify_eq;
    try (by eapply awaited_grows; [..|exact Haw]; [done|same_events]).
  - eapply awaited_grows; [..|exact Haw];
      destruct e as [p [i q ch|i r]|p i e|p i e|p i]; simpl; unfold Behaviour.answer;
      try done; try same_events; try (by case_match); try (by eexists);
      case_match; same_events.
  - case_decide as Hd; [done|]. eapply awaited_grows; [..|exact Haw]; simpl.
    + apply delete_id. by apply eq_None_not_Some.
    + same_events.
  - unfold Behaviour.poll in *. by destruct (Behaviour.events b).
  - eapply awaited_grows; [..|exact Haw]; unfold Behaviour.publish, st_zoom;
      destruct (gs_publish _ _ _); [done|same_events].
  - eapply awaited_grows; [..|exact Haw]; [done|by eexists].
  - eapply awaited_grows; [..|exact Haw]; unfold Behaviour.bootstrap, st_zoom;
      destruct (Discovery.bootstrap _); [done|same_events].
  - eapply awaited_grows; [..|exact Haw]; unfold Behaviour.subscribe, st_zoom;
      destruct (gs_subscribe _ _); [done|same_events].
  - destruct e as [id n|id r]; [done|]. simpl.
    destruct (Behaviour.queries b !! id) as [i|] eqn:Hi; [|done].
    destruct Haw as [(q & i' & Hq & Hc)|(i' & Hi' & Hc)].
    + destruct (decide (q = id)) as [->|Hne].
      * right. simplify_eq. eexists. simpl. unfold push_back. split.
        { apply elem_of_app. right. by apply list_elem_of_singleton. }
        done.
      * left. exists q, i'. simpl. by rewrite lookup_delete_ne.
    + right. exists i'. simpl. unfold push_back. split; [|done].
      apply elem_of_app. by left.
  - eapply awaited_grows; [..|exact Haw].
    + by apply Behaviour.handle_identify_keeps.
    + rewrite (Behaviour.handle_identify_keeps Behaviour.events) by done. same_events.
  - eapply awaited_grows; [..|exact Haw]; destruct e; simpl; try done;
      try same_events; by eexists.
  - eapply awaited_grows; [..|exact Haw]; destruct e as [p []|p| | |]; simpl; try done;
      try same_events; by eexists.
  - eapply awaited_grows; [..|exact Haw]; destruct e; simpl; try done;
      try same_events; by eexists.
  - eapply awaited_grows; [apply discovery_grows|..|exact Haw].
    apply (discovery_grows out (Behaviour.with_discovery d' b)).
Qed.

(** *** The senders that wait *)

Definition waiting_senders (m : gmap Cid (list Behaviour.Sender)) : list Behaviour.Sender :=
  map_to_list m ≫= snd.

Lemma waiting_senders_delete m c l :
  m !! c = Some l → waiting_senders m ≡ₚ l ++ waiting_senders (delete c m).
Proof. intros Hm. unfold waiting_senders. by rewrite <- (map_to_list_delete _ _ _ Hm). Qed.

Lemma waiting_senders_insert m c l :
  waiting_senders (<[c := l]> m) ≡ₚ l ++ waiting_senders (delete c m).
Proof.
  unfold waiting_senders. rewrite <- insert_delete_eq, map_to_list_insert; [done|].
  apply lookup_delete_eq.
Qed.

Lemma add_channel_waiting c x s :
  waiting_senders (response_channels (add_channel c x s)) ≡ₚ
    waiting_senders (response_channels s) ++ [x].
Proof.
  unfold add_channel. destruct (response_channels s !! c) as [chans|] eqn:Hc; simpl;
    rewrite waiting_senders_insert.
  - rewrite (waiting_senders_delete _ _ _ Hc). solve_Permutation.
  - rewrite delete_id by done. solve_Permutation.
Qed.

Lemma add_channel_same c x s :
  behaviour (add_channel c x s) = behaviour s ∧
  sent (add_channel c x s) = sent s ∧ metrics (add_channel c x s) = metrics s.
Proof. unfold add_channel. by destruct (response_channels s !! c). Qed.

(** *** The invariant *)

Record sinv (w : list Behaviour.Sender) s : Prop := {
  si_sound : sound_at 0 s;
  si_awaited : ∀ c, is_Some (response_channels s !! c) → awaited (behaviour s) c;
  si_account : w ≡ₚ (block_answers (sent s)).*1 ++ waiting_senders (response_channels s);
}.

Lemma sinv_calm w s s' : calm s s' → sinv w s → sinv w s'.
Proof.
  intros [Hs Hc Hq He Ha] [Hso Haw Hac]. split.
  - by apply Hs.
  - intros c. rewrite Hc. intros ?%Haw. by eapply awaited_grows.
  - by rewrite Ha, Hc.
Qed.

Lemma sinv_network w s l b' :
  Behaviour.step (behaviour s) l b' → from_network l → sinv w s →
  sinv w (with_behaviour b' s).
Proof.
  intros Hst Hn [Hso Haw Hac]. split; [|simpl..].
  - pose proof (sound_at_step _ _ _ _ Hst Hso) as Hx.
    destruct Hn as (_ & _ & _ & Hem). by rewrite Hem in Hx.
  - intros c ?%Haw. by eapply network_awaited.
  - done.
Qed.

(** Taking an event out leaves the gauge behind by what the event says. *)
Lemma poll_sound s e b' :
  Behaviour.poll (behaviour s) = (Some e, b') → sound_at 0 s →
  sound_at (Discovery.balance (Behaviour.peer_events [e])) (with_behaviour b' s).
Proof.
  intros Hp Hs. pose proof (Behaviour.step_poll (behaviour s)) as Hst.
  rewrite Hp in Hst. by apply (sound_at_step _ _ _ _ Hst) in Hs.
Qed.

Lemma poll_some b e b' :
  Behaviour.poll b = (Some e, b') →
  Behaviour.events b = e :: Behaviour.events b' ∧
  Behaviour.queries b' = Behaviour.queries b.
Proof.
  unfold Behaviour.poll. destruct (Behaviour.events b); simpl; [done|].
  by intros [= <- <-].
Qed.

Lemma poll_awaited b e b' c :
  Behaviour.poll b = (Some e, b') → awaited b c →
  awaited b' c ∨ ∃ i, e = Behaviour.BitswapFinished i ∧ Behaviour.cid i = c.
Proof.
  intros [He Hq]%poll_some [(q & i & Hl & Hc)|(i & Hi & Hc)].
  - left. left. exists q, i. by rewrite Hq.
  - rewrite He in Hi. apply elem_of_cons in Hi as [<-|Hi]; [by eauto|].
    left. right. by exists i.
Qed.

(** The finished query is no longer in the table: [cancel] finds nothing. *)
Lemma poll_finished_query b l i b' :
  Behaviour.poll b = (Some (Behaviour.BitswapFinished i), b') →
  Behaviour.inv l b → Behaviour.queries b' !! Behaviour.query_id i = None.
Proof.
  intros Hp Hi. pose proof (Behaviour.step_poll b) as Hst. rewrite Hp in Hst.
  apply (Behaviour.step_inv _ _ _ _ Hst) in Hi.
  pose proof (Behaviour.inv_nodup _ _ Hi) as Hnd.
  rewrite (Behaviour.inv_started _ _ Hi) in Hnd. simpl in Hnd.
  rewrite !Behaviour.finished_app in Hnd. simpl in Hnd.
  apply eq_None_not_Some. intros [i' Hq].
  apply NoDup_app in Hnd as (_ & Hnd & _).
  apply (Hnd (Behaviour.query_id i)).
  - set_solver.
  - apply elem_of_app. right. unfold Behaviour.running. apply list_elem_of_fmap.
    exists (Behaviour.query_id i, i'). split; [done|]. by apply elem_of_map_to_list.
Qed.

Lemma cancel_queries_none b q :
  Behaviour.queries b !! q = None → Behaviour.queries (Behaviour.cancel q b) = Behaviour.queries b.
Proof. intros Hq. simpl. by apply delete_id. Qed.

Lemma labelled_gauge name ms event labels v :
  Metrics.gauge_value name (ms ++ Metrics.track event (Some labels) v) =
    Metrics.gauge_value name ms.
Proof. rewrite Metrics.gauge_value_app, Metrics.track_labelled_gauge. lia. Qed.

(** The three kinds of rounds with an event. *)
Lemma sinv_bitswap w s info b' polls s' :
  Behaviour.poll (behaviour s) = (Some (Behaviour.BitswapFinished info), b') →
  handle_bitswap polls info (with_behaviour b' s) = Some (Ok tt, s') →
  sinv w s → sinv w s'.
Proof.
  intros Hp Hh [Hso Haw Hac].
  assert (Behaviour.queries b' !! Behaviour.query_id info = None) as Hq.
  { destruct Hso as [(l & Hi & _)]. by eapply poll_finished_query. }
  apply handle_bitswap_run in Hh as (st & found & -> & _). simpl.
  set (c := Behaviour.cid info).
  pose proof (poll_sound _ _ _ Hp Hso) as Hso'.
  pose proof (Behaviour.step_cancel b' (Behaviour.query_id info)) as Hst.
  pose proof (sound_at_step _ (with_behaviour b' s) _ _ Hst Hso') as Hso''.
  split.
  - destruct Hso'' as [(l & Hi & Hpe & Hg)]. split. exists l. split_and!; [done..|].
    rewrite <- Hg. f_equal.
    apply (labelled_gauge _ (metrics s) Metrics.Bitswap (finished_labels info) None).
  - simpl. intros c' [x Hx]. rewrite lookup_delete in Hx. case_decide as Hcc; [done|].
    destruct (poll_awaited _ _ _ c' Hp) as [Ha|(i & [= <-] & Hi)]; [by apply Haw; eexists| |done].
    eapply awaited_grows; [..|exact Ha]; [by apply cancel_queries_none|]. same_events.
  - simpl. rewrite block_answers_app, fmap_app, <- app_assoc, Hac. f_equiv.
    assert (∀ l, (block_answers (reply_for c found <$> l)).*1 = l) as ->
      by (intros l; induction l as [|x l IH]; simpl; [done|by f_equal]).
    destruct (response_channels s !! c) as [chans|] eqn:Hc; simpl.
    + by apply waiting_senders_delete.
    + by rewrite delete_id.
Qed.

Lemma poll_keeps_waiting w s e b' :
  Behaviour.poll (behaviour s) = (Some e, b') →
  (∀ i, e ≠ Behaviour.BitswapFinished i) → sinv w s →
  sound_at (Discovery.balance (Behaviour.peer_events [e])) (with_behaviour b' s) ∧
  (∀ c, is_Some (response_channels s !! c) → awaited b' c).
Proof.
  intros Hp Hne [Hso Haw _]. split; [by apply poll_sound|].
  intros c Hc. destruct (poll_awaited _ _ _ c Hp (Haw c Hc)) as [?|(i & -> & _)]; [done|].
  by destruct (Hne i).
Qed.

(** An event that moves the gauge and tells the event channel. *)
Lemma sinv_peer_event w s e me ue b' :
  Behaviour.poll (behaviour s) = (Some e, b') →
  (∀ i, e ≠ Behaviour.BitswapFinished i) →
  Discovery.balance (Behaviour.peer_events [e]) = Metrics.peer_delta me →
  sinv w s →
  sinv w (push_event_channel ue
    (push_metrics (Metrics.track me None None) (with_behaviour b' s))).
Proof.
  intros Hp Hne Hd Hi. destruct (poll_keeps_waiting _ _ _ _ Hp Hne Hi) as [Hso Haw].
  rewrite Hd in Hso. split; [|exact Haw|exact (si_account _ _ Hi)].
  destruct Hso as [(l & Hl & Hpe & Hg)]. split. exists l. split_and!; [done..|].
  rewrite <- Hg. unfold peer_gauge.
  cbn [metrics push_event_channel push_metrics with_behaviour].
  rewrite Metrics.gauge_value_app, Metrics.track_peer_gauge. lia.
Qed.

Lemma sinv_event w s e b' env s' :
  Behaviour.poll (behaviour s) = (Some e, b') →
  handle_event env e (with_behaviour b' s) = Some (Ok tt, s') →
  sinv w s → sinv w s'.
Proof.
  intros Hp Hh Hi. destruct (calm_event e) eqn:Hc.
  - apply (handle_event_calm env e Hc) in Hh.
    assert (∀ i, e ≠ Behaviour.BitswapFinished i) as Hne by by intros i ->.
    destruct (poll_keeps_waiting _ _ _ _ Hp Hne Hi) as [Hso Haw].
    apply (sinv_calm _ _ _ Hh). split; [|exact Haw|exact (si_account _ _ Hi)].
    by destruct e.
  - destruct e; try discriminate Hc; simpl in Hh.
    + injection Hh as <-.
      by apply (sinv_peer_event w s _ Metrics.PeerConnected (PeerConnected peer) b' Hp).
    + injection Hh as <-.
      by apply (sinv_peer_event w s _ Metrics.PeerDisconnected (PeerDisconnected peer) b' Hp).
    + by eapply sinv_bitswap.
Qed.

(** Starting a query for an identifier makes it awaited. *)
Lemma insert_query_awaited b q c' bw c :
  Behaviour.queries b !! q = None → awaited b c ∨ c = c' →
  awaited (Behaviour.insert_query q c' (Behaviour.with_bitswap bw b)) c.
Proof.
  intros Hn [[(q' & i & Hl & Hc)|(i & Hi & Hc)]| ->].
  - left. exists q', i. simpl. rewrite lookup_insert_ne; [done|]. congruence.
  - right. by exists i.
  - left. eexists q, _. simpl. by rewrite lookup_insert_eq.
Qed.

Lemma sinv_start w s l b' q bw c x :
  Behaviour.step (behaviour s) l b' → Behaviour.emitted l = [] →
  b' = Behaviour.insert_query q c (Behaviour.with_bitswap bw (behaviour s)) →
  Behaviour.queries (behaviour s) !! q = None → sinv w s →
  sinv (w ++ [x]) (with_behaviour b' (add_channel c x s)).
Proof.
  intros Hst Hem -> Hq [Hso Haw Hac].
  destruct (add_channel_same c x s) as (Hb & Hs & Hm).
  split.
  - pose proof (sound_at_step _ _ _ _ Hst Hso) as [(l' & Hl & Hp & Hg)].
    rewrite Hem in Hg. split. exists l'. split_and!; [done..|].
    rewrite <- Hg. simpl. unfold peer_gauge. simpl. by rewrite Hm.
  - intros c' Hc'. apply insert_query_awaited; [done|].
    simpl in Hc'. destruct (decide (c' = c)) as [->|Hne]; [by right|]. left. apply Haw.
    unfold add_channel in Hc'.
    by case_match; simpl in Hc'; rewrite lookup_insert_ne in Hc'.
  - simpl. rewrite Hs, add_channel_waiting, Hac. solve_Permutation.
Qed.

Lemma fresh_query w s q :
  sinv w s → q ∉ bw_issued (Behaviour.bitswap (behaviour s)) →
  Behaviour.queries (behaviour s) !! q = None.
Proof.
  intros [[(l & Hi & _)] _ _] Hq. apply eq_None_not_Some. intros [i Hl]. apply Hq.
  apply (Behaviour.inv_issued _ _ Hi). rewrite (Behaviour.inv_started _ _ Hi), !elem_of_app.
  right. right. apply list_elem_of_fmap. exists (q, i).
  split; [done|]. by apply elem_of_map_to_list.
Qed.

Lemma sinv_get_bitswap w s c query x s' :
  handle_get_bitswap c query x s = Some (Ok tt, s') → sinv w s → sinv (w ++ [x]) s'.
Proof.
  unfold handle_get_bitswap. intros Hh Hi.
  rewrite (runM_bind_ok _ _ _ (behaviour s) s) in Hh by done. case_decide as Hpe.
  - injection Hh as <-. destruct Hi as [Hso Haw Hac]. split; [|done|].
    + destruct Hso as [(l & Hl)]. split. by exists l.
    + simpl. rewrite block_answers_app, fmap_app, Hac. simpl. solve_Permutation.
  - rewrite (runM_bind_ok _ _ _ tt (add_channel c x s)) in Hh by done.
    destruct (add_channel_same c x s) as (Hb & _).
    set (ps := elements (Behaviour.peers (behaviour s))) in *.
    destruct query; unfold on_behaviour, run, st_zoom in Hh; rewrite Hb in Hh.
    + destruct (bw_get c ps (Behaviour.bitswap (behaviour s))) as [q bw] eqn:Hq.
      pose proof (Behaviour.step_get_block (behaviour s) c ps) as Hst.
      rewrite Behaviour.get_block_run, Hq in Hh, Hst. injection Hh as <-.
      apply bw_get_issued in Hq as [Hq _].
      eapply sinv_start; [exact Hst|done..| |done]. by eapply fresh_query.
    + destruct (bw_sync c ps [c] (Behaviour.bitswap (behaviour s))) as [q bw] eqn:Hq.
      pose proof (Behaviour.step_sync_block (behaviour s) c ps) as Hst.
      rewrite Behaviour.sync_block_run, Hq in Hh, Hst. injection Hh as <-.
      apply bw_sync_issued in Hq as [Hq _].
      eapply sinv_start; [exact Hst|done..| |done]. by eapply fresh_query.
Qed.

Lemma sinv_round w s i s' :
  round i s = Some (Ok tt, s') → sinv w s → sinv (w ++ asks i) s'.
Proof.
  intros Hr Hi. destruct i as [env| |command].
  - cbn [round asks] in Hr |- *. rewrite app_nil_r.
    destruct (Behaviour.poll (behaviour s)) as [o b'] eqn:Hp.
    rewrite (runM_bind_ok _ _ _ o (with_behaviour b' s)) in Hr
      by (unfold next_event, on_behaviour, run, st_zoom; by rewrite Hp).
    destruct o as [e|]; [by eapply sinv_event|].
    unfold Behaviour.poll in Hp. destruct (Behaviour.events (behaviour s)); [|done].
    injection Hp as <-. injection Hr as <-. by destruct s.
  - injection Hr as <-. simpl. by rewrite app_nil_r.
  - destruct command as [c q x| | | | | |]; [by eapply sinv_get_bitswap|..];
      simpl asks; rewrite app_nil_r;
      (eapply sinv_calm; [eapply handle_command_calm; [|exact Hr]; done|done]).
Qed.

Lemma history_inv s0 w s :
  history s0 w s → sinv [] s0 → sinv w s.
Proof.
  intros Hh H0. induction Hh as [|w s i s' _ IH Hr|w s l b' _ IH Hst Hn|w s st _ IH|w s x _ IH].
  - done.
  - by eapply sinv_round.
  - by eapply sinv_network.
  - destruct IH as [[(l & Hl)] ? ?]. split; [split; by exists l|done..].
  - destruct IH as [[(l & Hl)] ? ?]. split; [split; by exists l|done..].
Qed.

(** *** A new service *)

Lemma new_sinv k config st p built relay s0 :
  new k config st p built relay = Ok s0 → sinv [] s0.
Proof.
  unfold new. intros Hn. inv_bind.
  apply Behaviour.new_empty in H as (Hpr & Hq & He & Hdp & Hde).
  match type of Hn with (let '(_, _) := ?e in _) = _ => destruct e as [listening x] end.
  inv_bind.
  destruct (st_try (Behaviour.subscribe _) a) as [o1 b1] eqn:Hb1. inv_bind.
  destruct (st_try Behaviour.bootstrap b1) as [o2 b2] eqn:Hb2. inv_bind.
  injection Hn as <-.
  assert (b1 = (Behaviour.subscribe (topic_new URSA_GLOBAL) a).2) as ->
    by (by rewrite <- (try_state (F:=string)), Hb1).
  assert (b2 = (Behaviour.bootstrap (Behaviour.subscribe (topic_new URSA_GLOBAL) a).2).2) as ->
    by (by rewrite <- (try_state (F:=string)), Hb2).
  split; simpl.
  - split. eexists. split_and!.
    + eapply Behaviour.step_inv; [apply Behaviour.step_bootstrap|].
      eapply Behaviour.step_inv; [apply Behaviour.step_subscribe|].
      by apply Behaviour.inv_init.
    + eapply Behaviour.step_peers_inv; [apply Behaviour.step_bootstrap|].
      eapply Behaviour.step_peers_inv; [apply Behaviour.step_subscribe|].
      unfold Behaviour.peers_inv, Discovery.consistent. by rewrite He, Hdp, Hde.
    + done.
  - intros c. rewrite lookup_empty. by intros [].
  - unfold waiting_senders. by rewrite map_to_list_empty.
Qed.

Lemma new_history_inv k config st p built relay s0 w s :
  new k config st p built relay = Ok s0 → history s0 w s → sinv w s.
Proof. intros Hn Hh. eapply history_inv; [done|]. by eapply new_sinv. Qed.
End history.
