(* ===== verification/Frame.v ===== *)
(** What a round of the service can change: the store, the queue of events of the
    behaviour and the channel of events to the application, whether the round
    succeeds, fails or panics ([src/crates/ursa-network/src/service.rs]). *)

From S2P Require Import Prelude Libs Utils Codec Protocols IndexLibs Service ServiceHistory.
From S2P Require Store NetConfig Discovery Metrics Behaviour Advertisement Provider.

Section frame.
  Context {DB : Type} {cl : CidLib} {bs : BlockStore DB} {os : ObjStore DB}.
  Context {il : IpldLib} {hi : HashIter Cid}.
  Context {nl : NetLib} {ml : MultiaddrLib} {sw : SwarmTypes} {swl : SwarmLib}.
  Context {kl : KadLib} {md : MdnsLib} {gl : GossipLib} {bl : BitswapLib}.
  Context {rl : RequestResponseLib} {al : NatLib} {dl : DebugLib}.
  Context {key : KeyLib} {el : EncodeLib} {cbor : CborLib}.
  Implicit Types (s : UrsaService (DB:=DB)) (ev : Behaviour.BehaviourEvent).

Abbreviation serviceM := (runM (UrsaService (DB:=DB)) string).

(** An event that the service queues itself. *)
Definition own_event ev : Prop :=
  match ev with Behaviour.StartPublish _ => True | _ => False end.

(** The application is told of an event of the behaviour. *)
Definition hands ev (e : UrsaEvent) : Prop :=
  match ev, e with
  | Behaviour.GossipMessage _ _ m, GossipsubMessageEvent m' => m = m'
  | Behaviour.RequestMessage _ r ch, RequestMessage r' ch' => r = r' ∧ ch = ch'
  | Behaviour.PeerConnected p, PeerConnected p' => p = p'
  | Behaviour.PeerDisconnected p, PeerDisconnected p' => p = p'
  | _, _ => False
  end.

(** Between [s] and [s'] bitswap has put the store into one of the states [polls],
    or it is as it was; no event but the service's own has joined the queue; and
    the channel has grown by events in [E]. *)
Record frame (polls : list DB) (E : UrsaEvent → Prop) s s' : Prop := {
  frame_store : store s' = store s ∨ ∃ d, d ∈ polls ∧ store s' = Store.new d;
  frame_events : ∀ ev, ev ∈ Behaviour.events (behaviour s') →
    ev ∈ Behaviour.events (behaviour s) ∨ own_event ev;
  frame_channel : ∃ l, event_channel s' = event_channel s ++ l ∧ Forall E l;
}.

#[export] Instance frame_refl polls E : Reflexive (frame polls E).
Proof. intros s. split; [by left|by left|]. exists []. by rewrite app_nil_r. Qed.

#[export] Instance frame_trans polls E : Transitive (frame polls E).
Proof.
  intros s s' s'' [Hs He (l & Hl & HE)] [Hs' He' (l' & Hl' & HE')]. split.
  - destruct Hs' as [->|?]; [done|by right].
  - intros ev [?%He|?]%He'; [done|by right].
  - exists (l ++ l'). rewrite Hl', Hl, app_assoc. split; [done|by apply Forall_app].
Qed.

(** A change of none of the three. *)
Lemma frame_same polls E s s' :
  store s' = store s → Behaviour.events (behaviour s') = Behaviour.events (behaviour s) →
  event_channel s' = event_channel s → frame polls E s s'.
Proof.
  intros Hs He Hc. split; [by left|rewrite He; by left|].
  exists []. by rewrite app_nil_r.
Qed.

Lemma frame_more polls E (E' : UrsaEvent → Prop) s s' :
  (∀ e, E e → E' e) → frame polls E s s' → frame polls E' s s'.
Proof.
  intros HE [Hs He (l & Hl & Hf)]. split; [done..|]. exists l. split; [done|].
  by eapply Forall_impl.
Qed.

(** ** The calls of the handlers *)

Section calls.
  Context (polls : list DB) (E : UrsaEvent → Prop).

Lemma modify_frame (f : UrsaService → UrsaService) :
  (∀ s, store (f s) = store s ∧ behaviour (f s) = behaviour s ∧
     event_channel (f s) = event_channel s) →
  preserves (frame polls E) (run (st_modify f) : serviceM unit).
Proof.
  intros Hf s o s' [= <- <-]. destruct (Hf s) as (Hs & Hb & Hc).
  apply frame_same; by rewrite ?Hb.
Qed.

Lemma pure_frame {A} (m : stM (UrsaService (DB:=DB)) string A) :
  (∀ s, (m s).2 = s) → preserves (frame polls E) (run m).
Proof.
  intros Hm s o s' [= Hr]. specialize (Hm s). rewrite Hr in Hm. simpl in Hm. by subst.
Qed.

Lemma on_behaviour_frame {A} (m : stM Behaviour.Behaviour string A) :
  (∀ b ev, ev ∈ Behaviour.events (m b).2 → ev ∈ Behaviour.events b ∨ own_event ev) →
  preserves (frame polls E) (on_behaviour m).
Proof.
  intros Hm s o s'. unfold on_behaviour, run, st_zoom. specialize (Hm (behaviour s)).
  destruct (m (behaviour s)) as [o' b']. intros [= <- <-].
  split; [by left|done|]. exists []. by rewrite app_nil_r.
Qed.

Lemma on_swarm_frame {A} (m : stM Swarm string A) : preserves (frame polls E) (on_swarm m).
Proof.
  intros s o s'. unfold on_swarm, run, st_zoom. destruct (m (swarm s)).
  intros [= <- <-]. by apply frame_same.
Qed.

Lemma on_provider_frame {A} (m : stM (Provider.Provider (DB:=DB)) string A) :
  preserves (frame polls E) (on_provider m).
Proof.
  intros s o s'. unfold on_provider, run, st_zoom. destruct (m (index_provider s)).
  intros [= <- <-]. by apply frame_same.
Qed.

Lemma run_opt_frame {A} (o : option (outcome string A)) :
  preserves (frame polls E) (run_opt o).
Proof. intros s o' s'. unfold run_opt. destruct o; [|done]. by intros [= <- <-]. Qed.

Lemma send_event_frame e : E e → preserves (frame polls E) (send_event e).
Proof.
  intros He s o s' [= <- <-]. split; [by left|by left|]. exists [e]. by rewrite Forall_singleton.
Qed.

Lemma run_for_frame {A} (l : list A) (body : A → serviceM unit) :
  (∀ x, preserves (frame polls E) (body x)) → preserves (frame polls E) (run_for l body).
Proof.
  intros Hb. induction l; simpl; [apply preserves_ret; apply _|].
  apply preserves_bind; [apply _|done|by intros _].
Qed.

Lemma wait_frame l c : l ⊆ polls → preserves (frame polls E) (wait_for_block l c).
Proof.
  induction l as [|d l IH]; intros Hl s o s'; simpl;
    destruct (Store.contains (store s) c) as [[]| |]; try done; try by intros [= _ <-].
  intros Hw%IH; [|set_solver]. etrans; [|exact Hw]. split; [right|by left|].
  - exists d. split; [set_solver|done].
  - exists []. by rewrite app_nil_r.
Qed.
End calls.

(** What the behaviour is asked to do adds no event but [StartPublish]. *)
Local Ltac quiet :=
  intros b ev; unfold Behaviour.publish, Behaviour.publish_ad, Behaviour.send_request, st_try, st_unwrap, st_zoom,
    st_modify; rewrite ?Behaviour.get_block_run, ?Behaviour.sync_block_run; simpl;
  repeat case_match; simplify_eq/=; unfold push_back;
  rewrite ?elem_of_app, ?list_elem_of_singleton; intuition (subst; simpl; done).

Local Ltac frame :=
  repeat first
    [ apply (preserves_bind (frame _ _)); [|intros ?]
    | apply (preserves_ret (frame _ _))
    | apply wait_frame; done
    | apply on_swarm_frame | apply on_provider_frame | apply run_opt_frame
    | apply run_for_frame; intros ?
    | apply send_event_frame; by repeat split
    | apply modify_frame; by repeat split
    | apply pure_frame; reflexivity
    | apply on_behaviour_frame; quiet
    | case_match; simplify_eq ].

Lemma publish_roots_frame polls E fuel ids address q :
  preserves (frame polls E) (publish_roots (DB:=DB) fuel ids address q).
Proof.
  induction q as [|r q IH]; simpl; unfold publish_root, announce; frame; apply IH.
Qed.

Lemma add_channel_frame polls E c x :
  preserves (frame polls E) (run (st_modify (add_channel c x)) : serviceM unit).
Proof.
  apply modify_frame. intros s. unfold add_channel.
  by destruct (response_channels s !! c).
Qed.

Lemma handle_event_frame env ev :
  preserves (frame (env_polls env) (hands ev)) (handle_event (DB:=DB) env ev).
Proof.
  destruct ev; simpl; unfold handle_bitswap, handle_gossip_message, handle_request_message,
    handle_peer_connected, handle_peer_disconnected, handle_nat_status_changed,
    handle_start_publish, answer_channel, send, track; frame; apply publish_roots_frame.
Qed.

Lemma handle_command_frame c : preserves (frame [] (λ _, False)) (handle_command (DB:=DB) c).
Proof.
  destruct c; simpl; unfold handle_get_bitswap, handle_index, send; frame;
    apply add_channel_frame.
Qed.

(** ** A round *)

Definition input_polls (i : input (DB:=DB)) : list DB :=
  match i with SwarmBehaviour env => env_polls env | _ => [] end.

(** The store goes on as the environment says, events only leave the queue, and
    what the application is told comes from an event that was queued. *)
Lemma round_frame i s o s' :
  round i s = Some (o, s') →
  frame (input_polls i) (λ e, ∃ ev, ev ∈ Behaviour.events (behaviour s) ∧ hands ev e) s s'.
Proof.
  intros Hr. destruct i as [env| |c].
  - cbn [round] in Hr. destruct (Behaviour.poll (behaviour s)) as [e b'] eqn:Hp.
    rewrite (runM_bind_ok _ _ _ e (with_behaviour b' s)) in Hr
      by (unfold next_event, on_behaviour, run, st_zoom; by rewrite Hp).
    destruct e as [ev|]; last first.
    { injection Hr as <- <-. unfold Behaviour.poll in Hp. destruct (pop_front _) as [[]|];
        simplify_eq. by apply frame_same. }
    apply poll_some in Hp as [He _].
    transitivity (with_behaviour b' s).
    + split; [by left| |by exists []; rewrite app_nil_r].
      intros ev'. rewrite He. left. by apply list_elem_of_further.
    + apply handle_event_frame in Hr. eapply frame_more; [|exact Hr].
      intros e Hh. exists ev. rewrite He. split; [by left|done].
  - injection Hr as <- <-. done.
  - apply handle_command_frame in Hr. by eapply frame_more; [|exact Hr].
Qed.
End frame.
