(* ===== verification/ServiceSamples.v ===== *)
(** A concrete swarm and service, for the witnesses. *)

From S2P Require Import Prelude Libs Codec Protocols IndexLibs Service ServiceHistory.
From S2P Require Store Discovery Behaviour Provider.
From S2P Require Export Samples ProtocolSamples IndexSamples.

(** A swarm that is connected to everyone and records what it is asked. *)
Definition sample_swarm_lib : SwarmLib := {|
  Swarm := list Multiaddr;
  is_connected _ _ := true;
  sw_listen_on a s := (Ok tt, s ++ [a]);
  sw_dial a s := (Ok tt, s ++ [a]);
|}.
#[export] Existing Instance sample_swarm_lib.

Definition sample_debug : DebugLib := {|
  debug_message _ := "message";
  debug_request _ := "request";
  debug_channel _ := "channel";
|}.
#[export] Existing Instance sample_debug.

(** A started service, the same connected to a peer, and with a sender that
    waits for a block. *)
Definition sample_new : outcome string (UrsaService (DB:=sample_db)) :=
  new (keypair_of x01) Discovery.sample_config Store.sample_dag
    Provider.sample_provider ([] : Swarm) Behaviour.sample_relay_client.

Definition sample_started : UrsaService :=
  match sample_new with
  | Ok s => s
  | _ => {|
      store := Store.sample_dag; behaviour := Behaviour.sample_behaviour;
      swarm := ([] : Swarm); local_peer_id := pid 1; response_channels := ∅;
      index_provider := Provider.sample_provider; event_channel := []; sent := [];
      metrics := []; http := [] |}
  end.

Definition connect (b : Behaviour.Behaviour) : Behaviour.Behaviour :=
  Behaviour.with_discovery (Discovery.inject_connection_established (pid 5) (conn 0) tt None 0%N
    (Behaviour.discovery b)) b.

Definition sample_connected : UrsaService :=
  with_behaviour (connect (behaviour sample_started)) sample_started.

Definition sample_get : input (DB:=sample_db) := Command (GetBitswap (sid x07) Get 9%N).
Definition sample_waiting : UrsaService := final (round sample_get) sample_connected.

Definition sample_info : Behaviour.BitswapInfo :=
  {| Behaviour.cid := sid x07; Behaviour.query_id := qid 0; Behaviour.block_found := true |}.

(** The store once the block has arrived. *)
Definition sample_filled : sample_db := <[ [x07] := [x01] ]> (Store.db Store.sample_dag).

Definition maddr (l : list Protocol) : Multiaddr := l.

(** A service about to publish the roots given. *)
Definition sample_publishing (roots : list Cid) : UrsaService :=
  with_index_provider (Provider.with_root_cids roots (index_provider sample_started))
    (with_behaviour (Behaviour.with_events [Behaviour.StartPublish (maddr [])]
      (behaviour sample_started)) sample_started).

Definition sample_env : Env (DB:=sample_db) :=
  {| env_polls := []; env_random := 0; env_fuel := 20; env_ids := λ n, N.of_nat n |}.

(** ** Histories of the samples *)

Definition sample_built : Swarm (SwarmLib:=sample_swarm_lib) := [].

Lemma sample_new_ok :
  new (keypair_of x01) Discovery.sample_config Store.sample_dag
    Provider.sample_provider sample_built Behaviour.sample_relay_client = Ok sample_started.
Proof. reflexivity. Qed.

Lemma sample_round_ok :
  round sample_get sample_connected = Some (Ok tt, sample_waiting).
Proof. apply runM_is_ok. vm_compute. reflexivity. Qed.

Lemma sample_connected_history : history sample_started [] sample_connected.
Proof.
  apply (history_network sample_started [] sample_started Behaviour.silent
    (connect (behaviour sample_started))); [constructor| |by repeat split].
  apply (Behaviour.step_discovery (behaviour sample_started)
    (Behaviour.discovery (behaviour sample_started)) []); [done|].
  apply Discovery.step_established.
Qed.

Lemma sample_history : history sample_started [9%N] sample_waiting.
Proof.
  apply (history_round sample_started [] sample_connected sample_get);
    [apply sample_connected_history|apply sample_round_ok].
Qed.
