(* ===== verification/Requests.v ===== *)
(** How a round of the network service treats the senders of block requests,
    whether the round succeeds, fails or panics. *)

From S2P Require Import Prelude Libs Utils Codec Protocols IndexLibs Service ServiceHistory.
From S2P Require Store NetConfig Discovery Metrics Behaviour Advertisement Provider.

Section requests.
  Context {DB : Type} {cl : CidLib} {bs : BlockStore DB} {os : ObjStore DB}.
  Context {il : IpldLib} {hi : HashIter Cid}.
  Context {nl : NetLib} {ml : MultiaddrLib} {sw : SwarmTypes} {swl : SwarmLib}.
  Context {kl : KadLib} {md : MdnsLib} {gl : GossipLib} {bl : BitswapLib}.
  Context {rl : RequestResponseLib} {al : NatLib} {dl : DebugLib}.
  Context {key : KeyLib} {el : EncodeLib} {cbor : CborLib}.
  Implicit Types (s : UrsaService (DB:=DB)) (x : Behaviour.Sender).

(** The senders that wait for an identifier. *)
Definition waiting_for s (c : Cid) : list Behaviour.Sender :=
  default [] (response_channels s !! c).

(** What a sender that waits for [c] is told when the block is there or not. *)
Definition block_reply (c : Cid) (found : bool) : outcome string unit :=
  if found then Ok tt else Err (not_found_error c).

(** A query for [c] that has ended waits to be handled. *)
Definition reported s (c : Cid) : Prop :=
  ∃ info, Behaviour.BitswapFinished info ∈ Behaviour.events (behaviour s) ∧
    Behaviour.cid info = c.

(** An answer to a sender that waited, which tells the state of the store once a
    query has ended. *)
Definition true_answer s s' (a : Behaviour.Sender * outcome string unit) : Prop :=
  ∃ c found, a.1 ∈ waiting_for s c ∧ a.2 = block_reply c found ∧
    Store.contains (store s') c = Ok found ∧ reported s c.

(** No identifier is kept without a sender that waits for it. *)
Definition no_empty_channel s : Prop :=
  ∀ c l, response_channels s !! c = Some l → l ≠ [].

(** The answers [l] of a round with input [i] and outcome [o]. *)
Record round_effect (i : input (DB:=DB)) s (o : outcome string unit) s'
    (l : list (Behaviour.Sender * outcome string unit)) : Prop := {
  re_answers : block_answers (sent s') = block_answers (sent s) ++ l;
  re_true : ∀ a, a ∈ l → true_answer s s' a ∨
    ∃ c q, i = Command (GetBitswap c q a.1) ∧ a.2 = Err NO_PEERS_ERROR;
  re_waiting : ∀ c x, x ∈ waiting_for s' c →
    x ∈ waiting_for s c ∨ ∃ q, i = Command (GetBitswap c q x);
  re_kept : o = Ok tt → ∀ c x, x ∈ waiting_for s c →
    x ∈ waiting_for s' c ∨ ∃ r, (x, r) ∈ l;
  re_asked : o = Ok tt → ∀ c q x, i = Command (GetBitswap c q x) →
    x ∈ waiting_for s' c ∨ ∃ r, (x, r) ∈ l;
  re_nonempty : no_empty_channel s → no_empty_channel s';
}.

(** A round that no sender can see. *)
Lemma quiet_effect i s o s' :
  (∀ c q x, i ≠ Command (GetBitswap c q x)) →
  response_channels s' = response_channels s →
  block_answers (sent s') = block_answers (sent s) → round_effect i s o s' [].
Proof.
  intros Hi Hch Ha. split; unfold waiting_for, no_empty_channel; rewrite ?Hch;
    try naive_solver.
  - by rewrite app_nil_r.
  - intros a Hx. by apply not_elem_of_nil in Hx.
Qed.

(** *** A finished query *)

(** The loop over the channels, wherever it stops. *)
Definition answering (c : Cid) (chans : list Behaviour.Sender) s s' : Prop :=
  response_channels s' = response_channels s ∧ store s' = store s ∧
  ∃ l, block_answers (sent s') = block_answers (sent s) ++ l ∧
    ∀ a, a ∈ l → a.1 ∈ chans ∧ ∃ found, a.2 = block_reply c found ∧
      Store.contains (store s) c = Ok found.

#[local] Instance answering_refl c chans : Reflexive (answering c chans).
Proof.
  intros s. split_and!; try done. exists []. rewrite app_nil_r. split; [done|].
  intros a Ha. by apply not_elem_of_nil in Ha.
Qed.

#[local] Instance answering_trans c chans : Transitive (answering c chans).
Proof.
  intros s s' s'' (Hc & Hs & l & Hl & Ha) (Hc' & Hs' & l' & Hl' & Ha').
  split_and!; [congruence..|]. exists (l ++ l'). rewrite Hl', Hl, app_assoc. split; [done|].
  intros a [?|?]%elem_of_app; [by apply Ha|]. rewrite <- Hs. by apply Ha'.
Qed.

Lemma answer_channel_answering c chans x :
  x ∈ chans → preserves (answering c chans) (answer_channel c c x).
Proof.
  intros Hx s o s'. unfold answer_channel.
  rewrite (runM_bind_ok _ _ _ (store s) s) by done.
  unfold mbind, runM_bind, run, st_lift, send, st_modify.
  destruct (Store.contains (store s) c) as [found| |] eqn:Hf; simpl;
    [|by intros [= _ <-]..].
  assert (∀ r, r = block_reply c found → answering c chans s (push_sent (SentBlock x r) s)) as Hp.
  { intros r ->. split_and!; try done. exists [(x, block_reply c found)].
    split; [by simpl; rewrite block_answers_app|].
    intros a ->%list_elem_of_singleton. split; [done|]. by exists found. }
  by destruct found; intros [= _ <-]; apply Hp.
Qed.

Lemma answer_channels_answering c chans l :
  l ⊆ chans → preserves (answering c chans) (run_for l (answer_channel c c)).
Proof.
  induction l as [|x l IH]; intros Hl; simpl; [apply preserves_ret; apply _|].
  apply preserves_bind; [apply _|apply answer_channel_answering; set_solver|].
  intros _. apply IH. set_solver.
Qed.

Lemma wait_for_block_keeps polls c s o s' :
  wait_for_block polls c s = Some (o, s') →
  sent s' = sent s ∧ response_channels s' = response_channels s.
Proof.
  revert s. induction polls as [|d polls IH]; intros s; simpl;
    destruct (Store.contains (store s) c) as [[]| |]; try done; try by intros [= _ <-].
  intros Hw. by destruct (IH _ Hw).
Qed.

(** [handle_bitswap], wherever it stops. *)
Lemma handle_bitswap_any polls info s o s' :
  let c := Behaviour.cid info in
  handle_bitswap polls info s = Some (o, s') →
  ∃ l, block_answers (sent s') = block_answers (sent s) ++ l ∧
    (∀ a, a ∈ l → a.1 ∈ waiting_for s c ∧ ∃ found, a.2 = block_reply c found ∧
      Store.contains (store s') c = Ok found) ∧
    (response_channels s' = response_channels s ∨
     response_channels s' = delete c (response_channels s)).
Proof.
  intros c. unfold handle_bitswap, waiting_for. fold c. intros Hr.
  set (s1 := push_metrics (Metrics.track Metrics.Bitswap (Some (finished_labels info)) None)
    (with_behaviour (Behaviour.cancel (Behaviour.query_id info) (behaviour s)) s)) in *.
  rewrite (runM_bind_ok _ _ _ tt
    (with_behaviour (Behaviour.cancel (Behaviour.query_id info) (behaviour s)) s)) in Hr
    by done.
  rewrite (runM_bind_ok _ _ _ tt s1) in Hr by done.
  rewrite (runM_bind_ok _ _ _ (response_channels s) s1) in Hr by done.
  destruct (response_channels s !! c) as [chans|] eqn:Hc; simpl in *; last first.
  { injection Hr as _ <-. exists []. rewrite app_nil_r. split_and!; [done| |by left].
    intros a Ha. by apply not_elem_of_nil in Ha. }
  set (s2 := with_response_channels (delete c (response_channels s)) s1) in *.
  rewrite (runM_bind_ok _ _ _ tt s2) in Hr by done.
  rewrite (runM_bind_ok _ _ _ c s2) in Hr
    by (unfold run, st_lift; by rewrite convert_cid_to_bytes).
  assert (∀ o3 s3, (if Behaviour.block_found info then wait_for_block polls c else mret ()) s2 =
    Some (o3, s3) → sent s3 = sent s ∧ response_channels s3 = delete c (response_channels s)) as Hw.
  { intros o3 s3. destruct (Behaviour.block_found info); [|by intros [= _ <-]].
    intros Hw%wait_for_block_keeps. done. }
  apply runM_bind_inv in Hr as [([] & s3 & [Hse Hch]%Hw & Hr)|(x & [Hse Hch]%Hw & _)].
  - apply (answer_channels_answering c chans) in Hr as (Hch' & Hst & l & Hl & Ha); [|done].
    exists l. rewrite Hl, Hse, Hch', Hst. by split_and!; [|done|right].
  - exists []. rewrite Hse, app_nil_r. split_and!; [done| |by right].
    intros a Ha. by apply not_elem_of_nil in Ha.
Qed.

Lemma handle_bitswap_effect env polls info s0 s o s' :
  response_channels s = response_channels s0 → sent s = sent s0 →
  reported s0 (Behaviour.cid info) → handle_bitswap polls info s = Some (o, s') →
  ∃ l, round_effect (SwarmBehaviour env) s0 o s' l.
Proof.
  intros Hc0 Hs0 Hrep Hh. destruct (handle_bitswap_any _ _ _ _ _ Hh) as (l & Hl & Ha & Hch).
  exists l. unfold waiting_for in *. rewrite Hs0 in Hl. rewrite Hc0 in *.
  split; unfold waiting_for; try done.
  - intros a (Hx & found & Hr & Hf)%Ha. left. by exists (Behaviour.cid info), found.
  - intros c x. left. destruct Hch as [Hch|Hch]; rewrite Hch in *; [done|].
    rewrite lookup_delete in *. case_decide; [by apply not_elem_of_nil in H|done].
  - intros -> c x Hx. apply handle_bitswap_run in Hh as (st & found & -> & _). simpl in *.
    destruct (decide (c = Behaviour.cid info)) as [->|Hne].
    + right. exists (block_reply (Behaviour.cid info) found).
      rewrite block_answers_app, Hs0 in Hl. apply app_inv_head in Hl as <-.
      apply list_elem_of_omap. exists (reply_for (Behaviour.cid info) found x).
      split; [|done]. apply list_elem_of_fmap. exists x. by rewrite Hc0.
    + left. by rewrite Hc0, lookup_delete_ne.
  - intros Hne c l0. destruct Hch as [Hch|Hch]; rewrite Hch; [apply Hne|].
    intros [_ ?]%lookup_delete_Some. by eapply Hne.
Qed.

(** *** The commands and the whole round *)

Lemma waiting_for_add s c x c' :
  waiting_for (add_channel c x s) c' =
    waiting_for s c' ++ (if decide (c' = c) then [x] else []).
Proof.
  unfold waiting_for, add_channel.
  destruct (response_channels s !! c) as [chans|] eqn:Hc; simpl;
    rewrite lookup_insert; case_decide; case_decide; subst; try congruence;
    rewrite ?Hc, ?app_nil_r; done.
Qed.

Lemma no_empty_add s c x :
  no_empty_channel s → no_empty_channel (add_channel c x s).
Proof.
  unfold no_empty_channel, add_channel. intros Hne c' l.
  destruct (response_channels s !! c) as [chans|]; simpl; rewrite lookup_insert; case_decide;
    try apply Hne; intros [= <-]; [by destruct chans|done].
Qed.

(** The command of a block request never fails. *)
Lemma get_bitswap_ok c q x s o s' : handle_get_bitswap c q x s = Some (o, s') → o = Ok tt.
Proof.
  unfold handle_get_bitswap. rewrite (runM_bind_ok _ _ _ (behaviour s) s) by done.
  case_decide; [by intros [= <- _]|].
  rewrite (runM_bind_ok _ _ _ tt (add_channel c x s)) by done.
  unfold on_behaviour, run, st_zoom.
  destruct q; rewrite ?Behaviour.get_block_run, ?Behaviour.sync_block_run; simpl;
    by intros [= <- _].
Qed.

Lemma get_bitswap_effect c q x s o s' :
  handle_get_bitswap c q x s = Some (o, s') →
  ∃ l, round_effect (Command (GetBitswap c q x)) s o s' l.
Proof.
  unfold handle_get_bitswap. rewrite (runM_bind_ok _ _ _ (behaviour s) s) by done.
  case_decide as Hp.
  - intros [= <- <-]. exists [(x, Err NO_PEERS_ERROR)].
    split; simpl; rewrite ?block_answers_app; try naive_solver.
    + intros a ->%list_elem_of_singleton. right. by exists c, q.
    + intros _ c' q' x' [= -> -> ->]. right. exists (Err NO_PEERS_ERROR). set_solver.
  - rewrite (runM_bind_ok _ _ _ tt (add_channel c x s)) by done.
    destruct (add_channel_same c x s) as (Hb & Hse & _). intros Hr.
    assert (block_answers (sent s') = block_answers (sent s) ∧
      (∀ c', waiting_for s' c' = waiting_for s c' ++ (if decide (c' = c) then [x] else [])) ∧
      (no_empty_channel s → no_empty_channel s')) as (Ha & Hw & Hne).
    { destruct q; unfold on_behaviour, run, st_zoom in Hr; rewrite Hb in Hr;
        rewrite ?Behaviour.get_block_run, ?Behaviour.sync_block_run in Hr;
        injection Hr as _ <-; simpl; rewrite Hse; split_and!; try done;
        [apply waiting_for_add|apply no_empty_add|apply waiting_for_add|apply no_empty_add]. }
    exists []. split; rewrite ?Ha, ?app_nil_r; try done.
    + intros a Hx. by apply not_elem_of_nil in Hx.
    + intros c' x'. rewrite Hw, elem_of_app. case_decide; [|set_solver].
      subst. intros [?| ->%list_elem_of_singleton]; [by left|]. right. by exists q.
    + intros _ c' x' Hx. rewrite Hw. set_solver.
    + intros _ c' q' x' [= -> -> ->]. rewrite Hw, decide_True by done. set_solver.
Qed.

(** Every round, whatever its outcome. *)
Lemma round_effects i s o s' : round i s = Some (o, s') → ∃ l, round_effect i s o s' l.
Proof.
  intros Hr. destruct i as [env| |command].
  - cbn [round] in Hr. destruct (Behaviour.poll (behaviour s)) as [e b'] eqn:Hp.
    rewrite (runM_bind_ok _ _ _ e (with_behaviour b' s)) in Hr
      by (unfold next_event, on_behaviour, run, st_zoom; by rewrite Hp).
    assert (calm (with_behaviour b' s) s' → response_channels s' = response_channels s ∧
      block_answers (sent s') = block_answers (sent s)) as Hcalm.
    { intros [? Hc ? ? Ha]. by rewrite Hc, Ha. }
    assert (∀ c x, waiting_for (with_behaviour b' s) c = waiting_for s c) as Hwf by done.
    destruct e as [e|].
    + destruct (calm_event e) eqn:Hc.
      * apply (handle_event_calm env e Hc), Hcalm in Hr as [Hch Ha]. exists [].
        by apply quiet_effect.
      * destruct e as [| | | | | | |info| | |]; try discriminate Hc;
          [by injection Hr as <- <-; exists []; apply quiet_effect..|].
        eapply handle_bitswap_effect in Hr; [done..|]. exists info.
        apply poll_some in Hp as [-> _]. split; [by left|done].
    + injection Hr as <- <-. exists []. by apply quiet_effect.
  - injection Hr as <- <-. exists []. by apply quiet_effect.
  - destruct command as [c q y| | | | | |]; [by eapply get_bitswap_effect|..];
      cbn [round] in Hr; (apply handle_command_calm in Hr; [|done]); exists [];
      (apply quiet_effect; [done|by apply calm_channels|by apply calm_answers]).
Qed.

(** ** The state of a service is well formed *)

Record well_formed s : Prop := {
  wf_queries : ∀ q i, Behaviour.queries (behaviour s) !! q = Some i →
    Behaviour.query_id i = q ∧ Behaviour.block_found i = false ∧
    q ∈ bw_issued (Behaviour.bitswap (behaviour s));
  wf_finished : NoDup (Behaviour.finished (Behaviour.events (behaviour s)));
  wf_not_running : ∀ q, q ∈ Behaviour.finished (Behaviour.events (behaviour s)) →
    Behaviour.queries (behaviour s) !! q = None;
  wf_requests : ∀ i, is_Some (Behaviour.pending_responses (behaviour s) !! i) →
    i ∈ rr_issued (Behaviour.request_response (behaviour s));
  wf_channels : no_empty_channel s;
}.

Lemma history_channels s0 w s :
  history s0 w s → no_empty_channel s0 → no_empty_channel s.
Proof.
  intros Hh H0. induction Hh as [|w s i s' _ IH Hr| | |]; try done.
  apply round_effects in Hr as [l Hl]. by apply (re_nonempty _ _ _ _ _ Hl).
Qed.

Lemma new_fields k config st p built relay s0 :
  new k config st p built relay = Ok s0 →
  response_channels s0 = ∅ ∧ local_peer_id s0 = peer_of_key (public k) ∧
  index_provider s0 = p ∧ store s0 = st.
Proof.
  unfold new. intros Hn. inv_bind.
  repeat match type of Hn with (let '(_, _) := ?e in _) = _ => destruct e; inv_bind end.
  by injection Hn as <-.
Qed.

(** C21: over any history of a new service its state is well formed: the map of
    queries files every query under its own identifier, as not yet found, and
    only identifiers that bitswap has handed out; a query is reported as finished
    at most once and is not running then; the map of pending responses holds
    identifiers of requests that were sent; no identifier is kept without a
    sender that waits for it. *)
Theorem service_well_formed k config st p built relay s0 w s :
  new k config st p built relay = Ok s0 → history s0 w s → well_formed s.
Proof.
  intros Hn Hh. pose proof (new_history_inv _ _ _ _ _ _ _ _ _ Hn Hh) as [[(l & Hi & _)] _ _].
  destruct Hi as [_ Hrr Hst Hnd Hiss Hq].
  rewrite Behaviour.finished_app, <- app_assoc in Hst.
  assert (NoDup (Behaviour.finished (Behaviour.events (behaviour s)) ++
    Behaviour.cancelled l ++ Behaviour.running (behaviour s))) as Hnd'.
  { rewrite Hst in Hnd. by apply NoDup_app in Hnd as (_ & _ & ?). }
  assert (∀ q i, Behaviour.queries (behaviour s) !! q = Some i →
    q ∈ Behaviour.running (behaviour s)) as Hrun.
  { intros q i Hl. apply list_elem_of_fmap. exists (q, i). split; [done|].
    by apply elem_of_map_to_list. }
  split.
  - intros q i Hl. destruct (Hq q i Hl). split_and!; try done. apply Hiss. rewrite Hst.
    rewrite !elem_of_app. right; right; right. by eapply Hrun.
  - by apply NoDup_app in Hnd' as (? & _).
  - intros q Hf. apply eq_None_not_Some. intros [i Hl%Hrun].
    apply NoDup_app in Hnd' as (_ & Hd & _). apply (Hd q Hf). set_solver.
  - done.
  - apply (history_channels _ _ _ Hh). intros c l'.
    by rewrite (proj1 (new_fields _ _ _ _ _ _ _ Hn)), lookup_empty.
Qed.
End requests.

(** ** Evaluation on a concrete service *)

From S2P Require Import ServiceSamples.

Lemma service_well_formed_witness : well_formed sample_waiting.
Proof.
  apply (service_well_formed (keypair_of x01) Discovery.sample_config Store.sample_dag
    Provider.sample_provider sample_built Behaviour.sample_relay_client sample_started [9%N]).
  - reflexivity.
  - apply sample_history.
Defined.
