(* ===== verification/ServiceProps.v ===== *)
(** The properties of the network service. *)

From S2P Require Import Prelude Libs Utils Codec Protocols IndexLibs Service ServiceHistory.
From S2P Require Store NetConfig Discovery Metrics Behaviour Advertisement Provider.
From S2P Require ServiceSamples.

Section properties.
  Context {DB : Type} {cl : CidLib} {bs : BlockStore DB} {os : ObjStore DB}.
  Context {il : IpldLib} {hi : HashIter Cid}.
  Context {nl : NetLib} {ml : MultiaddrLib} {sw : SwarmTypes} {swl : SwarmLib}.
  Context {kl : KadLib} {md : MdnsLib} {gl : GossipLib} {bl : BitswapLib}.
  Context {rl : RequestResponseLib} {al : NatLib} {dl : DebugLib}.
  Context {key : KeyLib} {el : EncodeLib} {cbor : CborLib}.
  Implicit Types (s : UrsaService (DB:=DB)).

(** ** Publishing one root *)

(** What holds of the provider once [ad] is published under a new head with
    the entry chunks [cs]. *)
Record published_as (p p' : Provider.Provider (DB:=DB)) (ad : Advertisement.Advertisement)
    (cs : list (list Ipld)) (c : Cid) (b : bytes) (ad' : Advertisement.Advertisement)
    : Prop := {
  pa_head : Provider.head p' = Some c;
  pa_block : bs_get (Provider.blockstore p') c = Ok (Some b);
  pa_decodes : Provider.ad_from_slice b = Some ad';
  pa_content : Advertisement.with_entries (Advertisement.Entries ad)
    (Advertisement.with_signature (Advertisement.Signature ad)
      (Advertisement.with_previous (Advertisement.PreviousID ad) ad')) = ad;
  pa_previous : Advertisement.PreviousID ad' = IpldLink <$> Provider.head p;
  pa_chunks : Provider.read_chunks (Provider.blockstore p') (S (length cs))
    (Advertisement.Entries ad') = Some (reverse cs);
  pa_signed : ∃ draft, Provider.published_from (public (Provider.keypair p)) ad' draft;
}.

Lemma publish_pipeline p id ad cs p1 p2 :
  Provider.add_chunks id cs (Provider.create id ad p).2 = (Ok tt, p1) →
  Provider.publish id p1 = (Ok tt, p2) →
  ∃ c b ad', published_as p p2 ad cs c b ad'.
Proof.
  intros Ha Hp.
  apply Provider.add_chunks_run with (l:=[]) (ad:=Advertisement.with_entries None ad) in Ha
    as (d' & e & l & -> & _ & Hl & Hes);
    [|simpl; by rewrite lookup_insert_eq|apply Provider.chain_nil].
  rewrite app_nil_r in Hes.
  apply Provider.publish_run in Hp
    as (d2 & h2 & -> & Hk & draft & ad' & c & b & Hdr & -> & [_ Hst] & Had & Hprev & Hpf).
  simpl in Hdr. rewrite lookup_insert_eq in Hdr. injection Hdr as <-.
  exists c, b, ad'. split; simpl; try done.
  - destruct Hpf as [Hc _]. apply (f_equal (Advertisement.with_entries
      (Advertisement.Entries ad))) in Hc. by destruct ad, ad'.
  - rewrite (Provider.published_entries _ _ _ Hpf). simpl. rewrite <- Hes.
    apply Provider.chain_follow; [by eapply Provider.chain_keeps|].
    apply (f_equal length) in Hes. rewrite length_fmap, length_reverse in Hes. lia.
  - by eexists.
Qed.

Lemma announce_keeps_provider msg s s' o :
  announce msg s = Some (o, s') → index_provider s' = index_provider s.
Proof.
  unfold announce, mbind, runM_bind, mret, runM_ret, on_behaviour, run, st_zoom,
    st_gets, st_modify.
  destruct (st_try _ _) as [[[]| |] b]; intros Hr; by simplify_eq/=.
Qed.

(** The components of the address that is advertised. *)
Lemma publish_address_iter a :
  ma_iter (publish_address a) = filter (λ p, publish_protocol p = true) (ma_iter a).
Proof.
  unfold publish_address.
  assert (∀ l m, ma_iter (foldl (λ address protocol,
      if publish_protocol protocol then ma_push address protocol else address) m l) =
    ma_iter m ++ filter (λ p, publish_protocol p = true) l) as ->;
    [|by rewrite ma_iter_empty].
  induction l as [|p l IH]; intros m; simpl; [by rewrite filter_nil, app_nil_r|].
  rewrite IH, filter_cons. destruct (publish_protocol p); simpl; [|done].
  by rewrite ma_iter_push, <- app_assoc.
Qed.

Lemma on_provider_ok {A} (m : stM (Provider.Provider (DB:=DB)) string A) s a s' :
  on_provider m s = Some (Ok a, s') →
  ∃ p', m (index_provider s) = (Ok a, p') ∧ s' = with_index_provider p' s.
Proof.
  unfold on_provider, run, st_zoom. destruct (m (index_provider s)) as [o p'].
  intros [= -> <-]. by exists p'.
Qed.

Lemma unwrap_ok {S E F A} (m : stM S E A) (x : S) (a : A) (x' : S) :
  st_unwrap (F:=F) m x = (Ok a, x') → m x = (Ok a, x').
Proof. unfold st_unwrap. destruct (m x) as [[]]; by intros [= -> ->]. Qed.

Lemma publish_root_ok fuel id address root s s' :
  publish_root fuel id address root s = Some (Ok tt, s') →
  ∃ ad dag p1 p2, Advertisement.new (cid_to_bytes root) (local_peer_id s) [ma_to_string address] false =
      Ok ad ∧
    Store.dag_traversal (store s) fuel root = Some (Ok dag) ∧
    Provider.add_chunks id (chunks Advertisement.MAX_ENTRIES (ad_entries dag))
      (Provider.create id ad (index_provider s)).2 = (Ok tt, p1) ∧
    Provider.publish id p1 = (Ok tt, p2) ∧ index_provider s' = p2.
Proof.
  unfold publish_root. intros Hr.
  rewrite (runM_bind_ok _ _ _ s s) in Hr by done.
  apply runM_bind_inv_ok in Hr as (ad & s1 & Had & Hr).
  injection Had as Had <-. exists ad.
  apply runM_bind_inv_ok in Hr as (id' & s1 & Hc & Hr).
  apply on_provider_ok in Hc as (p0 & Hc & ->). injection Hc as <- <-.
  apply runM_bind_inv_ok in Hr as (root' & s1 & Hroot & Hr).
  unfold run, st_lift in Hroot. rewrite convert_cid_to_bytes in Hroot.
  injection Hroot as <- <-.
  apply runM_bind_inv_ok in Hr as (dag & s1 & Hd & Hr).
  unfold run_opt in Hd. destruct (Store.dag_traversal _ _ _) as [od|] eqn:Hdag; [|done].
  injection Hd as -> <-.
  apply runM_bind_inv_ok in Hr as ([] & s1 & Ha & Hr).
  apply on_provider_ok in Ha as (p1 & Ha & ->).
  apply runM_bind_inv_ok in Hr as ([] & s1 & Hp & Hr).
  apply on_provider_ok in Hp as (p2 & Hp%unwrap_ok & ->).
  rewrite (runM_bind_ok _ _ _ p2 _) in Hr by done.
  exists dag, p1, p2. split_and!; try done.
  destruct (Provider.create_announce_msg _ _); [|by injection Hr as <-|done].
  by apply announce_keeps_provider in Hr.
Qed.

Lemma new_ad_ok context peer addresses is_rm ad :
  Advertisement.new context peer addresses is_rm = Ok ad →
  Advertisement.Provider ad = peer_to_base58 peer ∧
  Advertisement.Addresses ad = addresses ∧
  Advertisement.ContextID ad = IpldBytes context ∧ Advertisement.IsRm ad = is_rm.
Proof. unfold Advertisement.new. intros Hn. inv_bind. by injection Hn as <-. Qed.

Lemma max_entries_pos : 0 < Advertisement.MAX_ENTRIES.
Proof. unfold Advertisement.MAX_ENTRIES. lia. Qed.

(** The wait for a block and the answers after it. *)
Lemma wait_answers_iff polls c chans s :
  (∀ d, d ∈ Store.db (store s) :: polls →
     is_ok (Store.contains (Store.new d) c) = true) →
  is_Some ((_ ← wait_for_block polls c; run_for chans (answer_channel c c)) s) ↔
  ∃ d, d ∈ Store.db (store s) :: polls ∧ Store.contains (Store.new d) c = Ok true.
Proof.
  revert s. induction polls as [|d polls IH]; intros s Hok;
    destruct (is_ok_inv _ (Hok (Store.db (store s)) ltac:(set_solver))) as [found Hs];
    change (Store.contains (store s) c = Ok found) in Hs; destruct found.
  1,3: rewrite (runM_bind_ok _ _ _ tt s) by (simpl; by rewrite Hs);
    rewrite (answer_channels_run _ _ _ _ _ Hs);
    split; [intros _; exists (Store.db (store s)); by split; [left|]|by eexists].
  - unfold mbind, runM_bind. simpl. rewrite Hs. split; [by intros []|].
    intros (d & ->%list_elem_of_singleton & Hd).
    change (Store.contains (store s) c = Ok true) in Hd. congruence.
  - unfold mbind, runM_bind. simpl. rewrite Hs.
    specialize (IH (with_store (Store.new d) s)). unfold mbind, runM_bind in IH.
    rewrite IH; simpl; [|intros d' Hd'; apply Hok; set_solver].
    split; [intros (d' & ? & ?); exists d'; split; [by right|done]|].
    intros (d' & [->|?]%elem_of_cons & Hd); [|by exists d'].
    change (Store.contains (store s) c = Ok true) in Hd. congruence.
Qed.

(** What a calm handler sends is no answer to a block request. *)
Lemma calm_sends s s' l x r :
  calm s s' → sent s' = sent s ++ l → SentBlock x r ∉ l.
Proof.
  intros Hc Hs Hx. pose proof (calm_answers _ _ Hc) as Ha.
  rewrite Hs, block_answers_app in Ha. rewrite <- app_nil_r in Ha.
  apply app_inv_head in Ha. assert ((x, r) ∈ block_answers l) as Hin.
  { apply list_elem_of_omap. by exists (SentBlock x r). }
  rewrite Ha in Hin. by apply not_elem_of_nil in Hin.
Qed.

Lemma bitswap_sends polls info s s' l x :
  handle_bitswap polls info s = Some (Ok tt, s') → sent s' = sent s ++ l →
  SentBlock x (Ok tt) ∈ l →
  x ∈ default [] (response_channels s !! Behaviour.cid info) ∧
  Store.contains (store s') (Behaviour.cid info) = Ok true.
Proof.
  intros (st & found & -> & Hf & _)%handle_bitswap_run. simpl. intros <-%app_inv_head Hx.
  apply list_elem_of_fmap in Hx as (y & Hy & Hin). unfold reply_for in Hy.
  destruct found; simplify_eq. split; [done|]. apply Hf.
  intros Hn. rewrite Hn in Hin. by apply not_elem_of_nil in Hin.
Qed.

Lemma get_bitswap_sends c q y s s' l x :
  handle_get_bitswap c q y s = Some (Ok tt, s') → sent s' = sent s ++ l →
  SentBlock x (Ok tt) ∉ l.
Proof.
  unfold handle_get_bitswap. rewrite (runM_bind_ok _ _ _ (behaviour s) s) by done.
  case_decide.
  - intros [= <-] <-%app_inv_head. by rewrite list_elem_of_singleton.
  - rewrite (runM_bind_ok _ _ _ tt (add_channel c y s)) by done.
    destruct (add_channel_same c y s) as (Hb & Hs & _).
    destruct q; unfold on_behaviour, run, st_zoom; rewrite Hb;
      rewrite ?Behaviour.get_block_run, ?Behaviour.sync_block_run; intros [= <-]; simpl;
      rewrite Hs; intros Hl; rewrite <- (app_nil_r (sent s)) in Hl at 1;
      apply app_inv_head in Hl as <-; apply not_elem_of_nil.
Qed.

(** ** Properties *)

(** C2: over any history of a new service, the senders of the [GetBitswap]
    commands are, as a multiset, those that were answered and those that wait
    in [response_channels]: none is lost and none is answered twice. *)
Theorem senders_accounted k config st p built relay s0 w s :
  new k config st p built relay = Ok s0 → history s0 w s →
  w ≡ₚ (block_answers (sent s)).*1 ++ waiting_senders (response_channels s).
Proof. intros Hn Hh. apply (si_account _ _ (new_history_inv _ _ _ _ _ _ _ _ _ Hn Hh)). Qed.

(** Over any history of a new service, every identifier that senders wait
    for has a bitswap query running or a finished one in the queue of events:
    no sender waits for something that cannot come. *)
Theorem waiting_senders_awaited k config st p built relay s0 w s c :
  new k config st p built relay = Ok s0 → history s0 w s →
  is_Some (response_channels s !! c) → awaited (behaviour s) c.
Proof. intros Hn Hh. apply (si_awaited _ _ (new_history_inv _ _ _ _ _ _ _ _ _ Hn Hh)). Qed.

(** C34: over any history of a new service, the gauge of connected peers, moved
    on by the connection events still queued, is the number of peers that
    discovery knows. *)
Theorem peer_gauge_counts_peers k config st p built relay s0 w s :
  new k config st p built relay = Ok s0 → history s0 w s →
  (peer_gauge s +
   Discovery.balance (Behaviour.peer_events (Behaviour.events (behaviour s)) ++
     Discovery.events (Behaviour.discovery (behaviour s))))%Z =
  Z.of_nat (size (Behaviour.peers (behaviour s))).
Proof.
  intros Hn Hh.
  destruct (si_sound _ _ (new_history_inv _ _ _ _ _ _ _ _ _ Hn Hh)) as [(l & _ & Hp & Hg)].
  apply Discovery.replay_balance in Hp. rewrite size_empty in Hp.
  rewrite Behaviour.peer_events_app, !Discovery.balance_app in Hp.
  rewrite Discovery.balance_app. unfold Behaviour.peers. lia.
Qed.

(** C16: when a finished bitswap query is handled to the end, every sender that
    waits for its identifier is answered, in the order they came, and none of
    them waits any longer; the answer is success exactly when the block is in
    the store, which is certain when the query found it. *)
Theorem finished_query_answers_all polls info s s' :
  handle_bitswap polls info s = Some (Ok tt, s') →
  let c := Behaviour.cid info in
  let chans := default [] (response_channels s !! c) in
  ∃ found, sent s' = sent s ++ (reply_for c found <$> chans) ∧
    response_channels s' = delete c (response_channels s) ∧
    (chans ≠ [] → Store.contains (store s') c = Ok found) ∧
    (chans ≠ [] → Behaviour.block_found info = true → found = true).
Proof.
  intros (st & found & -> & Hf & Hbf & _)%handle_bitswap_run c chans. by exists found.
Qed.

(** C17: whenever a round tells the sender of a block request that it succeeded,
    the sender was waiting for an identifier whose block is in the store at the
    end of the round. *)
Theorem success_means_stored i s s' l x :
  round i s = Some (Ok tt, s') → sent s' = sent s ++ l → SentBlock x (Ok tt) ∈ l →
  ∃ c, x ∈ default [] (response_channels s !! c) ∧ Store.contains (store s') c = Ok true.
Proof.
  intros Hr Hs Hx. destruct i as [env| |command].
  - cbn [round] in Hr. destruct (Behaviour.poll (behaviour s)) as [o b'] eqn:Hp.
    rewrite (runM_bind_ok _ _ _ o (with_behaviour b' s)) in Hr
      by (unfold next_event, on_behaviour, run, st_zoom; by rewrite Hp).
    destruct o as [e|].
    + destruct (calm_event e) eqn:Hc.
      { apply (handle_event_calm env e Hc) in Hr. by destruct (calm_sends _ _ _ _ _ Hr Hs Hx). }
      destruct e as [| | | | | | |info| | |]; try discriminate Hc.
      1,2: injection Hr as <-; exfalso; simpl in Hs;
        rewrite <- (app_nil_r (sent s)) in Hs at 1;
        apply app_inv_head in Hs as <-; by apply not_elem_of_nil in Hx.
      exists (Behaviour.cid info). by eapply bitswap_sends in Hr.
    + assert (calm (with_behaviour b' s) s') as Hc by by injection Hr as <-.
      by destruct (calm_sends _ _ _ _ _ Hc Hs Hx).
  - injection Hr as <-. by destruct (calm_sends s s l x (Ok tt) (calm_refl s) Hs Hx).
  - destruct command as [c q y| | | | | |];
      [by destruct (get_bitswap_sends _ _ _ _ _ _ _ Hr Hs Hx)|..];
      cbn [round] in Hr; (apply handle_command_calm in Hr;
        [by destruct (calm_sends _ _ _ _ _ Hr Hs Hx)|done]).
Qed.

(** C33: for a query that found its block, with senders waiting and a store that
    can be read at every round, the handler comes to its end exactly when the
    block shows up in the store at one of the rounds; until then it keeps
    polling. *)
Theorem bitswap_wait_ends_iff polls info s chans :
  Behaviour.block_found info = true →
  response_channels s !! Behaviour.cid info = Some chans →
  (∀ d, d ∈ Store.db (store s) :: polls →
     is_ok (Store.contains (Store.new d) (Behaviour.cid info)) = true) →
  is_Some (handle_bitswap polls info s) ↔
  ∃ d, d ∈ Store.db (store s) :: polls ∧
    Store.contains (Store.new d) (Behaviour.cid info) = Ok true.
Proof.
  intros Hbf Hc Hok. unfold handle_bitswap. set (c := Behaviour.cid info) in *.
  set (s1 := push_metrics (Metrics.track Metrics.Bitswap (Some (finished_labels info)) None)
    (with_behaviour (Behaviour.cancel (Behaviour.query_id info) (behaviour s)) s)).
  rewrite (runM_bind_ok _ _ _ tt
    (with_behaviour (Behaviour.cancel (Behaviour.query_id info) (behaviour s)) s)) by done.
  rewrite (runM_bind_ok _ _ _ tt s1) by done.
  rewrite (runM_bind_ok _ _ _ (response_channels s) s1), Hc by done.
  set (s2 := with_response_channels (delete c (response_channels s)) s1).
  rewrite (runM_bind_ok _ _ _ tt s2) by done.
  rewrite (runM_bind_ok _ _ _ c s2)
    by (unfold run, st_lift; by rewrite convert_cid_to_bytes).
  rewrite Hbf. change (store s) with (store s2) in Hok |- *.
  by apply wait_answers_iff.
Qed.

(** C35: a finished query answers the senders of every other query for the same
    identifier: that query is still running afterwards, with nobody left to
    answer when it finishes.  A [Sync] of a whole DAG is so answered by a [Get]
    of its root block. *)
Theorem other_query_answers polls info q2 i2 s s' :
  handle_bitswap polls info s = Some (Ok tt, s') →
  Behaviour.queries (behaviour s) !! q2 = Some i2 →
  q2 ≠ Behaviour.query_id info → Behaviour.cid i2 = Behaviour.cid info →
  Behaviour.queries (behaviour s') !! q2 = Some i2 ∧
  response_channels s' !! Behaviour.cid i2 = None ∧
  ∃ found, sent s' = sent s ++
    (reply_for (Behaviour.cid i2) found <$>
       default [] (response_channels s !! Behaviour.cid i2)).
Proof.
  intros (st & found & -> & _)%handle_bitswap_run Hq Hne ->. simpl.
  rewrite lookup_delete_ne by done. rewrite lookup_delete_eq. eauto.
Qed.

(** [GetBitswap] without peers answers at once with an error and changes
    nothing else; with peers the sender joins those that wait for the
    identifier, last, and a query with an unused identifier runs for it. *)
Theorem get_bitswap_answers_or_waits c query x s :
  ∃ s', handle_get_bitswap c query x s = Some (Ok tt, s') ∧
  if decide (Behaviour.peers (behaviour s) = ∅)
  then s' = push_sent (SentBlock x (Err NO_PEERS_ERROR)) s
  else response_channels s' =
         <[c := default [] (response_channels s !! c) ++ [x]]> (response_channels s) ∧
       sent s' = sent s ∧
       ∃ q, q ∉ bw_issued (Behaviour.bitswap (behaviour s)) ∧
         Behaviour.queries (behaviour s') = <[q := {| Behaviour.cid := c;
           Behaviour.query_id := q; Behaviour.block_found := false |}]>
           (Behaviour.queries (behaviour s)).
Proof.
  unfold handle_get_bitswap. rewrite (runM_bind_ok _ _ _ (behaviour s) s) by done.
  case_decide; [by eexists|].
  rewrite (runM_bind_ok _ _ _ tt (add_channel c x s)) by done.
  destruct (add_channel_same c x s) as (Hb & Hs & _).
  assert (response_channels (add_channel c x s) =
    <[c := default [] (response_channels s !! c) ++ [x]]> (response_channels s)) as Hc
    by (unfold add_channel; by destruct (response_channels s !! c)).
  set (ps := elements _).
  destruct query; unfold on_behaviour, run, st_zoom; rewrite Hb.
  - rewrite Behaviour.get_block_run. eexists. split; [done|]. simpl.
    rewrite Hc, Hs. split_and!; [done..|].
    destruct (bw_get c ps _) as [q bw] eqn:Hq. exists q.
    split; [by apply bw_get_issued in Hq as [? _]|done].
  - rewrite Behaviour.sync_block_run. eexists. split; [done|]. simpl.
    rewrite Hc, Hs. split_and!; [done..|].
    destruct (bw_sync c ps [c] _) as [q bw] eqn:Hq. exists q.
    split; [by apply bw_sync_issued in Hq as [? _]|done].
Qed.

(** The roots of a CAR are queued. *)
Definition indexed (cids : list Cid) (root : Cid) (x : Behaviour.Sender) s :
    UrsaService (DB:=DB) :=
  push_sent (SentIndex x (Ok cids))
    (with_behaviour
      (Behaviour.with_events (Behaviour.events (behaviour s) ++
         option_list (Behaviour.StartPublish <$> Behaviour.public_address (behaviour s)))
       (behaviour s))
      (with_index_provider (Provider.with_root_cids
        (Provider.root_cids (index_provider s) ++ [root]) (index_provider s)) s)).

Lemma handle_index_run cids root x s :
  handle_index (root :: cids) x s = Some (Ok tt, indexed (root :: cids) root x s).
Proof.
  unfold handle_index.
  rewrite (runM_bind_ok _ _ _ root s) by done.
  rewrite (runM_bind_ok _ _ _ tt (with_index_provider (Provider.with_root_cids
    (push_back root (Provider.root_cids (index_provider s))) (index_provider s)) s)) by done.
  rewrite (runM_bind_ok _ _ _ (behaviour s) _) by done.
  unfold indexed. destruct (Behaviour.public_address (behaviour s)); [done|].
  simpl. rewrite app_nil_r. by destruct s as [? []].
Qed.

(** [Index] with no identifier panics, which ends the service; otherwise
    the first identifier joins the roots to publish, a publication starts
    exactly when a public address is known, and the sender gets all the
    identifiers back. *)
Theorem index_queues_root cids x s :
  match cids with
  | [] => handle_index cids x s = Some (Panic, s)
  | root :: _ => ∃ s', handle_index cids x s = Some (Ok tt, s') ∧
      Provider.root_cids (index_provider s') =
        Provider.root_cids (index_provider s) ++ [root] ∧
      Behaviour.events (behaviour s') = Behaviour.events (behaviour s) ++
        option_list (Behaviour.StartPublish <$> Behaviour.public_address (behaviour s)) ∧
      sent s' = sent s ++ [SentIndex x (Ok cids)]
  end.
Proof.
  destruct cids as [|root cids]; [done|]. rewrite handle_index_run. eexists.
  split; [done|]. by split_and!.
Qed.

(** When the node is found to be behind a private NAT, with the relay
    client on and a bootstrap address known, the swarm listens on one of the
    configured bootstrap addresses, followed by that peer and the circuit
    component; a swarm that refuses makes the service panic. *)
Theorem relay_listens_on_bootstrap r s :
  Behaviour.is_relay_client_enabled (behaviour s) = true →
  Discovery.bootstrap_addrs (Behaviour.discovery (behaviour s)) ≠ [] →
  ∃ peer addr, (peer, addr) ∈ Discovery.bootstrap_addrs (Behaviour.discovery (behaviour s)) ∧
    let relay := ma_push (ma_push addr (P2p (peer_multihash peer))) P2pCircuit in
    ma_iter relay = ma_iter addr ++ [P2p (peer_multihash peer); P2pCircuit] ∧
    handle_nat_status_changed r NatUnknown Private s =
      Some (unwrap (sw_listen_on relay (swarm s)).1,
            with_swarm (sw_listen_on relay (swarm s)).2 s).
Proof.
  intros He Hb. unfold handle_nat_status_changed.
  rewrite (runM_bind_ok _ _ _ (behaviour s) s) by done. rewrite He.
  set (l := Discovery.bootstrap_addrs _) in *. unfold choose.
  destruct (l !! (r mod length l)) as [[peer addr]|] eqn:Hl.
  - exists peer, addr. split; [by eapply list_elem_of_lookup_2|].
    rewrite !ma_iter_push, <- app_assoc. split; [done|].
    unfold on_swarm, run, st_zoom, st_unwrap. by destruct (sw_listen_on _ _).
  - exfalso. apply lookup_ge_None in Hl.
    assert (length l ≠ 0) by (by destruct l).
    pose proof (Nat.mod_upper_bound r (length l)). lia.
Qed.

(** The address that is advertised has exactly the [Ip4], [Ip6] and [Tcp]
    components of the public address, in order. *)
Theorem publish_address_public a :
  ma_iter (publish_address a) = filter (λ p, publish_protocol p = true) (ma_iter a) ∧
  publish_address (publish_address a) = publish_address a.
Proof.
  split; [apply publish_address_iter|]. apply ma_ext. rewrite !publish_address_iter.
  by apply list_filter_filter_r.
Qed.

(** Publishing a root that succeeds puts at the head of the chain a signed
    advertisement of this node, with the root as its context and the old head
    behind it, whose entry chunks, each of at most [MAX_ENTRIES] entries, list
    the multihashes of the whole DAG under the root in the order of the
    traversal. *)
Theorem publish_root_publishes fuel id address root s s' :
  publish_root fuel id address root s = Some (Ok tt, s') →
  ∃ dag cs c b ad ad',
    Store.dag_traversal (store s) fuel root = Some (Ok dag) ∧
    published_as (index_provider s) (index_provider s') ad cs c b ad' ∧
    concat cs = ad_entries dag ∧
    Forall (λ l, 0 < length l ≤ Advertisement.MAX_ENTRIES) cs ∧
    Advertisement.Provider ad = peer_to_base58 (local_peer_id s) ∧
    Advertisement.Addresses ad = [ma_to_string address] ∧
    Advertisement.ContextID ad = IpldBytes (cid_to_bytes root) ∧
    Advertisement.IsRm ad = false.
Proof.
  intros (ad & dag & p1 & p2 & Had & Hdag & Ha & Hp & ->)%publish_root_ok.
  destruct (publish_pipeline _ _ _ _ _ _ Ha Hp) as (c & b & ad' & Hpa).
  apply new_ad_ok in Had as (? & ? & ? & ?).
  exists dag, (chunks Advertisement.MAX_ENTRIES (ad_entries dag)), c, b, ad, ad'.
  split_and!; try done; [by apply chunks_concat, max_entries_pos|].
  apply Forall_forall. intros l. apply chunks_bound, max_entries_pos.
Qed.

(** The round that comes upon a root whose DAG is not whole. *)
Lemma incomplete_dag_round env a es root q ad e s :
  Behaviour.events (behaviour s) = Behaviour.StartPublish a :: es →
  Provider.root_cids (index_provider s) = root :: q →
  Advertisement.new (cid_to_bytes root) (local_peer_id s)
    [ma_to_string (publish_address a)] false = Ok ad →
  Store.dag_traversal (store s) (env_fuel env) root = Some (Err e) →
  round (SwarmBehaviour env) s = Some (Err e,
    with_index_provider
      (Provider.create (env_ids env (length q)) ad
        (Provider.with_root_cids q (index_provider s))).2
      (with_behaviour (Behaviour.with_events es (behaviour s)) s)).
Proof.
  intros He Hroots Had Hdag.
  set (s1 := with_behaviour (Behaviour.with_events es (behaviour s)) s).
  set (id := env_ids env (length q)).
  set (p1 := Provider.with_root_cids q (index_provider s)).
  set (s2 := with_index_provider (Provider.create id ad p1).2 s1).
  cbn [round].
  assert (next_event s = Some (Ok (Some (Behaviour.StartPublish a)), s1)) as Hn.
  { unfold next_event, on_behaviour, run, st_zoom, Behaviour.poll. by rewrite He. }
  assert (publish_root (env_fuel env) id (publish_address a) root
    (with_index_provider p1 s1) = Some (Err e, s2)) as Hp.
  { unfold publish_root. rewrite (runM_bind_ok _ _ _ (with_index_provider p1 s1) _) by done.
    rewrite (runM_bind_ok _ _ _ ad (with_index_provider p1 s1))
      by (unfold run, st_lift; simpl; by rewrite Had).
    rewrite (runM_bind_ok _ _ _ id s2) by done.
    rewrite (runM_bind_ok _ _ _ root s2)
      by (unfold run, st_lift; by rewrite convert_cid_to_bytes).
    unfold mbind, runM_bind, run_opt. simpl. by rewrite Hdag. }
  unfold mbind, runM_bind. rewrite Hn. cbn [handle_event].
  unfold handle_start_publish, mbind, runM_bind, run, st_gets.
  change (index_provider s1) with (index_provider s). rewrite Hroots. cbn [publish_roots].
  unfold mbind, runM_bind, on_provider, run, st_zoom, st_modify. fold p1.
  change (index_provider s1) with (index_provider s). fold p1. fold id. by rewrite Hp.
Qed.

(** A root whose DAG is not whole ends the service: the round fails with
    the error of the traversal, later inputs are not looked at, the root is
    gone from the queue, and the advertisement begun for it stays behind. *)
Theorem incomplete_dag_ends_service env a es root q ad e s :
  Behaviour.events (behaviour s) = Behaviour.StartPublish a :: es →
  Provider.root_cids (index_provider s) = root :: q →
  Advertisement.new (cid_to_bytes root) (local_peer_id s)
    [ma_to_string (publish_address a)] false = Ok ad →
  Store.dag_traversal (store s) (env_fuel env) root = Some (Err e) →
  ∃ s', (∀ inputs, start (SwarmBehaviour env :: inputs) s = Some (Err e, s')) ∧
    Provider.root_cids (index_provider s') = q ∧
    Provider.head (index_provider s') = Provider.head (index_provider s) ∧
    Provider.temp_ads (index_provider s') !! env_ids env (length q) =
      Some (Advertisement.with_entries None ad).
Proof.
  intros He Hroots Had Hdag. eexists. split.
  - intros inputs. unfold start. cbn [run_for]. unfold mbind, runM_bind.
    by erewrite incomplete_dag_round.
  - simpl. by rewrite lookup_insert_eq.
Qed.
End properties.

(** ** Evaluation on a concrete service *)

Import ServiceSamples.

Lemma senders_accounted_witness :
  history sample_started [9%N] sample_waiting ∧
  [9%N] ≡ₚ waiting_senders (response_channels sample_waiting).
Proof.
  split; [apply sample_history|].
  apply (senders_accounted _ _ _ _ _ _ _ _ _ sample_new_ok sample_history).
Defined.

Lemma waiting_senders_awaited_witness :
  awaited (behaviour sample_waiting) (sid x07).
Proof.
  apply (waiting_senders_awaited _ _ _ _ _ _ _ _ _ (sid x07) sample_new_ok sample_history).
  exists [9%N]. vm_compute. reflexivity.
Defined.

Lemma peer_gauge_counts_peers_witness :
  (peer_gauge sample_waiting +
   Discovery.balance (Behaviour.peer_events (Behaviour.events (behaviour sample_waiting)) ++
     Discovery.events (Behaviour.discovery (behaviour sample_waiting))))%Z = 1%Z.
Proof.
  rewrite (peer_gauge_counts_peers _ _ _ _ _ _ _ _ _ sample_new_ok sample_history).
  vm_compute. reflexivity.
Defined.

Lemma sample_finish_ok :
  handle_bitswap [sample_filled] sample_info sample_waiting =
    Some (Ok tt, final (handle_bitswap [sample_filled] sample_info) sample_waiting).
Proof. apply runM_is_ok. vm_compute. reflexivity. Qed.

Lemma finished_query_answers_all_witness :
  sent (final (handle_bitswap [sample_filled] sample_info) sample_waiting) =
    [SentBlock 9%N (Ok tt)].
Proof.
  destruct (finished_query_answers_all _ _ _ _ sample_finish_ok) as (found & Hs & _ & _ & Hf).
  rewrite Hs, Hf; reflexivity || discriminate.
Defined.

Lemma bitswap_wait_ends_iff_witness :
  is_Some (handle_bitswap [sample_filled] sample_info sample_waiting).
Proof.
  apply (bitswap_wait_ends_iff [sample_filled] sample_info sample_waiting [9%N]).
  - reflexivity.
  - vm_compute. reflexivity.
  - intros d _. reflexivity.
  - exists sample_filled. split; [set_solver|]. vm_compute. reflexivity.
Defined.

(** A second query for the same identifier. *)
Definition sample_sync : input (DB:=sample_db) := Command (GetBitswap (sid x07) Sync 10%N).
Definition sample_both : UrsaService := final (round sample_sync) sample_waiting.
Definition sample_other : Behaviour.BitswapInfo :=
  {| Behaviour.cid := sid x07; Behaviour.query_id := qid 1; Behaviour.block_found := false |}.

Lemma other_query_answers_witness :
  ∃ s', handle_bitswap [sample_filled] sample_info sample_both = Some (Ok tt, s') ∧
    Behaviour.queries (behaviour s') !! qid 1 = Some sample_other ∧
    ∃ found, sent s' = [] ++ [reply_for (sid x07) found 9%N; reply_for (sid x07) found 10%N].
Proof.
  assert (handle_bitswap [sample_filled] sample_info sample_both =
    Some (Ok tt, final (handle_bitswap [sample_filled] sample_info) sample_both)) as Hr.
  { apply runM_is_ok. vm_compute. reflexivity. }
  destruct (other_query_answers _ _ (qid 1) sample_other _ _ Hr) as (Hq & _ & found & Hs).
  - vm_compute. reflexivity.
  - discriminate.
  - reflexivity.
  - eexists. split; [exact Hr|]. split; [exact Hq|]. exists found. exact Hs.
Defined.

Lemma relay_listens_on_bootstrap_witness :
  ∃ relay : Multiaddr, handle_nat_status_changed 0 NatUnknown Private sample_started =
    Some (unwrap (sw_listen_on relay (swarm sample_started)).1,
      with_swarm (sw_listen_on relay (swarm sample_started)).2 sample_started).
Proof.
  destruct (relay_listens_on_bootstrap 0 sample_started) as (p & a & _ & _ & H).
  - vm_compute. reflexivity.
  - vm_compute. discriminate.
  - eexists. exact H.
Defined.

Lemma incomplete_dag_ends_service_witness :
  ∃ s', start [SwarmBehaviour sample_env; SwarmOther] (sample_publishing [sid x04; sid x03]) =
    Some (Err (Store.missing_cids_error (sid x04)), s') ∧
    Provider.root_cids (index_provider s') = [sid x03].
Proof.
  edestruct (incomplete_dag_ends_service sample_env (maddr []) [] (sid x04) [sid x03])
    with (s := sample_publishing [sid x04; sid x03]) as (s' & Hs & Hr & _);
    [reflexivity|reflexivity|reflexivity| |].
  - vm_compute. reflexivity.
  - exists s'. split; [apply Hs|exact Hr].
Defined.

Lemma sample_publish_ok :
  publish_root 20 7 (maddr [Tcp 6009]) (sid x03) sample_started =
    Some (Ok tt, final (publish_root 20 7 (maddr [Tcp 6009]) (sid x03)) sample_started).
Proof. apply runM_is_ok. vm_compute. reflexivity. Qed.

Lemma publish_root_publishes_witness :
  ∃ c, Provider.head (index_provider
    (final (publish_root 20 7 (maddr [Tcp 6009]) (sid x03)) sample_started)) = Some c.
Proof.
  destruct (publish_root_publishes _ _ _ _ _ _ sample_publish_ok)
    as (dag & cs & c & b & ad & ad' & _ & Hp & _).
  exists c. apply (pa_head _ _ _ _ _ _ _ Hp).
Defined.

(** The network reports the query as finished. *)
Definition sample_finished : UrsaService :=
  with_store (Store.new sample_filled) (with_behaviour
    (Behaviour.handle_bitswap (Complete (qid 0) (Ok tt)) (behaviour sample_waiting))
    sample_waiting).
Definition sample_report : input (DB:=sample_db) := SwarmBehaviour sample_env.

Lemma sample_finished_ok :
  round sample_report sample_finished =
    Some (Ok tt, final (round sample_report) sample_finished).
Proof. apply runM_is_ok. vm_compute. reflexivity. Qed.

Lemma success_means_stored_witness :
  ∃ c, 9%N ∈ default [] (response_channels sample_finished !! c) ∧
    Store.contains (store (final (round sample_report) sample_finished)) c = Ok true.
Proof.
  apply (success_means_stored _ _ _ [SentBlock 9%N (Ok tt)] _ sample_finished_ok).
  - vm_compute. reflexivity.
  - apply list_elem_of_singleton. reflexivity.
Defined.
