(* ===== verification/Api.v ===== *)
(** The API of a node: the interface the server offers
    ([src/crates/ursa-rpc-server/src/api.rs]), its HTTP and JSON-RPC handlers
    ([http/routes/network.rs], [rpc/rpc.rs], [rpc/routes/network.rs]), the
    multiplexer in front of them ([service.rs], [config.rs]) and the client
    ([src/crates/ursa-rpc-client/src/lib.rs], [functions.rs]). *)

From S2P Require Import Prelude Libs Utils Paths Service.
From S2P Require Store.

Definition MAX_BLOCK_SIZE : N := 1048576.
Definition MAX_CHUNK_SIZE : N := 104857600.
Definition DEFAULT_CHUNK_SIZE : N := 10 * 1024 * 1024.

Record NetworkGetParams := { get_cid : string }.
Definition NETWORK_GET : string := "ursa_get_cid".
Record NetworkPutFileParams := { put_path : string }.
Definition NETWORK_PUT_FILE : string := "ursa_put_file".
Record NetworkGetFileParams := { get_file_path : string; get_file_cid : string }.
Definition NETWORK_GET_FILE : string := "ursa_get_file".

(** ** The world of the server

    What the handlers reach outside of the server: the store, the network
    service behind its command channel, the CAR library and the file system.
    A request to the service is answered with [None] when the service drops the
    reply channel, and a run of it is [None] as long as it waits for an answer.
    The law is the service's promise on block requests; [Node] shows that the
    service keeps it. *)
Class NodeEnv `{BlockStore DB} (W : Type) := {
  w_store : W → Store.Store (DB:=DB);
  w_get_bitswap : Cid → BitswapType → runM W string (option (outcome string unit));
  w_index : list Cid → runM W string (option (outcome string (list Cid)));
  load_car : bytes → stM W string (list Cid);
  (** [CarHeader { roots, version: 1 }.write_stream_async(..)] *)
  write_car : list Cid → list (Cid * bytes) → outcome string bytes;
  read_file : PathBuf → W → outcome string bytes;
  create_dir_all : PathBuf → stM W string unit;
  create_file : PathBuf → stM W string unit;
  write_file : PathBuf → bytes → stM W string unit;
  (** [Display] of a cancelled receiver, [{:?}] of an error and of identifiers,
      and [HeaderValue::from_str]. *)
  canceled : string;
  debug_error : string → string;
  debug_cids : list Cid → string;
  header_value : string → option string;
  w_get_bitswap_found : ∀ c q w w', w_get_bitswap c q w = Some (Ok (Some (Ok tt)), w') →
    Store.contains (w_store w') c = Ok true;
}.

Section api.
  Context {DB : Type} {cl : CidLib} {bs : BlockStore DB} {W : Type} {env : NodeEnv W}.
  Context {il : IpldLib} {hi : HashIter Cid}.

(** ** [impl NetworkInterface for NodeNetworkInterface] *)

Definition bitswap_failed (e : string) : string :=
  "The bitswap failed, please check server logs " +:+ debug_error e.

(** [self.store.blockstore().has(&cid).unwrap()] *)
Definition has_block (c : Cid) : stM W string bool :=
  st_query (λ w, unwrap (bs_has (Store.blockstore (w_store w)) c)).

(** [network_send.send(request).await?; if let Err(e) = receiver.await? { .. }] *)
Definition request_block (c : Cid) (query : BitswapType) : runM W string unit :=
  reply ← w_get_bitswap c query;
  match reply with
  | Some (Ok tt) => mret tt
  | Some (Err e) => run (st_throw (bitswap_failed e))
  | Some Panic => run st_panic
  | None => run (st_throw canceled)
  end.

Definition get (c : Cid) : runM W string (option bytes) :=
  has ← run (has_block c);
  _ ← (if (has : bool) then mret tt else request_block c Get);
  run (st_query (λ w, bs_get (Store.blockstore (w_store w)) c)).

(** [fuel] bounds the traversal: [None] is a run that is not yet at its end. *)
Definition get_data (fuel : nat) (root_cid : Cid) : runM W string (list (Cid * bytes)) :=
  has ← run (has_block root_cid);
  _ ← (if (has : bool) then mret tt else request_block root_cid Sync);
  root ← run (st_lift (convert_cid (cid_to_bytes root_cid)));
  w ← run st_get;
  run_opt (Store.dag_traversal (w_store w) fuel root).

(** The blocks as they are sent to the writer. *)
Fixpoint car_blocks (dag : list (Cid * bytes)) : outcome string (list (Cid * bytes)) :=
  match dag with
  | [] => Ok []
  | (c, data) :: dag =>
    c ← convert_cid (cid_to_bytes c);
    blocks ← car_blocks dag;
    Ok ((c, data) :: blocks)
  end.

(** [call().await.unwrap()] *)
Definition run_unwrap {A} (m : runM W string A) : runM W string A := λ w,
  match m w with
  | Some (o, w') => Some (unwrap o, w')
  | None => None
  end.

(** [stream]: the body is what the spawned writer puts into the pipe. *)
Definition stream (fuel : nat) (root_cid : Cid) : runM W string (outcome string bytes) :=
  dag ← run_unwrap (get_data fuel root_cid);
  blocks ← run (st_lift (car_blocks dag));
  mret (write_car [root_cid] blocks).

Definition car_path (path : PathBuf) (root_cid : Cid) : PathBuf :=
  join path (cid_to_string root_cid +:+ ".car").

Definition get_file (fuel : nat) (path : PathBuf) (root_cid : Cid) : runM W string unit :=
  dag ← run_unwrap (get_data fuel root_cid);
  blocks ← run (st_lift (car_blocks dag));
  buffer ← run (st_lift (unwrap (write_car [root_cid] blocks)));
  let file_path := car_path path root_cid in
  dir ← run (st_lift (unwrap_opt (parent file_path)));
  _ ← run (create_dir_all dir);
  _ ← run (st_unwrap (create_file file_path));
  run (write_file file_path buffer).

(** [put_car]: [Ok(_)] takes any reply of the service, an error too. *)
Definition put_car (reader : bytes) : runM W string (list Cid) :=
  cids ← run (load_car reader);
  reply ← w_index cids;
  match reply with
  | Some _ => mret cids
  | None => run (st_throw ("The PUT failed, please check server logs " +:+ debug_error canceled))
  end.

Definition put_file (path : PathBuf) : runM W string (list Cid) :=
  reader ← run (st_query (read_file path));
  put_car reader.

(** ** HTTP handlers *)

Definition CAR_CONTENT_TYPE : string := "application/vnd.curl.car".

Inductive NetworkError := NotFoundError (e : string) | InternalError (e : string).

Definition network_error_response (e : NetworkError) : N * string :=
  match e with NotFoundError e => (404%N, e) | InternalError e => (500%N, e) end.

(** A field of a multipart form. *)
Record Field := { content_type : option string; field_bytes : outcome string bytes }.

(** [upload_handler]: the status and the JSON string it answers with. *)
Definition upload_handler (next_field : outcome string (option Field))
    : runM W string (N * string) :=
  field ← run (st_lift (unwrap next_field));
  match field with
  | Some field =>
    content_type ← run (st_lift (unwrap_opt (content_type field)));
    if bool_decide (content_type = CAR_CONTENT_TYPE) then
      data ← run (st_lift (unwrap (field_bytes field)));
      res ← run_try (put_car data);
      match (res : outcome string (list Cid)) with
      | Ok res => mret (200%N, debug_cids res)
      | Err err => mret (500%N, debug_error err)
      | Panic => run st_panic
      end
    else mret (400%N, "Content type do not match. Only .car files can be uploaded")
  | None => mret (400%N, "No files found")
  end.

Record CarResponse := {
  status : N;
  header_content_type : string;
  header_disposition : string;
  body : outcome string bytes;
}.

(** A double quote. *)
Definition quote : string := String.String (Ascii.ascii_of_nat 34) String.EmptyString.

Definition invalid_cid (cid_str : string) : string :=
  "Invalid Cid String, Cannot Parse " +:+ cid_str +:+ " to CID".

(** [get_handler]: a network error is a value, as the [Err] of the handler. *)
Definition get_handler (fuel : nat) (cid_str : string)
    : runM W string (NetworkError + CarResponse) :=
  match cid_from_str cid_str with
  | Ok c => λ w,
    match stream fuel c w with
    | Some (Ok body, w') =>
      let response :=
        ct ← unwrap_opt (header_value "application/vnd.curl.car; charset=utf-8");
        cd ← unwrap_opt (header_value
               ("attachment; filename=" +:+ quote +:+ cid_str +:+ ".car" +:+ quote));
        Ok (inr {| status := 200; header_content_type := ct;
                   header_disposition := cd; body := body |}) in
      Some (response, w')
    | Some (Err err, w') => Some (Ok (inl (InternalError err)), w')
    | Some (Panic, w') => Some (Panic, w')
    | None => None
    end
  | _ => mret (inl (InternalError (invalid_cid cid_str)))
  end.
End api.

(** ** JSON-RPC *)

(** [jsonrpc_v2] and [serde_json]: errors, the objects exchanged and their JSON
    forms. *)
Class RpcLib := {
  RpcError : Type;
  rpc_internal : string → RpcError;
  INVALID_PARAMS : RpcError;
  error_code : RpcError → Z;
  error_message : RpcError → string;
  Id : Type;
}.

Inductive ResponseObject `{RpcLib} (V : Type) :=
| Result (result : V) (id : Id)
| Error (error : RpcError) (id : Id).
Arguments Result {_ V} result id.
Arguments Error {_ V} error id.

Inductive ResponseObjects `{RpcLib} (V : Type) :=
| One (r : ResponseObject V)
| Many (l : list (ResponseObject V))
| Empty.
Arguments One {_ V} r.
Arguments Many {_ V} l.
Arguments Empty {_ V}.

(** The client's view of a response. *)
Inductive JsonRpcResponse `{RpcLib} (R : Type) :=
| JsonResult (result : R) (id : Id)
| JsonError (code : Z) (message : string) (id : Id).
Arguments JsonResult {_ R} result id.
Arguments JsonError {_ R} code message id.

(** Results of type [V] as the server writes and the client reads them. *)
Class RpcJson `{RpcLib} (V : Type) := {
  response_json : ResponseObject V → string;
  error_json : RpcError → string;
  parse_response : string → outcome string (JsonRpcResponse V);
  parse_result : ∀ v id, parse_response (response_json (Result v id)) = Ok (JsonResult v id);
}.

Section rpc.
  Context {DB : Type} {cl : CidLib} {bs : BlockStore DB} {W : Type} {env : NodeEnv W}.
  Context {il : IpldLib} {hi : HashIter Cid} {rpc : RpcLib}.

Inductive ServerErrors := ApiError (e : RpcError).

Definition rpc_handler {V} (handled : ResponseObjects V)
    : outcome ServerErrors (ResponseObjects V) :=
  match handled with
  | One (Result result id) => Ok (One (Result result id))
  | One (Error error _) => Err (ApiError error)
  | Many _ => Panic
  | Empty => Panic
  end.

(** The HTTP answer of the handler: the status and the body. *)
Definition rpc_http {V} `{!RpcJson V} (handled : ResponseObjects V)
    : outcome string (N * string) :=
  match rpc_handler handled with
  | Ok (One r) => Ok (200%N, response_json r)
  | Err (ApiError e) => Ok (500%N, error_json e)
  | _ => Panic
  end.

(** The methods of [RpcServer::new] and the routes of the two routers. *)
Definition rpc_methods : list string := ["ursa_get_cid"; "ursa_get_file"; "ursa_put_file"].
Definition rpc_routes : list (string * string) := [("PUT", "/rpc/v0"); ("POST", "/rpc/v0")].
Definition http_routes : list (string * string) := [("POST", "/"); ("GET", "/:cid")].

Definition get_cid_handler (params : NetworkGetParams) : runM W RpcError bytes :=
  match cid_from_str (get_cid params) with
  | Ok c =>
    res ← run_map_err rpc_internal (get c);
    run (st_lift (unwrap_opt res))
  | _ => run (st_throw INVALID_PARAMS)
  end.

Definition get_file_handler (fuel : nat) (params : NetworkGetFileParams)
    : runM W RpcError unit :=
  match cid_from_str (get_file_cid params) with
  | Ok c => run_map_err rpc_internal (get_file fuel (get_file_path params) c)
  | _ => run (st_throw INVALID_PARAMS)
  end.

(** [res.iter().map(..).collect()] into a [String] puts the identifiers one
    behind the other. *)
Definition put_file_handler (params : NetworkPutFileParams) : runM W RpcError string :=
  res ← run_map_err rpc_internal (put_file (put_path params));
  mret (foldr String.append EmptyString (cid_to_string <$> res)).

(** ** The client *)

Record ServerConfig := { port : N; addr : string }.
Definition ServerConfig_default : ServerConfig := {| port := 4069; addr := "0.0.0.0" |}.

Definition api_url : string :=
  "http://" +:+ addr ServerConfig_default +:+ ":" +:+
    pretty.pretty (port ServerConfig_default) +:+ "/rpc/v0".

Inductive RpcMethod := Put_ | Post.

(** [Error::Full { message, code, data: None }] *)
Record ClientError := { ce_message : string; ce_code : Z }.

(** [call]: [value] and [body] say whether the parameters and the request can
    be serialized, [http] is what the HTTP library answers with to the method,
    the address and the body. *)
Definition call {R P} `{!RpcJson R} (value : string → P → option string)
    (http : RpcMethod → string → string → outcome string (N * string))
    (method_name : string) (params : P) (method : RpcMethod) (id_body : string → option string)
    : outcome ClientError R :=
  match value method_name params with
  | Some rpc_req =>
    match id_body rpc_req with
    | Some from_json =>
      http_res ← unwrap (http method api_url from_json);
      let '(code, res) := (http_res : N * string) in
      if bool_decide (code ≠ 200%N) then
        Err {| ce_message := "Error code from HTTP Response: " +:+ pretty.pretty code;
               ce_code := Z.of_N code |}
      else
        match parse_response res with
        | Ok (JsonResult result _) => Ok result
        | Ok (JsonError code message _) => Err {| ce_message := message; ce_code := code |}
        | Err e => Err {| ce_message := "Parse Error: Response from RPC endpoint could not be parsed. Error was: " +:+ e;
                          ce_code := 200 |}
        | Panic => Panic
        end
    | None => Err {| ce_message := "There was an while serializing the rpc request";
                     ce_code := 200 |}
    end
  | None => Err {| ce_message := "There was an error while converting the params to serializable value";
                   ce_code := 200 |}
  end.

(** [functions.rs] *)
Section functions.
  Context {P V : Type} `{!RpcJson V} (value : string → P → option string).
  Context (http : RpcMethod → string → string → outcome string (N * string)).
  Context (id_body : string → option string).

Definition call_get_block (params : P) : outcome ClientError V :=
  call value http NETWORK_GET params Post id_body.
Definition call_get_file (params : P) : outcome ClientError V :=
  call value http NETWORK_GET_FILE params Put_ id_body.
Definition call_put_file (params : P) : outcome ClientError V :=
  call value http NETWORK_PUT_FILE params Put_ id_body.
End functions.
End rpc.

(** ** [Server] *)

(** The address [Server::start] binds: the port is configured, the host is not. *)
Definition http_address (config : ServerConfig) : list N * N := ([0; 0; 0; 0]%N, port config).

(** ** [MultiplexService] *)

Inductive Poll := Ready (r : outcome string unit) | Pending.

(** [poll_ready], from the readiness of the two services. *)
Definition poll_ready (http rpc : Poll) : Poll :=
  match http with
  | Ready (Ok _) =>
    match rpc with
    | Ready (Ok _) => Ready (Ok tt)
    | Ready e => Ready e
    | Pending => Pending
    end
  | Ready e => Ready e
  | Pending => Pending
  end.

(** [is_rpc_request], from the bytes of the content type header. *)
Definition is_rpc_request (content_type : option bytes) : bool :=
  match content_type with
  | Some b => starts_with (as_bytes "application/json") b
  | None => false
  end.

(** [call]: the service that answers a request. *)
Definition mux_call {Req Res} (http rpc : Req → Res) (content_type : Req → option bytes)
    (req : Req) : Res :=
  if is_rpc_request (content_type req) then rpc req else http req.

(** [Server::start]: the address and the service behind it. *)
Definition server_start {Req Res} (http_router rpc_router : Req → Res)
    (content_type : Req → option bytes) (config : ServerConfig)
    : (list N * N) * (Req → Res) :=
  (http_address config, mux_call http_router rpc_router content_type).

(** ** Properties *)

Section properties.
  Context {DB : Type} {cl : CidLib} {bs : BlockStore DB} {W : Type} {env : NodeEnv W}.
  Context {il : IpldLib} {hi : HashIter Cid} {rpc : RpcLib}.

Lemma bs_has_contains (st : Store.Store (DB:=DB)) c :
  bs_has (Store.blockstore st) c = Store.contains st c.
Proof. apply bs_has_exists. Qed.

Lemma request_block_stored c q w w' :
  request_block c q w = Some (Ok tt, w') → Store.contains (w_store w') c = Ok true.
Proof.
  unfold request_block. intros Hr. inv_bind.
  destruct a as [[[]|e|]|]; try done. injection Hr as <-. by eapply w_get_bitswap_found.
Qed.

Lemma has_block_run c w o w' :
  has_block c w = (Ok o, w') → w' = w ∧ Store.contains (w_store w) c = Ok o.
Proof.
  unfold has_block, st_query. rewrite bs_has_contains.
  destruct (Store.contains _ _); by intros [= -> <-].
Qed.

Lemma contained_get (st : Store.Store (DB:=DB)) c o :
  Store.contains st c = Ok true → bs_get (Store.blockstore st) c = Ok o → is_Some o.
Proof.
  unfold Store.contains, Store.blockstore. rewrite bs_get_read. intros Hc Ho.
  rewrite (bs_exists_read _ _ _ Ho) in Hc. injection Hc as Hc.
  by apply bool_decide_eq_true in Hc.
Qed.

Lemma stored_contains (st : Store.Store (DB:=DB)) c d :
  bs_get (Store.blockstore st) c = Ok (Some d) → Store.contains st c = Ok true.
Proof.
  unfold Store.contains, Store.blockstore. rewrite bs_get_read. intros Hr.
  by rewrite (bs_exists_read _ _ _ Hr).
Qed.

Lemma has_block_true c w :
  Store.contains (w_store w) c = Ok true → has_block c w = (Ok true, w).
Proof. intros Hc. unfold has_block, st_query. by rewrite bs_has_contains, Hc. Qed.

(** A block that is there is not asked for, nor is the root of a DAG. *)
Lemma get_stored c w :
  Store.contains (w_store w) c = Ok true →
  get c w = Some (bs_get (Store.blockstore (w_store w)) c, w).
Proof.
  intros Hc. unfold get.
  by rewrite (runM_bind_ok _ _ _ true w) by (unfold run; by rewrite has_block_true).
Qed.

Lemma get_data_stored fuel root w o :
  Store.contains (w_store w) root = Ok true →
  Store.dag_traversal (w_store w) fuel root = Some o → get_data fuel root w = Some (o, w).
Proof.
  intros Hc Ho. unfold get_data.
  rewrite (runM_bind_ok _ _ _ true w) by (unfold run; by rewrite has_block_true).
  rewrite (runM_bind_ok _ _ _ tt w) by done.
  rewrite (runM_bind_ok _ _ _ root w) by (unfold run, st_lift; by rewrite convert_cid_to_bytes).
  rewrite (runM_bind_ok _ _ _ w w) by done. unfold run_opt. by rewrite Ho.
Qed.

(** A block that was got is there afterwards. *)
Lemma get_found c w o w' :
  get c w = Some (Ok o, w') →
  Store.contains (w_store w') c = Ok true ∧ bs_get (Store.blockstore (w_store w')) c = Ok o.
Proof.
  unfold get. intros Hg. inv_bind. unfold run in *. simplify_eq.
  match goal with H : has_block _ _ = _ |- _ => apply has_block_run in H as [-> Hc] end.
  unfold st_query in Hg. injection Hg as Hg <-. split; [|done].
  destruct a; [by match goal with H : mret _ _ = _ |- _ => injection H as _ <- end|].
  destruct a0. by eapply request_block_stored.
Qed.

Lemma run_unwrap_inv {A} (m : runM W string A) w a w' :
  run_unwrap m w = Some (Ok a, w') → m w = Some (Ok a, w').
Proof. unfold run_unwrap. destruct (m w) as [[[]]|]; naive_solver. Qed.

Lemma get_data_inv fuel root w dag w' :
  get_data fuel root w = Some (Ok dag, w') →
  Store.dag_traversal (w_store w') fuel root = Some (Ok dag).
Proof.
  unfold get_data. intros Hg. inv_bind. unfold run, run_opt, st_lift, st_get in *.
  rewrite convert_cid_to_bytes in *. simplify_eq/=.
  destruct (Store.dag_traversal _ _ _) as [o|] eqn:Ho; [|done]. by simplify_eq/=.
Qed.

(** C18: [get] never answers without a block: when it succeeds, the block is in
    the store and its data is returned; a block that is there from the start is
    read without asking the network. *)
Theorem get_returns_block c w :
  (Store.contains (w_store w) c = Ok true →
     get c w = Some (bs_get (Store.blockstore (w_store w)) c, w)) ∧
  (∀ o w', get c w = Some (Ok o, w') →
     ∃ d, o = Some d ∧ bs_get (Store.blockstore (w_store w')) c = Ok (Some d)).
Proof.
  split; [apply get_stored|]. intros o w' [Hc Ho]%get_found.
  destruct (contained_get _ _ _ Hc Ho) as [d ->]. by exists d.
Qed.

Lemma car_blocks_id dag : car_blocks dag = Ok dag.
Proof.
  induction dag as [|[c d] dag IH]; [done|]. simpl. by rewrite convert_cid_to_bytes, IH.
Qed.

(** The handler unwraps the data. *)
Lemma get_handler_unwraps fuel cid_str c w e w' :
  cid_from_str cid_str = Ok c → get_data fuel c w = Some (Err e, w') →
  get_handler fuel cid_str w = Some (Panic, w').
Proof.
  intros Hc Hd. unfold get_handler, stream, run_unwrap, mbind, runM_bind. by rewrite Hc, Hd.
Qed.

(** When the data of a valid identifier cannot be had, the HTTP handler
    panics instead of answering with an error: its [Err] branch for the stream
    is never taken. *)
Theorem get_handler_panics fuel cid_str c w :
  cid_from_str cid_str = Ok c →
  (∀ e w', get_data fuel c w = Some (Err e, w') →
     get_handler fuel cid_str w = Some (Panic, w')) ∧
  (∀ r w', get_handler fuel cid_str w = Some (Ok r, w') →
     ∃ dag resp, get_data fuel c w = Some (Ok dag, w') ∧ r = inr resp ∧
       body resp = write_car [c] dag).
Proof.
  intros Hc. split; [intros e w'; by apply get_handler_unwraps|].
  intros r w'. unfold get_handler, stream, run_unwrap, mbind, runM_bind, mret, runM_ret.
  rewrite Hc. destruct (get_data fuel c w) as [[[dag|e|] w1]|]; simpl; try done.
  unfold run, st_lift. simpl. rewrite car_blocks_id. simpl.
  intros [= Hr <-]. exists dag. revert Hr.
  destruct (header_value _); simpl; destruct (header_value _); simpl; try done.
  intros [= <-]. by eexists.
Qed.

(** C19: fetching one block breaks the download of the DAG under it: after [get]
    has succeeded for a block some descendant of which is not in the store, the
    HTTP handler panics for its identifier and changes nothing: it finds the root
    in the store and asks the network for nothing, now and whenever the same
    blocks are there. *)
Theorem get_breaks_download cid_str c w o w' D x :
  cid_from_str cid_str = Ok c → get c w = Some (Ok o, w') →
  let st := w_store w' in
  c ∈ D → (∀ a b, a ∈ D → Store.link st a b → b ∈ D) →
  (∀ a, rtc (Store.link st) c a → Store.absent st a ∨ Store.sound_block st a) →
  rtc (Store.link st) c x → Store.absent st x →
  get_data (Store.dag_fuel D) c w' = Some (Err (Store.missing_cids_error c), w') ∧
  get_handler (Store.dag_fuel D) cid_str w' = Some (Panic, w').
Proof.
  intros Hs [Hc _]%get_found st HcD HD Hsound Hrt Hx.
  assert (get_data (Store.dag_fuel D) c w' = Some (Err (Store.missing_cids_error c), w')) as Hd.
  { apply get_data_stored; [done|]. by eapply Store.dag_traversal_partial. }
  split; [done|]. by eapply get_handler_unwraps.
Qed.

(** C37: over the client and the server, a result arrives as it was, and every
    error of a method arrives as an HTTP error with code 500: the code and the
    message of the JSON-RPC error are lost. *)
Theorem rpc_round_trip {P V} `{!RpcJson V} (value : string → P → option string)
    (id_body : string → option string) name (params : P) method req b
    (answer : ResponseObject V) :
  value name params = Some req → id_body req = Some b →
  call value (λ _ _ _, rpc_http (One answer)) name params method id_body =
    match answer with
    | Result v _ => Ok v
    | Error _ _ => Err {| ce_message := "Error code from HTTP Response: 500"; ce_code := 500 |}
    end.
Proof.
  intros Hv Hb. unfold call. rewrite Hv, Hb. destruct answer as [v id|e id]; [|done].
  simpl. by rewrite parse_result.
Qed.

(** Every method the client names is one the server registers. *)
Lemma client_methods_registered :
  Forall (.∈ rpc_methods) [NETWORK_GET; NETWORK_GET_FILE; NETWORK_PUT_FILE].
Proof. repeat constructor; set_solver. Qed.

(** The multiplexer is ready exactly when both services are, and reports the
    first one that is not. *)
Lemma poll_ready_iff a b :
  poll_ready a b = Ready (Ok tt) ↔ a = Ready (Ok tt) ∧ b = Ready (Ok tt).
Proof. destruct a as [[[]| |]|], b as [[[]| |]|]; simpl; naive_solver. Qed.
End properties.

(** ** Evaluation on a concrete world *)

Import Samples.

(** A node that has some blocks, knows of others in the network, and has
    files. *)
Record sample_world := {
  sw_store : sample_db;
  sw_network : sample_db;
  sw_files : gmap string bytes;
}.

Definition sample_bitswap_request (c : Cid) (q : BitswapType) :
    runM sample_world string (option (outcome string unit)) := λ w,
  match sw_network w !! (c : bytes) with
  | Some d => Some (Ok (Some (Ok tt)),
      {| sw_store := <[(c : bytes) := d]> (sw_store w); sw_network := sw_network w;
         sw_files := sw_files w |})
  | None => Some (Ok (Some (Err "not found")), w)
  end.

#[program] Definition sample_env : NodeEnv (DB:=sample_db) sample_world := {|
  w_store w := Store.new (sw_store w);
  w_get_bitswap := sample_bitswap_request;
  w_index cids w := Some (Ok (Some (Ok cids)), w);
  load_car b w := (Ok [sid x01], w);
  write_car roots blocks := Ok (concat (snd <$> blocks));
  read_file p w := match sw_files w !! p with Some b => Ok b | None => Err "no such file" end;
  create_dir_all p w := (Ok tt, w);
  create_file p w := (Ok tt, w);
  write_file p b w := (Ok tt, {| sw_store := sw_store w; sw_network := sw_network w;
                                 sw_files := <[p := b]> (sw_files w) |});
  canceled := "oneshot canceled";
  debug_error e := e;
  debug_cids _ := "cids";
  header_value s := Some s;
|}.
Next Obligation.
  intros c q w w'. unfold sample_bitswap_request.
  destruct (sw_network w !! (c : bytes)); [|done]. intros [= <-]. simpl.
  unfold Store.contains. simpl. by rewrite lookup_insert_eq.
Qed.
#[local] Existing Instance sample_env.

Definition sample_api : sample_world :=
  {| sw_store := <[ [x01] := [] ]> ∅; sw_network := <[ [x02] := [x01] ]> ∅; sw_files := ∅ |}.

Lemma get_returns_block_witness :
  ∃ w' : sample_world, get (env:=sample_env) (sid x02) sample_api = Some (Ok (Some [x01]), w') ∧
    bs_get (Store.blockstore (w_store (NodeEnv:=sample_env) w')) (sid x02) = Ok (Some [x01]).
Proof.
  eexists. split; [vm_compute; reflexivity|].
  destruct (proj2 (get_returns_block (env:=sample_env) (sid x02) sample_api)
    (Some [x01]) _ ltac:(vm_compute; reflexivity)) as (d & [= <-] & Hd). exact Hd.
Defined.

Lemma get_handler_panics_witness :
  get_handler (env:=sample_env) 10 (cid_to_string (sid x07)) sample_api =
    Some (Panic, sample_api).
Proof.
  apply (proj1 (get_handler_panics (env:=sample_env) 10 (cid_to_string (sid x07)) (sid x07)
    sample_api ltac:(reflexivity)) "The bitswap failed, please check server logs not found").
  vm_compute. reflexivity.
Defined.

(** Block [03] is in the network, and its link [08] nowhere. *)
Definition sample_api_partial : sample_world :=
  {| sw_store := ∅; sw_network := <[ [x03] := [x08] ]> ∅; sw_files := ∅ |}.
Definition sample_api_got : sample_world :=
  {| sw_store := <[ [x03] := [x08] ]> ∅; sw_network := <[ [x03] := [x08] ]> ∅; sw_files := ∅ |}.

Lemma get_breaks_download_witness :
  get (env:=sample_env) (sid x03) sample_api_partial =
    Some (Ok (Some [x08]), sample_api_got) ∧
  get_handler (env:=sample_env) (Store.dag_fuel (list_to_set [sid x03; sid x08]))
    (cid_to_string (sid x03)) sample_api_got = Some (Panic, sample_api_got).
Proof.
  assert (get (env:=sample_env) (sid x03) sample_api_partial =
    Some (Ok (Some [x08]), sample_api_got)) as Hg by (vm_compute; reflexivity).
  split; [exact Hg|].
  apply (get_breaks_download (env:=sample_env) (cid_to_string (sid x03)) (sid x03)
    sample_api_partial _ sample_api_got (list_to_set [sid x03; sid x08]) (sid x08) ltac:(reflexivity) Hg).
  - set_solver.
  - intros a b. apply Store.closed_check_set. reflexivity.
  - intros a. apply (Store.forall_reach _ [sid x03; sid x08] _
      (λ c, Store.absent (w_store (NodeEnv:=sample_env) sample_api_got) c ∨
        Store.sound_block (w_store (NodeEnv:=sample_env) sample_api_got) c));
      [reflexivity|set_solver|].
    repeat first [apply Forall_nil_2 | apply Forall_cons_2];
      first [left; reflexivity | right; apply Store.sound_check_sound; reflexivity].
  - apply rtc_once. exists [x08], [sid x08]. split; [reflexivity|]. split; [reflexivity|set_solver].
  - reflexivity.
Defined.

Definition sample_rpc : RpcLib := {|
  RpcError := Z * string;
  rpc_internal e := (-32603, e)%Z;
  INVALID_PARAMS := (-32602, "Invalid params")%Z;
  error_code e := e.1;
  error_message e := e.2;
  Id := unit;
|}.
#[local] Existing Instance sample_rpc.

(** Results that are strings, marked by a first letter. *)
#[program] Definition sample_rpc_json : RpcJson string := {|
  response_json r := match r with Result v _ => "r" +:+ v | Error _ _ => "e" end;
  error_json _ := "e";
  parse_response s :=
    match s with
    | String.String _ v => Ok (JsonResult v tt)
    | String.EmptyString => Err "empty"
    end;
|}.
Next Obligation. by intros v []. Qed.
#[local] Existing Instance sample_rpc_json.

Definition sample_answer : ResponseObject string := Result "block" (tt : Id).
Definition sample_value (m p : string) : option string := Some (m +:+ p).

Lemma rpc_round_trip_witness :
  call sample_value (λ _ _ _, rpc_http (One sample_answer)) NETWORK_GET "Qm" Post Some =
    Ok "block".
Proof.
  exact (rpc_round_trip sample_value Some NETWORK_GET "Qm" Post
    "ursa_get_cidQm" "ursa_get_cidQm" sample_answer eq_refl eq_refl).
Defined.
