(* ===== verification/Node.v ===== *)
(** The whole node: the network service and the clients of its command channel,
    run by a schedule, and the server's interface to the service that
    [src/crates/ursa/src/main.rs] sets up. *)

From S2P Require Import Prelude Libs Utils Paths Codec Protocols IndexLibs Service ServiceHistory.
From S2P Require Import Requests.
From S2P Require ServiceProps.
From S2P Require Store NetConfig Discovery Metrics Behaviour Advertisement Provider Api.

(** ** The host of the server: the CAR library and the file system *)
Class HostLib (DB : Type) `{CidLib} := {
  Files : Type;
  car_load : bytes → stM DB string (list Cid);
  car_write : list Cid → list (Cid * bytes) → outcome string bytes;
  host_read_file : PathBuf → Files → outcome string bytes;
  host_create_dir_all : PathBuf → stM Files string unit;
  host_create_file : PathBuf → stM Files string unit;
  host_write_file : PathBuf → bytes → stM Files string unit;
  (** [Display] of a send on a closed channel and of a cancelled receiver. *)
  send_failed : string;
  receiver_canceled : string;
  host_debug_error : string → string;
  host_debug_cids : list Cid → string;
  host_header_value : string → option string;
}.

Section node.
  Context {DB : Type} {cl : CidLib} {bs : BlockStore DB} {os : ObjStore DB}.
  Context {il : IpldLib} {hi : HashIter Cid}.
  Context {nl : NetLib} {ml : MultiaddrLib} {sw : SwarmTypes} {swl : SwarmLib}.
  Context {kl : KadLib} {md : MdnsLib} {gl : GossipLib} {bl : BitswapLib}.
  Context {rl : RequestResponseLib} {al : NatLib} {dl : DebugLib}.
  Context {key : KeyLib} {el : EncodeLib} {cbor : CborLib} {host : HostLib DB}.
  Implicit Types (s : UrsaService (DB:=DB)).

(** ** What the libraries do between two rounds *)

(** The calls of the swarm on discovery. *)
Inductive discovery_call :=
| ConnectionEstablished (p : PeerId) (c : ConnectionId) (e : ConnectedPoint)
    (failed : option (list Multiaddr)) (n : N)
| ConnectionClosed (p : PeerId) (c : ConnectionId) (e : ConnectedPoint)
    (h : ConnectionHandler) (n : N)
| AddressChange (p : PeerId) (c : ConnectionId) (old new : ConnectedPoint)
| HandlerEvent (p : PeerId) (c : ConnectionId) (e : KadHandlerEvent)
| NewHandler
| AddressesOf (p : PeerId)
| PollDiscovery (fuel : nat).

Definition call_discovery (call : discovery_call) (d : Discovery.DiscoveryBehaviour)
    : list Discovery.DiscoveryEvent * Discovery.DiscoveryBehaviour :=
  match call with
  | ConnectionEstablished p c e failed n =>
    ([], Discovery.inject_connection_established p c e failed n d)
  | ConnectionClosed p c e h n => ([], Discovery.inject_connection_closed p c e h n d)
  | AddressChange p c old new => ([], Discovery.inject_address_change p c old new d)
  | HandlerEvent p c e => ([], Discovery.inject_event p c e d)
  | NewHandler => ([], (Discovery.new_handler d).2)
  | AddressesOf p => ([], (Discovery.addresses_of_peer p d).2)
  | PollDiscovery fuel =>
    match Discovery.poll fuel d with
    | Some (a, d') => (Discovery.delivered a, d')
    | None => ([], d)
    end
  end.

(** The events of the sub-behaviours, and changes inside the libraries. *)
Inductive library_event :=
| LibBitswap (e : BitswapEvent)
| LibIdentify (e : IdentifyEvent)
| LibAutonat (e : AutonatEvent)
| LibRelayServer (e : RelayServerEvent)
| LibGossipsub (e : GossipsubEvent)
| LibRequestResponse (e : RequestResponseEvent)
| LibDiscovery (call : discovery_call)
| BitswapState (x : Bitswap)
| GossipsubState (x : Gossipsub)
| AutonatState (x : option Autonat).

Definition library_step (e : library_event) (b : Behaviour.Behaviour) : Behaviour.Behaviour :=
  match e with
  | LibBitswap e => Behaviour.handle_bitswap e b
  | LibIdentify e => Behaviour.handle_identify e b
  | LibAutonat e => Behaviour.handle_autonat e b
  | LibRelayServer e => Behaviour.handle_relay_server e b
  | LibGossipsub e => Behaviour.handle_gossipsub e b
  | LibRequestResponse e => (Behaviour.handle_request_response e b).2
  | LibDiscovery call =>
    let '(out, d) := call_discovery call (Behaviour.discovery b) in
    foldl (λ b e, Behaviour.handle_discovery e b) (Behaviour.with_discovery d b) out
  | BitswapState x =>
    if decide (bw_issued (Behaviour.bitswap b) ⊆ bw_issued x) then Behaviour.with_bitswap x b
    else b
  | GossipsubState x => Behaviour.with_gossipsub x b
  | AutonatState x => Behaviour.with_autonat x b
  end.

(** ** The node

    [select!] takes one thing at a time: a command from the channel, an event
    of the swarm.  In between other clients send commands, blocks arrive, and
    the libraries work.  A schedule lists what happens, in order. *)
Inductive choice :=
| TakeCommand
| SwarmEvent (env : Env (DB:=DB))
| SwarmIdle
| OtherClient (command : UrsaCommand)
| Library (e : library_event)
| BlockArrives (block : Cid * bytes)
| SwarmChange (x : Swarm).

(** [running] says whether [service.start()] has not returned yet; [commands] is
    the content of the command channel, which the clients hold open. *)
Record Node := {
  service : UrsaService (DB:=DB);
  running : bool;
  commands : list UrsaCommand;
  schedule : list choice;
  files : Files;
}.

Definition with_service (x : UrsaService) (n : Node) : Node :=
  {| service := x; running := running n; commands := commands n; schedule := schedule n;
     files := files n |}.
Definition with_commands (x : list UrsaCommand) (n : Node) : Node :=
  {| service := service n; running := running n; commands := x; schedule := schedule n;
     files := files n |}.
Definition with_schedule (x : list choice) (n : Node) : Node :=
  {| service := service n; running := running n; commands := commands n; schedule := x;
     files := files n |}.
Definition with_files (x : Files) (n : Node) : Node :=
  {| service := service n; running := running n; commands := commands n;
     schedule := schedule n; files := x |}.

(** [start] has returned and [self] is dropped: the senders that wait go, and the
    channel of events with its receiver.  What is left, for the server and the
    index provider, is the store, the provider and what was sent. *)
Definition closed (s : UrsaService (DB:=DB)) : UrsaService (DB:=DB) :=
  with_event_channel [] (with_response_channels ∅ s).

(** The receiver of commands is dropped too, which closes the channel: nothing can
    be sent any more, but what is queued stays in it, as long as there is a client. *)
Definition stopped (s : UrsaService) (n : Node) : Node :=
  {| service := closed s; running := false; commands := commands n; schedule := schedule n;
     files := files n |}.

Definition do_round (i : input) (n : Node) : option Node :=
  match round i (service n) with
  | Some (Ok _, s) => Some (with_service s n)
  | Some (_, s) => Some (stopped s n)
  | None => None
  end.

(** [None] is a round that does not come to its end. *)
Definition act (ch : choice) (n : Node) : option Node :=
  if running n then
    match ch with
    | TakeCommand =>
      match commands n with
      | [] => Some n
      | command :: rest => do_round (Command command) (with_commands rest n)
      end
    | SwarmEvent env => do_round (SwarmBehaviour env) n
    | SwarmIdle => do_round SwarmOther n
    | OtherClient command => Some (with_commands (push_back command (commands n)) n)
    | Library e =>
      Some (with_service (with_behaviour (library_step e (behaviour (service n)))
        (service n)) n)
    | BlockArrives block =>
      Some (with_service (with_store (Store.insert block (store (service n))).2
        (service n)) n)
    | SwarmChange x => Some (with_service (with_swarm x (service n)) n)
    end
  else Some n.

Fixpoint run_choices (l : list choice) (n : Node) : option Node :=
  match l with
  | [] => Some n
  | ch :: l => n ← act ch n; run_choices l n
  end.

(** ** Requests to the service *)

Definition command_senders (c : UrsaCommand) : list Behaviour.Sender :=
  match c with
  | GetBitswap _ _ x | Put _ x | GetPeers x | Index _ x | SendRequest _ _ x
  | SendResponse _ _ x => [x]
  | GossipsubMessage_ _ _ => []
  end.

(** A sender that is queued with its command is not dropped. *)
Definition queued (x : Behaviour.Sender) (n : Node) : bool :=
  bool_decide (x ∈ commands n ≫= command_senders).

(** [receiver.await] for the sender [x]: the node runs until the answer [pick]
    recognizes is there, or until the service is gone and the sender with it.
    [None] waits for ever: on a service that runs, or for a sender that stays in
    the channel of commands with nobody to take it out. *)
Fixpoint await {R} (x : Behaviour.Sender) (pick : Sent → option R) (script : list choice)
    (n : Node) : option (option R * Node) :=
  match head (omap pick (sent (service n))) with
  | Some r => Some (Some r, with_schedule script n)
  | None =>
    if running n || queued x n then
      match script with
      | [] => None
      | ch :: script => n ← act ch n; await x pick script n
      end
    else Some (None, with_schedule script n)
  end.

Definition sent_sender (m : Sent) : Behaviour.Sender :=
  match m with SentBlock x _ | SentPeers x _ | SentIndex x _ => x end.

Definition choice_senders (ch : choice) : list Behaviour.Sender :=
  match ch with OtherClient command => command_senders command | _ => [] end.

(** Every channel that is in use. *)
Definition senders (n : Node) : list Behaviour.Sender :=
  (sent_sender <$> sent (service n)) ++
  waiting_senders (response_channels (service n)) ++
  (commands n ≫= command_senders) ++ (schedule n ≫= choice_senders).

(** [oneshot::channel()] makes a channel that nobody has. *)
Definition new_sender (n : Node) : Behaviour.Sender :=
  fresh (list_to_set (senders n) : gset Behaviour.Sender).

Definition push_command (command : UrsaCommand) (n : Node) : Node :=
  with_commands (push_back command (commands n)) n.

(** [network_send.send(request).await?; receiver.await] *)
Definition request {R} (command : Behaviour.Sender → UrsaCommand)
    (pick : Behaviour.Sender → Sent → option R) : runM Node string (option R) := λ n,
  if running n then
    let x := new_sender n in
    '(r, n) ← await x (pick x) (schedule n) (push_command (command x) n);
    Some (Ok r, n)
  else Some (Err send_failed, n).

Definition pick_block (x : Behaviour.Sender) (m : Sent) : option (outcome string unit) :=
  match m with SentBlock y r => if decide (y = x) then Some r else None | _ => None end.
Definition pick_index (x : Behaviour.Sender) (m : Sent) : option (outcome string (list Cid)) :=
  match m with SentIndex y r => if decide (y = x) then Some r else None | _ => None end.

Definition request_bitswap (c : Cid) (q : BitswapType)
    : runM Node string (option (outcome string unit)) :=
  request (GetBitswap c q) pick_block.
Definition request_index (cids : list Cid)
    : runM Node string (option (outcome string (list Cid))) :=
  request (Index cids) pick_index.

(** [load_car(self.store.blockstore(), reader)] *)
Definition node_load_car (b : bytes) : stM Node string (list Cid) :=
  st_zoom (λ n, Store.db (store (service n)))
    (λ d n, with_service (with_store (Store.new d) (service n)) n) (car_load b).

(** ** The life of a block request *)

(** The first answer on a channel. *)
Definition answer_of (x : Behaviour.Sender) (n : Node) : option (outcome string unit) :=
  head (omap (pick_block x) (sent (service n))).

Definition told (x : Behaviour.Sender) (l : list (Behaviour.Sender * outcome string unit))
    : list (outcome string unit) :=
  omap (λ a, if decide (a.1 = x) then Some a.2 else None) l.

Lemma answer_of_told x n : answer_of x n = head (told x (block_answers (sent (service n)))).
Proof.
  unfold answer_of, told, block_answers. f_equal.
  induction (sent (service n)) as [|[y r|y r|y r] l IH]; simpl; [done| |done..].
  case_decide; [f_equal|]; exact IH.
Qed.

Lemma told_app x l l' : told x (l ++ l') = told x l ++ told x l'.
Proof. apply omap_app. Qed.

Lemma elem_of_told x r l : r ∈ told x l ↔ (x, r) ∈ l.
Proof.
  unfold told. rewrite list_elem_of_omap. split.
  - intros ([y r'] & Hy & Hr). simpl in Hr. case_decide; by simplify_eq.
  - intros Hl. exists (x, r). simpl. by rewrite decide_True.
Qed.

(** Where a request is. *)
Inductive phase :=
| Queued
| Waiting
| Answered (r : outcome string unit)
| Dropped
| Stranded.

(** The phase of the request on the channel [x]. *)
Definition phase_of (x : Behaviour.Sender) (n : Node) : phase :=
  match answer_of x n with
  | Some r => Answered r
  | None =>
    if queued x n then if running n then Queued else Stranded
    else if running n then Waiting else Dropped
  end.

(** What may happen to a request for [c] when the store is [st] afterwards. *)
Inductive phase_step (c : Cid) (st : Store.Store (DB:=DB)) : phase → phase → Prop :=
| phase_enter : phase_step c st Queued Waiting
| phase_refuse : phase_step c st Queued (Answered (Err NO_PEERS_ERROR))
| phase_strand : phase_step c st Queued Stranded
| phase_reply found : Store.contains st c = Ok found →
    phase_step c st Waiting (Answered (block_reply c found))
| phase_drop : phase_step c st Waiting Dropped.

(** A command that holds the channel [x]. *)
Definition carries (x : Behaviour.Sender) (command : UrsaCommand) : Prop :=
  x ∈ command_senders command.

Lemma queued_carries x n : queued x n = false ↔ Forall (λ command, ¬ carries x command) (commands n).
Proof.
  unfold queued, carries. rewrite bool_decide_eq_false, list_elem_of_bind, Forall_forall.
  naive_solver.
Qed.

(** What is true of the request for [c] on the channel [x] in a phase. *)
Definition observes (c : Cid) (q : BitswapType) (x : Behaviour.Sender) (n : Node)
    (p : phase) : Prop :=
  match p with
  | Queued => running n = true ∧ answer_of x n = None ∧
      (∀ c', x ∉ waiting_for (service n) c') ∧
      ∃ l l', commands n = l ++ GetBitswap c q x :: l' ∧
        Forall (λ command, ¬ carries x command) (l ++ l')
  | Waiting => running n = true ∧ answer_of x n = None ∧
      x ∈ waiting_for (service n) c ∧
      (∀ c', x ∈ waiting_for (service n) c' → c' = c) ∧
      Forall (λ command, ¬ carries x command) (commands n)
  | Answered r => answer_of x n = Some r
  | Dropped => running n = false ∧ answer_of x n = None ∧ queued x n = false
  | Stranded => running n = false ∧ answer_of x n = None ∧ queued x n = true
  end.

Lemma queued_at c q x n l l' : commands n = l ++ GetBitswap c q x :: l' → queued x n = true.
Proof.
  intros Hl. apply bool_decide_eq_true, list_elem_of_bind. exists (GetBitswap c q x).
  rewrite Hl. split; [by left|set_solver].
Qed.

Lemma observes_phase c q x n p : observes c q x n p → phase_of x n = p.
Proof.
  unfold phase_of. destruct p as [| |r| |]; simpl.
  - intros (-> & -> & _ & l & l' & Hl & _). by rewrite (queued_at _ _ _ _ _ _ Hl).
  - by intros (-> & -> & _ & _ & ->%queued_carries).
  - by intros ->.
  - by intros (-> & -> & ->).
  - by intros (-> & -> & ->).
Qed.

(** No other client has the channel. *)
Definition private (x : Behaviour.Sender) (ch : choice) : Prop := x ∉ choice_senders ch.

Lemma answer_none x n l :
  answer_of x n = None → block_answers (sent (service n)) = l → ∀ r, (x, r) ∉ l.
Proof.
  rewrite answer_of_told. intros Hn <- r Hr%elem_of_told.
  by destruct (told x _); [apply not_elem_of_nil in Hr|].
Qed.

Lemma answer_grows x n n' l :
  block_answers (sent (service n')) = block_answers (sent (service n)) ++ l →
  answer_of x n' = match answer_of x n with Some r => Some r | None => head (told x l) end.
Proof.
  intros Hl. rewrite !answer_of_told, Hl, told_app.
  by destruct (told x (block_answers (sent (service n)))).
Qed.

Lemma head_told_none x l : head (told x l) = None ↔ ∀ r, (x, r) ∉ l.
Proof.
  setoid_rewrite <- elem_of_told. destruct (told x l) as [|r l']; simpl.
  - split; [|done]. intros _ r. apply not_elem_of_nil.
  - split; [done|]. intros Hr. destruct (Hr r). by left.
Qed.

Lemma head_told_some x l r : head (told x l) = Some r → (x, r) ∈ l.
Proof. rewrite <- elem_of_told. destruct (told x l); [done|]. intros [= ->]. by left. Qed.

(** One thing at a time, for a node that runs. *)
Lemma act_event env n s' :
  running n = true → round (SwarmBehaviour env) (service n) = Some (Ok tt, s') →
  act (SwarmEvent env) n = Some (with_service s' n).
Proof. intros Hr Hs. unfold act, do_round. by rewrite Hr, Hs. Qed.

Lemma act_library e n :
  running n = true →
  act (Library e) n = Some (with_service
    (with_behaviour (library_step e (behaviour (service n))) (service n)) n).
Proof. intros Hr. unfold act. by rewrite Hr. Qed.

Lemma run_choices_cons ch l n n1 :
  act ch n = Some n1 → run_choices (ch :: l) n = run_choices l n1.
Proof. intros Ha. cbn [run_choices]. by rewrite Ha. Qed.

(** What a round that fails leaves behind. *)
Lemma closed_effect i s o s' l :
  o ≠ Ok tt → round_effect i s o s' l → round_effect i s o (closed s') l.
Proof.
  intros Ho [Ha Ht Hw Hk Hq He]. split; try done; unfold waiting_for, no_empty_channel; simpl.
  intros c x. rewrite lookup_empty. by intros ?%not_elem_of_nil.
Qed.

(** A round, seen from the node. *)
Lemma do_round_effect i n n' :
  do_round i n = Some n' →
  ∃ o l, round_effect i (service n) o (service n') l ∧
    (o = Ok tt ∧ n' = with_service (service n') n ∧
       round i (service n) = Some (Ok tt, service n') ∨
     o ≠ Ok tt ∧ ∃ s, round i (service n) = Some (o, s) ∧ n' = stopped s n).
Proof.
  unfold do_round. destruct (round i (service n)) as [[o s]|] eqn:Hr; [|done].
  destruct (round_effects _ _ _ _ Hr) as [l Hl].
  destruct o as [[]|e|]; intros [= <-]; eexists _, l;
    (split; [first [exact Hl|by eapply closed_effect, Hl]|]);
    [by left|right; split; [done|by exists s]..].
Qed.

(** A change that no sender of a block request can see. *)
Lemma observes_quiet c q x n n' p l :
  running n' = running n → commands n' = commands n ++ l →
  Forall (λ command, ¬ carries x command) l →
  response_channels (service n') = response_channels (service n) →
  sent (service n') = sent (service n) →
  observes c q x n p → observes c q x n' p.
Proof.
  intros Hr Hc Hl Hch Hs.
  assert (queued x n' = queued x n) as Hx.
  { destruct (queued x n) eqn:Hx.
    - apply bool_decide_eq_true in Hx. apply bool_decide_eq_true. rewrite Hc, bind_app. set_solver.
    - apply queued_carries in Hx. apply queued_carries. rewrite Hc. by apply Forall_app. }
  unfold observes, answer_of, waiting_for. rewrite Hr, Hc, Hch, Hs, Hx.
  destruct p; try done.
  - intros (? & ? & ? & l1 & l2 & -> & Hq). split_and!; try done.
    exists l1, (l2 ++ l). rewrite <- app_assoc. split; [done|].
    rewrite app_assoc. by apply Forall_app.
  - intros (? & ? & ? & ? & Hq). split_and!; try done. by apply Forall_app.
Qed.

(** A round that does not take the request out of the queue. *)
Lemma round_observes c q x i n n' p :
  running n = true → (∀ c' q', i ≠ Command (GetBitswap c' q' x)) →
  do_round i n = Some n' → observes c q x n p →
  ∃ p', (p' = p ∨ phase_step c (store (service n')) p p') ∧ observes c q x n' p'.
Proof.
  intros Hrun Hi Hd Ho. apply do_round_effect in Hd as (o & l & [Ha Ht Hw Hk _] & Hn').
  pose proof (answer_grows x _ _ _ Ha) as Hans.
  assert (∀ c', x ∈ waiting_for (service n') c' → x ∈ waiting_for (service n) c') as Hwx.
  { intros c' [?|[q' ?]]%Hw; [done|]. by destruct (Hi c' q'). }
  assert (∀ r, (x, r) ∈ l → ∃ c' found, x ∈ waiting_for (service n) c' ∧
    r = block_reply c' found ∧ Store.contains (store (service n')) c' = Ok found) as Htx.
  { intros r [(c' & found & ? & ? & ? & _)|(c' & q' & -> & _)]%Ht; [by exists c', found|].
    by destruct (Hi c' q'). }
  destruct p as [| |r| |]; simpl in Ho.
  - destruct Ho as (_ & Hn & Hno & Hq). rewrite Hn in Hans.
    rewrite (proj2 (head_told_none x l)) in Hans
      by (intros r (? & ? & ? & _)%Htx; naive_solver).
    destruct Hn' as [(-> & He & _)|(_ & s & _ & ->)].
    + exists Queued. split; [by left|]. rewrite He. simpl. split_and!; naive_solver.
    + exists Stranded. split; [right; constructor|]. destruct Hq as (l1 & l2 & Hq & _).
      split_and!; [done|done|by eapply queued_at].
  - destruct Ho as (_ & Hn & Hin & Hon & Hq). rewrite Hn in Hans.
    destruct (head (told x l)) as [r|] eqn:Hh.
    + apply head_told_some, Htx in Hh as (c' & found & Hin' & -> & Hf).
      apply Hon in Hin' as ->. eexists (Answered _). split; [right; by constructor|done].
    + destruct Hn' as [(-> & He & _)|(_ & s & _ & ->)].
      * exists Waiting. split; [by left|]. rewrite head_told_none in Hh.
        destruct (Hk eq_refl c x Hin) as [?|[r ?]]; [|by destruct (Hh r)].
        rewrite He. simpl. split_and!; naive_solver.
      * exists Dropped. split; [right; constructor|]. split_and!; [done|done|].
        by apply queued_carries.
  - exists (Answered r). split; [by left|]. simpl. by rewrite Hans, Ho.
  - destruct Ho as [? _]; congruence.
  - destruct Ho as [? _]; congruence.
Qed.

(** The round that takes the request out of the queue. *)
Lemma own_round_observes c q x n n' :
  running n = true → answer_of x n = None → (∀ c', x ∉ waiting_for (service n) c') →
  Forall (λ command, ¬ carries x command) (commands n) →
  do_round (Command (GetBitswap c q x)) n = Some n' →
  ∃ p', phase_step c (store (service n')) Queued p' ∧ observes c q x n' p'.
Proof.
  intros Hrun Hn Hno Hq Hd. apply do_round_effect in Hd as (o & l & [Ha Ht Hw _ Hk] & Hn').
  pose proof (answer_grows x _ _ _ Ha) as Hans. rewrite Hn in Hans.
  destruct (head (told x l)) as [r|] eqn:Hh.
  - apply head_told_some, Ht in Hh as [(c' & found & Hin & _)|(c' & q' & _ & Hr)];
      [by destruct (Hno c')|]. simpl in Hr. subst r.
    eexists (Answered _). split; [by constructor|done].
  - rewrite head_told_none in Hh. destruct Hn' as [(-> & He & _)|(Hne & s & Hr & _)].
    + exists Waiting. split; [constructor|].
      destruct (Hk eq_refl c q x eq_refl) as [Hx|[r ?]]; [|by destruct (Hh r)].
      assert (∀ c', x ∈ waiting_for (service n') c' → c' = c) as Hon.
      { intros c' [Hc'|[q' ?]]%Hw; [by destruct (Hno c')|]. naive_solver. }
      rewrite He. simpl. by rewrite He in Hans.
    + by apply get_bitswap_ok in Hr.
Qed.

(** One step of the node is at most one step of the request. *)
Lemma act_observes c q x ch n n' p :
  private x ch → act ch n = Some n' → observes c q x n p →
  ∃ p', (p' = p ∨ phase_step c (store (service n')) p p') ∧ observes c q x n' p'.
Proof.
  intros Hpr Ha Ho. unfold act in Ha. destruct (running n) eqn:Hrun; last first.
  { injection Ha as <-. exists p. by split; [left|]. }
  assert (∀ n' l, running n' = running n → commands n' = commands n ++ l →
    Forall (λ command, ¬ carries x command) l →
    response_channels (service n') = response_channels (service n) →
    sent (service n') = sent (service n) →
    ∃ p', (p' = p ∨ phase_step c (store (service n')) p p') ∧ observes c q x n' p') as Hquiet.
  { intros n1 l ?????. exists p. split; [by left|]. by eapply observes_quiet. }
  destruct ch as [|env| |command|e|block|y]; simplify_eq.
  - destruct (commands n) as [|command rest] eqn:Hc; simplify_eq.
    { exists p. by split; [left|]. }
    destruct p as [| |r| |]; simpl in Ho.
    + destruct Ho as (_ & Hn & Hno & l & l' & Hl & Hq). rewrite Hc in Hl.
      destruct l as [|command' l]; injection Hl as -> Hl.
      * destruct (own_round_observes c q x (with_commands rest n) n') as (p' & ? & ?);
          simpl; try done; [by subst rest|]. exists p'. by split; [right|].
      * apply (round_observes c q x (Command command') (with_commands rest n)); [done| |done|].
        { intros c' q' [= ->]. apply Forall_inv in Hq. apply Hq. by left. }
        simpl. split_and!; try done. exists l, l'. by apply Forall_inv_tail in Hq.
    + destruct Ho as (_ & Hn & Hin & Hon & Hq). rewrite Hc in Hq.
      apply (round_observes c q x (Command command) (with_commands rest n)); [done| |done|].
      { intros c' q' [= ->]. apply Forall_inv in Hq. apply Hq. by left. }
      simpl. by apply Forall_inv_tail in Hq.
    + apply do_round_effect in Ha as (o & l & [Ha _ _ _ _] & _). exists (Answered r).
      split; [by left|]. simpl. rewrite (answer_grows x (with_commands rest n) _ _ Ha).
      unfold answer_of in *. simpl. by rewrite Ho.
    + destruct Ho as [? _]; congruence.
    + destruct Ho as [? _]; congruence.
  - by apply (round_observes c q x (SwarmBehaviour env) n).
  - by apply (round_observes c q x SwarmOther n).
  - apply (Hquiet _ [command]); try done. apply Forall_singleton. exact Hpr.
  - by apply (Hquiet _ []); try done; rewrite app_nil_r.
  - by apply (Hquiet _ []); try done; rewrite app_nil_r.
  - by apply (Hquiet _ []); try done; rewrite app_nil_r.
Qed.

(** A success is told because a query for the identifier has ended. *)
Lemma act_reports c q x ch n n' p :
  act ch n = Some n' → observes c q x n p → answer_of x n = None →
  answer_of x n' = Some (Ok tt) → reported (service n) c.
Proof.
  intros Ha Ho Hn Hn'. unfold act in Ha. destruct (running n) eqn:Hrun; last first.
  { injection Ha as <-. congruence. }
  assert (∀ i n1, service n1 = service n → do_round i n1 = Some n' → reported (service n) c)
    as Hround.
  { intros i n1 Hs (o & l & [Hans Ht _ _ _ _] & _)%do_round_effect.
    rewrite Hs in Hans, Ht.
    rewrite (answer_grows x n n' l Hans), Hn in Hn'.
    apply head_told_some in Hn'.
    destruct (Ht _ Hn') as [(c' & found & Hin & _ & _ & Hrep)|(c' & q' & _ & Hr)];
      [|done]. simpl in Hin.
    destruct p as [| |r| |]; simpl in Ho.
    - destruct Ho as (_ & _ & Hno & _). by destruct (Hno c').
    - destruct Ho as (_ & _ & _ & Hon & _). by rewrite <- (Hon c' Hin).
    - congruence.
    - destruct Ho. congruence.
    - destruct Ho. congruence. }
  assert (∀ n1, n' = n1 → sent (service n1) = sent (service n) → reported (service n) c)
    as Hquiet.
  { intros n1 -> Hs. exfalso. unfold answer_of in *. rewrite Hs in Hn'. congruence. }
  destruct ch; [destruct (commands n)|..]; simplify_eq;
    first [by eapply Hround; [|exact Ha] | by eapply Hquiet].
Qed.

Lemma await_found c q x script n n' p :
  Forall (private x) script → observes c q x n p → (∀ r, p ≠ Answered r) →
  await x (pick_block x) script n = Some (Some (Ok tt), n') →
  Store.contains (store (service n')) c = Ok true.
Proof.
  revert n p. induction script as [|ch script IH]; intros n p Hpr Ho Hp Hw;
    assert (answer_of x n = None) as Hn by (by destruct p; naive_solver);
    unfold answer_of in Hn; cbn [await] in Hw; rewrite Hn in Hw;
    destruct (running n || queued x n); try done.
  apply Forall_cons in Hpr as [Hpr Hprs]. destruct (act ch n) as [n1|] eqn:Ha; [|done].
  simpl in Hw. destruct (act_observes _ _ _ _ _ _ _ Hpr Ha Ho) as (p1 & Hst & Ho1).
  destruct (decide (is_Some (answer_of x n1))) as [[r Hr]|Hnone].
  - assert (await x (pick_block x) script n1 = Some (Some r, with_schedule script n1)) as He
      by (unfold answer_of in Hr; destruct script; simpl; by rewrite Hr).
    rewrite He in Hw. injection Hw as -> <-. simpl.
    destruct p1 as [| |r'| |]; simpl in Ho1;
      [by naive_solver|by naive_solver| |by naive_solver|by naive_solver].
    assert (r' = Ok tt) as -> by congruence.
    destruct Hst as [Hst|Hst]; [by destruct (Hp (Ok tt))|].
    inversion Hst as [| |found Hf| |]; subst. by destruct found.
  - apply (IH n1 p1); try done. intros r ->. by destruct Hnone; exists r.
Qed.

(** *** A new channel *)

Lemma new_sender_fresh n : new_sender n ∉ senders n.
Proof.
  unfold new_sender. intros Hx%(elem_of_list_to_set (C:=gset Behaviour.Sender)).
  by apply is_fresh in Hx.
Qed.

Lemma not_waiting_for x (s : UrsaService (DB:=DB)) c :
  x ∉ waiting_senders (response_channels s) → x ∉ waiting_for s c.
Proof.
  unfold waiting_for. intros Hx Hin. apply Hx.
  destruct (response_channels s !! c) as [l|] eqn:Hl; [|by apply not_elem_of_nil in Hin].
  rewrite (waiting_senders_delete _ _ _ Hl). set_solver.
Qed.

Lemma private_choices x l : x ∉ l ≫= choice_senders → Forall (private x) l.
Proof.
  intros Hx. apply Forall_forall. intros ch Hch Hin. apply Hx, list_elem_of_bind. by exists ch.
Qed.

Lemma push_observes c q x n :
  running n = true → x ∉ senders n →
  observes c q x (push_command (GetBitswap c q x) n) Queued.
Proof.
  unfold senders. rewrite !not_elem_of_app. intros Hr (Hs & Hw & Hc & _).
  simpl. split_and!; [done| |by intros c'; apply not_waiting_for|].
  - unfold answer_of. simpl. destruct (omap (pick_block x) (sent (service n))) as [|r l] eqn:Ho;
      [done|exfalso].
    destruct (proj1 (list_elem_of_omap (pick_block x) (sent (service n)) r)) as (m & Hm & Hp).
    { rewrite Ho. by left. }
    apply Hs, list_elem_of_fmap. exists m. split; [|done].
    destruct m as [y r'|y r'|y r']; simpl in *; try done. by case_decide; subst.
  - exists (commands n), []. split; [done|]. rewrite app_nil_r. apply Forall_forall.
    intros command Hin Ha. apply Hc, list_elem_of_bind. by exists command.
Qed.

(** ** Whole runs *)

Lemma sinv_library w s e :
  sinv w s → sinv w (with_behaviour (library_step e (behaviour s)) s).
Proof.
  intros Hi.
  assert (∀ b', Behaviour.step (behaviour s) Behaviour.silent b' →
    sinv w (with_behaviour b' s)) as Hsilent.
  { intros b' Hb. by eapply sinv_network. }
  destruct e as [e|e|e|e|e|e|call|x|x|x]; simpl;
    try (by apply Hsilent; constructor).
  - eapply sinv_network; [apply Behaviour.step_request_response|done|done].
  - destruct (call_discovery call _) as [out d] eqn:Hc.
    assert (Discovery.step (Behaviour.discovery (behaviour s)) out d ∨
      out = [] ∧ d = Behaviour.discovery (behaviour s)) as [Hst|[-> ->]].
    { destruct call; simpl in Hc; try (by left; simplify_eq; constructor).
      destruct (Discovery.poll fuel _) as [[a d']|] eqn:Hp; [left|right]; simplify_eq; [|done].
      by eapply Discovery.step_poll. }
    + apply Hsilent. by eapply Behaviour.step_discovery.
    + simpl. by destruct s as [? []].
  - case_decide; [by apply Hsilent; constructor|by destruct s].
Qed.

Lemma act_sinv w ch n n' :
  act ch n = Some n' → running n' = true → sinv w (service n) → ∃ w', sinv w' (service n').
Proof.
  intros Ha Hr Hi. unfold act in Ha. destruct (running n); [|by simplify_eq; eauto].
  assert (∀ i n1, service n1 = service n → do_round i n1 = Some n' →
    ∃ w', sinv w' (service n')) as Hround.
  { intros i n1 Hs (o & l & _ & [(_ & _ & Hok)|(_ & s & _ & ->)])%do_round_effect;
      [|done].
    rewrite Hs in Hok. eexists. by eapply sinv_round. }
  destruct ch as [|env| |command|e|block|y].
  - destruct (commands n); [by simplify_eq; eauto|]. by eapply Hround; [|done].
  - by eapply Hround; [|done].
  - by eapply Hround; [|done].
  - simplify_eq. by eauto.
  - injection Ha as <-. exists w. by apply sinv_library.
  - injection Ha as <-. exists w. destruct Hi as [[(l & Hl)] ? ?].
    split; [split; by exists l|done..].
  - injection Ha as <-. exists w. destruct Hi as [[(l & Hl)] ? ?].
    split; [split; by exists l|done..].
Qed.

Lemma act_running ch n n' : act ch n = Some n' → running n' = true → running n = true.
Proof. unfold act. destruct (running n) eqn:Hr; [done|]. intros [= <-]. congruence. Qed.

Lemma run_choices_running l n n' :
  run_choices l n = Some n' → running n' = true → running n = true.
Proof.
  revert n. induction l as [|ch l IH]; intros n; simpl; [by intros [= <-]|].
  destruct (act ch n) as [n1|] eqn:Ha; [|done]. simpl. intros Hr Ht.
  by eapply act_running, IH.
Qed.

Lemma run_choices_sinv w l n n' :
  run_choices l n = Some n' → running n' = true → sinv w (service n) →
  ∃ w', sinv w' (service n').
Proof.
  revert w n. induction l as [|ch l IH]; intros w n; simpl; [intros [= <-]; by eauto|].
  destruct (act ch n) as [n1|] eqn:Ha; [|done]. simpl. intros Hr Ht Hi.
  destruct (act_sinv w ch n n1) as [w1 Hi1]; [done| |done|by eapply IH].
  by eapply run_choices_running.
Qed.

Lemma run_choices_observes c q x l n n' p :
  Forall (private x) l → run_choices l n = Some n' → observes c q x n p →
  ∃ p', rtc (λ p p', ∃ st, phase_step c st p p') p p' ∧ observes c q x n' p'.
Proof.
  revert n p. induction l as [|ch l IH]; intros n p Hpr; simpl.
  { intros [= <-] Ho. exists p. by split; [apply rtc_refl|]. }
  apply Forall_cons in Hpr as [Hpr Hprs].
  destruct (act ch n) as [n1|] eqn:Ha; [|done]. simpl. intros Hr Ho.
  destruct (act_observes _ _ _ _ _ _ _ Hpr Ha Ho) as (p1 & Hst & Ho1).
  destruct (IH _ _ Hprs Hr Ho1) as (p' & Hrt & Ho'). exists p'. split; [|done].
  destruct Hst as [->|Hst]; [done|]. eapply rtc_l; [by eexists|done].
Qed.

(** Whoever waits on a node that runs waits for something that runs. *)
Lemma run_choices_awaited w c x l command n n' :
  run_choices l (push_command command n) = Some n' → running n' = true →
  sinv w (service n) → x ∈ waiting_for (service n') c → awaited (behaviour (service n')) c.
Proof.
  intros Hrun Hr Hi Hin. destruct (run_choices_sinv w _ _ _ Hrun Hr Hi) as [w' Hi'].
  apply (si_awaited _ _ Hi'). unfold waiting_for in Hin.
  destruct (response_channels (service n') !! c); [by eexists|].
  by apply not_elem_of_nil in Hin.
Qed.

(** Nothing happens to a request any more. *)
Definition settled (p : phase) : Prop :=
  match p with Queued | Waiting => False | Answered _ | Dropped | Stranded => True end.

Lemma settled_final c p p' :
  rtc (λ p p', ∃ st, phase_step c st p p') p p' → settled p → p' = p.
Proof. intros Hrt Hp. destruct Hrt as [|p p1 p2 [st Hst] _]; [done|by destruct Hst]. Qed.

(** C3: the life of a block request refines a state machine with five phases,
    whatever else happens in the node: at every single step of the node the phase
    of the request stays or makes a step of the machine, with the store of the
    node as it is after that step.  The request is queued; then it waits, with a
    bitswap query that runs or has been reported as finished; then it is answered
    with what the store says of the block, and keeps this answer.  A node without
    peers refuses it; when the service ends, a request that waits is dropped, and
    one that is still queued stays in the channel with nobody to take it out. *)
Theorem request_refines k config st p built relay s0 w c q x n l :
  new k config st p built relay = Ok s0 → history s0 w (service n) →
  running n = true → x ∉ senders n → x ∉ l ≫= choice_senders →
  let n0 := push_command (GetBitswap c q x) n in
  phase_of x n0 = Queued ∧
  (∀ l1 ch l2 n1 n2, l = l1 ++ ch :: l2 → run_choices l1 n0 = Some n1 → act ch n1 = Some n2 →
     phase_of x n2 = phase_of x n1 ∨
     phase_step c (store (service n2)) (phase_of x n1) (phase_of x n2)) ∧
  (∀ l1 l2 n1, l = l1 ++ l2 → run_choices l1 n0 = Some n1 → phase_of x n1 = Waiting →
     x ∈ waiting_for (service n1) c ∧ awaited (behaviour (service n1)) c) ∧
  (∀ l1 l2 n1 n2, l = l1 ++ l2 → run_choices l1 n0 = Some n1 → run_choices l2 n1 = Some n2 →
     settled (phase_of x n1) → phase_of x n2 = phase_of x n1).
Proof.
  intros Hn Hh Hr Hx Hl n0. pose proof (push_observes c q x n Hr Hx) as Ho0.
  apply private_choices in Hl.
  assert (∀ l1 l2 n1, l = l1 ++ l2 → run_choices l1 n0 = Some n1 →
    observes c q x n1 (phase_of x n1) ∧ Forall (private x) l2) as Hat.
  { intros l1 l2 n1 -> Hrun. apply Forall_app in Hl as [Hl1 Hl2].
    destruct (run_choices_observes c q x l1 _ _ _ Hl1 Hrun Ho0) as (p1 & _ & Ho).
    by rewrite (observes_phase _ _ _ _ _ Ho). }
  split_and!.
  - by eapply observes_phase.
  - intros l1 ch l2 n1 n2 Heq Hrun Ha. destruct (Hat _ _ _ Heq Hrun) as [Ho1 Hpr].
    apply Forall_cons in Hpr as [Hpr _].
    destruct (act_observes _ _ _ _ _ _ _ Hpr Ha Ho1) as (p2 & Hst & Ho2).
    by rewrite (observes_phase _ _ _ _ _ Ho2).
  - intros l1 l2 n1 Heq Hrun Hw. destruct (Hat _ _ _ Heq Hrun) as [Ho1 _].
    rewrite Hw in Ho1. destruct Ho1 as (Hr1 & _ & Hin & _). split; [done|].
    eapply run_choices_awaited; [exact Hrun|done|by eapply new_history_inv|done].
  - intros l1 l2 n1 n2 Heq Hrun1 Hrun2 Hs. destruct (Hat _ _ _ Heq Hrun1) as [Ho1 Hpr].
    destruct (run_choices_observes c q x l2 _ _ _ Hpr Hrun2 Ho1) as (p2 & Hrt & Ho2).
    rewrite (observes_phase _ _ _ _ _ Ho2). by eapply settled_final.
Qed.

Lemma phases_answered c ph ph' :
  rtc (λ ph ph', ∃ st, phase_step c st ph ph') ph ph' →
  (∀ r, ph ≠ Answered r) → ∀ r, ph' = Answered r →
  r = Err NO_PEERS_ERROR ∨ ∃ found, r = block_reply c found.
Proof.
  induction 1 as [ph|ph1 ph2 ph3 [st Hst] Hrt IH]; intros Hn r Hr; [by apply Hn in Hr|].
  destruct Hst; try (by apply IH; [intros ? [=]|]);
    (apply rtc_inv in Hrt as [Hr'|(ph' & [st' Hst'] & _)]; [|by inversion Hst']);
    rewrite <- Hr' in Hr; injection Hr as <-; [by left|by right; eexists].
Qed.

(** C4: no request hangs: whatever happened since it was sent, once the commands
    are taken and no bitswap query for its identifier runs or waits to be
    reported, a request to a service that still runs has its answer: the refusal
    of a node without peers, or what the store says of the block. *)
Theorem request_settles k config st p built relay s0 w c q x n l n' :
  new k config st p built relay = Ok s0 → history s0 w (service n) →
  running n = true → x ∉ senders n → x ∉ l ≫= choice_senders →
  run_choices l (push_command (GetBitswap c q x) n) = Some n' →
  running n' = true → commands n' = [] → ¬ awaited (behaviour (service n')) c →
  ∃ r, answer_of x n' = Some r ∧
    (r = Err NO_PEERS_ERROR ∨ ∃ found, r = block_reply c found).
Proof.
  intros Hn Hh Hr Hx Hl Hrun Hr' Hc Ha.
  destruct (run_choices_observes c q x l _ _ Queued (private_choices _ _ Hl) Hrun
    (push_observes c q x n Hr Hx)) as (ph & Hrt & Ho).
  destruct ph as [| |r| |]; simpl in Ho.
  - destruct Ho as (_ & _ & _ & l1 & l2 & Hl' & _). rewrite Hc in Hl'. by destruct l1.
  - destruct Ho as (_ & _ & Hin & _). destruct Ha.
    eapply run_choices_awaited; [exact Hrun|done|by eapply new_history_inv|done].
  - exists r. split; [done|]. by eapply phases_answered.
  - destruct Ho as [Ho _]. congruence.
  - destruct Ho as [Ho _]. congruence.
Qed.

(** ** The service keeps its promise to the server *)

Lemma request_bitswap_found c q n n' :
  request_bitswap c q n = Some (Ok (Some (Ok tt)), n') →
  Store.contains (store (service n')) c = Ok true.
Proof.
  unfold request_bitswap, request. destruct (running n) eqn:Hr; [|done].
  pose proof (new_sender_fresh n) as Hx. set (x := new_sender n) in *.
  destruct (await _ _ _ _) as [[r n1]|] eqn:Hw; simpl; [|done]. intros [= -> ->].
  eapply (await_found c q x); [|by apply push_observes|done|done].
  apply private_choices. unfold senders in Hx. rewrite !not_elem_of_app in Hx. tauto.
Qed.

#[export] Program Instance node_env : Api.NodeEnv Node := {|
  Api.w_store n := store (service n);
  Api.w_get_bitswap := request_bitswap;
  Api.w_index := request_index;
  Api.load_car := node_load_car;
  Api.write_car := car_write;
  Api.read_file p n := host_read_file p (files n);
  Api.create_dir_all p := st_zoom files with_files (host_create_dir_all p);
  Api.create_file p := st_zoom files with_files (host_create_file p);
  Api.write_file p b := st_zoom files with_files (host_write_file p b);
  Api.canceled := receiver_canceled;
  Api.debug_error := host_debug_error;
  Api.debug_cids := host_debug_cids;
  Api.header_value := host_header_value;
|}.
Next Obligation. by apply request_bitswap_found. Qed.

(** ** The API of a node *)

(** A channel that nobody has is not answered yet. *)
Lemma pick_none {R} (pick : Behaviour.Sender → Sent → option R) x n :
  (∀ m r, pick x m = Some r → sent_sender m = x) → x ∉ senders n →
  omap (pick x) (sent (service n)) = [].
Proof.
  intros Hp Hx. destruct (omap (pick x) (sent (service n))) as [|r l] eqn:Ho; [done|exfalso].
  destruct (proj1 (list_elem_of_omap (pick x) (sent (service n)) r)) as (m & Hm & Hr).
  { rewrite Ho. by left. }
  apply Hx. unfold senders. rewrite !elem_of_app. left.
  apply list_elem_of_fmap. exists m. by rewrite (Hp _ _ Hr).
Qed.

Lemma pick_block_sender x m r : pick_block x m = Some r → sent_sender m = x.
Proof. destruct m; simpl; try done. by case_decide. Qed.
Lemma pick_index_sender x m r : pick_index x m = Some r → sent_sender m = x.
Proof. destruct m; simpl; try done. by case_decide. Qed.

(** The wait for an answer, one thing at a time. *)
Lemma await_skip {R} x (pick : Sent → option R) ch script n n1 :
  omap pick (sent (service n)) = [] → running n = true → act ch n = Some n1 →
  await x pick (ch :: script) n = await x pick script n1.
Proof. intros Hp Hr Ha. cbn [await]. by rewrite Hp, Hr, Ha. Qed.

Lemma await_here {R} x (pick : Sent → option R) script n r l :
  omap pick (sent (service n)) = r :: l →
  await x pick script n = Some (Some r, with_schedule script n).
Proof. intros Hp. by destruct script; cbn [await]; rewrite Hp. Qed.

Lemma await_gone {R} x (pick : Sent → option R) script n :
  omap pick (sent (service n)) = [] → running n = false → queued x n = false →
  await x pick script n = Some (None, with_schedule script n).
Proof. intros Hp Hr Hq. by destruct script; cbn [await]; rewrite Hp, Hr, Hq. Qed.

(** Once the service has ended, requests fail at once. *)
Lemma get_after_end c n :
  running n = false → Store.contains (store (service n)) c = Ok false →
  Api.get c n = Some (Err send_failed, n).
Proof.
  intros Hr Hc. unfold Api.get. rewrite (runM_bind_ok _ _ _ false n).
  - unfold Api.request_block, mbind, runM_bind. simpl.
    unfold request_bitswap, request. by rewrite Hr.
  - unfold Api.has_block, run, st_query. simpl. by rewrite Api.bs_has_contains, Hc.
Qed.

(** An [Index] command that is taken at once is answered at once. *)
Lemma index_at_once root cids n rest :
  running n = true → commands n = [] → schedule n = TakeCommand :: rest →
  ∃ x, request_index (root :: cids) n = Some (Ok (Some (Ok (root :: cids))),
    with_schedule rest
      (with_service (ServiceProps.indexed (root :: cids) root x (service n)) n)).
Proof.
  intros Hr Hc Hs. exists (new_sender n). unfold request_index, request. rewrite Hr, Hs.
  pose proof (new_sender_fresh n) as Hx. set (x := new_sender n) in *.
  pose proof (pick_none pick_index x n (pick_index_sender x) Hx) as Hn.
  cbn [await]. simpl sent. rewrite Hn. simpl. rewrite Hr. unfold act. simpl. rewrite Hr, Hc.
  simpl. unfold do_round. cbn [round handle_command]. simpl service.
  rewrite ServiceProps.handle_index_run. simpl.
  assert (∀ l n', omap (pick_index x) (sent (service n')) = [Ok (root :: cids)] →
    await x (pick_index x) l n' = Some (Some (Ok (root :: cids)), with_schedule l n')) as Haw.
  { intros l n' Ho. by destruct l; simpl; rewrite Ho. }
  rewrite Haw; simpl; [|rewrite omap_app, Hn; simpl; by rewrite decide_True].
  by destruct n as [? ? ? ? ?]; simpl in *; subst.
Qed.

(** A CAR file whose [Index] command is taken at once. *)
Lemma put_car_at_once b root cids d rest n :
  running n = true → commands n = [] → schedule n = TakeCommand :: rest →
  car_load b (Store.db (store (service n))) = (Ok (root :: cids), d) →
  ∃ x, Api.put_car b n = Some (Ok (root :: cids), with_schedule rest
    (with_service (ServiceProps.indexed (root :: cids) root x
      (with_store (Store.new d) (service n))) n)).
Proof.
  intros Hr Hc Hs Hcar. set (n0 := with_service (with_store (Store.new d) (service n)) n).
  destruct (index_at_once root cids n0 rest) as [x Hi]; [done..|]. exists x.
  unfold Api.put_car. rewrite (runM_bind_ok _ _ _ (root :: cids) n0).
  - unfold mbind, runM_bind. simpl. by rewrite Hi.
  - unfold run. simpl. unfold node_load_car, st_zoom. by rewrite Hcar.
Qed.

(** *** When the service ends *)

(** A request that is still queued waits for ever, whatever happens afterwards. *)
Lemma await_stranded {R} x (pick : Sent → option R) script n :
  omap pick (sent (service n)) = [] → running n = false → queued x n = true →
  await x pick script n = None.
Proof.
  intros Hp Hr Hq. induction script as [|ch script IH]; cbn [await]; rewrite Hp, Hr, Hq; simpl;
    [done|]. unfold act. by rewrite Hr.
Qed.

Lemma request_stranded c q n env rest e s' :
  running n = true → schedule n = SwarmEvent env :: rest →
  round (SwarmBehaviour env) (service n) = Some (Err e, s') → sent s' = sent (service n) →
  request_bitswap c q n = None.
Proof.
  intros Hr Hs Hround Hse. unfold request_bitswap, request. rewrite Hr, Hs.
  pose proof (new_sender_fresh n) as Hx. set (x := new_sender n) in *.
  pose proof (pick_none pick_block x n (pick_block_sender x) Hx) as Hn.
  set (n1 := stopped s' (push_command (GetBitswap c q x) n)).
  rewrite (await_skip _ _ _ _ _ n1); [|done..|].
  - rewrite await_stranded; [done|by simpl; rewrite Hse|done|by eapply queued_at].
  - unfold act. simpl. rewrite Hr. unfold do_round. simpl service. by rewrite Hround.
Qed.

(** A request that waits is cancelled. *)
Lemma request_canceled c q n env rest e :
  running n = true → commands n = [] → schedule n = TakeCommand :: SwarmEvent env :: rest →
  (∀ x, ∃ s1 s', round (Command (GetBitswap c q x)) (service n) = Some (Ok tt, s1) ∧
     round (SwarmBehaviour env) s1 = Some (Err e, s') ∧
     sent s1 = sent (service n) ∧ sent s' = sent (service n)) →
  ∃ n', request_bitswap c q n = Some (Ok None, n') ∧ running n' = false.
Proof.
  intros Hr Hc Hs Hrounds. unfold request_bitswap, request. rewrite Hr, Hs.
  pose proof (new_sender_fresh n) as Hx. set (x := new_sender n) in *.
  pose proof (pick_none pick_block x n (pick_block_sender x) Hx) as Hn.
  destruct (Hrounds x) as (s1 & s' & Hr1 & Hr2 & Hs1 & Hs2).
  assert (omap (pick_block x) (sent s') = []) as Hn' by by rewrite Hs2.
  set (n1 := with_service s1 (with_commands [] n)).
  rewrite (await_skip _ _ _ _ _ n1), (await_skip _ _ _ _ _ (stopped s' n1)).
  - rewrite await_gone; [by eexists|done..].
  - by simpl; rewrite Hs1.
  - done.
  - unfold act. simpl. rewrite Hr. unfold do_round. simpl service. by rewrite Hr2.
  - done.
  - done.
  - unfold act. simpl. rewrite Hr, Hc. simpl. unfold do_round. simpl service. by rewrite Hr1.
Qed.

(** The command of a request with peers. *)
Lemma get_bitswap_quiet c q x s :
  Behaviour.peers (behaviour s) ≠ ∅ →
  ∃ s', round (Command (GetBitswap c q x)) s = Some (Ok tt, s') ∧ sent s' = sent s ∧
    store s' = store s ∧ Behaviour.events (behaviour s') = Behaviour.events (behaviour s) ∧
    index_provider s' = index_provider s ∧ local_peer_id s' = local_peer_id s.
Proof.
  intros Hp. cbn [round handle_command]. unfold handle_get_bitswap.
  rewrite (runM_bind_ok _ _ _ (behaviour s) s) by done. rewrite decide_False by done.
  rewrite (runM_bind_ok _ _ _ tt (add_channel c x s)) by done.
  unfold on_behaviour, run, st_zoom, add_channel.
  destruct q; rewrite ?Behaviour.get_block_run, ?Behaviour.sync_block_run; simpl;
    case_match; eexists; (split; [done|]); by destruct (response_channels s !! c).
Qed.

Lemma get_canceled c n n' :
  Store.contains (store (service n)) c = Ok false →
  request_bitswap c Get n = Some (Ok None, n') → Api.get c n = Some (Err receiver_canceled, n').
Proof.
  intros Hc Hq. unfold Api.get. rewrite (runM_bind_ok _ _ _ false n).
  - unfold Api.request_block, mbind, runM_bind. simpl. by rewrite Hq.
  - unfold Api.has_block, run, st_query. simpl. by rewrite Api.bs_has_contains, Hc.
Qed.

Lemma get_stranded c n :
  Store.contains (store (service n)) c = Ok false →
  request_bitswap c Get n = None → Api.get c n = None.
Proof.
  intros Hc Hq. unfold Api.get. rewrite (runM_bind_ok _ _ _ false n).
  - unfold Api.request_block, mbind, runM_bind. simpl. by rewrite Hq.
  - unfold Api.has_block, run, st_query. simpl. by rewrite Api.bs_has_contains, Hc.
Qed.

(** C13: a CAR file whose root links to a block it does not hold, uploaded to a
    node with a public address, stops the network service: the upload is
    answered with success, and the next round ends the service.  A request for a
    block that is sent after that fails; one that waits for bitswap at that
    moment is cancelled; and one that is still queued is never answered: its GET
    hangs whatever happens afterwards, since its sender stays in the channel. *)
Theorem incomplete_car_stops_node b root cids d env rest a ad e n :
  running n = true → commands n = [] → schedule n = TakeCommand :: rest →
  Behaviour.public_address (behaviour (service n)) = Some a →
  Behaviour.events (behaviour (service n)) = [] →
  Provider.root_cids (index_provider (service n)) = [] →
  car_load b (Store.db (store (service n))) = (Ok (root :: cids), d) →
  Advertisement.new (cid_to_bytes root) (local_peer_id (service n))
    [ma_to_string (publish_address a)] false = Ok ad →
  Store.dag_traversal (Store.new d) (env_fuel env) root = Some (Err e) →
  ∃ n1 n2, Api.put_car b n = Some (Ok (root :: cids), n1) ∧ running n1 = true ∧
    act (SwarmEvent env) n1 = Some n2 ∧ running n2 = false ∧
    ∀ c, Store.contains (Store.new d) c = Ok false →
      Api.get c n2 = Some (Err send_failed, n2) ∧
      ∀ script,
        Api.get c (with_schedule (SwarmEvent env :: script) n1) = None ∧
        (Behaviour.peers (behaviour (service n)) ≠ ∅ → ∃ n3,
           Api.get c (with_schedule (TakeCommand :: SwarmEvent env :: script) n1) =
             Some (Err receiver_canceled, n3) ∧ running n3 = false).
Proof.
  intros Hr Hc Hs Hpa Hev Hroots Hcar Had Hdag.
  destruct (put_car_at_once b root cids d rest n) as [x Hput]; [done..|].
  set (s1 := ServiceProps.indexed (root :: cids) root x (with_store (Store.new d) (service n)))
    in *.
  assert (∀ s, Behaviour.events (behaviour s) = Behaviour.events (behaviour s1) →
    index_provider s = index_provider s1 → local_peer_id s = local_peer_id s1 →
    store s = Store.new d → ∃ s', round (SwarmBehaviour env) s = Some (Err e, s') ∧
      sent s' = sent s ∧ store s' = Store.new d) as Hround.
  { intros s He Hp Hi Hst. eexists. split.
    - eapply (ServiceProps.incomplete_dag_round env a [] root []).
      + rewrite He. unfold s1. simpl. by rewrite Hev, Hpa.
      + rewrite Hp. unfold s1. simpl. by rewrite Hroots.
      + by rewrite Hi.
      + by rewrite Hst.
    - by split. }
  destruct (Hround s1) as (s2 & Hs2 & Hse2 & Hst2); [done..|].
  eexists _, (stopped s2 _). split; [exact Hput|]. split; [done|]. split.
  { unfold act. simpl. rewrite Hr. unfold do_round. simpl service. rewrite Hs2. reflexivity. }
  split; [done|]. intros c Hcon. split.
  { apply get_after_end; [done|]. simpl. by rewrite Hst2. }
  intros script. split.
  - apply get_stranded; [done|].
    by apply (request_stranded c Get _ env script e s2).
  - intros Hp. destruct (request_canceled c Get (with_schedule
      (TakeCommand :: SwarmEvent env :: script) (with_schedule rest (with_service s1 n)))
      env script e) as (n3 & Hq & Hr3); [done..| |].
    + intros y. destruct (get_bitswap_quiet c Get y s1) as (s3 & Hs3 & Hse & Hst & He & Hpr & Hi);
        [done|]. destruct (Hround s3) as (s4 & Hs4 & Hse4 & _); [done..|].
      exists s3, s4. by rewrite Hse4, Hse.
    + exists n3. split; [|done]. by apply get_canceled.
Qed.
End node.

(** ** Evaluation on a concrete node *)

From S2P Require Import ServiceSamples.

(** A CAR file is a root, named by its first byte, and the links of its block. *)
Definition sample_car_load (b : bytes) : stM sample_db string (list Cid) := λ d,
  match b with
  | root :: refs => (Ok [sid root], <[ [root] := refs ]> d)
  | [] => (Err "empty CAR file", d)
  end.

Definition sample_host : HostLib sample_db := {|
  Files := gmap string bytes;
  car_load := sample_car_load;
  car_write _ blocks := Ok (concat (snd <$> blocks));
  host_read_file p f := match f !! p with Some b => Ok b | None => Err "no such file" end;
  host_create_dir_all _ f := (Ok tt, f);
  host_create_file _ f := (Ok tt, f);
  host_write_file p b f := (Ok tt, <[p := b]> f);
  send_failed := "channel closed";
  receiver_canceled := "oneshot canceled";
  host_debug_error e := e;
  host_debug_cids _ := "cids";
  host_header_value s := Some s;
|}.
#[export] Existing Instance sample_host.

Definition sample_node (s : UrsaService (DB:=sample_db)) (l : list choice) : Node :=
  {| service := s; running := true; commands := []; schedule := l;
     files := (∅ : gmap string bytes) |}.

(** The command is taken, the block arrives, the query is finished. *)
Definition sample_run : list choice :=
  [TakeCommand; BlockArrives (sid x07, [x01]);
   Library (LibBitswap (Complete (qid 0) (Ok tt))); SwarmEvent sample_env].

Definition sample_asked : Node :=
  push_command (GetBitswap (sid x07) Get 9%N) (sample_node sample_connected []).
Definition sample_after : Node := default sample_asked (run_choices sample_run sample_asked).

Lemma request_refines_witness :
  phase_of 9%N sample_after = Answered (Ok tt) ∧
  phase_of 9%N sample_asked = Queued ∧
  ∀ n1, run_choices [TakeCommand] sample_asked = Some n1 → phase_of 9%N n1 = Waiting →
    awaited (behaviour (service n1)) (sid x07).
Proof.
  split; [vm_compute; reflexivity|].
  destruct (request_refines (keypair_of x01) Discovery.sample_config Store.sample_dag
    Provider.sample_provider sample_built Behaviour.sample_relay_client sample_started []
    (sid x07) Get 9%N (sample_node sample_connected []) sample_run) as (Hq & _ & Hw & _).
  - reflexivity.
  - exact sample_connected_history.
  - reflexivity.
  - vm_compute. apply not_elem_of_nil.
  - vm_compute. apply not_elem_of_nil.
  - split; [exact Hq|]. intros n1 Hn1 Hp. by eapply (Hw [TakeCommand]).
Defined.

(** A second request, which finds no block: the query fails. *)
Definition sample_settled_run : list choice :=
  [TakeCommand; Library (LibBitswap (Complete (qid 0) (Err "no provider")));
   SwarmEvent sample_env].
Definition sample_settled : Node := default sample_asked (run_choices sample_settled_run sample_asked).

Lemma request_settles_witness :
  ∃ r, answer_of 9%N sample_settled = Some r ∧
    (r = Err NO_PEERS_ERROR ∨ ∃ found, r = block_reply (sid x07) found).
Proof.
  apply (request_settles (keypair_of x01) Discovery.sample_config Store.sample_dag
    Provider.sample_provider sample_built Behaviour.sample_relay_client sample_started []
    (sid x07) Get 9%N (sample_node sample_connected []) sample_settled_run sample_settled).
  - reflexivity.
  - exact sample_connected_history.
  - reflexivity.
  - vm_compute. apply not_elem_of_nil.
  - vm_compute. apply not_elem_of_nil.
  - apply some_default. vm_compute. reflexivity.
  - vm_compute. reflexivity.
  - vm_compute. reflexivity.
  - assert (Behaviour.queries (behaviour (service sample_settled)) = ∅ ∧
      Behaviour.events (behaviour (service sample_settled)) = []) as [Hq He]
      by (split; vm_compute; reflexivity).
    intros [(i & inf & Hi & _)|(inf & Hi & _)].
    + by rewrite Hq in Hi.
    + rewrite He in Hi. by apply not_elem_of_nil in Hi.
Defined.

(** A connected node with a public address, to which a CAR file is uploaded. *)
Definition sample_public : Node :=
  sample_node (with_behaviour (Behaviour.with_autonat (Some (Some (maddr [Tcp 6009])))
    (behaviour sample_connected)) sample_connected) [TakeCommand].

Lemma incomplete_car_stops_node_witness :
  ∃ n1 n2 n3, Api.put_car [x09; x0a] sample_public = Some (Ok [sid x09], n1) ∧
    running n2 = false ∧ Api.get (sid x0b) n2 = Some (Err "channel closed", n2) ∧
    Api.get (sid x0b) (with_schedule [SwarmEvent sample_env] n1) = None ∧
    Api.get (sid x0b) (with_schedule [TakeCommand; SwarmEvent sample_env] n1) =
      Some (Err "oneshot canceled", n3).
Proof.
  edestruct (incomplete_car_stops_node [x09; x0a] (sid x09) []
    (<[ [x09] := [x0a] ]> (Store.db Store.sample_dag)) sample_env [] (maddr [Tcp 6009]))
    with (n := sample_public) as (n1 & n2 & Hp & _ & _ & Hr & Hg);
    [reflexivity..|vm_compute; reflexivity|].
  destruct (Hg (sid x0b)) as [Hafter Hbefore]; [reflexivity|].
  destruct (Hbefore []) as [Hhangs Hwaits]. destruct Hwaits as (n3 & Hn3 & _).
  - intros Hx. apply (f_equal (λ X : gset PeerId, bool_decide (X = ∅))) in Hx.
    vm_compute in Hx. discriminate Hx.
  - exists n1, n2, n3. by split_and!.
Defined.
