(* ===== verification/Runs.v ===== *)
(** Runs of a node: what every step keeps, a run keeps, and so does a request that
    waits for its answer. *)

From S2P Require Import Prelude Libs Utils Codec Protocols IndexLibs Service ServiceHistory.
From S2P Require Import Requests Node.
From S2P Require Store Behaviour.

Section runs.
  Context {DB : Type} {cl : CidLib} {bs : BlockStore DB} {os : ObjStore DB}.
  Context {il : IpldLib} {hi : HashIter Cid}.
  Context {nl : NetLib} {ml : MultiaddrLib} {sw : SwarmTypes} {swl : SwarmLib}.
  Context {kl : KadLib} {md : MdnsLib} {gl : GossipLib} {bl : BitswapLib}.
  Context {rl : RequestResponseLib} {al : NatLib} {dl : DebugLib}.
  Context {key : KeyLib} {el : EncodeLib} {cbor : CborLib} {host : HostLib DB}.
  Implicit Types (n : Node (DB:=DB)).

(** Everything in [script] happens in a state where [Q] allows it. *)
Fixpoint run_meets (Q : choice → Node (DB:=DB) → Prop) (script : list choice) n : Prop :=
  match script with
  | [] => True
  | ch :: script => Q ch n ∧ match act ch n with Some n' => run_meets Q script n' | None => True end
  end.

Lemma run_meets_cons Q ch script n n' :
  act ch n = Some n' → run_meets Q (ch :: script) n → Q ch n ∧ run_meets Q script n'.
Proof. intros Ha. simpl. by rewrite Ha. Qed.

Lemma run_meets_prefix Q l l' n : run_meets Q (l ++ l') n → run_meets Q l n.
Proof.
  revert n. induction l as [|ch l IH]; intros n; [done|]. simpl.
  intros [Hq Hr]. split; [done|]. destruct (act ch n); [by apply IH|done].
Qed.

Lemma run_meets_suffix Q l l' n n1 :
  run_meets Q (l ++ l') n → run_choices l n = Some n1 → run_meets Q l' n1.
Proof.
  revert n. induction l as [|ch l IH]; intros n; simpl; [by intros ? [= <-]|].
  destruct (act ch n) as [n2|]; [|done]. simpl. intros [_ Hr]. by apply IH.
Qed.

Lemma run_choices_preserves (P : Node (DB:=DB) → Prop) Q l n n' :
  (∀ ch n n', Q ch n → act ch n = Some n' → P n → P n') →
  run_meets Q l n → run_choices l n = Some n' → P n → P n'.
Proof.
  intros Hstep. revert n. induction l as [|ch l IH]; intros n; simpl; [by intros _ [= <-]|].
  intros [Hq Hm]. destruct (act ch n) as [n1|] eqn:Ha; [|done]. simpl. intros Hr Hp.
  eapply IH; [exact Hm|exact Hr|by eapply Hstep].
Qed.

(** Nothing happens to a node whose service has ended. *)
Lemma run_choices_stopped l n n' : running n = false → run_choices l n = Some n' → n' = n.
Proof.
  intros Hr. induction l as [|ch l IH]; simpl; [by intros [= <-]|].
  unfold act at 1. by rewrite Hr.
Qed.

(** An answer comes at the end of a run. *)
Lemma await_run {R} x (pick : Sent → option R) script n r n' :
  await x pick script n = Some (r, n') →
  ∃ l l' n1, script = l ++ l' ∧ run_choices l n = Some n1 ∧ n' = with_schedule l' n1 ∧
    head (omap pick (sent (service n1))) = r ∧
    (r = None → running n1 = false ∧ queued x n1 = false).
Proof.
  revert n. induction script as [|ch script IH]; intros n; cbn [await];
    destruct (head (omap pick (sent (service n)))) as [y|] eqn:Hh.
  - intros [= <- <-]. by exists [], [], n.
  - destruct (running n || queued x n) eqn:Hr; [done|]. apply orb_false_elim in Hr.
    intros [= <- <-]. by exists [], [], n.
  - intros [= <- <-]. by exists [], (ch :: script), n.
  - destruct (running n || queued x n) eqn:Hr; last first.
    { apply orb_false_elim in Hr. intros [= <- <-]. by exists [], (ch :: script), n. }
    destruct (act ch n) as [n1|] eqn:Ha; [|done]. simpl.
    intros (l & l' & n2 & -> & Hrun & -> & Hx)%IH. exists (ch :: l), l', n2. simpl. by rewrite Ha.
Qed.

(** A request that has come to its end. *)
Lemma request_run {R} (command : Behaviour.Sender → UrsaCommand)
    (pick : Behaviour.Sender → Sent → option R) n r n' :
  request command pick n = Some (Ok r, n') →
  let x := new_sender n in
  ∃ l l' n1, schedule n = l ++ l' ∧ running n = true ∧
    run_choices l (push_command (command x) n) = Some n1 ∧ n' = with_schedule l' n1 ∧
    head (omap (pick x) (sent (service n1))) = r ∧
    (r = None → running n1 = false ∧ queued x n1 = false).
Proof.
  unfold request. destruct (running n) eqn:Hr; [|done].
  destruct (await _ _ _ _) as [[r' n2]|] eqn:Ha; [|done]. intros [= -> ->].
  destruct (await_run _ _ _ _ _ _ Ha) as (l & l' & n1 & ? & ? & ? & ? & ?).
  exists l, l', n1. by split_and!.
Qed.

(** The first step of a run after which [P] holds. *)
Lemma run_first (P : Node (DB:=DB) → Prop) `{∀ n, Decision (P n)} l n n' :
  run_choices l n = Some n' → ¬ P n → P n' →
  ∃ l1 ch l2 n1 n2, l = l1 ++ ch :: l2 ∧ run_choices l1 n = Some n1 ∧ ¬ P n1 ∧
    act ch n1 = Some n2 ∧ P n2 ∧ run_choices l2 n2 = Some n'.
Proof.
  revert n. induction l as [|ch l IH]; intros n; simpl; [by intros [= <-]|].
  destruct (act ch n) as [n1|] eqn:Ha; [|done]. simpl. intros Hrun Hn Hn'.
  destruct (decide (P n1)) as [Hp|Hp]; [by exists [], ch, l, n, n1|].
  destruct (IH n1 Hrun Hp Hn') as (l1 & ch' & l2 & n2 & n3 & -> & ? & ? & ? & ? & ?).
  exists (ch :: l1), ch', l2, n2, n3. simpl. by rewrite Ha.
Qed.

(** What a request for a block is told. *)
Lemma request_bitswap_told c q n v n' :
  request_bitswap c q n = Some (Ok (Some v), n') →
  v = Err NO_PEERS_ERROR ∨ ∃ found, v = block_reply c found.
Proof.
  intros (l & l' & n1 & Hs & Hr & Hrun & -> & Hh & _)%request_run.
  pose proof (new_sender_fresh n) as Hx.
  assert (Forall (private (new_sender n)) l) as Hp.
  { apply private_choices. unfold senders in Hx. rewrite Hs, bind_app, !not_elem_of_app in Hx.
    tauto. }
  destruct (run_choices_observes c q _ l _ _ Queued Hp Hrun (push_observes c q _ n Hr Hx))
    as (ph & Hrt & Ho).
  assert (ph = Answered v) as ->.
  { unfold answer_of, observes in *. unfold answer_of in Ho. destruct ph; naive_solver. }
  by eapply phases_answered; [exact Hrt| |].
Qed.
End runs.
