(* ===== verification/Events.v ===== *)
(** Where the events of the application come from: from the libraries, through the
    queue of the behaviour ([src/crates/ursa-network/src/behaviour.rs]) and the
    loop of the service ([service.rs]) into the channel of events. *)

From S2P Require Import Prelude Libs Utils Codec Protocols IndexLibs Service ServiceHistory.
From S2P Require Import Frame Node.
From S2P Require Store NetConfig Discovery Metrics Behaviour Advertisement Provider.

Section events.
  Context {DB : Type} {cl : CidLib} {bs : BlockStore DB} {os : ObjStore DB}.
  Context {il : IpldLib} {hi : HashIter Cid}.
  Context {nl : NetLib} {ml : MultiaddrLib} {sw : SwarmTypes} {swl : SwarmLib}.
  Context {kl : KadLib} {md : MdnsLib} {gl : GossipLib} {bl : BitswapLib}.
  Context {rl : RequestResponseLib} {al : NatLib} {dl : DebugLib}.
  Context {key : KeyLib} {el : EncodeLib} {cbor : CborLib} {host : HostLib DB}.
  Implicit Types (s : UrsaService (DB:=DB)) (n : Node (DB:=DB)).
  Implicit Types (b : Behaviour.Behaviour) (ev : Behaviour.BehaviourEvent).

(** ** What a library event raises *)

Definition raised b (e : library_event) ev : Prop :=
  match e, ev with
  | LibBitswap (Complete q _), Behaviour.BitswapFinished info =>
    ∃ info', Behaviour.queries b !! q = Some info' ∧ Behaviour.cid info = Behaviour.cid info'
  | LibGossipsub (GossipsubEventMessage p m), Behaviour.GossipMessage p' t m' =>
    p' = p ∧ t = msg_topic m ∧ m' = m
  | LibRequestResponse (Message p (Request _ r ch)), Behaviour.RequestMessage p' r' ch' =>
    p' = p ∧ r' = r ∧ ch' = ch
  | LibAutonat (StatusChanged o n), Behaviour.NatStatusChanged o' n' => o' = o ∧ n' = n
  | LibRelayServer (ReservationReqAccepted p _), Behaviour.RelayReservationOpened p' => p' = p
  | LibRelayServer (ReservationTimedOut p), Behaviour.RelayReservationClosed p' => p' = p
  | LibRelayServer CircuitReqAccepted, Behaviour.RelayCircuitOpened
  | LibRelayServer CircuitClosed, Behaviour.RelayCircuitClosed => True
  | LibDiscovery call, Behaviour.PeerConnected p =>
    Discovery.Connected p ∈ (call_discovery call (Behaviour.discovery b)).1
  | LibDiscovery call, Behaviour.PeerDisconnected p =>
    Discovery.Disconnected p ∈ (call_discovery call (Behaviour.discovery b)).1
  | _, _ => False
  end.

Lemma push_event_elem b ev' ev :
  ev ∈ Behaviour.events (Behaviour.push_event ev' b) ↔ ev ∈ Behaviour.events b ∨ ev = ev'.
Proof. simpl. unfold push_back. by rewrite elem_of_app, list_elem_of_singleton. Qed.

Lemma add_listen_addrs_events peer l b :
  Behaviour.events (foldl (Behaviour.add_listen_addr peer) b l) = Behaviour.events b.
Proof. revert b. induction l as [|a l IH]; intros b; [done|]. simpl. by rewrite IH. Qed.

Lemma handle_discovery_events out b ev :
  ev ∈ Behaviour.events (foldl (λ b e, Behaviour.handle_discovery e b) b out) →
  ev ∈ Behaviour.events b ∨
  ∃ p, ev = Behaviour.PeerConnected p ∧ Discovery.Connected p ∈ out ∨
    ev = Behaviour.PeerDisconnected p ∧ Discovery.Disconnected p ∈ out.
Proof.
  revert b. induction out as [|e out IH]; intros b; [by left|]. simpl.
  intros [Hi|(p & Hp)]%IH.
  - destruct e as [p|p]; apply push_event_elem in Hi as [?| ->]; try (by left); right; exists p;
      set_solver.
  - right. exists p. set_solver.
Qed.

(** The queue grows by what the libraries raise, and by nothing else. *)
Lemma library_events e b ev :
  ev ∈ Behaviour.events (library_step e b) → ev ∈ Behaviour.events b ∨ raised b e ev.
Proof.
  destruct e as [[|q o]|[]|[]|[| | | |]|[]|[? []| | |]|call|x|x|x]; simpl;
    try (case_match eqn:Hm; [|by left]); try by left.
  all: try (intros [?| ->]%push_event_elem; [by left|by right]).
  - intros [?| ->]%push_event_elem; [by left|]. right. simpl. by eexists.
  - rewrite add_listen_addrs_events. by left.
  - unfold Behaviour.answer. case_match; by left.
  - unfold Behaviour.answer. case_match; by left.
  - destruct (call_discovery call (Behaviour.discovery b)) as [out d] eqn:Hc.
    intros [?|(p & [[-> ?]|[-> ?]])]%handle_discovery_events; [by left|by right..].
Qed.

(** ** One thing at a time *)

Lemma do_round_frame i n n' :
  do_round i n = Some n' → ∃ s', frame (input_polls i) (λ e, ∃ ev,
    ev ∈ Behaviour.events (behaviour (service n)) ∧ hands ev e) (service n) s' ∧
    (service n' = s' ∨ service n' = closed s').
Proof.
  unfold do_round. destruct (round i (service n)) as [[o s']|] eqn:Hr; [|done].
  intros Hn'. exists s'. split; [by eapply round_frame|].
  destruct o; injection Hn' as <-; [by left|by right..].
Qed.

(** What [n'] holds was there in [n], but for the service's own events in the
    queue, and events of the queue in the channel. *)
Definition handed n n' : Prop :=
  (∀ ev, ev ∈ Behaviour.events (behaviour (service n')) →
     ev ∈ Behaviour.events (behaviour (service n)) ∨ own_event ev) ∧
  ∀ e, e ∈ event_channel (service n') → e ∈ event_channel (service n) ∨
    ∃ ev, ev ∈ Behaviour.events (behaviour (service n)) ∧ hands ev e.

Lemma do_round_events i n n' : do_round i n = Some n' → handed n n'.
Proof.
  intros (s' & [_ Hev (l & Hl & Hf)] & Hs)%do_round_frame. rewrite Forall_forall in Hf.
  split; destruct Hs as [-> | ->]; simpl; try done.
  - intros e. rewrite Hl, elem_of_app. intros [?|?]; [by left|right; by apply Hf].
  - by intros e ?%not_elem_of_nil.
Qed.

(** What is queued or told after a step was queued, told or raised. *)
Lemma act_events ch n n' :
  act ch n = Some n' →
  (∀ ev, ev ∈ Behaviour.events (behaviour (service n')) →
     ev ∈ Behaviour.events (behaviour (service n)) ∨ own_event ev ∨
     ∃ e, ch = Library e ∧ raised (behaviour (service n)) e ev) ∧
  ∀ e, e ∈ event_channel (service n') → e ∈ event_channel (service n) ∨
    ∃ ev, ev ∈ Behaviour.events (behaviour (service n)) ∧ hands ev e.
Proof.
  intros Ha. assert (∀ i n1, service n1 = service n → do_round i n1 = Some n' →
    (∀ ev, ev ∈ Behaviour.events (behaviour (service n')) →
       ev ∈ Behaviour.events (behaviour (service n)) ∨ own_event ev ∨
       ∃ e, ch = Library e ∧ raised (behaviour (service n)) e ev) ∧
    ∀ e, e ∈ event_channel (service n') → e ∈ event_channel (service n) ∨
      ∃ ev, ev ∈ Behaviour.events (behaviour (service n)) ∧ hands ev e) as Hround.
  { intros i n1 Hs [Hev Hch]%do_round_events. rewrite Hs in *. split; [|done].
    intros ev [?|?]%Hev; [by left|by right; left]. }
  unfold act in Ha. destruct (running n); [|by injection Ha as <-; split; left].
  destruct ch as [|env| |command|e|block|y]; [destruct (commands n)|..];
    try (by eapply Hround; [|exact Ha]);
    injection Ha as <-; (split; [|by left]); try (by left).
  intros ev [?|?]%library_events; [by left|right; right; by exists e].
Qed.

(** ** Authenticity *)

(** The event that the application is told of when the library event [lib] meets
    the behaviour [b]. *)
Definition emits b (lib : library_event) (e : UrsaEvent) : Prop :=
  match e with
  | GossipsubMessageEvent m => ∃ p, lib = LibGossipsub (GossipsubEventMessage p m)
  | RequestMessage r ch => ∃ p i, lib = LibRequestResponse (Message p (Request i r ch))
  | PeerConnected p => ∃ call, lib = LibDiscovery call ∧
      Discovery.Connected p ∈ (call_discovery call (Behaviour.discovery b)).1
  | PeerDisconnected p => ∃ call, lib = LibDiscovery call ∧
      Discovery.Disconnected p ∈ (call_discovery call (Behaviour.discovery b)).1
  | BitswapEvent_ _ => False
  end.

Lemma raised_emits b lib ev e : raised b lib ev → hands ev e → emits b lib e.
Proof.
  intros Hr Hh. destruct ev, e; try done;
    destruct lib as [[|q o]|[]|[]|[]|[]|[? []| | |]|call|x|x|x]; try done; simpl in Hr, Hh;
    destruct_and?; simplify_eq; simpl; eauto.
Qed.

(** [e] is told because of a library event at a certain point of the run. *)
Definition originates (l : list (choice (DB:=DB))) n (e : UrsaEvent) : Prop :=
  ∃ l1 lib l2 n1, l = l1 ++ Library lib :: l2 ∧ run_choices l1 n = Some n1 ∧
    emits (behaviour (service n1)) lib e.

Lemma originates_cons ch (l : list (choice (DB:=DB))) n n1 e :
  act ch n = Some n1 → originates l n1 e → originates (ch :: l) n e.
Proof.
  intros Ha (l1 & lib & l2 & n2 & -> & Hrun & He). exists (ch :: l1), lib, l2, n2.
  split; [done|]. split; [|done]. by rewrite (run_choices_cons _ _ _ n1).
Qed.

(** C10: nothing in the channel of events is made up: whatever the node does, an
    event that the application is told was in the channel before, or stood in the
    queue of the behaviour, or a library raised it at some point of the run: a
    gossip message was delivered by gossipsub just so, a request by the request
    protocol with the channel to answer it, and the connection or disconnection of
    a peer was reported for that peer by discovery, called in the state that it
    had at that point. *)
Theorem events_authentic l n n' e :
  run_choices l n = Some n' → e ∈ event_channel (service n') →
  e ∈ event_channel (service n) ∨
  (∃ ev, ev ∈ Behaviour.events (behaviour (service n)) ∧ hands ev e) ∨
  ∃ l1 lib l2 n1, l = l1 ++ Library lib :: l2 ∧ run_choices l1 n = Some n1 ∧
    emits (behaviour (service n1)) lib e.
Proof.
  revert n. induction l as [|ch l IH]; intros n; simpl; [intros [= <-]; by left|].
  destruct (act ch n) as [n1|] eqn:Ha; [|done]. simpl. intros Hrun He.
  destruct (act_events _ _ _ Ha) as [Hev Hch].
  destruct (IH n1 Hrun He) as [Hin|[(ev & Hin & Hh)|Ho]].
  - apply Hch in Hin as [?|?]; [by left|by right; left].
  - destruct (Hev _ Hin) as [?|[Hown|(lib & -> & Hr)]].
    + right; left. by exists ev.
    + by destruct ev.
    + right; right. exists [], lib, l, n. split; [done|]. split; [done|].
      by eapply raised_emits.
  - right; right. by eapply originates_cons.
Qed.
End events.

(** ** Evaluation on a concrete node *)

From S2P Require Import ServiceSamples.

(** A peer connects, and the swarm polls discovery and hands the event on. *)
Definition sample_visit : list choice :=
  [Library (LibDiscovery (ConnectionEstablished (pid 6) (conn 0) tt None 0%N));
   Library (LibDiscovery (PollDiscovery 5)); SwarmEvent sample_env].
Definition sample_host_node : Node (DB:=sample_db) := sample_node sample_started [].
Definition sample_visited : Node (DB:=sample_db) :=
  default sample_host_node (run_choices sample_visit sample_host_node).

Lemma events_authentic_witness :
  ∃ l1 call l2 n1, sample_visit = l1 ++ Library (LibDiscovery call) :: l2 ∧
    run_choices l1 sample_host_node = Some n1 ∧
    Discovery.Connected (pid 6) ∈
      (call_discovery call (Behaviour.discovery (behaviour (service n1)))).1.
Proof.
  destruct (events_authentic sample_visit sample_host_node sample_visited
    (PeerConnected (pid 6))) as [Hin|[(ev & Hin & _)|Ho]].
  - apply some_default. vm_compute. reflexivity.
  - apply list_elem_of_In. vm_compute. left. reflexivity.
  - by apply not_elem_of_nil in Hin.
  - by apply not_elem_of_nil in Hin.
  - destruct Ho as (l1 & lib & l2 & n1 & Hl & Hrun & call & -> & Hc). by exists l1, call, l2, n1.
Defined.
