(* ===== verification/Publication.v ===== *)
(** The publication of content, from the upload of a CAR file to what an indexer
    reads: the handler of [StartPublish]
    ([src/crates/ursa-network/src/service.rs]) over the calls of the index
    provider ([src/crates/ursa-index-provider/src/provider.rs]), on a node whose
    libraries do not fail. *)

From S2P Require Import Prelude Libs Utils Codec Protocols IndexLibs Service ServiceHistory.
From S2P Require Import Node ServiceSamples.
From S2P Require Store Behaviour SignedHead Advertisement Provider Discovery ServiceProps Api.

(** ** Libraries that do not fail *)

Section reliable.
  Context (DB : Type) {cl : CidLib} {bs : BlockStore DB} {os : ObjStore DB}.
  Context {nl : NetLib} {ml : MultiaddrLib} {gl : GossipLib}.
  Context {key : KeyLib} {el : EncodeLib} {cbor : CborLib}.

(** The encoders encode, the database stores, keys sign, and neither the parser
    of addresses nor gossipsub panics. *)
Record reliable : Prop := {
  rl_entries : ∀ l, is_ok (entries_to_vec l) = true;
  rl_chunk : ∀ c, is_ok (chunk_to_vec c) = true;
  rl_ipld : ∀ i, is_ok (ipld_to_vec i) = true;
  rl_ad : ∀ ad, is_ok (ad_to_ipld ad) = true;
  rl_addrs : ∀ l, is_ok (addrs_to_vec l) = true;
  rl_cid : ∀ c buffer, is_ok (cid_encode c buffer).1 = true;
  rl_array : ∀ b buffer, is_ok (array_encode b buffer).1 = true;
  rl_put : ∀ b (d : DB), is_ok (bs_put b d).1 = true;
  rl_metadata : ∀ n b, is_ok (bincode_metadata n b) = true;
  rl_sign : ∀ k b, is_ok (key_sign k b) = true;
  rl_envelope : ∀ k domain t b, is_ok (envelope_new k domain t b) = true;
  rl_address : ∀ a, ma_from_str a ≠ Panic;
  rl_gossip : ∀ t b (g : Gossipsub), (gs_publish t b g).1 ≠ Panic;
}.
End reliable.

Section publication.
  Context {DB : Type} {cl : CidLib} {bs : BlockStore DB} {os : ObjStore DB}.
  Context {il : IpldLib} {hi : HashIter Cid}.
  Context {nl : NetLib} {ml : MultiaddrLib} {sw : SwarmTypes} {swl : SwarmLib}.
  Context {kl : KadLib} {md : MdnsLib} {gl : GossipLib} {bl : BitswapLib}.
  Context {rl : RequestResponseLib} {al : NatLib} {dl : DebugLib}.
  Context {key : KeyLib} {el : EncodeLib} {cbor : CborLib} {host : HostLib DB}.
  Context (Hrel : reliable DB).
  Implicit Types (s : UrsaService (DB:=DB)) (p : Provider.Provider (DB:=DB)).

(** ** The calls of the provider succeed *)

Lemma put_obj_total {A} (to_vec : A → outcome string bytes) x p :
  (∀ x, is_ok (to_vec x) = true) →
  ∃ c p', Provider.put_obj to_vec x p = (Ok c, p') ∧
    Provider.temp_ads p' = Provider.temp_ads p.
Proof.
  intros Ht. unfold Provider.put_obj. destruct (is_ok_inv _ (Ht x)) as [b Hb].
  rewrite (st_bind_ok _ _ _ b p) by (unfold st_lift; by rewrite Hb).
  unfold st_zoom. pose proof (rl_put _ Hrel b (Provider.blockstore p)) as Hp.
  destruct (bs_put b _) as [[c| |] d]; [|done..]. by eexists _, _.
Qed.

Lemma add_chunk_total b id p ad l :
  entries_from_slice b = Ok l → Provider.temp_ads p !! id = Some ad →
  ∃ c p', Provider.add_chunk b id p = (Ok tt, p') ∧
    Provider.temp_ads p' !! id = Some (Advertisement.with_entries (Some (IpldLink c)) ad).
Proof.
  intros Hb Had. unfold Provider.add_chunk.
  rewrite (st_bind_ok _ _ _ l p) by (unfold st_lift; by rewrite Hb).
  rewrite (st_bind_ok _ _ _ (Provider.temp_ads p) p) by done. rewrite Had.
  destruct (put_obj_total chunk_to_vec (Advertisement.chunk_new l (Advertisement.Entries ad)) p)
    as (c & p1 & Hc & Ht); [exact (rl_chunk _ Hrel)|].
  rewrite (st_bind_ok _ _ _ c p1) by done.
  rewrite (st_bind_ok _ _ _ c p1) by (unfold st_lift; by rewrite convert_cid_to_bytes).
  eexists c, _. split; [done|]. simpl. by rewrite lookup_insert_eq.
Qed.

Lemma add_chunks_total id cs p ad :
  Provider.temp_ads p !! id = Some ad →
  Advertisement.is_link (Advertisement.Entries ad) = true →
  ∃ e p', Provider.add_chunks id cs p = (Ok tt, p') ∧
    Provider.temp_ads p' !! id = Some (Advertisement.with_entries e ad) ∧
    Advertisement.is_link e = true.
Proof.
  revert p ad. induction cs as [|l cs IH]; intros p ad Had Hl.
  { exists (Advertisement.Entries ad), p. by rewrite Advertisement.with_entries_id. }
  destruct (is_ok_inv _ (rl_entries _ Hrel l)) as [b Hb].
  destruct (add_chunk_total b id p ad l (entries_round_trip _ _ Hb) Had) as (c & p1 & Hc & Had1).
  destruct (IH _ _ Had1 eq_refl) as (e & p' & Hr & Had' & He).
  exists e, p'. split; [|done]. unfold Provider.add_chunks. simpl.
  rewrite (st_bind_ok _ _ _ tt p1); [done|].
  rewrite (st_bind_ok _ _ _ b p) by (unfold st_lift; by rewrite Hb).
  unfold st_unwrap. by rewrite Hc.
Qed.

Lemma publish_total id p ad :
  Provider.temp_ads p !! id = Some ad →
  Advertisement.is_link (Advertisement.Entries ad) = true →
  Advertisement.is_bytes (Advertisement.AdMetadata ad) = true →
  ∃ p', Provider.publish id p = (Ok tt, p').
Proof.
  intros Had He Hm. unfold Provider.publish. st_unfold.
  rewrite Had, Provider.previous_link_ok.
  set (ad1 := Advertisement.with_previous (IpldLink <$> Provider.head p) ad).
  assert (∃ ad2, Provider.sign_ad (Provider.keypair p) ad1 = Ok ad2) as [ad2 ->].
  { destruct (is_ok_inv (Advertisement.sig_payload ad1)) as [b Hb].
    - unfold Advertisement.sig_payload.
      destruct (is_ok_inv (Advertisement.raw_payload ad1)) as [x ->]; [|done].
      apply Advertisement.raw_payload_ok; [|done..]. by destruct (Provider.head p).
    - unfold Provider.sign_ad, Advertisement.sign. rewrite Hb. simpl.
      edestruct (is_ok_inv (envelope_new (Provider.keypair p) Advertisement.AD_SIGNATURE_DOMAIN
        (as_bytes Advertisement.AD_SIGNATURE_CODEC) b)) as [env ->];
        [exact (rl_envelope _ Hrel _ _ _ _)|]. by eexists. }
  destruct (is_ok_inv _ (rl_ad _ Hrel ad2)) as [i ->].
  destruct (put_obj_total ipld_to_vec i (Provider.with_temp_ads (delete id (Provider.temp_ads p))
    (Provider.with_head None p))) as (c & p1 & -> & _); [exact (rl_ipld _ Hrel)|].
  by eexists.
Qed.
Lemma marshal_total m : ∃ b, Provider.marshal_cbor m = Ok b.
Proof.
  unfold Provider.marshal_cbor, Provider.ignored. st_unfold.
  pose proof (rl_cid _ Hrel (Provider.MsgCid m) ([] ++ [x83])) as Hc.
  destruct (cid_encode _ _) as [[[]| |] b1]; [|done..].
  destruct (is_ok_inv _ (rl_addrs _ Hrel (Provider.Addrs m))) as [e ->]. simpl.
  pose proof (rl_array _ Hrel (Provider.ExtraData m) (b1 ++ e)) as Ha.
  destruct (array_encode _ _) as [[[]| |] b2]; [|done..]. by eexists.
Qed.

(** An announcement may fail to be made, but it stops nothing. *)
Lemma announce_msg_total peer p :
  is_Some (Provider.head p) → Provider.create_announce_msg peer p ≠ Panic.
Proof.
  intros [c Hc]. unfold Provider.create_announce_msg.
  destruct (ma_from_str _) as [a| |] eqn:Ha; [|done|by apply (rl_address _ Hrel) in Ha]. simpl.
  destruct (ma_from_str (_ +:+ _)) as [a'| |] eqn:Ha'; [|done|by apply (rl_address _ Hrel) in Ha'].
  simpl. rewrite Hc. simpl.
  edestruct marshal_total as [b ->]. done.
Qed.

Lemma announce_total msg s :
  ∃ s', announce msg s = Some (Ok tt, s') ∧ store s' = store s ∧
    local_peer_id s' = local_peer_id s ∧ index_provider s' = index_provider s.
Proof.
  unfold announce, mbind, runM_bind, mret, runM_ret, on_behaviour, run, st_zoom,
    st_gets, st_modify, st_try, Behaviour.publish, st_zoom. simpl.
  pose proof (rl_gossip _ Hrel (topic_new INDEXER_TOPIC) msg
    (Behaviour.gossipsub (behaviour s))) as Hg.
  destruct (gs_publish _ _ _) as [[]]; [| |done]; by eexists.
Qed.

(** The publication of a root whose DAG is whole. *)
Lemma publish_root_total fuel id address root dag s :
  Store.dag_traversal (store s) fuel root = Some (Ok dag) →
  ∃ s', publish_root fuel id address root s = Some (Ok tt, s') ∧
    store s' = store s ∧ local_peer_id s' = local_peer_id s.
Proof.
  intros Hdag. unfold publish_root. rewrite (runM_bind_ok _ _ _ s s) by done.
  destruct (is_ok_inv _ (rl_metadata _ Hrel 0x0900%N [])) as [m Hm].
  destruct (is_ok_inv (Advertisement.new (cid_to_bytes root) (local_peer_id s)
    [ma_to_string address] false)) as [ad Had]; [by unfold Advertisement.new; simpl; rewrite Hm|].
  rewrite (runM_bind_ok _ _ _ ad s) by (unfold run, st_lift; by rewrite Had).
  set (p0 := (Provider.create id ad (index_provider s)).2).
  rewrite (runM_bind_ok _ _ _ id (with_index_provider p0 s)) by done.
  rewrite (runM_bind_ok _ _ _ root _) by (unfold run, st_lift; by rewrite convert_cid_to_bytes).
  rewrite (runM_bind_ok _ _ _ dag (with_index_provider p0 s))
    by (unfold run_opt; simpl; by rewrite Hdag).
  destruct (add_chunks_total id (chunks Advertisement.MAX_ENTRIES (ad_entries dag)) p0
    (Advertisement.with_entries None ad)) as (e & p1 & Ha & Hd & He);
    [simpl; by rewrite lookup_insert_eq|done|].
  rewrite (runM_bind_ok _ _ _ tt (with_index_provider p1 s))
    by (unfold on_provider, run, st_zoom; simpl; by rewrite Ha).
  destruct (publish_total id p1 _ Hd He) as [p2 Hp].
  { revert Had. unfold Advertisement.new. simpl. rewrite Hm. by intros [= <-]. }
  rewrite (runM_bind_ok _ _ _ tt (with_index_provider p2 s))
    by (unfold on_provider, run, st_zoom, st_unwrap; simpl; by rewrite Hp).
  rewrite (runM_bind_ok _ _ _ p2 _) by done.
  destruct (Provider.create_announce_msg _ p2) as [msg|err|] eqn:Hmsg.
  - destruct (announce_total msg (with_index_provider p2 s)) as (s' & Hs & Hst & Hpe & _).
    by exists s'.
  - by eexists.
  - apply announce_msg_total in Hmsg as []. apply Provider.publish_run in Hp
      as (d & h & -> & _ & draft & ad' & c & b & _ & -> & _). by eexists.
Qed.
(** ** What is published *)

(** [ad], read from [d], is an advertisement of [peer] signed with [k] for the
    content under [r] at [address]: its chunks list the multihashes of the blocks
    that [st] holds under [r]. *)
Record announced (d : DB) (st : Store.Store (DB:=DB)) (k : PublicKey) (peer : PeerId)
    (address : Multiaddr) (ad : Advertisement.Advertisement) (r : Cid) : Prop := {
  an_context : Advertisement.ContextID ad = IpldBytes (cid_to_bytes r);
  an_provider : Advertisement.Provider ad = peer_to_base58 peer;
  an_address : Advertisement.Addresses ad = [ma_to_string address];
  an_removal : Advertisement.IsRm ad = false;
  an_signed : ∃ draft, Provider.published_from k ad draft;
  an_entries : ∃ l, Provider.chain chunk_from_slice Advertisement.Next d
      (Advertisement.Entries ad) l ∧
    ∀ e, e ∈ l ≫= Advertisement.ChunkEntries ↔
      ∃ c, rtc (Store.link st) r c ∧ e = IpldBytes (cid_hash_bytes c);
}.

Lemma announced_keeps d d' st k peer address ad r :
  Provider.keeps d d' → announced d st k peer address ad r →
  announced d' st k peer address ad r.
Proof.
  intros Hk [? ? ? ? ? (l & Hl & He)]. split; [done..|].
  exists l. split; [by eapply Provider.chain_keeps|done].
Qed.

(** [ads] are the advertisements behind the head. *)
Definition published p (ads : list Advertisement.Advertisement) : Prop :=
  Provider.chain Provider.ad_from_slice Advertisement.PreviousID (Provider.blockstore p)
    (IpldLink <$> Provider.head p) ads.

Lemma bind_chunk_entries (l : list Advertisement.EntryChunk) e :
  e ∈ l ≫= Advertisement.ChunkEntries ↔
  e ∈ concat (Advertisement.ChunkEntries <$> l).
Proof.
  rewrite list_elem_of_bind, elem_of_concat. setoid_rewrite list_elem_of_fmap. naive_solver.
Qed.

Lemma ad_entries_reachable dag root st :
  (∀ c, c ∈ dag.*1 ↔ rtc (Store.link st) root c) →
  ∀ e, e ∈ ad_entries dag ↔ ∃ c, rtc (Store.link st) root c ∧ e = IpldBytes (cid_hash_bytes c).
Proof.
  intros Hd e. unfold ad_entries. rewrite list_elem_of_fmap. setoid_rewrite <- Hd.
  setoid_rewrite list_elem_of_fmap. naive_solver.
Qed.

(** One root joins the chain, and nothing else of the provider changes. *)
Lemma publish_root_joins fuel id address root dag s s' ads :
  Store.dag_traversal (store s) fuel root = Some (Ok dag) →
  (∀ c, c ∈ dag.*1 ↔ rtc (Store.link (store s)) root c) →
  publish_root fuel id address root s = Some (Ok tt, s') →
  published (index_provider s) ads →
  let p := index_provider s in
  let p' := index_provider s' in
  ∃ ad, published p' (ad :: ads) ∧
    announced (Provider.blockstore p') (store s) (public (Provider.keypair p))
      (local_peer_id s) address ad root ∧
    Provider.keeps (Provider.blockstore p) (Provider.blockstore p') ∧
    Provider.keypair p' = Provider.keypair p ∧ Provider.root_cids p' = Provider.root_cids p.
Proof.
  intros Hdag Hr (ad0 & dag' & p1 & p2 & Had & Hdag' & Ha & Hp & ->)%ServiceProps.publish_root_ok
    Hads.
  assert (dag' = dag) as -> by congruence. clear Hdag'.
  apply Provider.add_chunks_run with (l:=[]) (ad:=Advertisement.with_entries None ad0) in Ha
    as (d1 & e & l & -> & Hk1 & Hl & Hes);
    [|simpl; by rewrite lookup_insert_eq|apply Provider.chain_nil].
  apply Provider.publish_run in Hp
    as (d2 & h2 & -> & Hk2 & draft & ad & c & b & Hdr & -> & Hst & Hb & Hprev & Hpf).
  simpl in *. rewrite lookup_insert_eq in Hdr. injection Hdr as <-.
  assert (Provider.keeps (Provider.blockstore (index_provider s)) d2) as Hk
    by by eapply Provider.keeps_trans.
  apply ServiceProps.new_ad_ok in Had as (Hpr & Had & Hcx & Hrm).
  pose proof (Provider.pf_content _ _ _ Hpf) as Hc. exists ad. split_and!; try done.
  - eapply Provider.chain_cons; [done..|]. rewrite Hprev. by eapply Provider.chain_keeps.
  - split; try (by eexists).
    + rewrite <- Hcx. exact (f_equal Advertisement.ContextID Hc).
    + rewrite <- Hpr. exact (f_equal Advertisement.Provider Hc).
    + rewrite <- Had. exact (f_equal Advertisement.Addresses Hc).
    + rewrite <- Hrm. exact (f_equal Advertisement.IsRm Hc).
    + exists l. split.
      * rewrite (Provider.published_entries _ _ _ Hpf). by eapply Provider.chain_keeps; [exact Hk2|].
      * intros x. rewrite bind_chunk_entries, Hes, app_nil_r, <- (ad_entries_reachable _ _ _ Hr).
        rewrite <- (chunks_concat Advertisement.MAX_ENTRIES (ad_entries dag)) at 2
          by apply ServiceProps.max_entries_pos.
        rewrite !elem_of_concat. by setoid_rewrite elem_of_reverse.
Qed.
(** A root whose DAG the traversal returns. *)
Definition whole (st : Store.Store (DB:=DB)) (fuel : nat) (r : Cid) : Prop :=
  ∃ dag, Store.dag_traversal st fuel r = Some (Ok dag) ∧
    ∀ c, c ∈ dag.*1 ↔ rtc (Store.link st) r c.

Definition announced_by s (d : DB) (address : Multiaddr) :=
  announced d (store s) (public (Provider.keypair (index_provider s))) (local_peer_id s) address.

(** The whole queue is published, the last root first in the chain. *)
Lemma publish_roots_total fuel ids address q s ads :
  Forall (whole (store s) fuel) q → Provider.root_cids (index_provider s) = q →
  published (index_provider s) ads →
  ∃ s' new, publish_roots fuel ids address q s = Some (Ok tt, s') ∧
    published (index_provider s') (new ++ ads) ∧
    Forall2 (announced_by s (Provider.blockstore (index_provider s')) address) new (reverse q) ∧
    Provider.root_cids (index_provider s') = [] ∧
    Provider.keypair (index_provider s') = Provider.keypair (index_provider s) ∧
    Provider.keeps (Provider.blockstore (index_provider s))
      (Provider.blockstore (index_provider s')).
Proof.
  revert s ads. induction q as [|r q IH]; intros s ads Hw Hq Hads; simpl.
  { exists s, []. split_and!; [done..|constructor|done|done|apply Provider.keeps_refl]. }
  apply Forall_cons in Hw as [(dag & Hdag & Hr) Hw].
  set (s1 := with_index_provider (Provider.with_root_cids q (index_provider s)) s).
  rewrite (runM_bind_ok _ _ _ tt s1) by done.
  destruct (publish_root_total fuel (ids (length q)) address r dag s1 Hdag)
    as (s2 & H2 & Hst & Hpe).
  rewrite (runM_bind_ok _ _ _ tt s2) by done.
  destruct (publish_root_joins _ _ _ _ dag s1 s2 ads Hdag Hr H2 Hads)
    as (ad & Hads2 & Had & Hk & Hkey & Hq2).
  destruct (IH s2 (ad :: ads)) as (s' & new & Hs' & Hads' & Hf & Hq' & Hkey' & Hk');
    [by rewrite Hst|done|done|].
  exists s', (new ++ [ad]). split_and!; try done.
  - by rewrite <- app_assoc.
  - rewrite reverse_cons. apply Forall2_app.
    + unfold announced_by in *. by rewrite Hst, Hpe, Hkey in Hf.
    + constructor; [by eapply announced_keeps|constructor].
  - by rewrite Hkey', Hkey.
  - by eapply Provider.keeps_trans.
Qed.

(** The round that handles [StartPublish]. *)
Lemma publish_round env a es s ads :
  Behaviour.events (behaviour s) = Behaviour.StartPublish a :: es →
  Forall (whole (store s) (env_fuel env)) (Provider.root_cids (index_provider s)) →
  published (index_provider s) ads →
  ∃ s' new, round (SwarmBehaviour env) s = Some (Ok tt, s') ∧
    published (index_provider s') (new ++ ads) ∧
    Forall2 (announced_by s (Provider.blockstore (index_provider s')) (publish_address a)) new
      (reverse (Provider.root_cids (index_provider s))) ∧
    Provider.root_cids (index_provider s') = [] ∧
    Provider.keypair (index_provider s') = Provider.keypair (index_provider s).
Proof.
  intros He Hw Hads. set (s1 := with_behaviour (Behaviour.with_events es (behaviour s)) s).
  destruct (publish_roots_total (env_fuel env) (env_ids env) (publish_address a) _ s1 ads
    Hw eq_refl Hads) as (s' & new & Hs' & Hads' & Hf & Hq & Hk & _).
  exists s', new. split; [|done]. cbn [round].
  rewrite (runM_bind_ok _ _ _ (Some (Behaviour.StartPublish a)) s1).
  - simpl. unfold handle_start_publish. by rewrite (runM_bind_ok _ _ _ (index_provider s1) s1).
  - unfold next_event, on_behaviour, run, st_zoom, Behaviour.poll. by rewrite He.
Qed.

(** The head of a chain is served, signed. *)
Lemma head_served p ad ads :
  published p (ad :: ads) →
  ∃ h c, Provider.head_handler p = Ok h ∧ Provider.head p = Some c ∧
    SignedHead.open_head h = Ok (public (Provider.keypair p), c).
Proof.
  unfold published, Provider.head_handler. intros Hp. destruct (Provider.head p) as [c|];
    inversion Hp; subst.
  destruct (is_ok_inv _ (rl_sign _ Hrel (Provider.keypair p) (cid_to_bytes c))) as [sig Hs].
  unfold SignedHead.new. rewrite Hs. simpl. eexists _, c. split_and!; [done..|].
  apply SignedHead.open_head_ok. simpl. split; [done|].
  split; [apply protobuf_round_trip|by apply sign_verify].
Qed.
(** The round that hears of a public address. *)
Lemma nat_round env old a s :
  Behaviour.events (behaviour s) = [Behaviour.NatStatusChanged old (Public a)] →
  ∃ s', round (SwarmBehaviour env) s = Some (Ok tt, s') ∧
    Behaviour.events (behaviour s') = [Behaviour.StartPublish a] ∧
    index_provider s' = index_provider s ∧ store s' = store s ∧
    local_peer_id s' = local_peer_id s.
Proof.
  intros He. set (s1 := with_behaviour (Behaviour.with_events [] (behaviour s)) s).
  cbn [round].
  rewrite (runM_bind_ok _ _ _ (Some (Behaviour.NatStatusChanged old (Public a))) s1).
  - destruct old; eexists; by split_and!.
  - unfold next_event, on_behaviour, run, st_zoom, Behaviour.poll. by rewrite He.
Qed.

(** What an indexer finds behind the head that is served over HTTP: the signature
    of [k], and one advertisement for each of the roots, the last one first,
    before the advertisements [ads]; nothing is left in the queue. *)
Definition indexer_finds p (k : PublicKey) (peer : PeerId) (st : Store.Store (DB:=DB))
    (address : Multiaddr) (roots : list Cid) (ads : list Advertisement.Advertisement) : Prop :=
  ∃ new h c, Provider.root_cids p = [] ∧ Provider.head_handler p = Ok h ∧
    SignedHead.open_head h = Ok (k, c) ∧
    Provider.read_ads (Provider.blockstore p) (S (length (new ++ ads))) (Some c) =
      Some (new ++ ads) ∧
    Forall2 (announced (Provider.blockstore p) st k peer address) new (reverse roots).

(** The round that publishes the queue, seen by an indexer. *)
Lemma publish_round_found env a es s ads :
  Behaviour.events (behaviour s) = Behaviour.StartPublish a :: es →
  let p := index_provider s in
  Forall (whole (store s) (env_fuel env)) (Provider.root_cids p) →
  Provider.root_cids p ≠ [] → published p ads →
  ∃ s', round (SwarmBehaviour env) s = Some (Ok tt, s') ∧
    indexer_finds (index_provider s') (public (Provider.keypair p)) (local_peer_id s) (store s)
      (publish_address a) (Provider.root_cids p) ads.
Proof.
  intros He p Hw Hne Hads.
  destruct (publish_round env a es s ads He Hw Hads) as (s' & new & Hs' & Hads' & Hf & Hq & Hk).
  assert (∃ ad new', new = ad :: new') as (ad & new' & ->).
  { apply Forall2_length in Hf. rewrite length_reverse in Hf.
    destruct new; [|by eexists _, _]. destruct Hne. by apply length_zero_iff_nil. }
  destruct (head_served _ _ _ Hads') as (h & c & Hh & Hc & Ho).
  exists s'. split; [done|]. exists (ad :: new'), h, c. split_and!; [done..| | |].
  - unfold p. by rewrite <- Hk.
  - rewrite <- Hc. unfold Provider.read_ads.
    rewrite (Provider.chain_follow _ id _ _ _ _ _ Hads') by lia. by rewrite list_fmap_id.
  - exact Hf.
Qed.

(** Sound blocks inside a closed set make every root whole. *)
Lemma all_whole (st : Store.Store (DB:=DB)) D fuel roots :
  (∀ r, r ∈ roots → r ∈ D ∧ ∀ c, rtc (Store.link st) r c → Store.sound_block st c) →
  (∀ x y, x ∈ D → Store.link st x y → y ∈ D) → fuel = Store.dag_fuel D →
  Forall (whole st fuel) roots.
Proof.
  intros Hroots HD ->. apply Forall_forall. intros r [HrD Hsound]%Hroots.
  destruct (Store.dag_traversal_whole st D r HrD HD Hsound) as (dag & Hdag & _ & Hl & _).
  by exists dag.
Qed.

(** C1: an uploaded CAR file is found through the indexer.  On a node whose
    libraries do not fail and that has a public address, the upload of a CAR file
    is answered with its roots; the round of the service that comes next
    publishes its first root and every root queued before, and the service goes
    on.  The head that is then served over HTTP is signed with the node's key;
    behind it an indexer reads one signed advertisement for each of these roots,
    the last one first, with the node's address and, in its chunks, the
    multihashes of exactly the blocks under the root; after them come the
    advertisements that were there before. *)
Theorem upload_published b root cids d env rest a n D ads :
  running n = true → commands n = [] →
  schedule n = TakeCommand :: SwarmEvent env :: rest →
  Behaviour.public_address (behaviour (service n)) = Some a →
  Behaviour.events (behaviour (service n)) = [] →
  car_load b (Store.db (store (service n))) = (Ok (root :: cids), d) →
  let st := Store.new d in
  let p := index_provider (service n) in
  let roots := Provider.root_cids p ++ [root] in
  (∀ r, r ∈ roots → r ∈ D ∧ ∀ c, rtc (Store.link st) r c → Store.sound_block st c) →
  (∀ x y, x ∈ D → Store.link st x y → y ∈ D) → env_fuel env = Store.dag_fuel D →
  published p ads →
  ∃ n1 n2, Api.put_car b n = Some (Ok (root :: cids), n1) ∧
    act (SwarmEvent env) n1 = Some n2 ∧ running n2 = true ∧
    indexer_finds (index_provider (service n2)) (public (Provider.keypair p))
      (local_peer_id (service n)) st (publish_address a) roots ads.
Proof.
  intros Hr Hc Hs Hpa Hev Hcar st p roots Hroots HD Hfuel Hads.
  destruct (put_car_at_once b root cids d (SwarmEvent env :: rest) n) as [x Hput]; [done..|].
  set (n1 := with_schedule _ _) in Hput.
  pose proof (all_whole st D _ roots Hroots HD Hfuel) as Hw.
  assert (roots ≠ []) as Hne by (unfold roots; by destruct (Provider.root_cids p)).
  destruct (publish_round_found env a [] (service n1) ads) as (s' & Hs' & Hf);
    [by simpl; rewrite Hev, Hpa|exact Hw|exact Hne|exact Hads|].
  exists n1, (with_service s' n1). split; [exact Hput|]. split; [|split; [exact Hr|exact Hf]].
  by apply act_event.
Qed.

(** C14: content uploaded to an idle node that is not reachable yet is published when
    the node becomes public, if its libraries do not fail and the DAG under every
    queued root is stored whole and sound: the upload queues the root and publishes
    nothing; when autonat reports a public address, two rounds later an indexer
    finds one advertisement, at that address, for each root queued until then. *)
Theorem published_when_public b root cids d old a e1 env rest n D ads :
  running n = true → commands n = [] →
  schedule n = TakeCommand :: rest →
  Behaviour.public_address (behaviour (service n)) = None →
  Behaviour.events (behaviour (service n)) = [] →
  car_load b (Store.db (store (service n))) = (Ok (root :: cids), d) →
  let st := Store.new d in
  let p := index_provider (service n) in
  let roots := Provider.root_cids p ++ [root] in
  (∀ r, r ∈ roots → r ∈ D ∧ ∀ c, rtc (Store.link st) r c → Store.sound_block st c) →
  (∀ x y, x ∈ D → Store.link st x y → y ∈ D) → env_fuel env = Store.dag_fuel D →
  published p ads →
  ∃ n1 n2, Api.put_car b n = Some (Ok (root :: cids), n1) ∧
    Provider.root_cids (index_provider (service n1)) = roots ∧
    Behaviour.events (behaviour (service n1)) = [] ∧
    run_choices [Library (LibAutonat (StatusChanged old (Public a))); SwarmEvent e1;
      SwarmEvent env] n1 = Some n2 ∧ running n2 = true ∧
    indexer_finds (index_provider (service n2)) (public (Provider.keypair p))
      (local_peer_id (service n)) st (publish_address a) roots ads.
Proof.
  intros Hr Hc Hs Hpa Hev Hcar st p roots Hroots HD Hfuel Hads.
  destruct (put_car_at_once b root cids d rest n) as [x Hput]; [done..|].
  set (n1 := with_schedule _ _) in Hput.
  pose proof (all_whole st D _ roots Hroots HD Hfuel) as Hw.
  assert (roots ≠ []) as Hne by (unfold roots; by destruct (Provider.root_cids p)).
  assert (running n1 = true) as Hr1 by exact Hr.
  assert (Behaviour.events (behaviour (service n1)) = []) as Hev1 by (simpl; by rewrite Hev, Hpa).
  set (s1 := with_behaviour (Behaviour.handle_autonat (StatusChanged old (Public a))
    (behaviour (service n1))) (service n1)).
  destruct (nat_round e1 old a s1) as (s2 & Hs2 & Hev2 & Hp2 & Hst2 & Hpe2);
    [by simpl; rewrite Hev, Hpa|].
  destruct (publish_round_found env a [] s2 ads) as (s' & Hs' & Hf);
    [done|by rewrite Hst2, Hp2; exact Hw|rewrite Hp2; exact Hne|
     by rewrite Hp2; exact Hads|].
  rewrite Hst2, Hp2, Hpe2 in Hf.
  exists n1, (with_service s' n1). split; [exact Hput|]. split; [done|]. split; [done|].
  split; [|split; [exact Hr|exact Hf]].
  rewrite (run_choices_cons _ _ _ (with_service s1 n1)) by exact (act_library _ n1 Hr1).
  rewrite (run_choices_cons _ _ _ (with_service s2 n1)) by by apply (act_event e1 (with_service s1 n1)).
  rewrite (run_choices_cons _ _ _ (with_service s' n1))
    by by apply (act_event env (with_service s2 n1)). done.
Qed.
End publication.

(** ** Evaluation on a concrete node *)

Lemma sample_reliable : reliable sample_db.
Proof. by split. Qed.

(** A root that waits in the queue, and a CAR file whose root links to stored
    blocks. *)
Definition sample_file : bytes := [x05; x03].
Definition sample_file_db : sample_db := <[ [x05] := [x03] ]> (Store.db Store.sample_dag).
Definition sample_file_blocks : list Cid := sid x05 :: Store.sample_blocks.

Definition sample_file_env : Env (DB:=sample_db) :=
  {| env_polls := []; env_random := 0; env_ids := λ n, N.of_nat n;
     env_fuel := Store.dag_fuel (list_to_set sample_file_blocks) |}.

Definition sample_uploader : Node :=
  let s := service sample_public in
  with_schedule [TakeCommand; SwarmEvent sample_file_env] (with_service
    (with_index_provider (Provider.with_root_cids [sid x02] (index_provider s)) s) sample_public).

Lemma sample_file_sound r c :
  r ∈ sample_file_blocks → rtc (Store.link (Store.new sample_file_db)) r c →
  Store.sound_block (Store.new sample_file_db) c.
Proof.
  intros Hr. apply (Store.forall_reach _ sample_file_blocks _
    (Store.sound_block (Store.new sample_file_db))); [reflexivity|done|].
  repeat (apply Forall_cons; split; [by eexists _, _|]). constructor.
Qed.

(** What is found for the two roots. *)
Definition sample_found (p : Provider.Provider (DB:=sample_db)) : Prop :=
  ∃ ad1 ad2 c, Provider.read_ads (Provider.blockstore p) 3 (Some c) = Some [ad1; ad2] ∧
    Advertisement.ContextID ad1 = IpldBytes [x05] ∧
    Advertisement.ContextID ad2 = IpldBytes [x02].

Lemma sample_finds p k peer st a :
  indexer_finds p k peer st a [sid x02; sid x05] [] → sample_found p.
Proof.
  intros (new & h & c & _ & _ & _ & Hads & Hf). rewrite app_nil_r in Hads.
  change (reverse _) with [sid x05; sid x02] in Hf.
  inversion Hf as [|ad1 r1 l1 ? H1 Hl1 E1]; subst.
  inversion Hl1 as [|ad2 r2 l2 ? H2 Hl2 E2]; subst.
  inversion Hl2; subst. exists ad1, ad2, c. split; [exact Hads|].
  by rewrite (an_context _ _ _ _ _ _ _ H1), (an_context _ _ _ _ _ _ _ H2).
Qed.

Lemma upload_published_witness :
  ∃ n1 n2, Api.put_car sample_file sample_uploader = Some (Ok [sid x05], n1) ∧
    act (SwarmEvent sample_file_env) n1 = Some n2 ∧
    sample_found (index_provider (service n2)).
Proof.
  destruct (upload_published sample_reliable sample_file (sid x05) [] sample_file_db
    sample_file_env [] (maddr [Tcp 6009]) sample_uploader (list_to_set sample_file_blocks) [])
    as (n1 & n2 & Hput & Hact & _ & Hf);
    [reflexivity..| | |reflexivity|apply Provider.chain_nil|].
  - intros r Hr. split; [set_solver|]. intros c. apply sample_file_sound. set_solver.
  - intros x y. apply Store.closed_check_set. reflexivity.
  - exists n1, n2. split; [exact Hput|]. split; [exact Hact|]. by eapply sample_finds.
Defined.

(** The same node, not yet public. *)
Definition sample_private : Node :=
  let s := sample_started in
  with_schedule [TakeCommand] (sample_node
    (with_index_provider (Provider.with_root_cids [sid x02] (index_provider s)) s) []).

Lemma published_when_public_witness :
  ∃ n1 n2, Api.put_car sample_file sample_private = Some (Ok [sid x05], n1) ∧
    run_choices [Library (LibAutonat (StatusChanged Private (Public (maddr [Tcp 6009]))));
      SwarmEvent sample_env; SwarmEvent sample_file_env] n1 = Some n2 ∧
    sample_found (index_provider (service n2)).
Proof.
  destruct (published_when_public sample_reliable sample_file (sid x05) [] sample_file_db
    Private (maddr [Tcp 6009]) sample_env sample_file_env [] sample_private
    (list_to_set sample_file_blocks) [])
    as (n1 & n2 & Hput & _ & _ & Hrun & _ & Hf);
    [reflexivity..| | |reflexivity|apply Provider.chain_nil|].
  - intros r Hr. split; [set_solver|]. intros c. apply sample_file_sound. set_solver.
  - intros x y. apply Store.closed_check_set. reflexivity.
  - exists n1, n2. split; [exact Hput|]. split; [exact Hrun|]. by eapply sample_finds.
Defined.
