(* ===== verification/Transfer.v ===== *)
(** Content carried from one node to another as a CAR file: [get_file] writes the
    file, [put_file] reads it
    ([src/crates/ursa-rpc-server/src/api.rs]). *)

From S2P Require Import Prelude Libs Utils Paths Codec Protocols IndexLibs Service.
From S2P Require Import Node ServiceSamples.
From S2P Require Store Dag Behaviour Provider Discovery ServiceProps Api.

(** ** What the CAR library and the file system promise *)

Section laws.
  Context (DB : Type) {cl : CidLib} {bs : BlockStore DB} {host : HostLib DB}.

(** A CAR file that is read gives the roots and the blocks that were written into
    it, one block for an identifier; a file that was written is read back. *)
Record host_laws : Prop := {
  car_reads : ∀ roots blocks b d r d', NoDup blocks.*1 →
    car_write roots blocks = Ok b → car_load b d = (Ok r, d') →
    r = roots ∧ ∀ c data, (c, data) ∈ blocks → bs_get d' c = Ok (Some data);
  file_kept : ∀ p b f f', host_write_file p b f = (Ok tt, f') → host_read_file p f' = Ok b;
}.
End laws.

Section transfer.
  Context {DB : Type} {cl : CidLib} {bs : BlockStore DB} {os : ObjStore DB}.
  Context {il : IpldLib} {hi : HashIter Cid}.
  Context {nl : NetLib} {ml : MultiaddrLib} {sw : SwarmTypes} {swl : SwarmLib}.
  Context {kl : KadLib} {md : MdnsLib} {gl : GossipLib} {bl : BitswapLib}.
  Context {rl : RequestResponseLib} {al : NatLib} {dl : DebugLib}.
  Context {key : KeyLib} {el : EncodeLib} {cbor : CborLib} {host : HostLib DB}.
  Implicit Types (n : Node (DB:=DB)).

(** ** The two handlers on a node *)

(** [get_file] writes the CAR file of what [get_data] returns. *)
Lemma get_file_inv fuel path root n n' :
  Api.get_file fuel path root n = Some (Ok tt, n') →
  ∃ dag b f, Store.dag_traversal (store (service n')) fuel root = Some (Ok dag) ∧
    car_write [root] dag = Ok b ∧
    host_write_file (Api.car_path path root) b f = (Ok tt, files n').
Proof.
  unfold Api.get_file. intros Hg.
  apply runM_bind_inv_ok in Hg as (dag & n1 & Hd%Api.run_unwrap_inv%Api.get_data_inv & Hg).
  apply runM_bind_inv_ok in Hg as (blocks & n2 & Hb & Hg).
  unfold run, st_lift in Hb. rewrite Api.car_blocks_id in Hb. injection Hb as <- <-.
  apply runM_bind_inv_ok in Hg as (b & n2 & Hw & Hg). injection Hw as Hw%unwrap_ok_inv <-.
  apply runM_bind_inv_ok in Hg as (dir & n2 & Hp & Hg). injection Hp as Hp <-.
  apply runM_bind_inv_ok in Hg as ([] & n2 & Hc & Hg).
  apply runM_bind_inv_ok in Hg as ([] & n3 & Hf & Hg).
  assert (service n2 = service n1) as H2.
  { revert Hc. unfold run, st_zoom. simpl. unfold st_zoom.
    destruct (host_create_dir_all _ _). by intros [= _ <-]. }
  assert (service n3 = service n2) as H3.
  { revert Hf. unfold run, st_unwrap. simpl. unfold st_zoom.
    destruct (host_create_file _ _). by intros [= _ <-]. }
  revert Hg. unfold run. simpl. unfold st_zoom.
  destruct (host_write_file _ b (files n3)) as [o f'] eqn:Hwf. intros [= -> <-].
  exists dag, b, (files n3). simpl. by rewrite H3, H2.
Qed.

(** ** The transfer *)

(** C8: export and import carry a DAG over: when [get_file] succeeds on one node
    and its file is given to [put_file] on another, whose service is idle, the
    upload is answered with the root, and from then on the second node serves the
    DAG from its own store: [get_data] returns the blocks the first node wrote,
    each of them once, and [get] returns each of them, with no request to the
    network. *)
Theorem export_import fuel path root na na' q rest nb r d :
  host_laws DB → Api.get_file fuel path root na = Some (Ok tt, na') →
  host_read_file q (files nb) = host_read_file (Api.car_path path root) (files na') →
  running nb = true → commands nb = [] → schedule nb = TakeCommand :: rest →
  (∀ b, host_read_file q (files nb) = Ok b →
    car_load b (Store.db (store (service nb))) = (Ok r, d)) →
  ∃ dag nb' res, Store.dag_traversal (store (service na')) fuel root = Some (Ok dag) ∧
    Api.put_file q nb = Some (Ok [root], nb') ∧ running nb' = true ∧
    Api.get_data (Store.dag_fuel (list_to_set dag.*1)) root nb' = Some (Ok res, nb') ∧
    res ≡ₚ dag ∧
    ∀ c data, (c, data) ∈ dag → Api.get c nb' = Some (Ok (Some data), nb').
Proof.
  intros Hlaws (dag & b & f & Hdag & Hb & Hf)%get_file_inv Hq Hr Hc Hs Hload.
  apply (file_kept _ Hlaws) in Hf. rewrite Hf in Hq. specialize (Hload b Hq).
  destruct (Dag.dag_traversal_inv _ _ _ _ Hdag) as (Hnd & Hreach & Hdata).
  destruct (car_reads _ Hlaws _ _ _ _ _ _ Hnd Hb Hload) as [-> Hd].
  destruct (put_car_at_once b root [] d rest nb) as [x Hput]; [done..|].
  set (nb' := with_schedule _ _) in Hput.
  assert (∀ c data, (c, data) ∈ dag → Store.contains (store (service nb')) c = Ok true) as Hin.
  { intros c data Hx. by eapply (Api.stored_contains (Store.new d)), Hd. }
  destruct (Dag.traversal_transfers hi hi (store (service na')) (Store.new d) fuel root dag
    Hdag Hd) as (res & Hres & Hperm).
  exists dag, nb', res. split_and!; try done.
  - unfold Api.put_file. rewrite (runM_bind_ok _ _ _ b nb); [done|].
    unfold run, st_query. simpl. by rewrite Hq.
  - apply Api.get_data_stored; [|done].
    assert (root ∈ dag.*1) as ([c data] & -> & Hx)%list_elem_of_fmap
      by by apply Hreach, rtc_refl. by eapply Hin.
  - intros c data Hx. rewrite (Api.get_stored c nb') by by eapply Hin.
    do 2 f_equal. by apply Hd.
Qed.
(** ** Upload and download over HTTP *)

(** The links among the blocks of a list. *)
Definition listed_link (blocks : list (Cid * bytes)) (a b : Cid) : Prop :=
  ∃ data refs, (a, data) ∈ blocks ∧ references a data = Ok refs ∧ b ∈ refs.

(** The blocks of a whole DAG, each of them once and none besides. *)
Record whole_dag (root : Cid) (blocks : list (Cid * bytes)) : Prop := {
  wd_once : NoDup blocks.*1;
  wd_reached : ∀ c, c ∈ blocks.*1 ↔ rtc (listed_link blocks) root c;
  wd_sound : ∀ c data, (c, data) ∈ blocks →
    block_new c data = true ∧ is_ok (references c data) = true;
}.

Lemma whole_dag_sound root blocks (st : Store.Store (DB:=DB)) :
  whole_dag root blocks →
  (∀ c data, (c, data) ∈ blocks → bs_get (Store.blockstore st) c = Ok (Some data)) →
  (∀ a b, a ∈ blocks.*1 → Store.link st a b ↔ listed_link blocks a b) ∧
  ∀ c, c ∈ blocks.*1 → Store.sound_block st c.
Proof.
  intros Hw Hst. split.
  - intros a b ([a' data] & -> & Hx)%list_elem_of_fmap. simpl. split.
    + intros (data' & refs & Hg & Hr & Hb). rewrite (Hst _ _ Hx) in Hg.
      injection Hg as <-. by exists data, refs.
    + intros (data' & refs & Hx' & Hr & Hb). exists data', refs. split; [by apply Hst|done].
  - intros c ([c' data] & -> & Hx)%list_elem_of_fmap.
    destruct (wd_sound _ _ Hw _ _ Hx) as [Hb [refs Hr]%is_ok_inv].
    exists data, refs. split; [by apply Hst|done].
Qed.

(** A store that holds a whole DAG yields its blocks. *)
Lemma whole_dag_traversal root blocks (st : Store.Store (DB:=DB)) :
  whole_dag root blocks →
  (∀ c data, (c, data) ∈ blocks → bs_get (Store.blockstore st) c = Ok (Some data)) →
  ∃ res, Store.dag_traversal st (Store.dag_fuel (list_to_set blocks.*1)) root = Some (Ok res) ∧
    res ≡ₚ blocks.
Proof.
  intros Hw Hst. destruct (whole_dag_sound _ _ _ Hw Hst) as [Hlink Hsound].
  pose proof (wd_reached _ _ Hw) as Hreach.
  assert (∀ c, rtc (Store.link st) root c → c ∈ blocks.*1) as Hin.
  { intros c Hrt. apply (rtc_closed (Store.link st) (.∈ blocks.*1) root); [done| |].
    - apply Hreach, rtc_refl.
    - intros a b Ha Hab%(Hlink _ _ Ha). apply Hreach.
      eapply rtc_r; [by apply Hreach|done]. }
  destruct (Store.dag_traversal_whole st (list_to_set blocks.*1) root)
    as (res & Hres & Hnd & Hr & Hd).
  - apply elem_of_list_to_set, Hreach, rtc_refl.
  - intros a b Ha%elem_of_list_to_set Hab%(Hlink _ _ Ha). apply elem_of_list_to_set, Hreach.
    eapply rtc_r; [by apply Hreach|done].
  - intros c Hc. by apply Hsound, Hin.
  - exists res. split; [done|]. apply (Dag.same_blocks _ _ (Dag.got st)); [done|apply Hw| | |].
    + intros c. rewrite Hr. split; [apply Hin|]. intros Hc%Hreach.
      revert c Hc. apply (rtc_ind_r (λ c, rtc (Store.link st) root c) root); [apply rtc_refl|].
      intros y z Hy Hyz IH. eapply rtc_r; [exact IH|]. apply Hlink; [by apply Hreach|done].
    + intros c d Hx. unfold Dag.got. by rewrite (Hd _ _ Hx).
    + intros c d Hx. unfold Dag.got. by rewrite (Hst _ _ Hx).
Qed.

(** What the HTTP handler makes of data that could be had. *)
Lemma get_handler_ok fuel root n res n' :
  (∀ h, is_Some (host_header_value h)) → Api.get_data fuel root n = Some (Ok res, n') →
  ∃ resp, Api.get_handler fuel (cid_to_string root) n = Some (Ok (inr resp), n') ∧
    Api.status resp = 200%N ∧ Api.body resp = car_write [root] res.
Proof.
  intros Hh Hget.
  destruct (Hh "application/vnd.curl.car; charset=utf-8") as [ct Hct].
  destruct (Hh ("attachment; filename=" +:+ Api.quote +:+ cid_to_string root +:+ ".car" +:+
    Api.quote)) as [cd Hcd].
  exists {| Api.status := 200; Api.header_content_type := ct; Api.header_disposition := cd;
    Api.body := car_write [root] res |}. split; [|done].
  unfold Api.get_handler. rewrite cid_from_str_to_string. unfold Api.stream.
  rewrite (runM_bind_ok _ _ _ res n') by (unfold Api.run_unwrap; by rewrite Hget).
  rewrite (runM_bind_ok _ _ _ res n') by (unfold run, st_lift; by rewrite Api.car_blocks_id).
  unfold mret, runM_ret. simpl. rewrite Hct. simpl. by rewrite Hcd.
Qed.

(** C7: what is uploaded over HTTP is what is downloaded: when the CAR file of a
    whole DAG is posted to an idle node, the answer is 200 with the root, and a
    GET of the root then answers 200 with a CAR file, named after it, of the same
    blocks. *)
Theorem http_round_trip root blocks b d rest n :
  host_laws DB → whole_dag root blocks → car_write [root] blocks = Ok b →
  running n = true → commands n = [] → schedule n = TakeCommand :: rest →
  car_load b (Store.db (store (service n))) = (Ok [root], d) →
  (∀ h, is_Some (host_header_value h)) →
  let fuel := Store.dag_fuel (list_to_set blocks.*1) in
  ∃ n' resp res,
    Api.upload_handler (Ok (Some {| Api.content_type := Some Api.CAR_CONTENT_TYPE;
      Api.field_bytes := Ok b |})) n = Some (Ok (200%N, host_debug_cids [root]), n') ∧
    running n' = true ∧
    Api.get_handler fuel (cid_to_string root) n' = Some (Ok (inr resp), n') ∧
    Api.status resp = 200%N ∧ Api.body resp = car_write [root] res ∧ res ≡ₚ blocks.
Proof.
  intros Hlaws Hw Hb Hr Hc Hs Hload Hh fuel.
  destruct (car_reads _ Hlaws _ _ _ _ _ _ (wd_once _ _ Hw) Hb Hload) as [_ Hd].
  destruct (put_car_at_once b root [] d rest n) as [x Hput]; [done..|].
  set (n' := with_schedule _ _) in Hput.
  destruct (whole_dag_traversal root blocks (Store.new d) Hw Hd) as (res & Hres & Hperm).
  assert (Api.get_data fuel root n' = Some (Ok res, n')) as Hget.
  { apply Api.get_data_stored; [|done].
    destruct (proj1 (list_elem_of_fmap fst blocks root)) as ([c data] & -> & Hx);
      [by apply (wd_reached _ _ Hw), rtc_refl|].
    by eapply (Api.stored_contains (Store.new d)), Hd. }
  destruct (get_handler_ok fuel root n' res n' Hh Hget) as (resp & Hresp & Hstatus & Hbody).
  exists n', resp, res. split_and!; try done.
  unfold Api.upload_handler. rewrite (runM_bind_ok _ _ _ (Some {|
    Api.content_type := Some Api.CAR_CONTENT_TYPE; Api.field_bytes := Ok b |}) n) by done.
  rewrite (runM_bind_ok _ _ _ Api.CAR_CONTENT_TYPE n) by done.
  rewrite bool_decide_eq_true_2 by done.
  rewrite (runM_bind_ok _ _ _ b n) by done.
  by rewrite (runM_bind_ok _ _ _ (Ok [root]) n') by (unfold run_try; by rewrite Hput).
Qed.
End transfer.

(** ** Evaluation on concrete nodes *)

(** A CAR file is the encoding of its roots and its blocks. *)
Definition sample_car_read (b : bytes) : stM sample_db string (list Cid) := λ d,
  match sample_decode b with
  | Some (roots, blocks) => (Ok roots, list_to_map (blocks : list (bytes * bytes)) ∪ d)
  | None => (Err "not a CAR file", d)
  end.

Definition sample_car_host : HostLib sample_db := {|
  Files := gmap string bytes;
  car_load := sample_car_read;
  car_write roots blocks := Ok (sample_encode (roots, blocks));
  host_read_file p f := match f !! p with Some b => Ok b | None => Err "no such file" end;
  host_create_dir_all _ f := (Ok tt, f);
  host_create_file p f := (Ok tt, <[p := []]> f);
  host_write_file p b f := (Ok tt, <[p := b]> f);
  send_failed := "channel closed";
  receiver_canceled := "oneshot canceled";
  host_debug_error e := e;
  host_debug_cids _ := "cids";
  host_header_value s := Some s;
|}.
#[local] Existing Instance sample_car_host.

Lemma sample_car_laws : host_laws sample_db.
Proof.
  split.
  - intros roots blocks b d r d' Hnd [= <-]. cbn. unfold sample_car_read.
    rewrite sample_decode_encode. intros [= <- <-]. split; [done|].
    intros c data Hx. do 2 f_equal. apply lookup_union_Some_l.
    by apply elem_of_list_to_map_1.
  - intros p b f f' [= <-]. cbn. by rewrite lookup_insert_eq.
Qed.

Definition sample_side (s : UrsaService (DB:=sample_db)) (f : gmap string bytes)
    (l : list choice) : Node :=
  {| service := s; running := true; commands := []; schedule := l; files := f |}.

Definition sample_exporter : Node := sample_side sample_started ∅ [].
Definition sample_export : runM Node string unit := Api.get_file 20 "/tmp" (sid x03).
Definition sample_exported : Node := final sample_export sample_exporter.
Definition sample_file : PathBuf := Api.car_path "/tmp" (sid x03).
Definition sample_car : bytes := default [] (files sample_exported !! sample_file).

(** A node without blocks, and with the file of the first one. *)
Definition sample_importer : Node :=
  sample_side (with_store (Store.new ∅) sample_started) (files sample_exported) [TakeCommand].

Lemma sample_car_found : files sample_exported !! sample_file = Some sample_car.
Proof. apply some_default. vm_compute. reflexivity. Qed.

Lemma sample_car_loaded :
  sample_car_read sample_car ∅ = (Ok [sid x03], (sample_car_read sample_car ∅).2).
Proof. apply injective_projections; [vm_compute; reflexivity|reflexivity]. Qed.

Lemma export_import_witness :
  ∃ nb', Api.put_file sample_file sample_importer = Some (Ok [sid x03], nb') ∧
    Api.get (sid x01) nb' = Some (Ok (Some []), nb').
Proof.
  destruct (export_import 20 "/tmp" (sid x03) sample_exporter sample_exported
    sample_file [] sample_importer [sid x03] (sample_car_read sample_car ∅).2 sample_car_laws)
    as (dag & nb' & res & Hdag & Hput & _ & _ & _ & Hget).
  - apply (runM_is_ok sample_export). vm_compute. reflexivity.
  - reflexivity.
  - reflexivity.
  - reflexivity.
  - reflexivity.
  - intros b Hb. assert (b = sample_car) as ->; [|apply sample_car_loaded].
    change (match files sample_exported !! sample_file with
      | Some b => Ok (E:=string) b | None => Err "no such file" end = Ok b) in Hb.
    rewrite sample_car_found in Hb. by injection Hb.
  - exists nb'. split; [exact Hput|]. apply Hget.
    assert (Some (Ok dag) = Store.dag_traversal Store.sample_dag 20 (sid x03)) as Hd
      by (rewrite <- Hdag; reflexivity).
    vm_compute in Hd. injection Hd as ->. set_solver.
Defined.

(** The blocks of a CAR file for an empty node. *)
Definition sample_blocks : list (Cid * bytes) :=
  [(sid x03, [x02; x01]); (sid x02, [x01]); (sid x01, [])].
Definition sample_upload : bytes := sample_encode ([sid x03], sample_blocks).
Definition sample_empty : Node :=
  sample_side (with_store (Store.new ∅) sample_started) ∅ [TakeCommand].

Lemma sample_listed a data b :
  (a, data) ∈ sample_blocks → b ∈ sid <$> data → listed_link sample_blocks a b.
Proof. intros Ha Hb. by exists data, (sid <$> data). Qed.

Lemma sample_whole : whole_dag (sid x03) sample_blocks.
Proof.
  split.
  - apply (bool_decide_eq_true_1 (NoDup sample_blocks.*1)). vm_compute. reflexivity.
  - assert (∀ c, c ∈ sample_blocks.*1 ↔ c = sid x03 ∨ c = sid x02 ∨ c = sid x01) as Hk
      by (intros c; simpl; set_solver).
    intros c. rewrite Hk. split.
    + intros [-> |[-> | ->]]; [apply rtc_refl|apply rtc_once..];
        apply (sample_listed (sid x03) [x02; x01]); simpl; set_solver.
    + intros Hrt. rewrite <- Hk.
      apply (rtc_closed (listed_link sample_blocks) (.∈ sample_blocks.*1) (sid x03));
        [exact Hrt|by apply Hk; left|].
      intros a b _ (data & refs & [[= -> ->]|[[= -> ->]|[[= -> ->]|[]%not_elem_of_nil]
        %elem_of_cons]%elem_of_cons]%elem_of_cons & [= <-] & Hb); apply Hk;
        rewrite ?elem_of_cons, ?elem_of_nil in Hb; naive_solver.
  - intros c data Hx. unfold sample_blocks in Hx.
    rewrite !elem_of_cons in Hx. destruct Hx as [[= -> ->]|[[= -> ->]|[[= -> ->]|[]%not_elem_of_nil]]];
      by split.
Qed.

Lemma http_round_trip_witness :
  ∃ n' resp res,
    Api.upload_handler (Ok (Some {| Api.content_type := Some Api.CAR_CONTENT_TYPE;
      Api.field_bytes := Ok sample_upload |})) sample_empty = Some (Ok (200%N, "cids"), n') ∧
    Api.get_handler (Store.dag_fuel (list_to_set sample_blocks.*1)) (cid_to_string (sid x03)) n' = Some (Ok (inr resp), n') ∧
    Api.body resp = Ok (sample_encode ([sid x03], res)) ∧ res ≡ₚ sample_blocks.
Proof.
  destruct (http_round_trip (sid x03) sample_blocks sample_upload
    (sample_car_read sample_upload ∅).2 [] sample_empty sample_car_laws sample_whole)
    as (n' & resp & res & Hup & _ & Hget & _ & Hbody & Hperm); try reflexivity.
  - by eexists.
  - exists n', resp, res. by split_and!.
Defined.
