(* ===== verification/Download.v ===== *)
(** A download from the network: a GET of a DAG that the node does not hold, from
    the HTTP handler ([src/crates/ursa-rpc-server/src/api.rs]) through the service
    and its bitswap query ([src/crates/ursa-network/src/service.rs]) and back. *)

From S2P Require Import Prelude Libs Utils Codec Protocols IndexLibs Service ServiceHistory.
From S2P Require Import Node Transfer.
From S2P Require Store Metrics Behaviour Api.

Section download.
  Context {DB : Type} {cl : CidLib} {bs : BlockStore DB} {os : ObjStore DB}.
  Context {il : IpldLib} {hi : HashIter Cid}.
  Context {nl : NetLib} {ml : MultiaddrLib} {sw : SwarmTypes} {swl : SwarmLib}.
  Context {kl : KadLib} {md : MdnsLib} {gl : GossipLib} {bl : BitswapLib}.
  Context {rl : RequestResponseLib} {al : NatLib} {dl : DebugLib}.
  Context {key : KeyLib} {el : EncodeLib} {cbor : CborLib} {host : HostLib DB}.
  Implicit Types (s : UrsaService (DB:=DB)) (n : Node (DB:=DB)).

(** ** Blocks arrive *)

Definition arrive (blocks : list (Cid * bytes)) (st : Store.Store (DB:=DB)) : Store.Store :=
  foldl (λ st block, (Store.insert block st).2) st blocks.

(** A database whose writes succeed. *)
Definition writes_succeed : Prop := ∀ k v (d : DB), is_ok (bs_write k v d).1 = true.

Lemma insert_got block (st : Store.Store (DB:=DB)) :
  writes_succeed →
  bs_get (Store.blockstore (Store.insert block st).2) block.1 = Ok (Some block.2) ∧
  ∀ c, c ≠ block.1 →
    bs_get (Store.blockstore (Store.insert block st).2) c = bs_get (Store.blockstore st) c.
Proof.
  intros Hw. unfold Store.insert, Store.blockstore. st_unfold.
  pose proof (Hw (cid_to_bytes block.1) block.2 (Store.db st)) as Hok.
  destruct (bs_write _ _ _) as [[[]| |] d] eqn:Hd; [|done..]. simpl. split.
  - rewrite bs_get_read. by eapply bs_write_same.
  - intros c Hc. rewrite !bs_get_read. eapply bs_write_other; [done|].
    intros He. apply Hc. pose proof (cid_try_from_to_bytes c) as Hx.
    rewrite He, cid_try_from_to_bytes in Hx. congruence.
Qed.

Lemma arrive_other blocks st c :
  writes_succeed → c ∉ blocks.*1 →
  bs_get (Store.blockstore (arrive blocks st)) c = bs_get (Store.blockstore st) c.
Proof.
  intros Hw. revert st. induction blocks as [|b blocks IH]; intros st; [done|].
  rewrite fmap_cons, not_elem_of_cons. intros [Hb Hc]. simpl.
  rewrite IH by done. by apply insert_got.
Qed.

Lemma arrive_got blocks st c data :
  writes_succeed → NoDup blocks.*1 → (c, data) ∈ blocks →
  bs_get (Store.blockstore (arrive blocks st)) c = Ok (Some data).
Proof.
  intros Hw. revert st. induction blocks as [|b blocks IH]; intros st Hnd Hx;
    [by apply not_elem_of_nil in Hx|].
  rewrite fmap_cons in Hnd. apply NoDup_cons in Hnd as [Hb Hnd]. simpl.
  apply elem_of_cons in Hx as [<- |Hx]; [|by apply IH].
  rewrite arrive_other by done. by apply insert_got.
Qed.

(** ** The service *)

(** The state after the command: the sender waits and the query [q] runs. *)
Definition asked_for (c : Cid) (x : Behaviour.Sender) s : UrsaService :=
  let b := behaviour s in
  let '(q, bw) := bw_sync c (elements (Behaviour.peers b)) [c] (Behaviour.bitswap b) in
  with_behaviour (Behaviour.insert_query q c (Behaviour.with_bitswap bw b)) (add_channel c x s).

Lemma sync_command c x s :
  Behaviour.peers (behaviour s) ≠ ∅ →
  round (Command (GetBitswap c Sync x)) s = Some (Ok tt, asked_for c x s).
Proof.
  intros Hp. cbn [round handle_command]. unfold handle_get_bitswap.
  rewrite (runM_bind_ok _ _ _ (behaviour s) s) by done. rewrite decide_False by done.
  rewrite (runM_bind_ok _ _ _ tt (add_channel c x s)) by done.
  destruct (add_channel_same c x s) as (Hb & _ & _).
  unfold on_behaviour, run, st_zoom. rewrite Hb, Behaviour.sync_block_run. unfold asked_for.
  by destruct (bw_sync _ _ _ _).
Qed.

(** A finished query whose block is stored is answered without waiting. *)
Lemma handle_bitswap_stored polls info chans s :
  let c := Behaviour.cid info in
  response_channels s !! c = Some chans → Store.contains (store s) c = Ok true →
  handle_bitswap polls info s = Some (Ok tt, push_sents (reply_for c true <$> chans)
    (with_response_channels (delete c (response_channels s))
      (push_metrics (Metrics.track Metrics.Bitswap (Some (finished_labels info)) None)
        (with_behaviour (Behaviour.cancel (Behaviour.query_id info) (behaviour s)) s)))).
Proof.
  intros c Hch Hc. unfold handle_bitswap. fold c.
  set (s1 := push_metrics (Metrics.track Metrics.Bitswap (Some (finished_labels info)) None)
    (with_behaviour (Behaviour.cancel (Behaviour.query_id info) (behaviour s)) s)).
  rewrite (runM_bind_ok _ _ _ tt
    (with_behaviour (Behaviour.cancel (Behaviour.query_id info) (behaviour s)) s)) by done.
  rewrite (runM_bind_ok _ _ _ tt s1) by done.
  rewrite (runM_bind_ok _ _ _ (response_channels s) s1) by done. rewrite Hch.
  set (s2 := with_response_channels (delete c (response_channels s)) s1).
  rewrite (runM_bind_ok _ _ _ tt s2) by done.
  rewrite (runM_bind_ok _ _ _ c s2) by (unfold run, st_lift; by rewrite convert_cid_to_bytes).
  rewrite (runM_bind_ok _ _ _ tt s2).
  - by apply answer_channels_run.
  - destruct (Behaviour.block_found info); [|done]. by destruct polls; simpl; rewrite Hc.
Qed.

(** ** The request *)

Definition stored n (st : Store.Store (DB:=DB)) : Node :=
  with_service (with_store st (service n)) n.

Lemma await_arrivals {R} x (pick : Sent → option R) blocks script n :
  omap pick (sent (service n)) = [] → running n = true →
  await x pick ((BlockArrives <$> blocks) ++ script) n =
    await x pick script (stored n (arrive blocks (store (service n)))).
Proof.
  revert n. induction blocks as [|b blocks IH]; intros n Hp Hr.
  - by destruct n as [[] ? ? ? ?].
  - rewrite fmap_cons, <- app_comm_cons.
    rewrite (await_skip _ _ _ _ _ (stored n (Store.insert b (store (service n))).2)); [|done..|].
    + by rewrite IH.
    + unfold act. by rewrite Hr.
Qed.

Lemma picked_reply c x chans :
  x ∈ chans → ∃ l, omap (pick_block x) (reply_for c true <$> chans) = Ok tt :: l.
Proof.
  induction chans as [|y chans IH]; [by intros ?%not_elem_of_nil|].
  intros [-> |Hx]%elem_of_cons; cbn [fmap list_fmap omap list_omap]; unfold reply_for; simpl.
  - rewrite decide_True by done. by eexists.
  - case_decide; [by eexists|by apply IH].
Qed.

(** The query that a [Sync] command for [c] starts. *)
Definition sync_query (c : Cid) s : QueryId :=
  (bw_sync c (elements (Behaviour.peers (behaviour s))) [c]
    (Behaviour.bitswap (behaviour s))).1.

(** The round that reports the query, when the block is there: whether the query
    succeeded makes no difference. *)
Lemma report_round env c x o s :
  let s1 := asked_for c x s in
  let b := Behaviour.handle_bitswap (Complete (sync_query c s) o) (behaviour s1) in
  Behaviour.events (behaviour s) = [] →
  ∀ st, Store.contains st c = Ok true →
  ∃ s' chans, round (SwarmBehaviour env) (with_behaviour b (with_store st s1)) = Some (Ok tt, s') ∧
    store s' = st ∧ x ∈ chans ∧ sent s' = sent s ++ (reply_for c true <$> chans).
Proof.
  intros s1 b He st Hc.
  set (info := {| Behaviour.cid := c; Behaviour.query_id := sync_query c s;
    Behaviour.block_found := if is_ok o then true else false |}).
  assert (∃ chans, response_channels s1 !! c = Some chans ∧ x ∈ chans ∧ sent s1 = sent s ∧
    Behaviour.events b = [Behaviour.BitswapFinished info]) as (chans & Hch & Hx & Hs & Hev).
  { unfold s1, b, s1, asked_for, info, sync_query.
    destruct (bw_sync _ _ _ _) as [q bw]. simpl. rewrite lookup_insert_eq. simpl. rewrite He.
    unfold add_channel. destruct (response_channels s !! c); simpl; rewrite lookup_insert_eq;
      eexists; split_and!; try done; set_solver. }
  set (s2 := with_behaviour (Behaviour.with_events [] b) (with_store st s1)).
  eexists _, chans. split; [|split; [|split; [exact Hx|]]].
  - cbn [round]. rewrite (runM_bind_ok _ _ _ (Some (Behaviour.BitswapFinished info)) s2).
    + simpl. by apply (handle_bitswap_stored _ info chans s2).
    + unfold next_event, on_behaviour, run, st_zoom, Behaviour.poll. simpl. by rewrite Hev.
  - done.
  - simpl. by rewrite Hs.
Qed.

Lemma asked_for_same c x s : store (asked_for c x s) = store s ∧ sent (asked_for c x s) = sent s.
Proof.
  unfold asked_for, add_channel. destruct (bw_sync _ _ _ _).
  by destruct (response_channels s !! c).
Qed.

(** The script of a download: the command is taken, the blocks arrive, the query
    ends with the result [o] and the swarm reports it. *)
Definition download_script (c : Cid) (blocks : list (Cid * bytes)) (o : outcome string unit)
    (env : Env (DB:=DB)) (rest : list choice) s : list choice :=
  TakeCommand :: (BlockArrives <$> blocks) ++
    [Library (LibBitswap (Complete (sync_query c s) o)); SwarmEvent env] ++ rest.

(** The sender of a [Sync] request is told that the block is there. *)
Lemma sync_answered c blocks o env rest n :
  running n = true → commands n = [] →
  schedule n = download_script c blocks o env rest (service n) →
  Behaviour.peers (behaviour (service n)) ≠ ∅ → Behaviour.events (behaviour (service n)) = [] →
  Store.contains (arrive blocks (store (service n))) c = Ok true →
  ∃ n', request_bitswap c Sync n = Some (Ok (Some (Ok tt)), n') ∧ running n' = true ∧
    schedule n' = rest ∧ store (service n') = arrive blocks (store (service n)).
Proof.
  intros Hr Hc Hs Hp Hev Hst. set (x := new_sender n). set (s1 := asked_for c x (service n)).
  pose proof (pick_none pick_block x n (pick_block_sender x) (new_sender_fresh n)) as Hn.
  destruct (asked_for_same c x (service n)) as [Hst1 Hse1]. fold s1 in Hst1, Hse1.
  set (n1 := with_commands [] (with_service s1 n)).
  assert (omap (pick_block x) (sent (service n1)) = []) as Hn1 by (simpl; by rewrite Hse1).
  destruct (report_round env c x o (service n) Hev _ Hst) as (s' & chans & Hrd & Hst' & Hx & Hse).
  destruct (picked_reply c x chans Hx) as [l Hl].
  unfold request_bitswap, request. rewrite Hr, Hs. unfold download_script. fold x.
  rewrite (await_skip _ _ _ _ _ n1), await_arrivals; [|done..|].
  - change (store (service n1)) with (store s1). rewrite Hst1, <- app_comm_cons.
    erewrite await_skip; [|done|done|by apply act_library]. rewrite <- app_comm_cons.
    erewrite await_skip; [|done|done|by apply act_event].
    erewrite await_here by (simpl; by rewrite Hse, omap_app, Hn, Hl).
    by eexists.
  - unfold act, push_command, push_back. rewrite Hc. simpl. rewrite Hr. unfold do_round.
    simpl service. rewrite (sync_command c x (service n)) by done. by destruct n.
Qed.

(** [get_data] goes on with what the request has left. *)
Lemma get_data_fetched fuel root o n n' :
  Store.contains (store (service n)) root = Ok false →
  request_bitswap root Sync n = Some (Ok (Some (Ok tt)), n') →
  Store.dag_traversal (store (service n')) fuel root = Some o →
  Api.get_data fuel root n = Some (o, n').
Proof.
  intros Hroot Hq Ho. unfold Api.get_data. rewrite (runM_bind_ok _ _ _ false n).
  - rewrite (runM_bind_ok _ _ _ tt n').
    + rewrite (runM_bind_ok _ _ _ root n')
        by (unfold run, st_lift; by rewrite convert_cid_to_bytes).
      rewrite (runM_bind_ok _ _ _ n' n') by done. unfold run_opt. simpl. by rewrite Ho.
    + unfold Api.request_block, mbind, runM_bind. simpl. by rewrite Hq.
  - unfold Api.has_block, run, st_query. simpl. by rewrite Api.bs_has_contains, Hroot.
Qed.

(** C6: a DAG that the node does not hold is downloaded from the network: a GET of
    its root asks bitswap of every connected peer, and once the blocks of the DAG
    have arrived and the query has ended, the answer is 200 with a CAR file of
    exactly these blocks; the node runs on. *)
Theorem network_download root blocks env rest n :
  writes_succeed → whole_dag root blocks → (∀ h, is_Some (host_header_value h)) →
  running n = true → commands n = [] →
  schedule n = download_script root blocks (Ok tt) env rest (service n) →
  Store.contains (store (service n)) root = Ok false →
  Behaviour.peers (behaviour (service n)) ≠ ∅ → Behaviour.events (behaviour (service n)) = [] →
  ∃ n' resp res,
    Api.get_handler (Store.dag_fuel (list_to_set blocks.*1)) (cid_to_string root) n =
      Some (Ok (inr resp), n') ∧
    Api.status resp = 200%N ∧ Api.body resp = car_write [root] res ∧ res ≡ₚ blocks ∧
    running n' = true ∧ schedule n' = rest.
Proof.
  intros Hw Hdag Hh Hr Hc Hs Hroot Hp Hev. set (st := arrive blocks (store (service n))).
  assert (∀ c data, (c, data) ∈ blocks → bs_get (Store.blockstore st) c = Ok (Some data))
    as Hgot by (intros c data Hx; by apply arrive_got; [|apply Hdag|]).
  assert (Store.contains st root = Ok true) as Hin.
  { destruct (proj1 (list_elem_of_fmap fst blocks root)) as ([c data] & -> & Hx);
      [by apply (wd_reached _ _ Hdag), rtc_refl|]. by eapply (Api.stored_contains st), Hgot. }
  destruct (sync_answered root blocks (Ok tt) env rest n) as (n' & Hq & Hr' & Hs' & Hst); [done..|].
  fold st in Hst. destruct (whole_dag_traversal root blocks st Hdag Hgot) as (res & Hres & Hperm).
  set (fuel := Store.dag_fuel _) in *.
  assert (Api.get_data fuel root n = Some (Ok res, n')) as Hget
    by (eapply get_data_fetched; [done..|]; by rewrite Hst, Hres).
  destruct (get_handler_ok fuel root n res n' Hh Hget) as (resp & Hresp & Hstatus & Hbody).
  by exists n', resp, res.
Qed.

(** C9: a [Sync] that fails is reported as a success once the root is there: when
    the query of a [Sync] request ends with an error after the root has arrived,
    and a descendant of the root has not, the request is answered with success;
    the GET that made it panics, and so does the next one, which asks the network
    for nothing and leaves the node as it is. *)
Theorem failed_sync_succeeds root x blocks e env rest n D :
  running n = true → commands n = [] →
  schedule n = download_script root blocks (Err e) env rest (service n) →
  Store.contains (store (service n)) root = Ok false →
  Behaviour.peers (behaviour (service n)) ≠ ∅ → Behaviour.events (behaviour (service n)) = [] →
  let st := arrive blocks (store (service n)) in
  Store.contains st root = Ok true →
  root ∈ D → (∀ a b, a ∈ D → Store.link st a b → b ∈ D) →
  (∀ a, rtc (Store.link st) root a → Store.absent st a ∨ Store.sound_block st a) →
  rtc (Store.link st) root x → Store.absent st x →
  ∃ n', request_bitswap root Sync n = Some (Ok (Some (Ok tt)), n') ∧ running n' = true ∧
    store (service n') = st ∧
    let get := Api.get_handler (Store.dag_fuel D) (cid_to_string root) in
    get n = Some (Panic, n') ∧ get n' = Some (Panic, n').
Proof.
  intros Hr Hc Hs Hroot Hp Hev st Hin HrD HD Hsound Hrt Hx.
  destruct (sync_answered root blocks (Err e) env rest n) as (n' & Hq & Hr' & _ & Hst); [done..|].
  fold st in Hst. exists n'. cbv zeta. split_and!; [done..| |].
  - eapply Api.get_handler_unwraps; [apply cid_from_str_to_string|].
    eapply get_data_fetched; [done..|]. rewrite Hst. by eapply Store.dag_traversal_partial.
  - eapply Api.get_handler_unwraps; [apply cid_from_str_to_string|].
    apply Api.get_data_stored; simpl; rewrite Hst; [done|].
    by eapply Store.dag_traversal_partial.
Qed.
End download.

(** ** Evaluation on a concrete node *)

From S2P Require Import ServiceSamples.
#[local] Existing Instance Transfer.sample_car_host.

(** A node that is connected to a peer and holds nothing. *)
Definition sample_asking : UrsaService (DB:=sample_db) :=
  with_store (Store.new ∅) sample_connected.
Definition sample_downloader : Node :=
  sample_side sample_asking ∅ (download_script (sid x03) sample_blocks (Ok tt) sample_env [] sample_asking).

Lemma network_download_witness :
  ∃ n' resp res,
    Api.get_handler (Store.dag_fuel (list_to_set sample_blocks.*1)) (cid_to_string (sid x03))
      sample_downloader = Some (Ok (inr resp), n') ∧
    Api.body resp = Ok (sample_encode ([sid x03], res)) ∧ res ≡ₚ sample_blocks.
Proof.
  destruct (network_download (sid x03) sample_blocks sample_env [] sample_downloader)
    as (n' & resp & res & Hget & _ & Hbody & Hperm & _); try reflexivity.
  - intros k v d. reflexivity.
  - exact sample_whole.
  - by eexists.
  - intros Hp. apply (f_equal (λ X : gset PeerId, bool_decide (X = ∅))) in Hp.
    vm_compute in Hp. discriminate Hp.
  - exists n', resp, res. by split_and!.
Defined.

(** The root [03] arrives, and its link [08] does not. *)
Definition sample_breaking : Node :=
  sample_side sample_asking ∅ (download_script (sid x03) [(sid x03, [x08])]
    (Err "block not found") sample_env [] sample_asking).
Definition sample_broken : Store.Store (DB:=sample_db) :=
  arrive [(sid x03, [x08])] (store sample_asking).

Lemma failed_sync_succeeds_witness :
  ∃ n', request_bitswap (sid x03) Sync sample_breaking = Some (Ok (Some (Ok tt)), n') ∧
    Api.get_handler (Store.dag_fuel (list_to_set [sid x03; sid x08])) (cid_to_string (sid x03)) n' =
      Some (Panic, n').
Proof.
  destruct (failed_sync_succeeds (sid x03) (sid x08) [(sid x03, [x08])] "block not found"
    sample_env [] sample_breaking (list_to_set [sid x03; sid x08]))
    as (n' & Hq & _ & _ & _ & Hget); try reflexivity.
  - intros Hp. apply (f_equal (λ X : gset PeerId, bool_decide (X = ∅))) in Hp.
    vm_compute in Hp. discriminate Hp.
  - intros a b. apply Store.closed_check_set. reflexivity.
  - intros a. apply (Store.forall_reach sample_broken [sid x03; sid x08] _
      (λ c, Store.absent sample_broken c ∨ Store.sound_block sample_broken c));
      [reflexivity|set_solver|].
    repeat first [apply Forall_nil_2 | apply Forall_cons_2];
      first [left; reflexivity | right; apply Store.sound_check_sound; reflexivity].
  - apply rtc_once. exists [x08], [sid x08]. split; [reflexivity|]. split; [reflexivity|set_solver].
  - exists n'. split; [exact Hq|exact Hget].
Defined.
