(* ===== verification/Sync.v ===== *)
(** What the success of a request means over every schedule of a node: when the
    synchronizations of bitswap succeed only with nothing missing, a [Sync] that is
    not answered by another query, or by one that failed, has brought the whole DAG
    ([src/crates/ursa-network/src/service.rs], [src/crates/ursa-store/src/store.rs]). *)

From S2P Require Import Prelude Libs Utils Codec Protocols IndexLibs Service ServiceHistory.
From S2P Require Import Frame Requests Node Runs Events Transfer Download.
From S2P Require Store Dag Discovery Metrics Behaviour Provider Api.

(** ** Stores that hold a whole DAG *)

Section whole.
  Context {DB : Type} {cl : CidLib} {il : IpldLib} {bs : BlockStore DB}.
  Implicit Types (st : Store.Store (DB:=DB)).

Definition present st (c : Cid) : Prop := ∃ data, bs_get (Store.blockstore st) c = Ok (Some data).

(** Nothing is missing under [root]. *)
Definition whole st (root : Cid) : Prop := ∀ c, rtc (Store.link st) root c → present st c.

(** [st'] holds the blocks of [st]. *)
Definition extends st st' : Prop := ∀ c data,
  bs_get (Store.blockstore st) c = Ok (Some data) →
  bs_get (Store.blockstore st') c = Ok (Some data).

#[export] Instance extends_refl : Reflexive extends.
Proof. by intros st c data. Qed.

#[export] Instance extends_trans : Transitive extends.
Proof. intros st st' st'' H H' c data Hc. by apply H', H. Qed.

Lemma whole_extends st st' root : extends st st' → whole st root → whole st' root.
Proof.
  intros He Hw.
  assert (∀ c, rtc (Store.link st') root c → rtc (Store.link st) root c) as Hback.
  { apply (rtc_ind_r (λ c, rtc (Store.link st) root c) root); [apply rtc_refl|].
    intros y z _ (d & l & Hd & Hl & Hz) Hy. eapply rtc_r; [exact Hy|].
    destruct (Hw _ Hy) as [d' Hd']. exists d', l. split; [done|].
    apply He in Hd'. assert (d' = d) as -> by congruence. done. }
  intros c [data Hc]%Hback%Hw. exists data. by apply He.
Qed.

Lemma whole_search st fuel root :
  Store.missing_blocks st fuel root = Some (Ok []) → whole st root.
Proof.
  intros Hm c Hrt.
  destruct (Store.missing_loop_reads _ _ _ _ _ Hm root c) as [Ha|(d & l & Hd & _)];
    [by left|done| |by exists d].
  pose proof (Store.missing_loop_spec _ _ _ _ _ Hm c) as Hc. set_solver.
Qed.
End whole.

Section sync.
  Context {DB : Type} {cl : CidLib} {bs : BlockStore DB} {os : ObjStore DB}.
  Context {il : IpldLib} {hi : HashIter Cid}.
  Context {nl : NetLib} {ml : MultiaddrLib} {sw : SwarmTypes} {swl : SwarmLib}.
  Context {kl : KadLib} {md : MdnsLib} {gl : GossipLib} {bl : BitswapLib}.
  Context {rl : RequestResponseLib} {al : NatLib} {dl : DebugLib}.
  Context {key : KeyLib} {el : EncodeLib} {cbor : CborLib} {host : HostLib DB}.
  Implicit Types (s : UrsaService (DB:=DB)) (n : Node (DB:=DB)).

(** ** Synchronizations that end

    Bitswap never puts other data in the place of a block it has. *)
Definition keeps_blocks (ch : choice (DB:=DB)) n : Prop :=
  let st := store (service n) in
  match ch with
  | SwarmEvent env => ∀ d, d ∈ env_polls env → extends st (Store.new d)
  | BlockArrives block => extends st (Store.insert block st).2
  | _ => True
  end.

(** The query that a step starts with [sync], and those that a run starts. *)
Definition starts_sync (ch : choice (DB:=DB)) n : gset QueryId :=
  match ch, commands n with
  | TakeCommand, GetBitswap c Sync _ :: _ =>
    if decide (Behaviour.peers (behaviour (service n)) = ∅) then ∅
    else {[sync_query c (service n)]}
  | _, _ => ∅
  end.

(** A query that [sync] has started, one of [Q], ends with success when a search of
    the store finds nothing missing under its identifier.  A query of [get], or one
    that fails, may end at any time. *)
Definition obeys (Q : gset QueryId) (ch : choice (DB:=DB)) n : Prop :=
  match ch with
  | Library (LibBitswap (Complete q (Ok _))) => q ∈ Q → ∀ info,
    Behaviour.queries (behaviour (service n)) !! q = Some info →
    ∃ fuel, Store.missing_blocks (store (service n)) fuel (Behaviour.cid info) = Some (Ok [])
  | _ => True
  end.

Fixpoint sync_law (Q : gset QueryId) (l : list (choice (DB:=DB))) n : Prop :=
  match l with
  | [] => True
  | ch :: l =>
    obeys Q ch n ∧
    match act ch n with Some n' => sync_law (Q ∪ starts_sync ch n) l n' | None => True end
  end.

(** A query for [root] ends that has failed, or that was not started with [sync]. *)
Definition stops_early (Q : gset QueryId) (root : Cid) (ch : choice (DB:=DB)) n : Prop :=
  match ch with
  | Library (LibBitswap (Complete q o)) => ∃ info,
    Behaviour.queries (behaviour (service n)) !! q = Some info ∧ Behaviour.cid info = root ∧
    (is_ok o = false ∨ q ∉ Q)
  | _ => False
  end.

Fixpoint ends_early (Q : gset QueryId) (root : Cid) (l : list (choice (DB:=DB))) n : Prop :=
  match l with
  | [] => False
  | ch :: l =>
    stops_early Q root ch n ∨
    match act ch n with Some n' => ends_early (Q ∪ starts_sync ch n) root l n' | None => False end
  end.

Lemma sync_law_prefix Q l l' n : sync_law Q (l ++ l') n → sync_law Q l n.
Proof.
  revert Q n. induction l as [|ch l IH]; intros Q n; [done|]. simpl.
  intros [Ho Hl]. split; [done|]. destruct (act ch n); [by apply IH|done].
Qed.

Lemma ends_early_prefix Q root l l' n : ends_early Q root l n → ends_early Q root (l ++ l') n.
Proof.
  revert Q n. induction l as [|ch l IH]; intros Q n; [done|]. simpl.
  intros [Ho|Hl]; [by left|right]. destruct (act ch n); [by apply IH|done].
Qed.

(** Only bitswap reports a query. *)
Lemma library_reports e b info :
  Behaviour.BitswapFinished info ∈ Behaviour.events (library_step e b) →
  Behaviour.BitswapFinished info ∈ Behaviour.events b ∨
  ∃ q o info', e = LibBitswap (Complete q o) ∧ Behaviour.queries b !! q = Some info' ∧
    Behaviour.cid info = Behaviour.cid info'.
Proof.
  intros [?|Hr]%library_events; [by left|right].
  destruct e as [[|q o]|[]|[]|[]|[]|[? []| | |]|call|x|x|x]; try done.
  destruct Hr as (info' & ? & ?). by exists q, o, info'.
Qed.

(** Only a query that ends adds to what is reported, and the store grows. *)
Lemma act_reported ch n n' c :
  keeps_blocks ch n → act ch n = Some n' →
  extends (store (service n)) (store (service n')) ∧
  (reported (service n') c → reported (service n) c ∨
   ∃ q o info, ch = Library (LibBitswap (Complete q o)) ∧
     Behaviour.queries (behaviour (service n)) !! q = Some info ∧ Behaviour.cid info = c).
Proof.
  intros Hk Ha. unfold act in Ha. destruct (running n); [|by injection Ha as <-; split; [|left]].
  assert (∀ i n1, service n1 = service n →
    (∀ d, d ∈ input_polls i → extends (store (service n)) (Store.new d)) →
    do_round i n1 = Some n' → extends (store (service n)) (store (service n')) ∧
    (reported (service n') c → reported (service n) c)) as Hround.
  { intros i n1 Hs Hp (s' & [Hst Hev _] & Hs')%do_round_frame. rewrite Hs in *.
    assert (store (service n') = store s' ∧ behaviour (service n') = behaviour s') as [-> Hb]
      by by destruct Hs' as [-> | ->].
    split; [destruct Hst as [->|(d & Hd & ->)]; [done|by apply Hp]|].
    intros (info & Hi & <-). rewrite Hb in Hi. apply Hev in Hi as [Hi|[]]. by exists info. }
  assert (∀ d : DB, d ∈ [] → extends (store (service n)) (Store.new d)) as Hnil
    by (intros d Hd; by apply not_elem_of_nil in Hd).
  destruct ch as [|env| |command|e|block|y]; [destruct (commands n)|..];
    try (by injection Ha as <-; split; [|by left]);
    try (edestruct Hround as [Hx Hr]; [..|exact Ha|]; [done|done|];
         split; [exact Hx|by intros ?%Hr; left]).
  injection Ha as <-. split; [done|]. intros (info & Hi & <-).
  apply library_reports in Hi as [Hi|(q & o & info' & -> & Hq & ->)];
    [left; by exists info|right; by exists q, o, info'].
Qed.

Lemma reported_whole Q root ch n n' :
  keeps_blocks ch n → obeys Q ch n → act ch n = Some n' →
  (reported (service n) root → whole (store (service n)) root) →
  stops_early Q root ch n ∨ (reported (service n') root → whole (store (service n')) root).
Proof.
  intros Hk Ho Ha Hw. destruct (act_reported ch n n' root Hk Ha) as [Hx Hr].
  destruct ch as [| | | |[[|q o]| | | | | | | | |]| |];
    try (right; intros [Hrep|(?&?&?&?&_)]%Hr; [by eapply whole_extends, Hw|done]).
  destruct (Behaviour.queries (behaviour (service n)) !! q) as [info|] eqn:Hq; last first.
  { right. intros [Hrep|(q' & o' & info & [= <- <-] & Hq' & _)]%Hr;
      [by eapply whole_extends, Hw|congruence]. }
  destruct (decide (Behaviour.cid info = root ∧ (is_ok o = false ∨ q ∉ Q))) as [[Hc He]|Hne];
    [left; by exists info|right].
  intros [Hrep|(q' & o' & info' & [= <- <-] & Hq' & Hc)]%Hr; [by eapply whole_extends, Hw|].
  assert (info' = info) as -> by congruence.
  destruct o as [u| |]; [|by destruct Hne; auto..].
  assert (q ∈ Q) as Hin by (destruct (decide (q ∈ Q)); [done|by destruct Hne; auto]).
  destruct (Ho Hin info Hq) as [fuel Hm]. rewrite Hc in Hm.
  by eapply whole_extends, whole_search.
Qed.

(** What is reported is there as a whole, unless a query has ended early. *)
Lemma run_whole Q root l n n' :
  run_meets keeps_blocks l n → sync_law Q l n → run_choices l n = Some n' →
  (reported (service n) root → whole (store (service n)) root) →
  ends_early Q root l n ∨ (reported (service n') root → whole (store (service n')) root).
Proof.
  revert Q n. induction l as [|ch l IH]; intros Q n; [by intros _ _ [= <-]; right|].
  intros Hk Hl Hrun Hw. cbn [run_choices] in Hrun. destruct (act ch n) as [n1|] eqn:Ha; [|done].
  simpl in Hrun. apply (run_meets_cons _ _ _ _ _ Ha) in Hk as [Hk Hks].
  assert (stops_early Q root ch n ∨
    (reported (service n1) root → whole (store (service n1)) root)) as [?|Hw1];
    [eapply reported_whole; [exact Hk|apply Hl|exact Ha|exact Hw]|by left; left|].
  destruct Hl as [_ Hl]. rewrite Ha in Hl.
  destruct (IH _ _ Hks Hl Hrun Hw1) as [?|?]; [left; right; by rewrite Ha|by right].
Qed.

Lemma run_extends l n n' :
  run_meets keeps_blocks l n → run_choices l n = Some n' →
  extends (store (service n)) (store (service n')).
Proof.
  intros Hk Hrun.
  apply (run_choices_preserves (λ n', extends (store (service n)) (store (service n')))
    keeps_blocks l n n'); [|done..].
  intros ch m m' Hq Ha Hx c data Hc.
  destruct (act_reported ch m m' c Hq Ha) as [Hx' _]. by apply Hx', Hx.
Qed.

(** ** A request that succeeds *)

(** The success was told because a query had been reported. *)
Lemma request_reported c q n n' :
  request_bitswap c q n = Some (Ok (Some (Ok tt)), n') →
  let n0 := push_command (GetBitswap c q (new_sender n)) n in
  ∃ l1 l2 n1 n2, schedule n = (l1 ++ l2) ++ schedule n' ∧ run_choices l1 n0 = Some n1 ∧
    reported (service n1) c ∧ run_choices l2 n1 = Some n2 ∧ n' = with_schedule (schedule n') n2.
Proof.
  intros (l & l' & n2 & Hs & Hr & Hrun & -> & Hh & _)%request_run n0.
  pose proof (new_sender_fresh n) as Hx. set (x := new_sender n) in *.
  pose proof (push_observes c q x n Hr Hx) as Ho.
  assert (Forall (private x) l) as Hp.
  { apply private_choices. unfold senders in Hx. rewrite Hs, bind_app, !not_elem_of_app in Hx.
    tauto. }
  destruct (run_first (λ n, is_Some (answer_of x n)) l n0 n2)
    as (l1 & ch & l2 & m & m' & -> & Hl1 & Hm & Ha & [r Hm'] & Hl2); [done| |by eexists|].
  { intros [r Hr0]. destruct Ho as (_ & Hn0 & _). subst n0. congruence. }
  apply Forall_app in Hp as [Hp1 [Hpc Hp2]%Forall_cons].
  destruct (run_choices_observes _ _ _ _ _ _ _ Hp1 Hl1 Ho) as (p & _ & Hop).
  assert (r = Ok tt) as ->.
  { destruct (act_observes _ _ _ _ _ _ _ Hpc Ha Hop) as (p' & _ & Hop').
    destruct (run_choices_observes _ _ _ _ _ _ _ Hp2 Hl2 Hop') as (p2 & Hrt & Hop2).
    pose proof (observes_phase _ _ _ _ _ Hop') as Hph. unfold phase_of in Hph.
    rewrite Hm' in Hph. subst p'. apply settled_final in Hrt; [subst p2|done].
    simpl in Hop2. unfold answer_of in Hop2. congruence. }
  exists l1, (ch :: l2), m, n2. split_and!; [done|done| |by rewrite (run_choices_cons _ _ _ m')|done].
  eapply act_reports; [exact Ha|exact Hop| |exact Hm'].
  destruct (answer_of x m); [|done]. destruct Hm. by eexists.
Qed.

(** C5: a [Sync] that succeeds has brought the whole DAG, or it has been answered by
    a query that was not its own synchronization or that failed.  In whatever
    order things happen, if synchronizations of bitswap succeed only when a search
    of the store finds nothing missing, and no query for the identifier is
    reported yet, then after a request that is answered with success every block
    under the identifier is in the store, and when these blocks are sound, the GET
    that made the request answers 200 with a CAR file of exactly them; otherwise,
    before the answer, a query for this identifier has ended that was started with
    [get] or has failed. *)
Theorem sync_brings_whole_dag Q root n n' :
  (∀ h, is_Some (host_header_value h)) → ¬ reported (service n) root →
  let n0 := push_command (GetBitswap root Sync (new_sender n)) n in
  run_meets keeps_blocks (schedule n) n0 → sync_law Q (schedule n) n0 →
  Store.contains (store (service n)) root = Ok false →
  request_bitswap root Sync n = Some (Ok (Some (Ok tt)), n') →
  let st := store (service n') in
  (∃ l, schedule n = l ++ schedule n' ∧ ends_early Q root l n0) ∨
  (whole st root ∧
   ∀ D, root ∈ D → (∀ a b, a ∈ D → Store.link st a b → b ∈ D) →
     (∀ c, rtc (Store.link st) root c → present st c → Store.sound_block st c) →
     ∃ res resp, Api.get_handler (Store.dag_fuel D) (cid_to_string root) n =
         Some (Ok (inr resp), n') ∧
       Api.status resp = 200%N ∧ Api.body resp = car_write [root] res ∧
       ∀ c, c ∈ res.*1 ↔ rtc (Store.link st) root c).
Proof.
  intros Hhd Hrep n0 Hk Hl Hroot Hq st.
  destruct (request_reported _ _ _ _ Hq) as (l1 & l2 & n1 & n2 & Hs & Hrun1 & Hrep1 & Hrun2 & Hn').
  rewrite Hs in Hk, Hl. apply run_meets_prefix in Hk. apply sync_law_prefix in Hl.
  destruct (run_whole Q root l1 n0 n1) as [He|Hw];
    [by eapply run_meets_prefix|by eapply sync_law_prefix|done|by intros []%Hrep| |].
  { left. exists (l1 ++ l2). split; [done|by apply ends_early_prefix]. }
  right. assert (whole st root) as Hwhole.
  { assert (st = store (service n2)) as -> by (unfold st; by rewrite Hn').
    eapply whole_extends, Hw, Hrep1. eapply run_extends, Hrun2. by eapply run_meets_suffix. }
  split; [exact Hwhole|]. intros D HrD HD Hsound.
  destruct (Store.dag_traversal_whole st D root HrD HD) as (res & Hres & _ & Hin & _);
    [by intros c Hrt; apply Hsound, Hwhole|].
  assert (Api.get_data (Store.dag_fuel D) root n = Some (Ok res, n')) as Hget
    by by eapply get_data_fetched.
  destruct (get_handler_ok _ _ _ _ _ Hhd Hget) as (resp & ? & ? & ?).
  by exists res, resp.
Qed.
End sync.

(** ** Evaluation on a concrete node *)

From S2P Require Import ServiceSamples.
#[local] Existing Instance Transfer.sample_car_host.

Lemma sample_extends (d d' : sample_db) : d ∪ d' = d' → extends (Store.new d) (Store.new d').
Proof.
  intros Hd c data. cbn. intros [= Hc]. do 2 f_equal. rewrite <- Hd.
  by apply lookup_union_Some_l.
Qed.

(** The conditions of the theorem as a program. *)
Section sample_run.
  Context {il : IpldLib (H:=sample_cid)}.

Definition sample_keeps (ch : choice (DB:=sample_db)) (n : Node (DB:=sample_db)) : bool :=
  let d := Store.db (store (service n)) in
  match ch with
  | SwarmEvent env => forallb (λ d', bool_decide (d ∪ d' = d')) (env_polls env)
  | BlockArrives block =>
    let d' := Store.db (Store.insert block (store (service n))).2 in bool_decide (d ∪ d' = d')
  | _ => true
  end.

Lemma sample_keeps_ok ch n : sample_keeps ch n = true → keeps_blocks ch n.
Proof.
  assert (∀ st st' : Store.Store (DB:=sample_db), Store.db st ∪ Store.db st' = Store.db st' →
    extends st st') as Hx by (intros [d] [d']; apply sample_extends).
  destruct ch as [|env| |command|e|block|y]; simpl; try done.
  - intros Hd d' Hin%list_elem_of_In. apply Hx.
    apply forallb_forall with (x:=d') in Hd; [|done]. by apply bool_decide_eq_true in Hd.
  - intros Hd. apply Hx. by apply bool_decide_eq_true in Hd.
Qed.

Definition sample_obeys (Q : gset QueryId) (ch : choice (DB:=sample_db)) (n : Node (DB:=sample_db)) : bool :=
  match ch with
  | Library (LibBitswap (Complete q (Ok _))) =>
    match Behaviour.queries (behaviour (service n)) !! q with
    | Some info =>
      negb (bool_decide (q ∈ Q)) ||
      match Store.missing_blocks (store (service n)) 20 (Behaviour.cid info) with
      | Some (Ok []) => true
      | _ => false
      end
    | None => true
    end
  | _ => true
  end.

Lemma sample_obeys_ok Q ch n : sample_obeys Q ch n = true → obeys Q ch n.
Proof.
  destruct ch as [| | | |[[|q [u| |]]| | | | | | | | |]| |]; try done.
  intros Hb Hq info Hl. revert Hb. cbn [sample_obeys]. rewrite Hl.
  rewrite bool_decide_eq_true_2 by done. intros Hm. exists 20. simpl in Hm.
  by destruct (Store.missing_blocks _ _ _) as [[[|]| |]|].
Qed.

Fixpoint sample_lawful (Q : gset QueryId) (l : list (choice (DB:=sample_db))) (n : Node (DB:=sample_db)) : bool :=
  match l with
  | [] => true
  | ch :: l => sample_keeps ch n && sample_obeys Q ch n &&
    match act ch n with Some n' => sample_lawful (Q ∪ starts_sync ch n) l n' | None => true end
  end.

Lemma sample_lawful_ok Q l n :
  sample_lawful Q l n = true → run_meets keeps_blocks l n ∧ sync_law Q l n.
Proof.
  revert Q n. induction l as [|ch l IH]; intros Q n; [done|]. simpl.
  intros [[Hk Ho]%andb_prop Hr]%andb_prop. apply sample_keeps_ok in Hk.
  apply sample_obeys_ok in Ho. destruct (act ch n); [|done].
  apply IH in Hr as [? ?]. done.
Qed.

Fixpoint sample_early (Q : gset QueryId) (root : Cid) (l : list (choice (DB:=sample_db)))
    (n : Node (DB:=sample_db)) : bool :=
  match l with
  | [] => false
  | ch :: l =>
    match ch with
    | Library (LibBitswap (Complete q o)) => negb (is_ok o) || negb (bool_decide (q ∈ Q))
    | _ => false
    end ||
    match act ch n with Some n' => sample_early (Q ∪ starts_sync ch n) root l n' | None => false end
  end.

Lemma sample_early_ok Q root l n : ends_early Q root l n → sample_early Q root l n = true.
Proof.
  revert Q n. induction l as [|ch l IH]; intros Q n; [done|]. simpl.
  intros [Hs|Hr]; apply orb_true_iff.
  - left. destruct ch as [| | | |[[|q o]| | | | | | | | |]| |]; try done.
    destruct Hs as (info & _ & _ & [->|Hq]); [done|].
    rewrite bool_decide_eq_false_2 by done. apply orb_true_r.
  - right. destruct (act ch n); [by apply IH|done].
Qed.
End sample_run.

Definition sample_sync_ask : Node (DB:=sample_db) :=
  push_command (GetBitswap (sid x03) Sync (new_sender sample_downloader)) sample_downloader.

Lemma sync_brings_whole_dag_witness :
  ∃ n', request_bitswap (sid x03) Sync sample_downloader = Some (Ok (Some (Ok tt)), n') ∧
    whole (store (service n')) (sid x03).
Proof.
  destruct (sync_answered (sid x03) sample_blocks (Ok tt) sample_env [] sample_downloader)
    as (n' & Hq & _ & Hs & _); try reflexivity.
  - intros Hp. apply (f_equal (λ X : gset PeerId, bool_decide (X = ∅))) in Hp.
    vm_compute in Hp. discriminate Hp.
  - exists n'. split; [exact Hq|].
    assert (sample_lawful ∅ (schedule sample_downloader) sample_sync_ask = true) as Hl
      by (vm_compute; reflexivity).
    apply sample_lawful_ok in Hl as [Hk Hl].
    destruct (sync_brings_whole_dag ∅ (sid x03) sample_downloader n') as [(l & Hsch & He)|[Hw _]].
    + by eexists.
    + intros (info & Hi & _). by apply not_elem_of_nil in Hi.
    + exact Hk.
    + exact Hl.
    + reflexivity.
    + exact Hq.
    + rewrite Hs, app_nil_r in Hsch. rewrite <- Hsch in He. apply sample_early_ok in He.
      vm_compute in He. discriminate He.
    + exact Hw.
Defined.
