(* ===== verification/NetworkTests.v ===== *)
(** The tests of the network crate (module [tests] of
    [src/crates/ursa-network/src/service.rs] and of [codec/protocol.rs]), as runs
    of the model, and which of them can pass. *)

From S2P Require Import Prelude Libs Utils Codec Protocols IndexLibs Service ServiceHistory.
From S2P Require Import Frame Requests Node Runs Events Transfer Download Sync.
From S2P Require Store NetConfig Discovery Metrics Behaviour Advertisement Provider Api.

(** ** What only the tests use

    The process that runs them, with its logger and the databases it has open,
    [SimpleLogger::init], [RocksDb::open] with the default configuration,
    [Block::encode] of bytes, [CarReader]: the identifiers in a CAR file, and
    [Topic::hash]. *)
Class TestLib (DB : Type) `{CidLib, GossipLib} := {
  TestProcess : Type;
  LevelFilter : Type;
  level_debug : LevelFilter;
  level_info : LevelFilter;
  logger_init : LevelFilter → stM TestProcess string unit;
  rocks_open : string → stM TestProcess string DB;
  block_encode : bytes → outcome string (Cid * bytes);
  car_cids : bytes → outcome string (list Cid);
  topic_hash : Topic → TopicHash;
  (** A process has one logger. *)
  logger_once : ∀ v v' l l', logger_init v l = (Ok tt, l') → ∃ e, (logger_init v' l').1 = Err e;
}.

(** RocksDB holds the lock of a database from its opening until the handle is
    dropped, and refuses to open a database whose lock is held, by the same
    process as well.  The tests drop no handle before they end. *)
Class RocksLock (DB : Type) `{TestLib DB} := {
  is_open : string → TestProcess → Prop;
  open_locks : ∀ path d p p', rocks_open path p = (Ok d, p') → is_open path p';
  open_refused : ∀ path p, is_open path p → ∃ e, (rocks_open path p).1 = Err e;
  open_keeps : ∀ path path' p, is_open path p → is_open path (rocks_open path' p).2;
}.

Section tests.
  Context {DB : Type} {cl : CidLib} {bs : BlockStore DB} {os : ObjStore DB}.
  Context {il : IpldLib} {hi : HashIter Cid}.
  Context {nl : NetLib} {ml : MultiaddrLib} {sw : SwarmTypes} {swl : SwarmLib}.
  Context {kl : KadLib} {md : MdnsLib} {gl : GossipLib} {bl : BitswapLib}.
  Context {rl : RequestResponseLib} {al : NatLib} {dl : DebugLib}.
  Context {key : KeyLib} {el : EncodeLib} {cbor : CborLib} {host : HostLib DB}.
  Context {tl : TestLib DB}.
  Implicit Types (s : UrsaService (DB:=DB)) (n : Node (DB:=DB)).

Abbreviation testM := (runM TestProcess string).
Abbreviation configM := (stM (NetConfig.NetworkConfig * TestProcess) string).

Definition on_config {A} (m : stM NetConfig.NetworkConfig string A) : configM A :=
  st_zoom fst (λ c z, (c, z.2)) m.
Definition on_process {A} (m : stM TestProcess string A) : configM A :=
  st_zoom snd (λ p z, (z.1, p)) m.

(** ** Helpers *)

Definition create_block (content : bytes) : outcome string (Cid * bytes) :=
  unwrap (block_encode content).

Definition get_block (content : bytes) : outcome string (Cid * bytes) := create_block content.

Definition setup_logger (level : LevelFilter) : testM unit :=
  run (st_unwrap (logger_init level)).

Definition open_db (path : string) : stM TestProcess string DB := st_unwrap (rocks_open path).

Definition get_store (path : string) : stM TestProcess string (Store.Store (DB:=DB)) :=
  d ← open_db path; mret (Store.new d).

(** An error is only logged. *)
Definition insert_block (s : Store.Store (DB:=DB)) (b : Cid * bytes)
    : outcome string (Store.Store (DB:=DB)) :=
  let '(r, s) := st_try (F:=string) (Store.insert b) s in
  _ ← (r : outcome string (outcome string unit)); Ok s.

(** What a node of a test is made of: [Keypair::generate_ed25519], and what the
    libraries build for [UrsaService::new]; [home] is the home directory. *)
Record Machine := {
  m_keypair : Keypair;
  m_built : Swarm;
  m_relay : RelayClient;
  m_home : string;
}.

Definition with_bootstrap_nodes (x : list Multiaddr) (c : NetConfig.NetworkConfig)
    : NetConfig.NetworkConfig :=
  {| NetConfig.mdns := NetConfig.mdns c; NetConfig.relay_server := NetConfig.relay_server c;
     NetConfig.autonat := NetConfig.autonat c; NetConfig.relay_client := NetConfig.relay_client c;
     NetConfig.bootstrapper := NetConfig.bootstrapper c;
     NetConfig.swarm_addr := NetConfig.swarm_addr c; NetConfig.bootstrap_nodes := x;
     NetConfig.database_path := NetConfig.database_path c;
     NetConfig.identity := NetConfig.identity c;
     NetConfig.keystore_path := NetConfig.keystore_path c |}.

Definition with_swarm_addr (x : Multiaddr) (c : NetConfig.NetworkConfig)
    : NetConfig.NetworkConfig :=
  {| NetConfig.mdns := NetConfig.mdns c; NetConfig.relay_server := NetConfig.relay_server c;
     NetConfig.autonat := NetConfig.autonat c; NetConfig.relay_client := NetConfig.relay_client c;
     NetConfig.bootstrapper := NetConfig.bootstrapper c; NetConfig.swarm_addr := x;
     NetConfig.bootstrap_nodes := NetConfig.bootstrap_nodes c;
     NetConfig.database_path := NetConfig.database_path c;
     NetConfig.identity := NetConfig.identity c;
     NetConfig.keystore_path := NetConfig.keystore_path c |}.

Definition with_mdns (x : bool) (c : NetConfig.NetworkConfig) : NetConfig.NetworkConfig :=
  {| NetConfig.mdns := x; NetConfig.relay_server := NetConfig.relay_server c;
     NetConfig.autonat := NetConfig.autonat c; NetConfig.relay_client := NetConfig.relay_client c;
     NetConfig.bootstrapper := NetConfig.bootstrapper c;
     NetConfig.swarm_addr := NetConfig.swarm_addr c;
     NetConfig.bootstrap_nodes := NetConfig.bootstrap_nodes c;
     NetConfig.database_path := NetConfig.database_path c;
     NetConfig.identity := NetConfig.identity c;
     NetConfig.keystore_path := NetConfig.keystore_path c |}.

(** The configuration that is passed in gets other bootstrap nodes, and is then
    hidden by a new one. *)
Definition network_init (m : Machine) (st : Store.Store (DB:=DB))
    : configM (UrsaService (DB:=DB) * PeerId) :=
  let keypair := m_keypair m in
  let local_peer_id := peer_of_key (public keypair) in
  nodes ← st_lift (NetConfig.parse_all ["/ip4/127.0.0.1/tcp/6009"]);
  _ ← on_config (st_modify (with_bootstrap_nodes nodes));
  config ← st_lift (NetConfig.NetworkConfig_default (m_home m));
  provider_db ← on_process (open_db "index_provider_db");
  let provider_config := Provider.default_config (m_home m) in
  let index_provider := Provider.new keypair provider_db provider_config in
  service ← st_lift (new keypair config st index_provider (m_built m) (m_relay m));
  mret (service, local_peer_id).

(** The two calls of the tests with two nodes. *)
Definition two_nodes (m1 m2 : Machine) (st1 st2 : Store.Store (DB:=DB))
    : configM ((UrsaService (DB:=DB) * PeerId) * (UrsaService (DB:=DB) * PeerId)) :=
  node_1 ← network_init m1 st1;
  addr ← st_lift (unwrap (ma_from_str "/ip4/0.0.0.0/tcp/6010"));
  _ ← on_config (st_modify (with_swarm_addr addr));
  node_2 ← network_init m2 st2;
  mret (node_1, node_2).

(** [let mut config = ..] and what is made with it. *)
Definition with_config {A} (config : outcome string NetConfig.NetworkConfig)
    (m : configM A) : testM A :=
  config ← run (st_lift config);
  run (λ p, let '(o, (_, p)) := m (config, p) in (o, p)).

(** [task::spawn(service.start())]; what happens to the node is [script]. *)
Definition spawn (files : Files) (script : list choice) s : Node :=
  {| service := s; running := true; commands := []; schedule := script; files := files |}.

(** [sender.send(msg).await.unwrap()] after a pause in which [before] happens. *)
Definition send_command (before : list choice) (command : UrsaCommand) n : testM Node := λ lg,
  n ← run_choices before n;
  if running n then Some (Ok (push_command command n), lg) else Some (Panic, lg).

(** The same with a sender for the reply, and
    [receiver.await.expect("Unable to receive from channel")]. *)
Definition ask_block (before : list choice) (c : Cid) (q : BitswapType) n
    : testM (outcome string unit * Node (DB:=DB)) := λ lg,
  n ← run_choices before n;
  '(r, n) ← request_bitswap c q n;
  match r with
  | Ok (Some v) => Some (Ok (v, n), lg)
  | _ => Some (Panic, lg)
  end.

Definition assert (b : bool) : testM unit := if b then mret tt else run st_panic.

(** *** Waiting for events

    [command_receiver.next()] until a gossip message comes, while the node goes
    on; [None] waits for ever.  The receiver is a clone, but nothing that it could
    still hold when the service has ended has escaped the look before each step. *)
Definition first_gossip (l : list UrsaEvent) : option GossipsubMessage :=
  head (omap (λ e, match e with GossipsubMessageEvent m => Some m | _ => None end) l).

Fixpoint await_gossip (script : list choice) n : option (GossipsubMessage * Node (DB:=DB)) :=
  match first_gossip (event_channel (service n)) with
  | Some m => Some (m, n)
  | None =>
    match script with
    | [] => None
    | ch :: script => n ← act ch n; await_gossip script n
    end
  end.

(** [swarm.next()] until an event is the one waited for: the swarm of a node that
    is not started.  [Some e] is what a library does, [None] the swarm that yields. *)
Fixpoint swarm_until (wanted : Behaviour.BehaviourEvent → bool)
    (script : list (option library_event)) (b : Behaviour.Behaviour)
    : option (Behaviour.BehaviourEvent * Behaviour.Behaviour) :=
  match script with
  | [] => None
  | Some e :: script => swarm_until wanted script (library_step e b)
  | None :: script =>
    match Behaviour.poll b with
    | (Some ev, b) => if wanted ev then Some (ev, b) else swarm_until wanted script b
    | (None, b) => swarm_until wanted script b
    end
  end.

Definition swarm_waits (wanted : Behaviour.BehaviourEvent → bool)
    (script : list (option library_event)) s : testM unit := λ lg,
  '(_, _) ← swarm_until wanted script (behaviour s); Some (Ok tt, lg).

Definition is_peer_connected (ev : Behaviour.BehaviourEvent) : bool :=
  match ev with Behaviour.PeerConnected _ => true | _ => false end.
Definition is_request_message (ev : Behaviour.BehaviourEvent) : bool :=
  match ev with Behaviour.RequestMessage _ _ _ => true | _ => false end.

(** ** The tests of the service *)

Definition test_network_start (m : Machine) : testM unit :=
  _ ← setup_logger level_debug;
  db ← run (open_db "test_db");
  _ ← with_config (NetConfig.NetworkConfig_default (m_home m)) (network_init m (Store.new db));
  mret tt.

Definition test_message : GossipsubMessage :=
  {| msg_source := None; msg_data := [x01]; msg_sequence_number := Some 1%N;
     msg_topic := topic_hash (topic_new URSA_GLOBAL) |}.

(** The nodes of the tests that share one store. *)
Definition shared_nodes (m1 m2 : Machine)
    (config : outcome string NetConfig.NetworkConfig)
    : testM ((UrsaService (DB:=DB) * PeerId) * (UrsaService (DB:=DB) * PeerId)) :=
  _ ← setup_logger level_debug;
  config ← run (st_lift config);
  db ← run (open_db "test_db");
  with_config (Ok config) (two_nodes m1 m2 (Store.new db) (Store.new db)).

Definition test_network_gossip (m1 m2 : Machine) (files : Files)
    (before script : list choice) : testM unit :=
  nodes ← shared_nodes m1 m2 (NetConfig.NetworkConfig_default (m_home m1));
  let '((node_1, _), (node_2, _)) := nodes in
  _ ← send_command before (GossipsubMessage_ (topic_new URSA_GLOBAL) test_message)
        (spawn files [] node_1);
  gossip ← run_opt (Ok <$> await_gossip script (spawn files script node_2));
  assert (bool_decide ([x01] = msg_data gossip.1)).

Definition test_network_mdns (m1 m2 : Machine) (script : list (option library_event))
    : testM unit :=
  let config := config ← NetConfig.NetworkConfig_default (m_home m1); Ok (with_mdns true config) in
  nodes ← shared_nodes m1 m2 config;
  swarm_waits is_peer_connected script nodes.2.1.

Definition test_network_discovery (m1 m2 : Machine) (script : list (option library_event))
    : testM unit :=
  nodes ← shared_nodes m1 m2 (NetConfig.NetworkConfig_default (m_home m1));
  swarm_waits is_peer_connected script nodes.2.1.

Definition test_network_req_res (m1 m2 : Machine) (files : Files) (before : list choice)
    (channel : Behaviour.Sender) (script : list (option library_event)) : testM unit :=
  nodes ← shared_nodes m1 m2 (NetConfig.NetworkConfig_default (m_home m1));
  let '((node_1, _), (node_2, peer_2)) := nodes in
  _ ← send_command before
        (SendRequest peer_2 (Build_UrsaExchangeRequest (CarRequest "Qm")) channel)
        (spawn files [] node_1);
  swarm_waits is_request_message script node_2.

(** What [test_bitswap_get] and [test_bitswap_get_block_not_found] prepare: the
    block, and the service that asks for it.  The first puts the block into the
    store of the other node. *)
Definition bitswap_get_setup (m1 m2 : Machine)
    : testM ((Cid * bytes) * UrsaService (DB:=DB)) :=
  _ ← setup_logger level_info;
  config ← run (st_lift (NetConfig.NetworkConfig_default (m_home m1)));
  store1 ← run (get_store "test_db1");
  store2 ← run (get_store "test_db2");
  block ← run (st_lift (get_block (as_bytes "hello world")));
  store1 ← run (st_lift (insert_block store1 block));
  nodes ← with_config (Ok config) (two_nodes m1 m2 store1 store2);
  mret (block, nodes.2.1).

Definition test_bitswap_get (m1 m2 : Machine) (files : Files) (before script : list choice)
    : testM unit :=
  setup ← bitswap_get_setup m1 m2;
  let '(block, node_2) := setup in
  c ← run (st_lift (convert_cid (cid_to_bytes block.1)));
  reply ← ask_block before c Get (spawn files script node_2);
  let '(value, n) := reply in
  match value with
  | Ok _ =>
    c ← run (st_lift (convert_cid (cid_to_bytes block.1)));
    store_2_block ← run (st_lift (unwrap (Store.get (store (service n)) c)));
    assert (bool_decide (store_2_block = Some block.2))
  | _ => mret tt
  end.

Definition bitswap_not_found_setup (m1 m2 : Machine)
    : testM ((Cid * bytes) * UrsaService (DB:=DB)) :=
  _ ← setup_logger level_info;
  config ← run (st_lift (NetConfig.NetworkConfig_default (m_home m1)));
  store1 ← run (get_store "test_db1");
  store2 ← run (get_store "test_db2");
  block ← run (st_lift (get_block (as_bytes "hello world")));
  nodes ← with_config (Ok config) (two_nodes m1 m2 store1 store2);
  mret (block, nodes.2.1).

Definition test_bitswap_get_block_not_found (m1 m2 : Machine) (files : Files)
    (before script : list choice) : testM unit :=
  setup ← bitswap_not_found_setup m1 m2;
  let '(block, node_2) := setup in
  c ← run (st_lift (convert_cid (cid_to_bytes block.1)));
  reply ← ask_block before c Get (spawn files script node_2);
  match reply.1 with
  | Err val => assert (bool_decide (val =
      "The requested block with cid " +:+ cid_debug block.1 +:+ " is not found with any peers"))
  | _ => mret tt
  end.



(** Every identifier of the CAR file must be in the store. *)
Fixpoint assert_contains (st : Store.Store (DB:=DB)) (cids_vec : list Cid) : testM unit :=
  match cids_vec with
  | [] => mret tt
  | c :: cids_vec =>
    c ← run (st_lift (convert_cid (cid_to_bytes c)));
    found ← run (st_lift (unwrap (Store.contains st c)));
    _ ← assert found;
    assert_contains st cids_vec
  end.

(** The first root, the identifiers of the blocks, and the service that asks. *)
Definition bitswap_sync_setup (m1 m2 : Machine) (files : Files)
    : testM (Cid * list Cid * UrsaService (DB:=DB)) :=
  _ ← setup_logger level_info;
  config ← run (st_lift (NetConfig.NetworkConfig_default (m_home m1)));
  store1 ← run (get_store "test_db1");
  store2 ← run (get_store "test_db2");
  file ← run (st_lift (host_read_file "../car_files/text_mb.car" files));
  let '(loaded, d) := car_load file (Store.db store1) in
  cids ← run (st_lift loaded);
  cids_vec ← run (st_lift (car_cids file));
  nodes ← with_config (Ok config) (two_nodes m1 m2 (Store.new d) store2);
  root ← run (st_lift (unwrap_opt (head cids)));
  mret (root, cids_vec, nodes.2.1).

Definition test_bitswap_sync (m1 m2 : Machine) (files : Files) (before script : list choice)
    : testM unit :=
  setup ← bitswap_sync_setup m1 m2 files;
  let '(root, cids_vec, node_2) := setup in
  reply ← ask_block before root Sync (spawn files script node_2);
  let '(value, n) := reply in
  match value with
  | Ok _ => assert_contains (store (service n)) cids_vec
  | _ => mret tt
  end.

(** ** The tests of the codec: [todo!()] *)

Definition test_read_request : testM unit := run st_panic.
Definition test_read_response : testM unit := run st_panic.
Definition test_write_request : testM unit := run st_panic.
Definition test_write_response : testM unit := run st_panic.

(** ** What the tests say of each other *)

(** The outcome and the process do not depend on the configuration that is passed. *)
Definition heedless {A} (m : configM A) : Prop := ∀ config config' p,
  (m (config, p)).1 = (m (config', p)).1 ∧ (m (config, p)).2.2 = (m (config', p)).2.2.

Lemma heedless_bind {A B} (m : configM A) (k : A → configM B) :
  heedless m → (∀ a, heedless (k a)) → heedless (m ≫= k).
Proof.
  intros Hm Hk config config' p. destruct (Hm config config' p) as [Ho Hp].
  unfold mbind, stM_bind. destruct (m (config, p)) as [o [c1 p1]],
    (m (config', p)) as [o' [c2 p2]]. simpl in Ho, Hp. subst o' p2.
  destruct o as [a| |]; [apply Hk|done..].
Qed.

Lemma heedless_lift {A} (o : outcome string A) : heedless (st_lift o).
Proof. done. Qed.
Lemma heedless_modify f : heedless (on_config (st_modify f)).
Proof. done. Qed.
Lemma heedless_process {A} (m : stM TestProcess string A) : heedless (on_process m).
Proof. intros config config' p. unfold on_process, st_zoom. simpl. by destruct (m p). Qed.

Lemma network_init_heedless m st : heedless (network_init m st).
Proof.
  unfold network_init.
  repeat first [apply heedless_bind; [|intros ?] | apply heedless_lift | apply heedless_modify
    | apply heedless_process | done].
Qed.

Lemma two_nodes_heedless m1 m2 st1 st2 : heedless (two_nodes m1 m2 st1 st2).
Proof.
  unfold two_nodes.
  repeat first [apply network_init_heedless | apply heedless_bind; [|intros ?]
    | apply heedless_lift | apply heedless_modify | done].
Qed.

Lemma shared_nodes_heedless m1 m2 config config' lg :
  shared_nodes m1 m2 (Ok config) lg = shared_nodes m1 m2 (Ok config') lg.
Proof.
  unfold shared_nodes, with_config, mbind, runM_bind, run, st_lift.
  destruct (setup_logger level_debug lg) as [[[[]| |] lg1]|]; [|done..].
  destruct (open_db "test_db" lg1) as [[db| |] p]; [|done..].
  destruct (two_nodes_heedless m1 m2 (Store.new db) (Store.new db) config config' p) as [Ho Hp].
  destruct (two_nodes m1 m2 _ _ (config, p)) as [o [c1 p1]],
    (two_nodes m1 m2 _ _ (config', p)) as [o' [c2 p2]]. simpl in Ho, Hp. by subst.
Qed.

(** C27: the test of mDNS is the test of discovery: the configuration with [mdns] set is
    never used. *)
Theorem mdns_test_is_discovery_test m1 m2 script lg :
  test_network_mdns m1 m2 script lg = test_network_discovery m1 m2 script lg.
Proof.
  unfold test_network_mdns, test_network_discovery.
  destruct (NetConfig.NetworkConfig_default (m_home m1)) as [config| |]; [|done..]. simpl.
  unfold mbind, runM_bind. by rewrite (shared_nodes_heedless m1 m2 _ config).
Qed.



(** ** The tests with two nodes

    A computation that ends, and not with success. *)
Definition fails {A} (m : testM A) (p : TestProcess) : Prop :=
  ∃ o p', m p = Some (o, p') ∧ is_ok o = false.

Lemma fails_run {A B} (m : stM TestProcess string A) (k : A → testM B) p :
  (∀ a p', m p = (Ok a, p') → fails (k a) p') → fails (run m ≫= k) p.
Proof.
  intros Hk. unfold fails, mbind, runM_bind, run.
  destruct (m p) as [[a| |] p'] eqn:Hm; [by apply Hk|by eexists _, _..].
Qed.

Lemma fails_bind {A B} (m : testM A) (k : A → testM B) p : fails m p → fails (m ≫= k) p.
Proof.
  intros (o & p' & Hm & Ho). unfold fails, mbind, runM_bind. rewrite Hm.
  destruct o; [done|by eexists _, _..].
Qed.

Section locked.
  Context {lock : RocksLock DB}.

(** The second node of a process does not get the database of its provider. *)
Lemma open_db_locked path p d p' : is_open path p → open_db path p ≠ (Ok d, p').
Proof.
  intros [e He]%open_refused. unfold open_db, st_unwrap.
  destruct (rocks_open path p) as [o p1]. simpl in He. by subst o.
Qed.

Lemma open_db_opens path p d p' : open_db path p = (Ok d, p') → is_open path p'.
Proof.
  unfold open_db, st_unwrap. destruct (rocks_open path p) as [[d'| |] p1] eqn:Ho; [|done..].
  intros [= <- <-]. by eapply open_locks.
Qed.

(** The provider database is opened in the process that [network_init] is given. *)
Lemma network_init_opens m st config p node config' p' :
  network_init m st (config, p) = (Ok node, (config', p')) →
  ∃ d, open_db "index_provider_db" p = (Ok d, p').
Proof.
  unfold network_init. cbv zeta. intros Hn.
  apply st_bind_inv_ok in Hn as (nodes & z1 & [= _ <-] & Hn).
  apply st_bind_inv_ok in Hn as (u & z2 & [= _ <-] & Hn).
  apply st_bind_inv_ok in Hn as (c & z3 & [= _ <-] & Hn).
  apply st_bind_inv_ok in Hn as (d & z4 & Hd & Hn).
  apply st_bind_inv_ok in Hn as (service & z5 & [= _ <-] & Hn). injection Hn as _ ->.
  unfold on_process, st_zoom in Hd. simpl in Hd. exists d.
  destruct (open_db _ p) as [o p1]. by injection Hd as -> _ ->.
Qed.

Lemma two_nodes_fail m1 m2 st1 st2 z : is_ok (two_nodes m1 m2 st1 st2 z).1 = false.
Proof.
  destruct (two_nodes m1 m2 st1 st2 z) as [[nodes| |] z'] eqn:Hn; [exfalso|done..].
  destruct z as [config p]. unfold two_nodes in Hn.
  apply st_bind_inv_ok in Hn as (node_1 & [c1 p1] & H1 & Hn).
  apply st_bind_inv_ok in Hn as (addr & [c2 p2] & [= _ _ <-] & Hn).
  apply st_bind_inv_ok in Hn as (? & [c3 p3] & [= _ _ <-] & Hn).
  apply st_bind_inv_ok in Hn as (node_2 & [c4 p4] & H2 & _).
  apply network_init_opens in H1 as [d1 H1]. apply network_init_opens in H2 as [d2 H2].
  apply open_db_opens in H1. by eapply open_db_locked.
Qed.

Lemma two_nodes_fails config m1 m2 st1 st2 p :
  fails (with_config config (two_nodes m1 m2 st1 st2)) p.
Proof.
  apply fails_run. intros c p' _. unfold fails, run.
  pose proof (two_nodes_fail m1 m2 st1 st2 (c, p')) as Hf.
  destruct (two_nodes m1 m2 st1 st2 (c, p')) as [o [c1 p1]]. by exists o, p1.
Qed.

(** C26: no test with two nodes passes.  [network_init] opens the database of the
    index provider under one fixed name, which the first node holds: when the
    test sets up the second one, RocksDB refuses to open it again, and the
    [expect] panics.  So each of these tests ends without success before any of
    its assertions is reached, whatever its machines, files and schedules are. *)
Theorem two_node_tests_fail m1 m2 files before script channel events p :
  Forall (λ test : testM unit, fails test p)
    [test_network_gossip m1 m2 files before script;
     test_network_mdns m1 m2 events;
     test_network_discovery m1 m2 events;
     test_network_req_res m1 m2 files before channel events;
     test_bitswap_get m1 m2 files before script;
     test_bitswap_get_block_not_found m1 m2 files before script;
     test_bitswap_sync m1 m2 files before script].
Proof.
  assert (∀ A config (k : _ → testM A), fails (shared_nodes m1 m2 config ≫= k) p) as Hshared.
  { intros A config k. apply fails_bind. unfold shared_nodes, setup_logger.
    repeat first [apply two_nodes_fails | apply fails_run; intros ? ? _]. }
  repeat apply Forall_cons_2; try apply Forall_nil_2; try apply Hshared; apply fails_bind;
    unfold bitswap_get_setup, bitswap_not_found_setup, bitswap_sync_setup, setup_logger;
    repeat first [apply fails_bind, two_nodes_fails | apply fails_run; intros ? ? _
      | destruct (car_load _ _) as [loaded d]].
Qed.
End locked.
End tests.

(** ** Evaluation on a concrete process *)

From S2P Require Import ServiceSamples.
#[local] Existing Instance Transfer.sample_car_host.

(** A logger that is set or not, and the paths of the databases that are open. *)
Definition sample_process : Type := bool * gset string.

Definition sample_open (path : string) : stM sample_process string sample_db := λ p,
  if decide (path ∈ p.2) then (Err "lock hold by current process", p)
  else (Ok ∅, (p.1, {[path]} ∪ p.2)).

#[program] Definition sample_tests : TestLib sample_db := {|
  TestProcess := sample_process;
  LevelFilter := bool;
  level_debug := true;
  level_info := false;
  logger_init _ p := if p.1 then (Err "logger already set", p) else (Ok tt, (true, p.2));
  rocks_open := sample_open;
  block_encode _ := Ok (sid x01, []);
  car_cids b :=
    match (sample_decode b : option (list bytes * list (bytes * bytes))) with
    | Some (_, blocks) => Ok blocks.*1
    | None => Err "not a CAR file"
    end;
  topic_hash t := t;
|}.
Next Obligation. simpl. intros _ _ [[] X] l' [=]; subst. by eexists. Qed.
#[local] Existing Instance sample_tests.

#[program] Definition sample_lock : RocksLock sample_db := {|
  is_open path p := path ∈ p.2;
|}.
Next Obligation.
  intros path d p p'. simpl. unfold sample_open. case_decide; [done|]. intros [= _ <-].
  simpl. set_solver.
Qed.
Next Obligation.
  intros path p Hp. simpl. unfold sample_open. rewrite decide_True by done. by eexists.
Qed.
Next Obligation.
  intros path path' p Hp. simpl. unfold sample_open. case_decide; [done|]. simpl. set_solver.
Qed.
#[local] Existing Instance sample_lock.

(** A process that has just started, and one whose logger is set. *)
Definition sample_fresh : TestProcess := (false, ∅).

Definition sample_machine : Machine :=
  {| m_keypair := keypair_of x01; m_built := sample_built;
     m_relay := Behaviour.sample_relay_client; m_home := "/home" |}.

(** A process can set up one node. *)
Example sample_one_node :
  match test_network_start sample_machine sample_fresh with
  | Some (Ok _, _) => true
  | _ => false
  end = true.
Proof. vm_compute. reflexivity. Qed.


Lemma two_node_tests_fail_witness :
  ∃ o p, test_bitswap_sync sample_machine sample_machine ∅ [] [] sample_fresh = Some (o, p) ∧
    is_ok o = false.
Proof.
  pose proof (two_node_tests_fail sample_machine sample_machine
    (∅ : gmap string bytes) [] [] 0%N [] sample_fresh) as Hf.
  rewrite Forall_forall in Hf. apply (Hf (test_bitswap_sync sample_machine sample_machine ∅ [] [])).
  apply list_elem_of_In. simpl. tauto.
Defined.
