(* ===== verification/CrateTests.v ===== *)
(** The tests of the other crates, as runs of the model: those of the index
    provider ([src/crates/ursa-index-provider/src/provider.rs], [signed_head.rs]),
    the store ([src/crates/ursa-store/src/store.rs]), the server
    ([src/crates/ursa-rpc-server/src/api.rs], [server.rs]) and the client
    ([src/crates/ursa-rpc-client/src/lib.rs]). *)

From S2P Require Import Prelude Libs Utils Paths Codec Protocols IndexLibs Service.
From S2P Require Import Node Transfer Publication NetworkTests.
From S2P Require Store NetConfig Behaviour SignedHead Advertisement Provider Api Discovery.

(** ** The index provider *)

Section provider_tests.
  Context {DB : Type} {cl : CidLib} {bs : BlockStore DB} {os : ObjStore DB}.
  Context {nl : NetLib} {ml : MultiaddrLib} {gl : GossipLib} {key : KeyLib} {el : EncodeLib}.
  Context {cbor : CborLib} {jl : JsonValueLib} {tl : TestLib DB}.
  (** [i32::to_ne_bytes] and [Code::Blake2b256.digest(..).to_bytes()]. *)
  Context (to_ne_bytes : Z → bytes) (blake2b256 : bytes → bytes).

Definition signed_head_error_string (e : SignedHead.SignedHeadError) : string :=
  match e with
  | SignedHead.InvalidSignature => "Invalid signature"
  | SignedHead.InvalidPublicKey => "Invalid public key"
  end.

(** [surf::get("http://0.0.0.0:8070/head").recv_json()]: what the handler answers
    with, written as JSON and read back; the body of an error is no JSON. *)
Definition get_head (p : Provider.Provider (DB:=DB)) : outcome string SignedHead.SignedHead :=
  match Provider.head_handler p with
  | Ok h => SignedHead.deserialize_fields (SignedHead.serialize_fields h)
  | Err e => Err (Provider.into_response e).2
  | Panic => Panic
  end.

Definition test_ad (peer_id : PeerId) : Advertisement.Advertisement :=
  {| Advertisement.PreviousID := None;
     Advertisement.Provider := peer_to_base58 peer_id;
     Advertisement.Addresses := ["/ip4/127.0.0.1/tcp/6009"];
     Advertisement.Signature := IpldBytes [];
     Advertisement.Entries := None;
     Advertisement.AdMetadata := IpldBytes [];
     Advertisement.ContextID := IpldBytes (as_bytes "ursa");
     Advertisement.IsRm := false |}.

Definition test_entries : list Ipld :=
  (λ i : nat, IpldBytes (blake2b256 (to_ne_bytes (Z.of_nat i)))) <$> seq 0 10.

(** [home] is the home directory, [draw] the number [create] draws.  The outcomes
    of [add_chunk] and [publish] are thrown away. *)
Definition test_create_ad (keypair : Keypair) (home : string) (draw : N)
    : stM TestProcess string unit :=
  let peer_id := peer_of_key (public keypair) in
  provider_db ← open_db "index_provider_db";
  let provider := Provider.new keypair provider_db (Provider.default_config home) in
  let test : stM Provider.Provider string unit :=
    id ← st_unwrap (Provider.create draw (test_ad peer_id));
    b ← st_lift (entries_to_vec test_entries);
    _ ← Provider.ignored (E:=string) (Provider.add_chunk b id);
    _ ← Provider.ignored (E:=string) (Provider.publish id);
    t_head ← st_gets Provider.head;
    provider ← st_get;
    signed_head ← st_lift (get_head provider);
    opened ← st_lift (map_err signed_head_error_string (SignedHead.open_head signed_head));
    h ← st_lift (unwrap_opt t_head);
    if bool_decide (opened.2 = h) then mret tt else st_panic in
  st_lift (test provider).1.

(** *** [signed_head.rs]

    [from_str] and [to_string] are those of [serde_json], on the fields. *)
Definition test_sign_head `{!EqDecision PublicKey} (kp : Keypair) : outcome string unit :=
  cid ← unwrap (cid_from_str "bafybeicyhbhhklw3kdwgrxmf67mhkgjbsjauphsvrzywav63kn7bkpmqfa");
  signed_head ← unwrap (SignedHead.new kp cid);
  signed_head ← unwrap (SignedHead.deserialize_fields (SignedHead.serialize_fields signed_head));
  opened ← unwrap (SignedHead.open_head signed_head);
  if bool_decide (opened.2 = cid) then
    if bool_decide (opened.1 = public kp) then Ok tt else Panic
  else Panic.

Definition test_decode_signed_msg (from_str : string → outcome string (JMap * JMap * JMap))
    (to_string : JMap * JMap * JMap → string) (signed_msg : string) : outcome string unit :=
  fields ← unwrap (from_str signed_msg);
  signed_head ← unwrap (SignedHead.deserialize_fields fields);
  let signed_head_encoded := to_string (SignedHead.serialize_fields signed_head) in
  fields ← unwrap (from_str signed_head_encoded);
  signed_head ← unwrap (SignedHead.deserialize_fields fields);
  _ ← unwrap (SignedHead.open_head signed_head);
  Ok tt.

(** [test_create_ad] passes when the libraries do not fail: the head that the HTTP
    endpoint serves opens to the head that [publish] has set. *)
Theorem create_ad_test_passes keypair home draw p d p' :
  reliable DB → rocks_open "index_provider_db" p = (Ok d, p') →
  test_create_ad keypair home draw p = (Ok tt, p').
Proof.
  intros Hrel Hd. unfold test_create_ad. cbv zeta.
  rewrite (st_bind_ok _ _ _ d p') by (unfold open_db, st_unwrap; by rewrite Hd).
  unfold st_lift at 1. f_equal.
  set (p0 := Provider.new keypair d (Provider.default_config home)).
  set (ad := test_ad (peer_of_key (public keypair))).
  destruct (is_ok_inv _ (rl_entries _ Hrel test_entries)) as [b Hb].
  destruct (Provider.create draw ad p0) as [o p1] eqn:Hcreate.
  assert (o = Ok draw ∧ Provider.temp_ads p1 !! draw = Some ad ∧ Provider.keypair p1 = keypair)
    as (-> & Had & Hk).
  { revert Hcreate. unfold Provider.create. st_unfold. intros [= <- <-]. simpl.
    by rewrite lookup_insert_eq. }
  destruct (add_chunk_total Hrel b draw p1 ad test_entries (entries_round_trip _ _ Hb) Had)
    as (c & p2 & Hchunk & Had2).
  destruct (publish_total Hrel draw p2 _ Had2 eq_refl eq_refl) as [p3 Hpub].
  assert (Provider.keypair p2 = keypair) as Hk2.
  { by destruct (Provider.add_chunk_run _ _ _ _ _ Hchunk)
      as [(? & _ & _ & ?)|(? & ? & ? & ? & ? & _ & _ & _ & _ & _ & _ & ->)]. }
  destruct (Provider.publish_run _ _ _ _ Hpub)
    as (d3 & h & -> & _ & draft & ad3 & c3 & b3 & _ & -> & _).
  rewrite (st_bind_ok _ _ _ draw p1) by (unfold st_unwrap; by rewrite Hcreate).
  rewrite (st_bind_ok _ _ _ b p1) by (unfold st_lift; by rewrite Hb).
  rewrite (st_bind_ok _ _ _ tt p2) by (unfold Provider.ignored; by rewrite Hchunk).
  set (p4 := Provider.with_head (Some c3) _) in Hpub.
  rewrite (st_bind_ok _ _ _ tt p4) by (unfold Provider.ignored; by rewrite Hpub).
  rewrite (st_bind_ok _ _ _ (Some c3) p4), (st_bind_ok _ _ _ p4 p4) by done.
  destruct (is_ok_inv _ (rl_sign _ Hrel keypair (cid_to_bytes c3))) as [sig Hsig].
  set (h := {| SignedHead.head := c3; SignedHead.sig := sig;
    SignedHead.pubkey := to_protobuf_encoding (public keypair) |}).
  assert (Provider.head_handler p4 = Ok h) as Hh.
  { unfold Provider.head_handler, SignedHead.new. simpl. by rewrite Hk2, Hsig. }
  rewrite (st_bind_ok _ _ _ h p4)
    by (unfold st_lift, get_head; by rewrite Hh, SignedHead.deserialize_serialize).
  rewrite (st_bind_ok _ _ _ (public keypair, c3) p4).
  - rewrite (st_bind_ok _ _ _ c3 p4) by done. by rewrite bool_decide_eq_true_2.
  - unfold st_lift. rewrite (proj2 (SignedHead.open_head_ok h (public keypair) c3)); [done|].
    split; [done|]. split; [apply protobuf_round_trip|by apply sign_verify].
Qed.
End provider_tests.

(** ** The store, the server and the client *)

Section node_tests.
  Context {DB : Type} {cl : CidLib} {bs : BlockStore DB} {os : ObjStore DB}.
  Context {il : IpldLib} {hi : HashIter Cid}.
  Context {nl : NetLib} {ml : MultiaddrLib} {sw : SwarmTypes} {swl : SwarmLib}.
  Context {kl : KadLib} {md : MdnsLib} {gl : GossipLib} {bl : BitswapLib}.
  Context {rl : RequestResponseLib} {al : NatLib} {dl : DebugLib}.
  Context {key : KeyLib} {el : EncodeLib} {cbor : CborLib} {host : HostLib DB}.
  Context {tl : TestLib DB} {rpc : Api.RpcLib}.
  Implicit Types (n : Node (DB:=DB)).

Abbreviation testM := (runM TestProcess string).

(** The missing blocks are printed, an error is ignored; [None] is a search that
    does not end. *)
Definition get_missing_blocks (fuel : nat) : testM unit :=
  db1 ← run (open_db "ursa_db");
  cid ← run (st_lift (unwrap (F:=string) (cid_from_str
          "bafybeihybv5apjuvkpaw62l34ui7t363pt3hwxbz7rltrpjklvzrbviq5m")));
  c ← run (st_lift (convert_cid (cid_to_bytes cid)));
  run_opt ((λ o, match o with Panic => Panic | _ => Ok tt end) <$>
    Store.missing_blocks (Store.new db1) fuel c).

(** *** [api.rs] *)

(** The service whose node [test_stream] asks. *)
Definition stream_setup (m : Machine) : testM (UrsaService (DB:=DB)) :=
  _ ← setup_logger level_info;
  config ← run (st_lift (NetConfig.NetworkConfig_default (m_home m)));
  store ← run (get_store "test_db1");
  provider_db ← run (open_db "index_provider_db");
  let index_provider :=
    Provider.new (m_keypair m) provider_db (Provider.default_config (m_home m)) in
  run (st_lift (new (m_keypair m) config store index_provider (m_built m) (m_relay m))).

Definition put_and_stream (fuel : nat) : runM Node string unit :=
  cids ← Api.put_file "../../car_files/text_b.car";
  root ← run (st_lift (unwrap_opt (head cids)));
  _ ← Api.stream fuel root;
  mret tt.

Definition test_stream (m : Machine) (files : Files) (script : list choice) (fuel : nat)
    : testM unit :=
  service ← stream_setup m;
  run_opt (fst <$> put_and_stream fuel (spawn files script service)).

(** *** [server.rs]

    [serve] is [axum::Server::bind(..).serve(..)]: [None] when it serves for
    ever.  What it returns is thrown away. *)
Definition ursa_network_init (m : Machine) (config : NetConfig.NetworkConfig)
    (st : Store.Store (DB:=DB)) : stM TestProcess string (UrsaService (DB:=DB) * PeerId) :=
  let keypair := m_keypair m in
  provider_db ← open_db "index_provider_db";
  let index_provider := Provider.new keypair provider_db (Provider.default_config (m_home m)) in
  service ← st_lift (new keypair config st index_provider (m_built m) (m_relay m));
  mret (service, peer_of_key (public keypair)).

Definition test_rpc_start (m : Machine) (serve : list N * N → option (outcome string unit))
    : testM unit :=
  _ ← setup_logger level_info;
  let config := {| Api.port := 4069; Api.addr := "0.0.0.0" |} in
  db ← run (open_db "test_db");
  network_config ← run (st_lift (NetConfig.NetworkConfig_default (m_home m)));
  _ ← run (ursa_network_init m network_config (Store.new db));
  run_opt ((λ o, match o with Panic => Panic | _ => Ok tt end) <$>
    serve (Api.http_address config)).

(** *** The client: either answer is only logged *)

Section client_tests.
  Context (http : Api.RpcMethod → string → string → outcome string (N * string)).
  Context (id_body : string → option string).

Definition logged {A} (r : outcome Api.ClientError A) : testM unit :=
  match r with Panic => run st_panic | _ => mret tt end.

Definition test_rpc_get_cid `{!Api.RpcJson bytes}
    (value : string → Api.NetworkGetParams → option string) : testM unit :=
  _ ← setup_logger level_info;
  block ← run (st_lift (create_block (as_bytes "hello world")));
  c ← run (st_lift (convert_cid (cid_to_bytes block.1)));
  let params := {| Api.get_cid := cid_to_string c |} in
  logged (Api.call_get_block (V:=bytes) value http id_body params).

Definition test_rpc_put_file `{!Api.RpcJson string}
    (value : string → Api.NetworkPutFileParams → option string) : testM unit :=
  _ ← setup_logger level_info;
  let params := {| Api.put_path := "./car_files/ursa_major.car" |} in
  logged (Api.call_put_file (V:=string) value http id_body params).
End client_tests.

(** [test_stream] passes on a node whose service takes the command of the upload
    at once, when the CAR file is a whole DAG under its root. *)
Theorem stream_test_passes m files rest s root blocks b d lg lg1 :
  host_laws DB → whole_dag root blocks → car_write [root] blocks = Ok b →
  stream_setup m lg = Some (Ok s, lg1) →
  host_read_file "../../car_files/text_b.car" files = Ok b →
  car_load b (Store.db (store s)) = (Ok [root], d) →
  test_stream m files (TakeCommand :: rest) (Store.dag_fuel (list_to_set blocks.*1)) lg =
    Some (Ok tt, lg1).
Proof.
  intros Hlaws Hw Hb Hs Hfile Hload. unfold test_stream. rewrite (runM_bind_ok _ _ _ _ _ Hs).
  set (n := spawn files (TakeCommand :: rest) s). set (fuel := Store.dag_fuel _).
  destruct (car_reads _ Hlaws _ _ _ _ _ _ (wd_once _ _ Hw) Hb Hload) as [_ Hd].
  destruct (put_car_at_once b root [] d rest n) as [x Hput]; [done..|].
  set (n' := with_schedule _ _) in Hput.
  destruct (whole_dag_traversal root blocks (Store.new d) Hw Hd) as (res & Hres & _).
  assert (Api.get_data fuel root n' = Some (Ok res, n')) as Hget.
  { apply Api.get_data_stored; [|done].
    destruct (proj1 (list_elem_of_fmap fst blocks root)) as ([c data] & -> & Hx);
      [by apply (wd_reached _ _ Hw), rtc_refl|].
    by eapply (Api.stored_contains (Store.new d)), Hd. }
  assert (put_and_stream fuel n = Some (Ok tt, n')) as Hrun;
    [|unfold run_opt; by rewrite Hrun].
  unfold put_and_stream. rewrite (runM_bind_ok _ _ _ [root] n').
  - rewrite (runM_bind_ok _ _ _ root n') by done.
    rewrite (runM_bind_ok _ _ _ (car_write [root] res) n'); [done|].
    unfold Api.stream.
    rewrite (runM_bind_ok _ _ _ res n') by (unfold Api.run_unwrap; by rewrite Hget).
    by rewrite (runM_bind_ok _ _ _ res n')
      by (unfold run, st_lift; by rewrite Api.car_blocks_id).
  - unfold Api.put_file. rewrite (runM_bind_ok _ _ _ b n); [done|].
    unfold run, st_query. simpl. by rewrite Hfile.
Qed.
End node_tests.
