(* ===== verification/Exchange.v ===== *)
(** The exchange protocol between two nodes, from the codec of one
    ([src/crates/ursa-network/src/codec/protocol.rs]) to the service of the other
    ([service.rs]), and the channel of events that the service fills. *)

From S2P Require Import Prelude Libs Utils Codec Protocols IndexLibs Service Frame.
From S2P Require Import Node Runs ServiceSamples.
From S2P Require Store NetConfig Discovery Metrics Behaviour Advertisement Provider.

Section exchange.
  Context {DB : Type} {cl : CidLib} {bs : BlockStore DB} {os : ObjStore DB}.
  Context {il : IpldLib} {hi : HashIter Cid}.
  Context {nl : NetLib} {ml : MultiaddrLib} {sw : SwarmTypes} {swl : SwarmLib}.
  Context {kl : KadLib} {md : MdnsLib} {gl : GossipLib} {bl : BitswapLib}.
  Context {rl : RequestResponseLib} {al : NatLib} {dl : DebugLib}.
  Context {key : KeyLib} {el : EncodeLib} {cbor : CborLib} {host : HostLib DB}.
  Implicit Types (s : UrsaService (DB:=DB)) (n : Node (DB:=DB)).

(** ** Nothing leaves the channel of events while the service runs *)

Definition piles s s' : Prop := ∃ l, event_channel s' = event_channel s ++ l.

#[export] Instance piles_refl : Reflexive piles.
Proof. intros s. exists []. by rewrite app_nil_r. Qed.

#[export] Instance piles_trans : Transitive piles.
Proof. intros s s' s'' [l Hl] [l' Hl']. exists (l ++ l'). by rewrite Hl', Hl, app_assoc. Qed.

Lemma piles_same s s' : event_channel s' = event_channel s → piles s s'.
Proof. intros Hs. exists []. by rewrite app_nil_r. Qed.

Lemma round_piles i : preserves piles (round (DB:=DB) i).
Proof. intros s o s' (l & Hl & _)%round_frame%frame_channel. by exists l. Qed.

Lemma do_round_piles i n n' :
  running n = true → do_round i n = Some n' →
  if running n' then piles (service n) (service n') else event_channel (service n') = [].
Proof.
  intros Hr. unfold do_round. destruct (round i (service n)) as [[[]]|] eqn:Hs; [..|done];
    intros [= <-]; simpl; [|done..]. rewrite Hr. by eapply round_piles.
Qed.

Lemma act_piles ch n n' :
  running n = true → act ch n = Some n' →
  if running n' then piles (service n) (service n') else event_channel (service n') = [].
Proof.
  intros Hr. unfold act. rewrite Hr.
  destruct ch; [destruct (commands n)|..];
    try (by intros [= <-]; simpl; rewrite Hr; apply piles_same).
  - by apply (do_round_piles _ (with_commands _ n)).
  - by apply do_round_piles.
Qed.

Lemma run_choices_piles l n n' :
  running n = true → run_choices l n = Some n' →
  if running n' then piles (service n) (service n') else event_channel (service n') = [].
Proof.
  revert n. induction l as [|ch l IH]; intros n Hr; simpl; [by intros [= <-]; rewrite Hr|].
  destruct (act ch n) as [n1|] eqn:Ha; [|done]. simpl. intros Hrun.
  apply (act_piles _ _ _ Hr) in Ha. destruct (running n1) eqn:Hr1.
  - specialize (IH n1 Hr1 Hrun). destruct (running n'); [by etrans|done].
  - assert (n' = n1) as -> by by eapply run_choices_stopped. by rewrite Hr1.
Qed.

(** ** A request from the wire to the application *)

(** The round that takes a request message. *)
Lemma request_round env peer req ch s :
  Behaviour.events (behaviour s) = [Behaviour.RequestMessage peer req ch] →
  ∃ s', round (SwarmBehaviour env) s = Some (Ok tt, s') ∧
    event_channel s' = event_channel s ++ [RequestMessage req ch].
Proof.
  intros He. set (s1 := with_behaviour (Behaviour.with_events [] (behaviour s)) s).
  cbn [round]. rewrite (runM_bind_ok _ _ _ (Some (Behaviour.RequestMessage peer req ch)) s1).
  - simpl. unfold handle_request_message. eexists. by split.
  - unfold next_event, on_behaviour, run, st_zoom, Behaviour.poll. by rewrite He.
Qed.

(** C24: a request reaches the application of the other node, and is never
    answered.  What the codec of one node writes, within the limit, the codec of
    the other reads as the same request; when the library hands it to the idle
    service there, one round puts it on the channel of events, where it stays
    whatever the node does afterwards, until the service ends and the channel with
    it; and a [SendResponse] command, the only one that could answer it, ends the
    service of a node. *)
Theorem request_never_answered {fl : FramingLib} {jq : JsonLib UrsaExchangeRequest}
    {jr : JsonLib UrsaExchangeResponse} req io io' peer id ch env n :
  write_request req io = (Ok tt, io') →
  (N.of_nat (length (json_to_vec req)) ≤ MAX_REQUEST_SIZE)%N →
  running n = true → Behaviour.events (behaviour (service n)) = [] →
  ∃ req' n1, (read_request (pipe io')).1 = Ok req' ∧
    run_choices [Library (LibRequestResponse (Message peer (Request id req' ch)));
      SwarmEvent env] n = Some n1 ∧ running n1 = true ∧
    (∀ l n2, run_choices l n1 = Some n2 →
       if running n2 then RequestMessage req ch ∈ event_channel (service n2)
       else event_channel (service n2) = []) ∧
    ∀ i res x rest n2, running n2 = true → commands n2 = SendResponse i res x :: rest →
      act TakeCommand n2 = Some (stopped (service n2) (with_commands rest n2)).
Proof.
  intros Hw Hl Hr He. exists req.
  destruct (read_message req MAX_REQUEST_SIZE _ _ Hw) as [Hread _].
  set (s := with_behaviour (Behaviour.handle_request_response (Message peer (Request id req ch))
    (behaviour (service n))).2 (service n)).
  destruct (request_round env peer req ch s) as (s' & Hs' & Hev);
    [by simpl; rewrite He|].
  exists (with_service s' (with_service s n)). split_and!.
  - by apply Hread.
  - rewrite (run_choices_cons _ _ _ (with_service s n)) by exact (act_library _ n Hr).
    rewrite (run_choices_cons _ _ _ (with_service s' (with_service s n)))
      by by apply (act_event env (with_service s n)). done.
  - done.
  - intros l n2 Hrun%run_choices_piles; [|done]. destruct (running n2); [|done].
    destruct Hrun as [l' Hl']. rewrite Hl'. simpl. rewrite Hev. set_solver.
  - intros i res x rest n2 Hr2 Hc. unfold act. by rewrite Hr2, Hc.
Qed.
End exchange.

(** ** Evaluation on concrete nodes *)

#[local] Existing Instance Codec.sample_framing.
#[local] Existing Instance Codec.sample_json.
#[local] Existing Instance Codec.request_countable.
#[local] Existing Instance Codec.response_countable.

Definition sample_channel : ResponseChannel := 4%N.
Definition sample_request_id : RequestId := 3%N.
Definition sample_receiver : Node := sample_node sample_connected [].

Lemma request_never_answered_witness :
  ∃ n1, run_choices [Library (LibRequestResponse
      (Message (pid 5) (Request sample_request_id sample_request sample_channel)));
      SwarmEvent sample_env] sample_receiver = Some n1 ∧
    RequestMessage sample_request sample_channel ∈ event_channel (service n1).
Proof.
  destruct (request_never_answered sample_request (sample_io [])
    (sample_io (json_to_vec sample_request)) (pid 5) sample_request_id sample_channel
    sample_env sample_receiver) as (req & n1 & Hread & Hrun & Hr1 & Hin & _);
    [reflexivity|vm_compute; discriminate|reflexivity|reflexivity|].
  assert (req = sample_request) as -> by (vm_compute in Hread; by injection Hread).
  exists n1. split; [exact Hrun|]. pose proof (Hin [] n1 eq_refl) as Hx.
  by rewrite Hr1 in Hx.
Defined.
