(* ===== verification/Identity.v ===== *)
(** The identity of a node ([src/crates/ursa/src/ursa/identity.rs]): the PEM form
    of its key, the key file and the manager that loads or makes it. *)

From S2P Require Import Prelude Libs Paths.
From S2P Require Samples.
From Stdlib Require Import Ascii.

(** ** [libp2p::identity], the [pem] crate and the file system

    An encoded ed25519 key is 32 secret bytes and 32 public ones. *)
Class Ed25519Lib `{NetLib} := {
  EdKeypair : Type;
  ed_encode : EdKeypair → bytes;
  ed_decode : bytes → option EdKeypair;
  ed_peer : EdKeypair → PeerId;
  (** Keys of the other schemes. *)
  OtherKey : Type;
  other_peer : OtherKey → PeerId;
  ed_encode_length : ∀ k, length (ed_encode k) = 64;
  ed_round_trip : ∀ k, ed_decode (ed_encode k) = Some k;
}.

Record Pem := { tag : string; contents : bytes }.

Class PemLib := {
  pem_encode : Pem → string;
  pem_parse : string → option Pem;
  pem_round_trip : ∀ p, pem_parse (pem_encode p) = Some p;
}.

(** Files by their path.  [fs_create] truncates, [fs_write_all] appends to the
    file just created; what is not about a file's content or mode keeps it.  A
    file that its owner may read is read. *)
Class FsLib := {
  FS : Type;
  fs_content : FS → PathBuf → option string;
  fs_mode : FS → PathBuf → N;
  fs_create_dir_all : PathBuf → stM FS string unit;
  fs_create : PathBuf → stM FS string unit;
  fs_write_all : PathBuf → string → stM FS string unit;
  fs_sync_all : PathBuf → stM FS string unit;
  fs_metadata : PathBuf → stM FS string N;
  fs_set_permissions : PathBuf → N → stM FS string unit;
  (** [Path::exists], [File::open], and [read_to_string] of a file just opened. *)
  fs_exists : PathBuf → FS → bool;
  fs_open : PathBuf → FS → outcome string unit;
  fs_read : PathBuf → FS → outcome string string;
  fs_create_empty : ∀ p f f', fs_create p f = (Ok tt, f') → fs_content f' p = Some "";
  fs_write_all_appends : ∀ p s t f f', fs_content f p = Some t →
    fs_write_all p s f = (Ok tt, f') → fs_content f' p = Some (t +:+ s);
  fs_sync_all_keeps : ∀ p f o f', fs_sync_all p f = (o, f') →
    fs_content f' p = fs_content f p;
  fs_metadata_keeps : ∀ p f o f', fs_metadata p f = (o, f') →
    fs_content f' p = fs_content f p;
  fs_set_permissions_keeps : ∀ p m f o f', fs_set_permissions p m f = (o, f') →
    fs_content f' p = fs_content f p;
  fs_set_permissions_mode : ∀ p m f f', fs_set_permissions p m f = (Ok tt, f') →
    fs_mode f' p = m;
  fs_exists_content : ∀ p s f, fs_content f p = Some s → fs_exists p f = true;
  fs_read_content : ∀ p s f, fs_content f p = Some s → N.testbit (fs_mode f p) 8 = true →
    fs_open p f = Ok tt ∧ fs_read p f = Ok s;
}.

Section identity.
  Context {nl : NetLib} {ed : Ed25519Lib} {pl : PemLib} {fl : FsLib}.

(** [libp2p::identity::Keypair]: ed25519 or another scheme. *)
Inductive Keypair := Ed25519 (keypair : EdKeypair) | OtherKeypair (key : OtherKey).

Definition id (k : Keypair) : PeerId :=
  match k with Ed25519 k => ed_peer k | OtherKeypair k => other_peer k end.

(** ** [impl Identity for Keypair] *)

(** The ASN.1 header of an ed25519 key and the separator before the public
    key. *)
Definition PEM_HEADER : bytes :=
  [x30; x53; x02; x01; x01; x30; x05; x06; x03; x2b; x65; x70; x04; x22; x04; x20].
Definition PUBKEY_SEPARATOR : bytes := [xa1; x23; x03; x21; x00].

Definition encode_pem (k : Keypair) : outcome string string :=
  match k with
  | Ed25519 keypair =>
    let key := ed_encode keypair in
    let buf := PEM_HEADER ++ take 32 key ++ PUBKEY_SEPARATOR ++ drop 32 key in
    Ok (pem_encode {| tag := "PRIVATE KEY"; contents := buf |})
  | OtherKeypair _ => Panic
  end.

Definition save (k : Keypair) (path : PathBuf) : stM FS string unit :=
  pem ← st_lift (encode_pem k);
  dir ← st_lift (unwrap_opt (parent path));
  _ ← fs_create_dir_all dir;
  _ ← fs_create path;
  _ ← fs_write_all path pem;
  _ ← fs_sync_all path;
  _ ← fs_metadata path;
  (* 0o600 *)
  fs_set_permissions path 384.

(** The key in the content of a PEM file. *)
Definition parse_identity (text : string) : outcome string Keypair :=
  parsed ← unwrap_opt (pem_parse text);
  if bool_decide (tag parsed = "PRIVATE KEY") then
    if bool_decide (length (contents parsed) ≠ 85) then
      Err "Invalid ed25519 key length"
    else
      let buf := take 32 (drop 16 (contents parsed)) ++ drop 53 (contents parsed) in
      k ← unwrap_opt (ed_decode buf);
      Ok (Ed25519 k)
  else Panic.

Definition load_keypair (path : PathBuf) (f : FS) : outcome string Keypair :=
  _ ← fs_open path f;
  text ← fs_read path f;
  parse_identity text.

(** ** [IdentityManager<Keypair>] *)

Record IdentityManager := { name : string; identity : Keypair; dir : PathBuf }.

Definition identity_path (dir : PathBuf) (name : string) : PathBuf :=
  set_extension (join dir name) "pem".

(** [random], [new]: [generated] is the key [generate_ed25519] makes. *)
Definition random (generated : Keypair) : IdentityManager :=
  {| name := "random"; identity := generated; dir := "" |}.

Definition new (generated : Keypair) (name : string) (dir : PathBuf)
    : stM FS string IdentityManager :=
  let im := {| name := name; dir := dir; identity := generated |} in
  _ ← st_unwrap (save (identity im) (identity_path dir name));
  mret im.

Definition load (name : string) (dir : PathBuf) (f : FS)
    : outcome string (option IdentityManager) :=
  match load_keypair (identity_path dir name) f with
  | Ok identity => Ok (Some {| name := name; identity := identity; dir := dir |})
  | Err e => Ok None
  | Panic => Panic
  end.

Definition load_or_new (generated : Keypair) (name : string) (dir : PathBuf)
    : stM FS string IdentityManager :=
  found ← st_query (load name dir);
  match found with
  | Some im => mret im
  | None => new generated name dir
  end.

Definition current (im : IdentityManager) : Keypair := identity im.

(** The choice [main] makes from the configured name. *)
Definition main_identity (generated : Keypair) (identity : string) (keystore_path : PathBuf)
    : stM FS string IdentityManager :=
  if bool_decide (identity = "random") then mret (random generated)
  else load_or_new generated identity keystore_path.

(** ** The key file *)

Lemma encoded_contents k :
  let c := PEM_HEADER ++ take 32 (ed_encode k) ++ PUBKEY_SEPARATOR ++ drop 32 (ed_encode k) in
  length c = 85 ∧ take 32 (drop 16 c) ++ drop 53 c = ed_encode k.
Proof.
  pose proof (ed_encode_length k) as Hl. cbv zeta. revert Hl.
  generalize (ed_encode k) as b. intros b Hl.
  assert (length (take 32 b) = 32) as Ht by (rewrite length_take; lia).
  assert (length (drop 32 b) = 32) as Hd by (rewrite length_drop; lia).
  assert (length PEM_HEADER = 16 ∧ length PUBKEY_SEPARATOR = 5) as [Hh Hs] by done.
  split; [rewrite !length_app; lia|]. etrans; [|apply (take_drop 32)].
  rewrite drop_app_length', take_app_length' by done. f_equal.
  rewrite !app_assoc, drop_app_length'; [done|]. rewrite !length_app. lia.
Qed.

Lemma parse_contents k c :
  length c = 85 → take 32 (drop 16 c) ++ drop 53 c = ed_encode k →
  parse_identity (pem_encode {| tag := "PRIVATE KEY"; contents := c |}) = Ok (Ed25519 k).
Proof.
  intros Hl Hb. unfold parse_identity. rewrite pem_round_trip.
  cbn -[take drop]. rewrite bool_decide_eq_true_2 by done.
  rewrite bool_decide_eq_false_2 by (intros Hne; by apply Hne).
  rewrite Hb, ed_round_trip. done.
Qed.

(** A key is read back from the PEM text it is written as. *)
Lemma parse_encode k text : encode_pem k = Ok text → parse_identity text = Ok k.
Proof.
  destruct k as [k|peer]; intros [= <-]. by apply parse_contents; apply encoded_contents.
Qed.

(** What [save] leaves in the file system is read back. *)
Lemma save_then_read k path f f' :
  save k path f = (Ok tt, f') → ∃ text, encode_pem k = Ok text ∧
    fs_open path f' = Ok tt ∧ fs_read path f' = Ok text.
Proof.
  unfold save. intros Hs. inv_bind.
  destruct (encode_pem k) as [text| |]; simplify_eq/=. exists text. split; [done|].
  match goal with H : st_lift (Ok _) _ = _ |- _ => injection H as <- <- end.
  repeat match goal with u : () |- _ => destruct u end.
  apply fs_read_content.
  - etrans; [by eapply fs_set_permissions_keeps|].
    etrans; [by eapply fs_metadata_keeps|]. etrans; [by eapply fs_sync_all_keeps|].
    eapply (fs_write_all_appends path text ""); [by eapply fs_create_empty|done].
  - by erewrite fs_set_permissions_mode by eassumption.
Qed.

Lemma save_then_load k path f f' :
  save k path f = (Ok tt, f') → load_keypair path f' = Ok k.
Proof.
  intros (text & He & Ho & Hr)%save_then_read. unfold load_keypair. rewrite Ho, Hr.
  by apply parse_encode.
Qed.

(** Both outcomes of [load_or_new]: the key that was there, and nothing is
    written, or the generated one, which can be loaded from then on. *)
Lemma load_or_new_inv k name dir f im f' :
  load_or_new k name dir f = (Ok im, f') →
  load name dir f' = Ok (Some im) ∧
  (f' = f ∨ identity im = k ∧ save k (identity_path dir name) f = (Ok tt, f')).
Proof.
  unfold load_or_new. intros Hl. inv_bind. unfold st_query in *. simplify_eq.
  destruct (load name dir _) as [[im'|]| |] eqn:Hf; simplify_eq/=.
  - injection Hl as <- <-. by auto.
  - unfold new in Hl. inv_bind. simpl in *.
    unfold st_unwrap in *.
    destruct (save k _ _) as [[[]| |] f''] eqn:Hs; simplify_eq/=.
    split; [|by right].
    unfold load. by erewrite save_then_load.
Qed.

(** A node keeps its identity.  Once [load_or_new] has returned, a later start
    with the same name and directory loads the same key, whatever key it would
    have generated, and leaves the file system as it is. *)
Theorem identity_persists k1 k2 name dir f im f' :
  load_or_new k1 name dir f = (Ok im, f') → load_or_new k2 name dir f' = (Ok im, f').
Proof.
  intros [Hl _]%load_or_new_inv. unfold load_or_new.
  erewrite st_bind_ok; [|by unfold st_query; rewrite Hl]. done.
Qed.

Lemma join_prefix dir :
  ∃ d, ∀ name, plain_name name → chars (join dir name) = d ++ chars name.
Proof.
  unfold join. destruct (last (chars dir)) as [c|];
    [destruct (decide (c = slash));
      [exists (chars dir)|exists (chars dir ++ [slash])]|exists []];
    intros name (Hs & He & _);
    rewrite bool_decide_eq_false_2 by (destruct (chars name); set_solver);
    [rewrite bool_decide_eq_true_2|rewrite bool_decide_eq_false_2|]; try done;
    rewrite ?chars_app, <- ?app_assoc; done.
Qed.

(** Names are file stems: what follows the last dot of a name is replaced. *)
Lemma identity_path_stem dir : ∃ d, ∀ stem ext,
  plain_name (of_chars (stem ++ dot :: ext)) → stem ≠ [] → dot ∉ ext →
  identity_path dir (of_chars (stem ++ dot :: ext)) = of_chars (d ++ stem ++ chars ".pem").
Proof.
  destruct (join_prefix dir) as [d Hd]. exists d. intros stem ext Hp Hs He.
  unfold identity_path, set_extension.
  destruct (split_file_name_join dir _ Hp) as (prefix & -> & Hpre).
  rewrite (Hd _ Hp) in Hpre. apply app_inv_tail in Hpre as <-.
  rewrite chars_of_chars, file_stem_dot; done.
Qed.

(** Two names that differ only behind their last dot share one key file: once
    the first identity has been made and can be loaded, the node started under
    the second name gets the first one's key, and not a key of its own. *)
Theorem identity_names_collide stem ext1 ext2 dir k1 k2 f im f' :
  plain_name (of_chars (stem ++ dot :: ext1)) → plain_name (of_chars (stem ++ dot :: ext2)) →
  stem ≠ [] → dot ∉ ext1 → dot ∉ ext2 →
  load_or_new k1 (of_chars (stem ++ dot :: ext1)) dir f = (Ok im, f') →
  ∃ im2, load_or_new k2 (of_chars (stem ++ dot :: ext2)) dir f' = (Ok im2, f') ∧
    current im2 = current im.
Proof.
  intros H1 H2 Hs He1 He2 [Hl _]%load_or_new_inv.
  destruct (identity_path_stem dir) as [d Hd].
  unfold load in Hl. rewrite Hd in Hl by done.
  destruct (load_keypair _ f') as [i| |] eqn:Hk; simplify_eq/=.
  exists {| name := of_chars (stem ++ dot :: ext2); identity := i; dir := dir |}.
  split; [|done]. unfold load_or_new. erewrite st_bind_ok; last first.
  { unfold st_query, load. rewrite Hd, Hk by done. done. }
  done.
Qed.
End identity.

(** ** Samples and witnesses *)

Import Samples.

#[program] Definition sample_ed25519 : Ed25519Lib := {|
  EdKeypair := Byte.byte;
  ed_encode k := k :: replicate 63 x00;
  ed_decode b := head b;
  ed_peer k := pid (Byte.to_N k);
  OtherKey := Byte.byte;
  other_peer k := pid (Byte.to_N k);
|}.
Next Obligation. done. Qed.
Next Obligation. done. Qed.
#[export] Existing Instance sample_ed25519.

(** The letters of the tag, each behind a point, then a mark and the contents. *)
Fixpoint sample_pem_tag (t rest : string) : string :=
  match t with
  | String.EmptyString => String.String "!"%char rest
  | String.String c t => String.String "."%char (String.String c (sample_pem_tag t rest))
  end.

Fixpoint sample_pem_parse (s : string) : option Pem :=
  match s with
  | String.String "!"%char s => Some {| tag := ""; contents := String.list_byte_of_string s |}
  | String.String _ (String.String c s) =>
    p ← sample_pem_parse s;
    Some {| tag := String.String c (tag p); contents := contents p |}
  | _ => None
  end.

#[program] Definition sample_pem : PemLib := {|
  pem_encode p := sample_pem_tag (tag p) (String.string_of_list_byte (contents p));
  pem_parse := sample_pem_parse;
|}.
Next Obligation.
  intros [t c]. simpl. induction t as [|a t IH]; simpl.
  - by rewrite String.list_byte_of_string_of_list_byte.
  - by rewrite IH.
Qed.
#[export] Existing Instance sample_pem.

(** Files with their content and mode; a new one is [0o644]. *)
Definition sample_update (p : PathBuf) (g : string * N → string * N) :
    stM (gmap string (string * N)) string unit := λ f,
  match f !! p with Some e => (Ok tt, <[p := g e]> f) | None => (Err "no such file", f) end.

Definition sample_content (f : gmap string (string * N)) (p : PathBuf) : option string :=
  fst <$> f !! p.
Definition sample_mode (f : gmap string (string * N)) (p : PathBuf) : N :=
  default 420%N (snd <$> f !! p).
Definition sample_create (p : PathBuf) : stM (gmap string (string * N)) string unit := λ f,
  (Ok tt, <[p := ("", sample_mode f p)]> f).
Definition sample_append (e : string * N) (s : string) : string * N := (e.1 +:+ s, e.2).
Definition sample_chmod (m : N) (e : string * N) : string * N := (e.1, m).
Definition sample_exists (p : PathBuf) (f : gmap string (string * N)) : bool :=
  bool_decide (is_Some (f !! p)).
Definition sample_read (p : PathBuf) (f : gmap string (string * N)) : outcome string string :=
  match f !! p with
  | Some (s, m) => if N.testbit m 8 then Ok s else Err "permission denied"
  | None => Err "no such file"
  end.
Definition sample_open (p : PathBuf) (f : gmap string (string * N)) : outcome string unit :=
  _ ← sample_read p f; Ok tt.

#[program] Definition sample_fs : FsLib := {|
  FS := gmap string (string * N);
  fs_content := sample_content;
  fs_mode := sample_mode;
  fs_create_dir_all p := mret tt;
  fs_create := sample_create;
  fs_write_all p s := sample_update p (λ e, sample_append e s);
  fs_sync_all p := mret tt;
  fs_metadata p := st_gets (λ f, sample_mode f p);
  fs_set_permissions p m := sample_update p (sample_chmod m);
  fs_exists := sample_exists;
  fs_open := sample_open;
  fs_read := sample_read;
|}.
Solve Obligations with
  intros; unfold sample_content, sample_mode, sample_create, sample_append, sample_chmod,
    sample_read, sample_update, st_gets, mret, stM_ret in *; repeat case_match; simplify_map_eq; done.
Next Obligation.
  intros p s f. unfold sample_content, sample_exists. destruct (f !! p); [|done]. intros _.
  by rewrite bool_decide_eq_true_2.
Qed.
Next Obligation.
  intros p s f. unfold sample_content, sample_mode, sample_open, sample_read.
  destruct (f !! p) as [[s' m]|]; [|done]. intros [= ->] Hm. simpl in Hm. by rewrite Hm.
Qed.
#[export] Existing Instance sample_fs.

Definition sample_key (b : Byte.byte) : Keypair := Ed25519 (b : EdKeypair).
Definition sample_files : FS := (∅ : gmap string (string * N)).
Definition sample_run (b : Byte.byte) (n : string) (f : FS) :=
  load_or_new (sample_key b) n "keystore" f.
Definition sample_named (b : Byte.byte) (n : string) : IdentityManager :=
  {| name := n; identity := sample_key b; dir := "keystore" |}.

Lemma identity_persists_witness :
  sample_run x02 "node" (sample_run x01 "node" sample_files).2 =
    (Ok (sample_named x01 "node"), (sample_run x01 "node" sample_files).2).
Proof.
  apply (identity_persists (sample_key x01) (sample_key x02) "node" "keystore"
    sample_files (sample_named x01 "node")).
  vm_compute. reflexivity.
Defined.

Lemma identity_names_collide_witness :
  ∃ im2, sample_run x02 "node.2" (sample_run x01 "node.1" sample_files).2 =
    (Ok im2, (sample_run x01 "node.1" sample_files).2) ∧ current im2 = sample_key x01.
Proof.
  apply (identity_names_collide (chars "node") (chars "1") (chars "2") "keystore"
    (sample_key x01) (sample_key x02) sample_files (sample_named x01 "node.1"));
    [.. | vm_compute; reflexivity]; rewrite ?of_chars_chars;
    unfold plain_name; repeat split; vm_compute; set_solver.
Defined.
