(* ===== verification/Cli.v ===== *)
(** The binary [ursa]: the configuration file ([src/crates/ursa/src/config.rs]),
    the command line ([ursa/mod.rs], [ursa/rpc_commands.rs]) and the choices
    [main] makes from them ([main.rs]). *)

From S2P Require Import Prelude Libs Paths Identity.
From S2P Require NetConfig Provider Api Samples.

Definition DEFAULT_CONFIG_PATH_STR : string := ".ursa/config.toml".

(** [MetricsServiceConfig] ([src/crates/ursa-metrics/src/config.rs]). *)
Record MetricsServiceConfig := { metrics_port : string; api_path : string }.
Definition DEFAULT_METRICS_PORT : string := "4070".
Definition DEFAULT_API_PATH : string := "/metrics".
Definition MetricsServiceConfig_default : MetricsServiceConfig :=
  {| metrics_port := DEFAULT_METRICS_PORT; api_path := DEFAULT_API_PATH |}.

(** [port.parse::<u16>()]: the wildcard address and the port the metrics service
    listens on; [u16_from_str] is the parser of the standard library. *)
Definition metrics_address (u16_from_str : string → option N) (conf : MetricsServiceConfig)
    : outcome string (list N * N) :=
  port ← unwrap_opt (u16_from_str (metrics_port conf));
  Ok ([0; 0; 0; 0]%N, port).

Section cli.
  Context {nl : NetLib} {ml : MultiaddrLib} {ed : Ed25519Lib} {pl : PemLib} {fl : FsLib}.

Record UrsaConfig := {
  network_config : NetConfig.NetworkConfig;
  provider_config : Provider.ProviderConfig;
  metrics_config : MetricsServiceConfig;
  server_config : Api.ServerConfig;
}.

(** The derived [UrsaConfig::default()]; [home] is HOME at build time. *)
Definition UrsaConfig_default (home : string) : outcome string UrsaConfig :=
  network ← NetConfig.NetworkConfig_default home;
  Ok {|
    network_config := network;
    provider_config := Provider.default_config home;
    metrics_config := MetricsServiceConfig_default;
    server_config := Api.ServerConfig_default;
  |}.

(** [toml::to_string] and [toml::from_str] on the configuration. *)
Class TomlLib := {
  toml_to_string : UrsaConfig → outcome string string;
  toml_from_str : string → outcome string UrsaConfig;
  toml_round_trip : ∀ c s, toml_to_string c = Ok s → toml_from_str s = Ok c;
}.
Context {tl : TomlLib}.

(** ** [config.rs] *)

Definition load_config (home : string) (path : PathBuf) : stM FS string unit :=
  exists_ ← st_gets (fs_exists path);
  if (exists_ : bool) then mret tt else
  ursa_config ← st_lift (UrsaConfig_default home);
  toml ← st_lift (unwrap (toml_to_string ursa_config));
  dir ← st_lift (unwrap_opt (parent path));
  _ ← fs_create_dir_all dir;
  _ ← fs_create path;
  fs_write_all path toml.

(** ** The command line *)

Record CliOpts := { opt_config : option string; opt_rpc : bool; opt_rpc_port : option N }.

Inductive RpcCommands :=
| Put (path : string)
| Get (cid path : string).

Inductive Subcommand := Rpc (cmd : RpcCommands).

Record Cli := { opts : CliOpts; cmd : option Subcommand }.

(** How a call ends the process or fails. *)
Inductive stop := Exit (code : Z) | IoError (e : string).

Definition default_config_path (home : string) : PathBuf := join home DEFAULT_CONFIG_PATH_STR.

Definition read_file_to_string (path : PathBuf) (f : FS) : outcome stop string :=
  match fs_open path f with
  | Ok _ => map_err IoError (fs_read path f)
  | Err _ => Err (Exit 1)
  | Panic => Panic
  end.

(** [result.unwrap()], behind a call that may have ended the process. *)
Definition unwrap_stop {A} (o : outcome stop A) : outcome stop A :=
  match o with Err (IoError _) => Panic | o => o end.

Definition to_config (home : string) (o : CliOpts) (f : FS) : outcome stop UrsaConfig :=
  let path :=
    match opt_config o with
    | Some config_file => config_file
    | None => default_config_path home
    end in
  toml ← unwrap_stop (read_file_to_string path f);
  unwrap (toml_from_str toml).

Definition cli_error_and_die {A} (msg : string) (code : Z) : outcome stop A := Err (Exit code).

(** [RpcCommands::run]: the outcome of the call is only logged. *)
Definition run_command (put_file : Api.NetworkPutFileParams → outcome Api.ClientError string)
    (get_file : Api.NetworkGetFileParams → outcome Api.ClientError unit) (c : RpcCommands)
    : outcome stop unit :=
  match c with
  | Put path =>
    match put_file {| Api.put_path := path |} with Panic => Panic | _ => Ok tt end
  | Get cid path =>
    match get_file {| Api.get_file_path := path; Api.get_file_cid := cid |} with
    | Panic => Panic | _ => Ok tt
    end
  end.

(** ** [main] *)

(** What [main] does before a node starts: the configuration file is written on
    the first start ([load_config], whose result is dropped), the configuration
    is read and the RPC port of the command line replaces the configured one. *)
Definition set_server_port (o : CliOpts) (c : UrsaConfig) : UrsaConfig :=
  match opt_rpc_port o with
  | Some p =>
    {| network_config := network_config c; provider_config := provider_config c;
       metrics_config := metrics_config c;
       server_config := {| Api.port := p; Api.addr := Api.addr (server_config c) |} |}
  | None => c
  end.

Definition main_config (home : string) (o : CliOpts) : stM FS stop UrsaConfig :=
  _ ← st_try (load_config home (default_config_path home));
  st_query (λ f,
    match to_config home o f with
    | Err (IoError e) => cli_error_and_die ("Error parsing config. Error was: " +:+ e) 1
    | o => o
    end).

(** The configuration and the identity a node starts with. *)
Definition main_node (home : string) (o : CliOpts) (generated : Keypair)
    : stM FS stop (UrsaConfig * IdentityManager) :=
  config ← main_config home o;
  let config := set_server_port o config in
  im ← st_map_err IoError (main_identity generated
         (NetConfig.identity (network_config config))
         (NetConfig.keystore_path (network_config config)));
  mret (config, im).

(** ** Properties *)

(** A file that [load_config] has just written is there and holds the default
    configuration. *)
Lemma load_config_writes home path f f' :
  fs_exists path f = false → load_config home path f = (Ok tt, f') →
  ∃ c text, UrsaConfig_default home = Ok c ∧ toml_from_str text = Ok c ∧
    fs_content f' path = Some text.
Proof.
  unfold load_config. intros He Hl. inv_bind. unfold st_gets, st_lift in *. simplify_eq.
  rewrite He in Hl. inv_bind. unfold st_lift in *. simplify_eq.
  repeat match goal with u : () |- _ => destruct u end.
  match goal with H : unwrap (toml_to_string ?c) = Ok ?t |- _ =>
    exists c, t; rename H into Ht end.
  split; [done|]. split.
  - apply toml_round_trip. by destruct (toml_to_string _); simplify_eq/=.
  - eapply (fs_write_all_appends path _ ""); [by eapply fs_create_empty|done].
Qed.

Lemma load_config_exists home path f :
  fs_exists path f = true → load_config home path f = (Ok tt, f).
Proof.
  intros He. unfold load_config. rewrite (st_bind_ok _ _ _ true f); [done|].
  unfold st_gets. by rewrite He.
Qed.

Lemma to_config_reads home o text f c :
  fs_content f (default (default_config_path home) (opt_config o)) = Some text →
  N.testbit (fs_mode f (default (default_config_path home) (opt_config o))) 8 = true →
  toml_from_str text = Ok c → to_config home o f = Ok c.
Proof.
  intros Hc Hm Ht. unfold to_config, read_file_to_string.
  destruct (fs_read_content _ _ _ Hc Hm) as [Ho Hr].
  destruct (opt_config o); simpl in *; rewrite Ho, Hr; simpl; by rewrite Ht.
Qed.

(** On the first start without a configuration the default one is written,
    and this start and every later one read it back: the later one leaves the
    files alone. *)
Theorem first_start_default home o f f' :
  opt_config o = None → fs_exists (default_config_path home) f = false →
  load_config home (default_config_path home) f = (Ok tt, f') →
  N.testbit (fs_mode f' (default_config_path home)) 8 = true →
  ∃ c, UrsaConfig_default home = Ok c ∧
    main_config home o f = (Ok c, f') ∧ main_config home o f' = (Ok c, f').
Proof.
  intros Ho He Hl Hm.
  destruct (load_config_writes _ _ _ _ He Hl) as (c & text & Hd & Ht & Hc).
  exists c. split; [done|].
  assert (to_config home o f' = Ok c) as Htc.
  { eapply to_config_reads; rewrite ?Ho; done. }
  assert (∀ g, load_config home (default_config_path home) g = (Ok tt, f') →
    main_config home o g = (Ok c, f')) as Hmain.
  { intros g Hg. unfold main_config. rewrite (st_bind_ok _ _ _ (Ok tt) f').
    - unfold st_query. by rewrite Htc.
    - unfold st_try. by rewrite Hg. }
  split; apply Hmain; [done|]. apply load_config_exists. by eapply fs_exists_content.
Qed.

(** No configuration makes [to_config] return an error: a file that cannot be
    opened ends the process with code 1, one that cannot be read or parsed
    panics, so the error arm of [main] is never taken. *)
Theorem to_config_never_fails home o f :
  let path := default (default_config_path home) (opt_config o) in
  to_config home o f =
    match fs_open path f with
    | Err _ => Err (Exit 1)
    | Panic => Panic
    | Ok _ => text ← unwrap (fs_read path f); unwrap (toml_from_str text)
    end.
Proof.
  simpl. unfold to_config, read_file_to_string.
  destruct (opt_config o); simpl; destruct (fs_open _ f); simpl; try done;
    by destruct (fs_read _ f).
Qed.
End cli.

(** ** Evaluation on concrete files *)

Import Samples.

#[local] Instance multihash_eq : EqDecision (Multihash : Type).
Proof. exact N.eq_dec. Defined.
#[local] Instance protocol_eq : EqDecision Protocol.
Proof. solve_decision. Defined.
#[local] Instance multiaddr_eq : EqDecision (Multiaddr : Type).
Proof. exact (list_eq_dec (A:=Protocol)). Defined.
#[local] Instance network_config_eq : EqDecision NetConfig.NetworkConfig.
Proof. solve_decision. Defined.
#[local] Instance provider_config_eq : EqDecision Provider.ProviderConfig.
Proof. solve_decision. Defined.
#[local] Instance metrics_config_eq : EqDecision MetricsServiceConfig.
Proof. solve_decision. Defined.
#[local] Instance server_config_eq : EqDecision Api.ServerConfig.
Proof. solve_decision. Defined.
#[local] Instance ursa_config_eq : EqDecision UrsaConfig.
Proof. solve_decision. Defined.

(** A text form of the default configuration alone. *)
Definition sample_write_toml (c : UrsaConfig) : outcome string string :=
  match UrsaConfig_default "/root" with
  | Ok d => if decide (d = c) then Ok "default" else Err "unsupported"
  | _ => Err "unsupported"
  end.
Definition sample_read_toml (s : string) : outcome string UrsaConfig :=
  if decide (s = "default") then UrsaConfig_default "/root" else Err "syntax".

#[program] Definition sample_toml : TomlLib :=
  {| toml_to_string := sample_write_toml; toml_from_str := sample_read_toml |}.
Next Obligation.
  intros c s. unfold sample_write_toml, sample_read_toml.
  destruct (UrsaConfig_default "/root") as [d| |]; [|done..].
  destruct (decide (d = c)) as [<-|]; [|done]. intros [= <-]. by rewrite decide_True.
Qed.
#[export] Existing Instance sample_toml.

Definition sample_opts : CliOpts :=
  {| opt_config := None; opt_rpc := false; opt_rpc_port := None |}.
Definition sample_start := main_config "/root" sample_opts sample_files.

Lemma first_start_default_witness :
  ∃ c, UrsaConfig_default "/root" = Ok c ∧
    main_config "/root" sample_opts sample_files = (Ok c, sample_start.2) ∧
    main_config "/root" sample_opts sample_start.2 = (Ok c, sample_start.2).
Proof.
  apply (first_start_default "/root" sample_opts sample_files);
    [reflexivity|vm_compute; reflexivity..].
Defined.
