(* ===== verification/Gateway.v ===== *)
(** The gateway ([src/crates/ursa-gateway/src/main.rs], [config.rs]): a proxy in
    front of a server that answers one page. *)

From S2P Require Import Prelude.

Record ServerConfig := { port : N; addr : string }.
Record CertConfig := { cert_path : string; key_path : string }.
Record GatewayConfig := {
  server : ServerConfig;
  reverse_proxy : ServerConfig;
  cert_config : CertConfig;
}.

Definition GatewayConfig_default : GatewayConfig := {|
  server := {| addr := "0.0.0.0"; port := 3000 |};
  reverse_proxy := {| addr := "0.0.0.0"; port := 4000 |};
  cert_config := {|
    cert_path := "./crates/ursa-gateway/self_signed_certs/cert.pem";
    key_path := "./crates/ursa-gateway/self_signed_certs/key.pem";
  |};
|}.

(** ** [hyper]: requests and URIs; [std::net]: addresses *)
Class HyperLib := {
  Uri : Type;
  uri_try_from : string → option Uri;
  uri_path : Uri → string;
  uri_path_and_query : Uri → option string;
  (** A request without its URI. *)
  Head : Type;
  Response : Type;
  Ipv4Addr : Type;
  ipv4_from_str : string → option Ipv4Addr;
}.

Section gateway.
  Context {hl : HyperLib}.

Record Request := { uri : Uri; head : Head }.

(** The URI a request is passed on to. *)
Definition forward_uri (config : GatewayConfig) (u : Uri) : string :=
  let path := uri_path u in
  let path_query := default path (uri_path_and_query u) in
  "http://" +:+ addr (server config) +:+ ":" +:+ pretty.pretty (port (server config)) +:+
    path_query.

(** [handler]: [request] is the HTTP client. *)
Definition handler (request : Request → outcome string Response) (config : GatewayConfig)
    (req : Request) : outcome string Response :=
  u ← unwrap_opt (uri_try_from (forward_uri config (uri req)));
  unwrap (request {| uri := u; head := head req |}).

(** The address a part of the gateway binds, and the routes of the two. *)
Definition socket_addr (conf : ServerConfig) : outcome string (Ipv4Addr * N) :=
  ip ← unwrap_opt (ipv4_from_str (addr conf));
  Ok (ip, port conf).
Definition proxy_routes : list (string * string) := [("GET", "/")].
Definition server_routes : list (string * string * string) := [("GET", "/", "Hello, world!")].

(** A request that is answered reached the server's address with its path,
    query, method, headers and body as they were. *)
Lemma handler_forwards request config req res :
  handler request config req = Ok res →
  ∃ u, uri_try_from (forward_uri config (uri req)) = Some u ∧
    request {| uri := u; head := head req |} = Ok res.
Proof.
  unfold handler. intros Hh. inv_bind. apply unwrap_ok_inv in Hh.
  match goal with H : unwrap_opt (uri_try_from ?s) = Ok ?u |- _ =>
    exists u; by destruct (uri_try_from s); simplify_eq/= end.
Qed.
End gateway.
