(* ===== verification/MetricsService.v ===== *)
(** The metrics service ([src/crates/ursa-metrics/src/metrics.rs] and
    [setup_metrics_handler] of [middleware.rs]): what it serves, and how its start
    fails. *)

From S2P Require Import Prelude Libs.
From S2P Require Import Identity Cli.

(** [metrics_exporter_prometheus], [axum] and [u16::from_str]. *)
Class MetricsServiceLib := {
  PrometheusHandle : Type;
  (** [PrometheusBuilder::new().install_recorder()] *)
  install_recorder : outcome string PrometheusHandle;
  render : PrometheusHandle → string;
  Router : Type;
  router_new : Router;
  (** [.route(path, get(..))] with what the handler answers: it panics on a path
      it cannot add. *)
  router_get : string → N * string → Router → outcome string Router;
  router_answer : Router → string → option (N * string);
  (** [Server::bind(&address).serve(..).await] *)
  serve : list N * N → Router → outcome string unit;
  u16_from_str : string → option N;
  router_new_answer : ∀ p, router_answer router_new p = None;
  router_get_answer : ∀ p a r r' q, router_get p a r = Ok r' →
    router_answer r' q = if decide (q = p) then Some a else router_answer r q;
  router_get_twice : ∀ p a b r, router_answer r p = Some b → router_get p a r = Panic;
}.

Section metrics_service.
  Context {msl : MetricsServiceLib}.

Definition setup_metrics_handler : outcome string PrometheusHandle := unwrap install_recorder.

Definition get_ping_handler : N * string := (200%N, "pong").
(** Not routed. *)
Definition get_metrics_handler : N * string := (200%N, "/metrics handler").

Definition metrics_router (handle : PrometheusHandle) (conf : MetricsServiceConfig)
    : outcome string Router :=
  r ← router_get "/ping" get_ping_handler router_new;
  router_get (api_path conf) (200%N, render handle) r.

Definition start (conf : MetricsServiceConfig) : outcome string unit :=
  prometheus_handler ← setup_metrics_handler;
  router ← metrics_router prometheus_handler conf;
  http_address ← metrics_address u16_from_str conf;
  serve http_address router.

(** The router answers [/ping] and the configured path and nothing else; the
    configured path cannot be [/ping]. *)
Lemma metrics_router_answers handle conf r :
  metrics_router handle conf = Ok r →
  api_path conf ≠ "/ping" ∧ router_answer r "/ping" = Some (200%N, "pong") ∧
  router_answer r (api_path conf) = Some (200%N, render handle) ∧
  ∀ p, p ≠ "/ping" → p ≠ api_path conf → router_answer r p = None.
Proof.
  unfold metrics_router. intros Hr.
  apply bind_inv_ok in Hr as (r1 & H1 & H2).
  pose proof (λ q, router_get_answer _ _ _ _ q H1) as A1.
  pose proof (λ q, router_get_answer _ _ _ _ q H2) as A2.
  assert (api_path conf ≠ "/ping") as Hne.
  { intros He. rewrite He in H2. erewrite router_get_twice in H2; [done|].
    by rewrite A1, decide_True. }
  split_and!; [done|..].
  - by rewrite A2, decide_False, A1, decide_True.
  - by rewrite A2, decide_True.
  - intros p Hp Hp'. by rewrite A2, decide_False, A1, decide_False, router_new_answer.
Qed.

(** The default path is served at the default port of all addresses, when the
    libraries allow it. *)
Lemma metrics_start_default handle r :
  install_recorder = Ok handle → metrics_router handle MetricsServiceConfig_default = Ok r →
  u16_from_str DEFAULT_METRICS_PORT = Some 4070%N →
  start MetricsServiceConfig_default = serve ([0; 0; 0; 0]%N, 4070%N) r.
Proof.
  intros Hi Hr Hu. unfold start, setup_metrics_handler. rewrite Hi. simpl.
  rewrite Hr. simpl. unfold metrics_address. simpl. by rewrite Hu.
Qed.
End metrics_service.
