(* ===== verification/Process.v ===== *)
(** The process that [main] makes of the services
    ([src/crates/ursa/src/main.rs], [wait_until_ctrlc] of [ursa/mod.rs]). *)

From S2P Require Import Prelude.

(** [main] spawns four tasks and waits for the signal.  A task that ends with an
    error logs it and nothing else; after the signal [main] spawns a fifth task
    that cancels the four in turn, and returns without waiting for it. *)
Inductive task := ServiceTask | RpcTask | MetricsTask | ProviderTask.

#[local] Instance task_eq_dec : EqDecision task.
Proof. solve_decision. Defined.

(** The order of the cancellations. *)
Definition shutdown_order : list task := [RpcTask; ServiceTask; MetricsTask; ProviderTask].

(** [flag] is the [running] flag that the handler of the signal clears; [cancels]
    is what the last task still has to do, once [main] has spawned it. *)
Record Process := {
  alive : list task;
  flag : bool;
  cancels : option (list task);
  logged : list (task * string);
}.

(** [main] has spawned the tasks and set the handler of the signal. *)
Definition spawned : Process :=
  {| alive := [ServiceTask; RpcTask; MetricsTask; ProviderTask]; flag := true;
     cancels := None; logged := [] |}.

(** [result] is what the task returns; [MainLooks] is one round of the loop of
    [wait_until_ctrlc], and what follows the loop when it ends. *)
Inductive happening :=
| TaskReturns (t : task) (result : option string)
| CtrlC
| MainLooks
| ShutdownRuns.

Definition process_step (h : happening) (p : Process) : Process :=
  match h with
  | TaskReturns t result =>
    if decide (t ∈ alive p) then
      {| alive := filter (.≠ t) (alive p); flag := flag p; cancels := cancels p;
         logged := logged p ++ match result with Some e => [(t, e)] | None => [] end |}
    else p
  | CtrlC => {| alive := alive p; flag := false; cancels := cancels p; logged := logged p |}
  | MainLooks =>
    match cancels p with
    | None =>
      if flag p then p
      else {| alive := alive p; flag := false; cancels := Some shutdown_order;
              logged := logged p |}
    | Some _ => p
    end
  | ShutdownRuns =>
    match cancels p with
    | Some (t :: l) =>
      {| alive := filter (.≠ t) (alive p); flag := flag p; cancels := Some l;
         logged := logged p |}
    | _ => p
    end
  end.

Definition run_process (l : list happening) (p : Process) : Process :=
  foldl (λ p h, process_step h p) p l.

(** [main] has returned, and the process ends. *)
Definition returned (p : Process) : bool := bool_decide (is_Some (cancels p)).

Lemma process_step_flag h p :
  (flag p = true → cancels p = None) →
  flag (process_step h p) = true → cancels (process_step h p) = None.
Proof. destruct h; simpl; repeat case_match; naive_solver. Qed.

Lemma process_step_no_signal h p :
  h ≠ CtrlC → flag p = true → flag (process_step h p) = true.
Proof. destruct h; simpl; repeat case_match; naive_solver. Qed.

(** Without a signal the process goes on, whatever becomes of the tasks: when
    every service has failed it waits, with the errors in the log only. *)
Lemma waits_for_signal l :
  CtrlC ∉ l → returned (run_process l spawned) = false.
Proof.
  intros Hl. unfold returned. apply bool_decide_eq_false.
  assert (∀ p, flag p = true → (flag p = true → cancels p = None) →
    flag (run_process l p) = true ∧ cancels (run_process l p) = None) as H.
  { induction l as [|h l IH]; intros p Hf Hc; simpl; [by split; [|apply Hc]|].
    apply not_elem_of_cons in Hl as [Hh Hl]. apply IH; [done|..].
    - by apply process_step_no_signal.
    - by apply process_step_flag. }
  destruct (H spawned) as [_ ->]; [done..|]. by intros [].
Qed.

(** The shutdown is not waited for: the process may end with every service still
    running. *)
Lemma shutdown_not_awaited :
  let p := run_process [CtrlC; MainLooks] spawned in
  returned p = true ∧ alive p = alive spawned.
Proof. by split. Qed.

(** Once the shutdown has run to its end no task is left. *)
Lemma shutdown_cancels_all p :
  cancels p = Some shutdown_order →
  alive (run_process (replicate 4 ShutdownRuns) p) = [].
Proof.
  intros Hc. unfold shutdown_order in Hc. simpl. rewrite Hc. simpl.
  apply elem_of_nil_inv. intros t. rewrite !list_elem_of_filter. destruct t; naive_solver.
Qed.
