(* ===== verification/Main.v ===== *)
(** The start of a node ([src/crates/ursa/src/main.rs]): configuration and
    identity, then the stores, the index provider and the network service, whose
    command channel the server gets. *)

From S2P Require Import Prelude Libs Utils Paths Codec Protocols IndexLibs Transport Service Node.
From S2P Require Import Identity Cli.
From S2P Require Requests.
From S2P Require Store NetConfig Behaviour Provider Samples.

(** ** [RocksDb::open], the relay client, the swarm builder, and one key in the
    forms the crates use *)
Class BinaryLib (DB : Type) {nl : NetLib} {ml : MultiaddrLib} {al : NatLib} {swl : SwarmLib}
    {key : KeyLib} {tl : TransportLib} {ed : Ed25519Lib} := {
  open_db : PathBuf → outcome string DB;
  service_keypair : Identity.Keypair → Libs.Keypair;
  service_keypair_peer : ∀ k, peer_of_key (public (service_keypair k)) = Identity.id k;
  relay_made : PublicKey → ClientTransport * RelayClient;
  swarm_build : Boxed → SwarmLimits → Swarm;
}.

Section main.
  Context {DB : Type} {cl : CidLib} {bs : BlockStore DB} {os : ObjStore DB}.
  Context {il : IpldLib} {hi : HashIter Cid}.
  Context {nl : NetLib} {ml : MultiaddrLib} {sw : SwarmTypes} {swl : SwarmLib}.
  Context {kl : KadLib} {md : MdnsLib} {gl : GossipLib} {bl : BitswapLib}.
  Context {rl : RequestResponseLib} {al : NatLib} {dl : DebugLib}.
  Context {key : KeyLib} {el : EncodeLib} {cbor : CborLib} {host : HostLib DB}.
  Context {tl : TransportLib} {ed : Ed25519Lib} {pl : PemLib} {fl : FsLib} {toml : TomlLib}.
  Context {bin : BinaryLib DB}.

(** From the databases to the running service: [seed] is what the noise key
    generator draws, [fs] the files of the server. *)
Definition main_services (seed : N) (config : UrsaConfig) (im : IdentityManager)
    (fs : Files) : outcome string Node :=
  let keypair := service_keypair (current im) in
  db ← unwrap (open_db (NetConfig.database_path (network_config config)));
  let store := Store.new db in
  provider_db ← unwrap (open_db (Provider.database_path (provider_config config)));
  let index_provider := Provider.new keypair provider_db (provider_config config) in
  let made := relay_made (public keypair) in
  transport ← service_transport seed keypair (network_config config) made;
  service ← Service.new keypair (network_config config) store index_provider
    (swarm_build transport limits) made.2;
  Ok {| service := service; running := true; commands := []; schedule := []; files := fs |}.

Lemma main_services_peer seed config im fs n :
  main_services seed config im fs = Ok n →
  local_peer_id (service n) = Identity.id (current im) ∧
  Provider.keypair (index_provider (service n)) = service_keypair (current im) ∧
  running n = true.
Proof.
  unfold main_services. intros Hm. inv_bind. injection Hm as <-. simpl.
  match goal with H : Service.new _ _ _ _ _ _ = Ok _ |- _ =>
    apply Requests.new_fields in H as (_ & -> & -> & _) end.
  by rewrite <- service_keypair_peer.
Qed.

(** The configuration is read from this file. *)
Definition config_path (home : string) (o : CliOpts) : PathBuf :=
  default (default_config_path home) (opt_config o).

Lemma to_config_same home o f f1 :
  fs_open (config_path home o) f1 = fs_open (config_path home o) f →
  fs_read (config_path home o) f1 = fs_read (config_path home o) f →
  to_config home o f1 = to_config home o f.
Proof.
  unfold config_path, to_config, read_file_to_string.
  destruct (opt_config o); simpl; by intros -> ->.
Qed.

(** A start that finds a configuration file writes none. *)
Lemma main_config_exists home o f :
  fs_exists (default_config_path home) f = true →
  main_config home o f = (match to_config home o f with
    | Err (IoError e) => cli_error_and_die ("Error parsing config. Error was: " +:+ e) 1
    | o => o end, f).
Proof.
  intros He. unfold main_config. rewrite (st_bind_ok _ _ _ (Ok tt) f); [done|].
  unfold st_try. by rewrite load_config_exists.
Qed.

(** C36: a node keeps its configuration and its peer over restarts: when a start
    with a configuration file and a named identity has succeeded and has left the
    configuration file as it was, the next start, whatever key it would generate,
    has the same configuration and identity and changes no file, and the network
    services of the two starts are the same peer, the one of the stored key. *)
Theorem restart_same_peer home o g1 g2 seed1 seed2 fs1 fs2 f config im f1 :
  fs_exists (default_config_path home) f = true →
  main_node home o g1 f = (Ok (config, im), f1) →
  fs_exists (default_config_path home) f1 = true →
  fs_open (config_path home o) f1 = fs_open (config_path home o) f →
  fs_read (config_path home o) f1 = fs_read (config_path home o) f →
  NetConfig.identity (network_config config) ≠ "random" →
  main_node home o g2 f1 = (Ok (config, im), f1) ∧
  ∀ n1 n2, main_services seed1 config im fs1 = Ok n1 →
    main_services seed2 config im fs2 = Ok n2 →
    local_peer_id (service n1) = Identity.id (identity im) ∧
    local_peer_id (service n2) = local_peer_id (service n1).
Proof.
  intros He Hm He1 Ho Hr Hid. split; last first.
  { intros n1 n2 (Hp1 & _)%main_services_peer (Hp2 & _)%main_services_peer.
    by rewrite Hp1, Hp2. }
  unfold main_node in *.
  apply st_bind_inv_ok in Hm as (c & f' & Hc & Hm).
  rewrite (main_config_exists _ _ _ He) in Hc. injection Hc as Hc <-.
  rewrite (st_bind_ok _ _ _ c f1);
    [|by rewrite (main_config_exists _ _ _ He1), (to_config_same _ _ _ _ Ho Hr), Hc].
  apply st_bind_inv_ok in Hm as (im' & f' & Hi & Hm). injection Hm as <- <- <-.
  unfold st_map_err, main_identity in *.
  rewrite bool_decide_eq_false_2 in * by done.
  destruct (load_or_new g1 _ _ f) as [[i|e|] f2] eqn:Hl; simplify_eq/=.
  apply load_or_new_inv in Hl as [Hl _].
  erewrite st_bind_ok; [done|]. unfold load_or_new.
  erewrite st_bind_ok; [|by unfold st_query; rewrite Hl]. done.
Qed.
End main.

(** ** Evaluation on a concrete machine *)

Import ServiceSamples.

Definition sample_transport : TransportLib := {|
  Tcp_ := unit;
  tcp_new := tt;
  dns_system := Ok;
  ClientTransport := unit;
  or_transport t _ := t;
  AuthenticKeypair := N;
  into_authentic seed _ := Ok seed;
  Noise := N;
  noise_xx k := k;
  Yamux := unit;
  yamux_default := tt;
  yamux_update_on_read y := y;
  Mplex := N;
  mplex_new := 0%N;
  mplex_block m := m;
  mplex_max_buffer_size n _ := n;
  Boxed := N;
  upgraded _ noise _ := noise;
|}.
#[local] Existing Instance sample_transport.

Definition sample_service_keypair (k : Identity.Keypair) : Libs.Keypair :=
  match k with Ed25519 b => keypair_of b | OtherKeypair b => keypair_of b end.

#[program] Definition sample_binary : BinaryLib sample_db := {|
  open_db _ := Ok ∅;
  service_keypair := sample_service_keypair;
  relay_made _ := (tt, tt);
  swarm_build _ _ := [];
|}.
Next Obligation. by intros []. Qed.
#[local] Existing Instance sample_binary.

(** A machine with the default configuration and no key yet. *)
Definition sample_machine : FS :=
  (<[ "/root/.ursa/config.toml" := ("default", 420%N) ]> ∅ : gmap string (string * N)).
Definition sample_no_files : Files (HostLib:=sample_host) := (∅ : gmap string bytes).
Definition sample_start_with (b : byte) (f : FS) :=
  main_node "/root" sample_opts (Identity.sample_key b) f.
Definition sample_first := sample_start_with x05 sample_machine.

Lemma sample_first_ok :
  ∃ c im, sample_first = (Ok (c, im), sample_first.2) ∧
    NetConfig.identity (network_config c) ≠ "random".
Proof.
  assert (match sample_first.1 with
    | Ok (c, _) => bool_decide (NetConfig.identity (network_config c) ≠ "random")
    | _ => false end = true) as H by (vm_compute; reflexivity).
  destruct sample_first as [[[c im]| |] f1]; [|done..].
  exists c, im. split; [done|]. by apply bool_decide_eq_true in H.
Qed.

Lemma restart_same_peer_witness :
  ∃ c im, sample_first.1 = Ok (c, im) ∧
    sample_start_with x06 sample_first.2 = (Ok (c, im), sample_first.2).
Proof.
  destruct sample_first_ok as (c & im & Hf & Hc). exists c, im.
  split; [rewrite Hf; reflexivity|].
  apply (restart_same_peer "/root" sample_opts (Identity.sample_key x05)
    (Identity.sample_key x06) 0 0 sample_no_files sample_no_files
    sample_machine c im sample_first.2); [reflexivity|exact Hf| | | |exact Hc];
    vm_compute; reflexivity.
Defined.
